(* ===== verification/_CoqProject ===== *)
-Q . S2P
Prelude.v
Json.v
NxJson.v
JsonText.v
Builder.v
JsonProps.v
MachApi.v
NxMachUtils.v
Typed.v
Ledger.v
MachContract.v
NxResult.v
Probe.v
RefKernel.v
TwoTasks.v
StatusPipe.v
Trace.v
Exchange.v
Header.v
ToSelf.v
Smoke.v
PortNames.v
PortType.v
PortGetRefs.v
PortSet.v
MsgRcvTimeout.v
PortGetAttributes.v
HostInfo.v
TaskInfo.v
AbsoluteTime.v
HeaderCopySend.v
HeaderMoveSend.v
Suite.v
InvalidDisposition.v
DoubleMoveSend.v
DeadName.v
Refusals.v
Forked.v
ForkedTrace.v
SendRight.v
DescriptorCopySend.v
DescriptorMoveSend.v
SendOnce.v
Dispatch.v
DispatchGlobalQueue.v
DispatchPrimitives.v
DispatchMachRecv.v
Asl.v
AslHandoff.v
DispatchEnds.v
Pthread.v
AslMessage.v
Harness.v
NotifyHarness.v
ChurnProbe.v
AslHarness.v
XpcHarness.v
XpcCancel.v
IpcRoundtrip.v
QueueHarness.v
Harnesses.v
Crowd.v
MachRecvProbe.v
LateHandlers.v
AuxvProbe.v
