(* ===== verification/Prelude.v ===== *)
(** * The Mach IPC oracle probes, verified

    The repository compares the Mach IPC of macOS with that of another kernel.  Its
    C code is a set of probes under [src/macos-validation/probes]: each is a program
    that makes Mach calls on port rights of its own, judges what it observed, gives
    its rights back, checks that its port name space is as it was, and prints one
    JSON document in a fixed schema, by which the kernels are compared.  Beside them are
    probes of the donor code of the system logger ([src/priv/probes/asl]) and the
    conformance programs of the findings ([src/findings]).  This development models all of
    them, with the library in [common/] that the probes share, as programs over interfaces
    of calls, and proves what makes their reports trustworthy, or shows where they are not.

    ** The parts and the files that model them

    The library [common/]:
    - [NxJson] is [nx_json.{h,c}], the JSON writer: the structure [nx_json_t] and
      every function, as an [op nx_json_t]; an access of [need_comma] out of its
      bounds is [None].
    - [NxResult] is [nx_result.{h,c}] and [nx_env.{h,c}]: the parts of the schema and
      the embedded environment file.
    - [NxMachUtils] is [nx_mach_utils.{h,c}]: the snapshot of the name space
      ([nx_baseline_capture], [nx_baseline_free], [nx_baseline_compare]) and the
      names of codes.  The constants of the header are in [MachApi].

    What the writer is checked against:
    - [Json] has documents and a reader, written independently of the writer;
      [JsonText] the text of a document and the proof that the reader reads it back;
      [Builder] the abstract builder (a stack of open containers, a call being
      allowed where JSON allows it) and the class [Implements], by which every
      emitter is shown to simulate a builder operation; [JsonProps] the theorems
      about the writer.

    Programs and kernels:
    - [MachApi] has the calls ([mach_call], Mach and POSIX), programs as trees of
      calls ([prog]), [Kernel] (any handler of calls), and a logic of programs
      ([wp]) that is sound for every kernel whose steps a relation describes.
    - [Typed] says what the C types say of answers.
    - [Ledger] is resource accounting against an arbitrary kernel: a call that gives
      something back needs that it is held.
    - [MachContract] is the documented behaviour of the calls, as a relation on the
      name space of the task and a class of kernels that keep it; [RefKernel] is an
      executable kernel that does, with the constants of the macOS SDK.
    - [TwoTasks] is an executable kernel with two tasks, shared queues and [fork],
      for the probes that fork; [StatusPipe] is the pipe between the two processes
      as a transition system of two programs.
    - [Probe] has what all the programs do: verdicts as ladders of conditions, the
      envelope of the document, the exit code.

    The probes, each in the file of its name, with the locals of [main] as the
    record [obs], the calls as [observe], the if/else-if chain as [ladder_of] and
    [verdict_of], the document as [report], and [main] their composition:
    - [foundation/]: [Smoke], [PortNames], [PortType], [PortGetRefs], [PortSet],
      [MsgRcvTimeout], [PortGetAttributes], [HostInfo], [TaskInfo], [AbsoluteTime];
    - [m1/]: [HeaderCopySend], [HeaderMoveSend], which share [Header];
    - [m2/], one task: [InvalidDisposition], [DoubleMoveSend], which share [ToSelf],
      and [DeadName];
    - [m2/], two tasks: [DescriptorCopySend], [DescriptorMoveSend], [SendOnce].  The
      three files of the repository repeat each other; [Forked] has what they do in
      the same words, as operations over a record [forked_probe] of what differs,
      with the laws of that record ([SafeForked]); [SendRight] has what the first
      two share beyond that; [Exchange] the static helpers of all of [m2/].  [Trace] is
      the log of the calls and answers of a run with what can be said of it ([does]), and
      [ForkedTrace] the logs of the parent and the child of a [forked_probe];
    - [dispatch/]: [DispatchGlobalQueue], [DispatchPrimitives], [DispatchMachRecv], with
      the functions given to the library as [body], over [Dispatch]: threads that make
      Mach calls, access shared memory or call libdispatch ([thread], [action]); the
      documented behaviour of libdispatch as a transition relation ([doc_pre],
      [doc_call], [doc_start], [after_job]), in which the creations that may fail
      ([Failures]) may give [NULL], and the class of libraries that keep it
      ([DispatchContract]); the machine of all interleavings ([step]); a logic for the
      main thread with assertions that the other threads preserve ([cwp]) and its
      soundness for every such library ([cwp_adequate]); a measure that bounds runs
      ([run_length]); an executable library with schedules ([ref_lib], [schedule]); and
      the ledger of the main thread ([holding]).  [DispatchEnds] has runs without a bound
      on their length ([finite] threads); [Crowd] a logic beside any number of jobs that
      only touch the memory;
    - [priv/probes/asl/]: [AslHandoff] (server and client in one thread) and [AslMessage]
      (a server thread beside the client), with what the two files share in [Asl].  The
      second runs on the machine of [Dispatch], whose threads may also create, join and
      cancel threads ([Pthread] is the logic for one that is joined) and call functions of
      other libraries ([Extern], which answer anything);
    - [findings/], programs of one thread over [Harness] (calls of libraries, printed
      lines, the macro for a test, a logic, and handles that must be held): [NotifyHarness]
      and [ChurnProbe] (libnotify), [AslHarness] (libasl), [XpcHarness] (libxpc),
      [IpcRoundtrip] (Mach), [QueueHarness] (libdispatch, two programs; the order of queues),
      and [XpcCancel] (libxpc; two programs whose threads and event handlers are each a
      script); [Harnesses] puts four of them together;
    - [findings/], others: [MachRecvProbe], a dispatch source, on the machine of [Dispatch];
      [AuxvProbe], which reads the memory of the process; [LateHandlers] has what the
      programs that wait a bounded time have in common;
    - [Suite] collects the probes without descriptors as records of operations with
      a law ([SafeProbe]); [Refusals] the three m2 probes of one task.

    ** What the theorems show

    - The writer: it refines the builder ([writer_refines_builder]); in every state that
      calls can lead to, also calls in an order that JSON does not allow, a call is defined
      exactly below the 32nd level or if it closes one, and its text, the level and the
      flags after it are given ([writer_calls]; the lemma [nesting_limit] has the access
      beyond the array); what it writes for a value is read back as the value
      ([document_roundtrip]).
    - The snapshot: the nested loops of the comparison decide equality of the
      entries ([nx_baseline_compare_decides]); names of codes are one to one
      ([code_names_roundtrip]).
    - Safety, for every probe and against any kernel that meets the condition of the probe
      ([suite_safe], which has none, [refusals_safe], the [..._main_safe]): every call is
      one the program is entitled to, all that was acquired is given back on every path,
      error paths included, and standard output is one document of the schema with the
      verdict for what was observed.  The probes that receive descriptors need that a
      kernel delivers names with descriptors only; those that fork, also that new names
      are new ([fresh_position]).
    - Conformance, on any kernel that keeps the contract (for the ten foundation probes
      [foundation_conforms], for m1 [headers_conform], for the refused messages of m2
      [refusals_conform], each from the lemmas [..._conforms] of the probes): the verdict
      is the documented one and the name space ends as it began.
    - The probes that fork: the exit status 0 implies, of the calls that the parent and the
      child made and were answered, what the probe is about ([..._pass_sound], whose
      witnesses are runs on the executable kernel with two tasks, where the probes pass);
      the transfer of the status ends, in any schedule, with the child's status or a
      reported failure ([status_transfer]), and, as lemmas, the status is in the ranges of
      its members ([send_status_in_range], [once_status_in_range]).
    - The dispatch probes, with any library that keeps its documentation, any kernel and
      in every schedule: all 64 blocks count and the probe ends
      ([global_queue_completes]); group, semaphore and delayed handler end with a pass or
      the verdict that one was not created or the handler was late
      ([primitives_complete]); a pass of the source means that a handler received the
      message ([mach_recv_pass_sound]).  Each of the three needs the one object that its
      program uses without looking whether it was created.  The probe of the
      findings reports a service only if the handler was started, within 50 rounds
      ([mach_recv_probe_sound]).  And where they fall short: runs in which a late handler
      uses what is gone or contradicts the report ([late_handlers]), and, as lemmas, memory
      and rights that are given back without being held or never given back
      ([global_queue_holdings], [primitives_holdings], [mach_recv_holdings]).
    - The logger probes: no thread of a1 uses the state of a returned call or blocks for
      ever, and a success is backed by what the hooks saw, if there is memory for the
      messages ([asl_message_sound]); as lemmas, no run goes on for ever
      ([asl_message_returns]), and without that memory the thread is left and may use
      state that is gone ([asl_thread_outlives_state]).  a2 prints and returns what belongs
      to how far it got and frees what launchd gave it ([handoff_main_reports]); what the
      comparison with the nonce shows ([handoff_nonce]); both if the descriptor of the
      message, whose type the program does not look at, is one of memory (the lemma
      [handoff_descriptor_unchecked] is a run without that); the parser of the hook
      ([asldebug_reports]) and the offset of the trailer ([audit_trailer_in_bounds]).
    - The conformance programs: their output has one line for each test, in order, and the
      count is that of the lines with FAIL ([harnesses_report]); with a libnotify that keeps
      what its header says all tests pass ([notify_harness_passes]); with a libdispatch
      whose queues keep their order all tests pass that do not depend on time
      ([queues_in_order]); the loop of the churn probe ends, and its numbers are those of
      the rounds that its calls make up ([churn_ends]); the threads and handlers of the
      programs on cancelled connections make their calls in order, hand over, signal and
      answer once ([op190_programs]); the walk of the auxiliary vector ends and reports
      what it met
      ([auxv_reports]).
    - Behaviour of errors, partly as lemmas: a lost status is blamed on the kernel
      ([descriptor_copy_send_lost_status]); a failed count is reported as 4294967295
      ([port_get_refs_failed_count]); the search for an unused name and its fallback
      ([find_nonexistent_name_first]).

    ** Parameters, bounds and fuel

    - [Host] is the platform a probe is compiled for ([__APPLE__] or not), the task's
      own port, the environment and the files.  [MachSdk] has the constants and macros
      of the platform's headers that the repository uses without defining; [SdkSizes],
      [SdkRights], [SdkBits] and [SdkContract]-like classes state what is needed of
      them, and each holds for the constants of [RefKernel].  The environment file is
      embedded as it is, so theorems on documents assume that it is JSON or absent
      ([env_file_ok]).
    - Structures passed through pointers are records that are returned; no probe has
      two live pointers to one of them.  The static buffers of [hex32] are never
      overwritten while in use.  Integers are [Z]; conversions that can lose bits are
      written out ([u32], [s32], [s64]).
    - [write_full] and [read_full] retry for as long as they are interrupted.  Their
      [fuel] is the number of calls before [alarm] kills the process ([None]); with
      as much fuel as there are bytes and interruptions they end by themselves
      ([status_transfer]).  [find_nonexistent_name] tries 1024 candidates, as in the
      source; the writer has 32 levels, as in the source.
    - Libraries that are not in the repository are parameters: launchd, libasl, libnotify,
      libxpc and the generated MIG code answer what they like, and where more is needed a
      law says it ([documented] of each file, [reliable] of [XpcHarness]); each law holds of
      an executable library in the witness of its theorem.  The loops over what they
      answer have fuel, and theorems say how much is enough: for the churn probe the
      readings of the clock until the deadline, for the response of a search the number of
      messages left in it.  The walk of the auxiliary vector stops after 65 entries, as in
      the source; that of the environment needs more fuel than there are variables.  The law
      of [XpcCancel] speaks of what one thread knows; a load of a variable that another
      thread writes may give anything, that of the semaphore by the handler any that
      [main] created.  In [QueueHarness] a block that sets the flag and leaves the group
      does so in two steps, between which [main] may go on; [dispatch_once_f] with a
      function of two arguments is defined only where spare arguments are allowed ([Abi]).
      The donor code of a1 is a tree of calls of the hooks ([donor]): it ends.
    - libdispatch is a parameter: nothing is assumed of the order in which it starts
      functions or of how long anything takes, and any creation may give [NULL] unless a
      theorem says otherwise.  An access to a variable outside its
      lifetime and a call outside its preconditions have no step, and theorems say that
      none is reached, or show one that is.  Accesses to shared memory are single steps
      in one order, also the access to [recv_kr], which is not atomic in the source.
      Runs of the first two probes have at most 348 and 224 steps; a source may fire
      any number of times, so runs of the third are not bounded.  The uninitialized
      [after] that all three give to [nx_baseline_free] is an argument of [main]
      ([garbage]).
    - The ledger does not subtract the rights that a message takes along: it shows
      that nothing is given back that was never held, not that a moved right is not
      named again, which the probes do on purpose to observe the error.

    ** Not modelled

    - [scripts/op130-dispatch-async-f.c]: one work item that prints a line.
    - The D scripts, logs and documents under [findings/] and [results/]: evidence, not
      programs of the repository.
    - [lib/] (Elixir), the shell harness and the makefiles: other languages.
    - [alarm] beyond the bound above, [fflush] and failing writes to standard output. *)


From Stdlib Require Export Ascii.
From stdpp Require Export base tactics list option numbers strings.
From Stdlib Require Export ZArith Lia.
From Stdlib Require DecimalString DecimalPos DecimalZ.

Local Open Scope Z_scope.

(** ** Scopes and notations *)

(** [stdpp] keeps [String.append] folded; here it computes on constructors. *)
#[global] Arguments String.append : simpl nomatch.

Declare Scope oracle_scope.
Delimit Scope oracle_scope with oracle.

(** A writer operation of the C code mutates a structure through a pointer;
    [None] is undefined behaviour (an access outside an array). *)
Definition op (S : Type) : Type := S → option S.

Definition op_skip {S} : op S := Some.

Definition op_seq {S} (a b : op S) : op S := λ s, a s ≫= b.

Notation "a ;; b" := (op_seq a b)
  (at level 100, b at level 200, right associativity) : oracle_scope.
Notation "'when' c 'do' a" := (if c then a else op_skip)
  (at level 99, c at level 99, a at level 99) : oracle_scope.

(** ** Machine integers *)

(** Conversion to [unsigned int], to [int] and to [long long]. *)
Definition u32 (z : Z) : Z := z `mod` 2 ^ 32.
Definition s32 (z : Z) : Z := (z + 2 ^ 31) `mod` 2 ^ 32 - 2 ^ 31.
Definition s64 (z : Z) : Z := (z + 2 ^ 63) `mod` 2 ^ 64 - 2 ^ 63.

(** Testing one bit the way C does. *)
Lemma land_bit t n : 0 ≤ n → (Z.land t (2 ^ n) =? 2 ^ n) = Z.testbit t n.
Proof.
  intros Hn. destruct (Z.testbit t n) eqn:E.
  - apply Z.eqb_eq, Z.bits_inj'. intros m Hm. rewrite Z.land_spec, Z.pow2_bits_eqb by done.
    destruct (Z.eqb_spec n m) as [<-|]; [by rewrite E|apply andb_false_r].
  - apply Z.eqb_neq. intros Hl. apply (f_equal (λ x, Z.testbit x n)) in Hl.
    rewrite Z.land_spec, Z.pow2_bits_true, E in Hl by done. done.
Qed.

Definition is_u32 (z : Z) : Prop := 0 ≤ z < 2 ^ 32.
Definition is_s32 (z : Z) : Prop := - 2 ^ 31 ≤ z < 2 ^ 31.

Lemma u32_range z : is_u32 (u32 z).
Proof. apply Z.mod_pos_bound. lia. Qed.

Lemma u32_small z : is_u32 z → u32 z = z.
Proof. apply Z.mod_small. Qed.

Lemma s32_small z : is_s32 z → s32 z = z.
Proof. unfold is_s32, s32. intros. rewrite Z.mod_small; lia. Qed.

Lemma s64_small z : - 2 ^ 63 ≤ z < 2 ^ 63 → s64 z = z.
Proof. unfold s64. intros. rewrite Z.mod_small; lia. Qed.

Lemma u32_s32_inj x y : is_s32 x → is_s32 y → u32 x = u32 y → x = y.
Proof.
  unfold is_s32, u32. intros Hx Hy He.
  pose proof (Z.div_mod x (2 ^ 32) ltac:(lia)).
  pose proof (Z.div_mod y (2 ^ 32) ltac:(lia)).
  nia.
Qed.

Lemma s32_u32 x : is_s32 x → s32 (u32 x) = x.
Proof.
  intros Hx. rewrite <- (s32_small x Hx) at 2. unfold s32, u32.
  by rewrite Zplus_mod_idemp_l.
Qed.

(** The usual arithmetic conversions of [c ? (unsigned) x : -1]: the type of
    the conditional is [unsigned int], so the [-1] of the other branch is
    converted to it as well. *)
Definition c_uint_or_minus1 (c : bool) (x : Z) : Z := if c then x else u32 (-1).

(** ** Printing: the conversions of [printf] the program uses *)

(** ["%x"], for an [unsigned int]: eight digits are enough. *)
Definition hex_char (d : Z) : ascii :=
  ascii_of_nat (Z.to_nat (if d <? 10 then 48 + d else 87 + d)).

Fixpoint hex_digits (n : nat) (z : Z) (acc : string) : string :=
  match n with
  | O => acc
  | S n =>
      let acc' := String (hex_char (z `mod` 16)) acc in
      if z <? 16 then acc' else hex_digits n (z / 16) acc'
  end.

Definition fmt_x (z : Z) : string := hex_digits 8 z EmptyString.

(** ["%lld"] and ["%llu"]. *)
Definition fmt_lld (z : Z) : string :=
  DecimalString.NilZero.string_of_int (Z.to_int z).

(** [snprintf(buf, n, ...)]: at most [n - 1] characters and the terminator. *)
Definition snprintf (n : nat) (s : string) : string := String.substring 0 (n - 1)%nat s.

(** Reading a number written by ["%x"]. *)
Definition hex_char_value (c : ascii) : Z :=
  let n := Z.of_nat (nat_of_ascii c) in if n <? 58 then n - 48 else n - 87.

Fixpoint read_hex_acc (v : Z) (s : string) : Z :=
  match s with
  | EmptyString => v
  | String c s' => read_hex_acc (16 * v + hex_char_value c) s'
  end.

Definition read_hex : string → Z := read_hex_acc 0.

Lemma hex_char_value_char d : 0 ≤ d < 16 → hex_char_value (hex_char d) = d.
Proof.
  intros Hd.
  assert (d = 0 ∨ d = 1 ∨ d = 2 ∨ d = 3 ∨ d = 4 ∨ d = 5 ∨ d = 6 ∨ d = 7 ∨ d = 8 ∨
          d = 9 ∨ d = 10 ∨ d = 11 ∨ d = 12 ∨ d = 13 ∨ d = 14 ∨ d = 15) as H by lia.
  by repeat destruct H as [->|H]; subst.
Qed.

Lemma read_hex_digits n z acc :
  0 ≤ z < 16 ^ Z.of_nat n → read_hex (hex_digits n z acc) = read_hex_acc z acc.
Proof.
  unfold read_hex. revert z acc. induction n as [|n IH]; intros z acc Hz.
  { simpl in *. by replace z with 0 by lia. }
  cbn [hex_digits]. pose proof (Z.div_mod z 16 ltac:(lia)).
  pose proof (Z.mod_pos_bound z 16 ltac:(lia)).
  destruct (Z.ltb_spec z 16).
  - cbn [read_hex_acc]. rewrite hex_char_value_char by lia. f_equal. nia.
  - rewrite IH; cbn [read_hex_acc].
    + rewrite hex_char_value_char by lia. f_equal. lia.
    + rewrite Nat2Z.inj_succ, Z.pow_succ_r in Hz by lia.
      split; [apply Z.div_pos; lia|apply Z.div_lt_upper_bound; lia].
Qed.

Lemma read_hex_fmt_x z : is_u32 z → read_hex (fmt_x z) = z.
Proof. intros Hz. unfold fmt_x. rewrite read_hex_digits; [done|exact Hz]. Qed.

Lemma hex_digits_length n z acc :
  (String.length (hex_digits n z acc) ≤ n + String.length acc)%nat.
Proof.
  revert z acc. induction n as [|n IH]; intros z acc; simpl; [lia|].
  destruct (z <? 16); simpl; [lia|]. etransitivity; [apply IH|]. simpl. lia.
Qed.

Lemma fmt_x_length z : (String.length (fmt_x z) ≤ 8)%nat.
Proof. unfold fmt_x. etransitivity; [apply hex_digits_length|]. simpl. lia. Qed.

Lemma substring_length n s : (String.length (String.substring 0 n s) ≤ n)%nat.
Proof.
  revert n. induction s as [|c s IH]; intros [|n]; simpl; [lia..|]. specialize (IH n). lia.
Qed.

Lemma substring_all s m :
  (String.length s ≤ m)%nat → String.substring 0 m s = s.
Proof.
  revert m. induction s as [|a s IH]; intros [|m] Hm; simpl in *; try done; [lia|].
  by rewrite IH by lia.
Qed.

(** ** Reading: the conversions of <stdlib.h> *)

(** [strtol(s, NULL, 10)]: white space, a sign, digits; out of range the nearest
    [long]. *)
Definition is_space (c : ascii) : bool :=
  let n := nat_of_ascii c in ((9 <=? n) && (n <=? 13) || (n =? 32))%nat.
Fixpoint skip_space (s : string) : string :=
  match s with
  | String c s' => if is_space c then skip_space s' else s
  | EmptyString => s
  end.
Fixpoint digits_value (v : Z) (s : string) : Z :=
  match s with
  | String c s' =>
      let n := Z.of_nat (nat_of_ascii c) in
      if (48 <=? n) && (n <=? 57) then digits_value (10 * v + (n - 48)) s' else v
  | EmptyString => v
  end.
Definition strtol (s : string) : Z :=
  let v := match skip_space s with
           | String "-" s' => - digits_value 0 s'
           | String "+" s' => digits_value 0 s'
           | s' => digits_value 0 s'
           end in
  Z.max (- 2 ^ 63) (Z.min (2 ^ 63 - 1) v).
(** [atoi(s)] is [(int)strtol(s, NULL, 10)]. *)
Definition atoi (s : string) : Z := s32 (strtol s).

(** ** Strings *)

Lemma string_app_assoc (a b c : string) : (a +:+ b) +:+ c = a +:+ (b +:+ c).
Proof. induction a; simpl; congruence. Qed.

Lemma string_app_nil_r (a : string) : a +:+ EmptyString = a.
Proof. induction a; simpl; congruence. Qed.

Lemma string_length_app (a b : string) :
  String.length (a +:+ b) = (String.length a + String.length b)%nat.
Proof. induction a; simpl; congruence. Qed.

Lemma string_length_cons c (a : string) :
  String.length (String c a) = S (String.length a).
Proof. done. Qed.

(** Normal form of a concatenation: associated to the right, constructors
    pulled out. *)
Ltac str_norm :=
  repeat first
    [ rewrite string_app_assoc | rewrite string_app_nil_r
    | progress cbn [String.append] ].

Fixpoint strip_prefix (p s : string) : option string :=
  match p, s with
  | EmptyString, _ => Some s
  | String a p', String b s' => if Ascii.eqb a b then strip_prefix p' s' else None
  | String _ _, EmptyString => None
  end.

Lemma strip_prefix_app p s r rest :
  strip_prefix p s = Some r → strip_prefix p (s +:+ rest) = Some (r +:+ rest).
Proof.
  revert s. induction p as [|a p IH]; intros s; simpl; [by intros [= ->]|].
  destruct s as [|b s]; simpl; [done|]. destruct (Ascii.eqb a b); [apply IH|done].
Qed.

Lemma strip_prefix_self p s : strip_prefix p (p +:+ s) = Some s.
Proof. induction p as [|a p IH]; simpl; [done|]. by rewrite Ascii.eqb_refl. Qed.

(** A code printed by name, or in hexadecimal behind a prefix, read back. *)
Definition code_of_str (table : list (string * Z)) (prefix s : string) : option Z :=
  match List.find (λ e, String.eqb e.1 s) table with
  | Some e => Some e.2
  | None => read_hex <$> strip_prefix prefix s
  end.

Lemma snprintf_fits n s : (String.length s < n)%nat → snprintf n s = s.
Proof. intros. apply substring_all. lia. Qed.

Lemma code_of_str_hex table prefix n z :
  is_u32 z → (String.length prefix + 8 < n)%nat →
  Forall (λ e, strip_prefix prefix e.1 = None) table →
  code_of_str table prefix (snprintf n (prefix +:+ fmt_x z)) = Some z.
Proof.
  intros Hz Hn Ht. rewrite snprintf_fits.
  2:{ rewrite string_length_app. pose proof (fmt_x_length z). lia. }
  unfold code_of_str. rewrite strip_prefix_self. simpl. rewrite read_hex_fmt_x by done.
  induction Ht as [|e t He Ht IH]; simpl; [done|].
  destruct (String.eqb_spec e.1 (prefix +:+ fmt_x z)) as [E|]; [|done].
  by rewrite E, strip_prefix_self in He.
Qed.

(** Splits conditions that are known to hold. *)
Ltac split_guards :=
  repeat match goal with
  | E : _ && _ = true |- _ => apply andb_prop in E as [? ?]
  end.

(** Turns boolean hypotheses into the facts they stand for. *)
Ltac bool_facts :=
  repeat match goal with
  | E : negb _ = false |- _ => apply negb_false_iff in E
  | E : negb _ = true |- _ => apply negb_true_iff in E
  | E : _ && _ = true |- _ => apply andb_prop in E as [? ?]
  | E : _ || _ = false |- _ => apply orb_false_elim in E as [? ?]
  | E : (_ =? _)%Z = true |- _ => apply Z.eqb_eq in E
  | E : (_ =? _)%Z = false |- _ => apply Z.eqb_neq in E
  | E : (_ <=? _)%Z = true |- _ => apply Z.leb_le in E
  | E : (_ <=? _)%Z = false |- _ => apply Z.leb_gt in E
  end.

(** Replaces the conditions of a path by their values. *)
Ltac known_bools :=
  repeat match goal with
  | E : ?c = true |- context [?c] => rewrite E
  | E : ?c = false |- context [?c] => rewrite E
  end.
