(* ===== verification/Json.v ===== *)
(** JSON documents and a reader for them (RFC 8259, with integer numbers in
    canonical decimal form), written independently of the writer of
    [nx_json.c]: it is the specification the writer is checked against. *)

From S2P Require Import Prelude.

(** ** Documents *)

(** [JRaw s] stands for a value whose text was copied from another source;
    the reader never produces it. *)
Inductive json : Type :=
  | JNull
  | JBool (b : bool)
  | JInt (z : Z)
  | JStr (s : string)
  | JArr (vs : list json)
  | JObj (kvs : list (string * json))
  | JRaw (s : string).

Section json_induction.
Variable P : json → Prop.
Hypothesis Hnull : P JNull.
Hypothesis Hbool : ∀ b, P (JBool b).
Hypothesis Hint : ∀ z, P (JInt z).
Hypothesis Hstr : ∀ s, P (JStr s).
Hypothesis Harr : ∀ vs, Forall P vs → P (JArr vs).
Hypothesis Hobj : ∀ kvs, Forall (λ kv, P kv.2) kvs → P (JObj kvs).
Hypothesis Hraw : ∀ s, P (JRaw s).

Fixpoint json_nested_ind (v : json) : P v :=
  match v with
  | JNull => Hnull
  | JBool b => Hbool b
  | JInt z => Hint z
  | JStr s => Hstr s
  | JRaw s => Hraw s
  | JArr vs => Harr vs
      ((fix go l : Forall P l :=
         match l with
         | [] => Forall_nil_2 _
         | x :: l' => Forall_cons_2 _ _ _ (json_nested_ind x) (go l')
         end) vs)
  | JObj kvs => Hobj kvs
      ((fix go l : Forall (λ kv, P kv.2) l :=
         match l with
         | [] => Forall_nil_2 _
         | x :: l' => Forall_cons_2 _ _ _ (json_nested_ind x.2) (go l')
         end) kvs)
  end.
End json_induction.

(** The value of a member of an object. *)
Fixpoint assoc (k : string) (kvs : list (string * json)) : option json :=
  match kvs with
  | [] => None
  | (k', v) :: r => if String.eqb k k' then Some v else assoc k r
  end.

Definition field (k : string) (v : json) : option json :=
  match v with JObj kvs => assoc k kvs | _ => None end.

(** ** Characters *)

Definition is_ws (c : ascii) : bool :=
  Ascii.eqb c " " || Ascii.eqb c "009" || Ascii.eqb c "010" || Ascii.eqb c "013".

Definition is_digit (c : ascii) : bool :=
  (48 <=? nat_of_ascii c)%nat && (nat_of_ascii c <=? 57)%nat.

Definition hex_value (c : ascii) : option nat :=
  let n := nat_of_ascii c in
  if is_digit c then Some (n - 48)%nat
  else if (97 <=? n)%nat && (n <=? 102)%nat then Some (n - 87)%nat
  else if (65 <=? n)%nat && (n <=? 70)%nat then Some (n - 55)%nat
  else None.

(** The character of a [\uXXXX] escape; only ASCII code points are read. *)
Definition hex4 (a b c d : ascii) : option ascii :=
  match hex_value a, hex_value b, hex_value c, hex_value d with
  | Some 0%nat, Some 0%nat, Some x, Some y =>
      if (16 * x + y <? 128)%nat then Some (ascii_of_nat (16 * x + y)) else None
  | _, _, _, _ => None
  end.

Definition unescape (c : ascii) : option ascii :=
  if Ascii.eqb c "034" then Some "034"%char
  else if Ascii.eqb c "092" then Some "092"%char
  else if Ascii.eqb c "/" then Some "/"%char
  else if Ascii.eqb c "b" then Some "008"%char
  else if Ascii.eqb c "f" then Some "012"%char
  else if Ascii.eqb c "n" then Some "010"%char
  else if Ascii.eqb c "r" then Some "013"%char
  else if Ascii.eqb c "t" then Some "009"%char
  else None.

(** ** Tokens *)

Fixpoint skip_ws (s : string) : string :=
  match s with
  | String c s' => if is_ws c then skip_ws s' else s
  | EmptyString => s
  end.

Definition cons_char (c : ascii) (o : option (string * string)) :
    option (string * string) :=
  match o with Some (s, r) => Some (String c s, r) | None => None end.

(** The rest of a string token, after its opening quote. *)
Fixpoint parse_str (s : string) : option (string * string) :=
  match s with
  | EmptyString => None
  | String c s1 =>
      if Ascii.eqb c "034" then Some (EmptyString, s1)
      else if Ascii.eqb c "092" then
        match s1 with
        | EmptyString => None
        | String e s2 =>
            if Ascii.eqb e "u" then
              match s2 with
              | String h1 (String h2 (String h3 (String h4 s3))) =>
                  match hex4 h1 h2 h3 h4 with
                  | Some ch => cons_char ch (parse_str s3)
                  | None => None
                  end
              | _ => None
              end
            else
              match unescape e with
              | Some ch => cons_char ch (parse_str s2)
              | None => None
              end
        end
      else if (nat_of_ascii c <? 32)%nat then None
      else cons_char c (parse_str s1)
  end.

Fixpoint span_digits (s : string) : string * string :=
  match s with
  | String c s' =>
      if is_digit c then let '(d, r) := span_digits s' in (String c d, r)
      else (EmptyString, s)
  | EmptyString => (EmptyString, EmptyString)
  end.

Definition read_int (s : string) : string * string :=
  match s with
  | EmptyString => (EmptyString, EmptyString)
  | String c s' =>
      if Ascii.eqb c "-" then let '(d, r) := span_digits s' in (String c d, r)
      else span_digits s
  end.

Definition parse_int (s : string) : option (json * string) :=
  let '(tok, r) := read_int s in
  match DecimalString.NilZero.int_of_string tok with
  | Some d =>
      let z := Z.of_int d in
      if String.eqb (fmt_lld z) tok then Some (JInt z, r) else None
  | None => None
  end.

(** The character [c], after white space. *)
Definition expect (c : ascii) (s : string) : option string :=
  match skip_ws s with
  | String d r => if Ascii.eqb d c then Some r else None
  | EmptyString => None
  end.

(** ** Values *)

Definition lit (p : string) (v : json) (s : string) : option (json * string) :=
  match strip_prefix p s with Some r => Some (v, r) | None => None end.

(** The fuel bounds the nesting and the number of elements; [parse_doc] gives
    one unit per character, which every document fits in. *)
Fixpoint parse_value (n : nat) (s : string) {struct n} : option (json * string) :=
  match n with
  | O => None
  | S n =>
      match skip_ws s with
      | EmptyString => None
      | String c r =>
          if Ascii.eqb c "034" then
            match parse_str r with
            | Some (t, r') => Some (JStr t, r')
            | None => None
            end
          else if Ascii.eqb c "{" then
            match expect "}" r with
            | Some r' => Some (JObj [], r')
            | None => match parse_members n r with
                   | Some (kvs, r') => Some (JObj kvs, r')
                   | None => None
                   end
            end
          else if Ascii.eqb c "[" then
            match expect "]" r with
            | Some r' => Some (JArr [], r')
            | None => match parse_elems n r with
                   | Some (vs, r') => Some (JArr vs, r')
                   | None => None
                   end
            end
          else if Ascii.eqb c "n" then lit "ull" JNull r
          else if Ascii.eqb c "t" then lit "rue" (JBool true) r
          else if Ascii.eqb c "f" then lit "alse" (JBool false) r
          else parse_int (String c r)
      end
  end
with parse_elems (n : nat) (s : string) {struct n} : option (list json * string) :=
  match n with
  | O => None
  | S n =>
      match parse_value n s with
      | None => None
      | Some (v, r) =>
          match expect "]" r, expect "," r with
          | Some r', _ => Some ([v], r')
          | None, Some r' =>
              match parse_elems n r' with
              | Some (vs, r'') => Some (v :: vs, r'')
              | None => None
              end
          | None, None => None
          end
      end
  end
with parse_members (n : nat) (s : string) {struct n} :
    option (list (string * json) * string) :=
  match n with
  | O => None
  | S n =>
      match parse_member n s with
      | None => None
      | Some (kv, r) =>
          match expect "}" r, expect "," r with
          | Some r', _ => Some ([kv], r')
          | None, Some r' =>
              match parse_members n r' with
              | Some (kvs, r'') => Some (kv :: kvs, r'')
              | None => None
              end
          | None, None => None
          end
      end
  end
with parse_member (n : nat) (s : string) {struct n} :
    option ((string * json) * string) :=
  match n with
  | O => None
  | S n =>
      match expect "034" s with
      | None => None
      | Some r1 =>
          match parse_str r1 with
          | None => None
          | Some (k, r2) =>
              match expect ":" r2 with
              | None => None
              | Some r3 =>
                  match parse_value n r3 with
                  | Some (v, r) => Some ((k, v), r)
                  | None => None
                  end
              end
          end
      end
  end.

(** A text is one document, possibly surrounded by white space. *)
Definition parse_doc (s : string) : option json :=
  match parse_value (S (String.length s)) s with
  | Some (v, r) =>
      match skip_ws r with EmptyString => Some v | String _ _ => None end
  | None => None
  end.

Example parse_doc_ex :
  parse_doc ("[1,-20 , {"%string +:+ String "034" "a" +:+ String "034" ":true}]")
  = Some (JArr [JInt 1; JInt (-20); JObj [("a"%string, JBool true)]]).
Proof. reflexivity. Qed.

(** ** The reader is local: it does not look past the value it reads *)

Definition no_digit (s : string) : Prop :=
  match s with String c _ => is_digit c = false | EmptyString => True end.

Lemma skip_ws_app s rest c r :
  skip_ws s = String c r → skip_ws (s +:+ rest) = String c (r +:+ rest).
Proof.
  induction s as [|a s IH]; simpl; [done|].
  destruct (is_ws a); [done|]. by intros [= -> ->].
Qed.

Lemma lit_app p v0 s v r rest :
  lit p v0 s = Some (v, r) → lit p v0 (s +:+ rest) = Some (v, r +:+ rest).
Proof.
  unfold lit. destruct (strip_prefix p s) eqn:E; [|done].
  intros [= <- <-]. by rewrite (strip_prefix_app _ _ _ _ E).
Qed.

Lemma cons_char_Some c o t r :
  cons_char c o = Some (t, r) → ∃ t', o = Some (t', r) ∧ t = String c t'.
Proof. destruct o as [[t' r']|]; simpl; [|done]. intros [= <- <-]; eauto. Qed.

Lemma string_len_ind (P : string → Prop) :
  (∀ s, (∀ s', (String.length s' < String.length s)%nat → P s') → P s) → ∀ s, P s.
Proof.
  intros H s. remember (String.length s) as n eqn:E. revert s E.
  induction n as [n IH] using lt_wf_ind. intros s ->. apply H. eauto.
Qed.

Lemma parse_str_app s t r rest :
  parse_str s = Some (t, r) → parse_str (s +:+ rest) = Some (t, r +:+ rest).
Proof.
  revert t r. induction s as [s IH] using string_len_ind. intros t r.
  destruct s as [|c s1]; simpl; [done|].
  destruct (Ascii.eqb c "034"); [by intros [= <- <-]|].
  destruct (Ascii.eqb c "092").
  - destruct s1 as [|e s2]; simpl; [done|]. destruct (Ascii.eqb e "u").
    + destruct s2 as [|h1 [|h2 [|h3 [|h4 s3]]]]; simpl; try done.
      destruct (hex4 h1 h2 h3 h4); [|done].
      intros (t' & Ht & ->)%cons_char_Some.
      by rewrite (IH s3 ltac:(simpl; lia) _ _ Ht).
    + destruct (unescape e); [|done].
      intros (t' & Ht & ->)%cons_char_Some.
      by rewrite (IH s2 ltac:(simpl; lia) _ _ Ht).
  - destruct (nat_of_ascii c <? 32)%nat; [done|].
    intros (t' & Ht & ->)%cons_char_Some. by rewrite (IH s1 ltac:(simpl; lia) _ _ Ht).
Qed.

Lemma span_digits_app s d r rest :
  span_digits s = (d, r) → no_digit (r +:+ rest) →
  span_digits (s +:+ rest) = (d, r +:+ rest).
Proof.
  revert d r. induction s as [|c s IH]; intros d r; simpl.
  - intros [= <- <-] H. destruct rest as [|c rest]; simpl in *; [done|]. by rewrite H.
  - destruct (is_digit c) eqn:E.
    + destruct (span_digits s) as [d' r'] eqn:Es. intros [= <- <-] H.
      by rewrite (IH _ _ eq_refl H).
    + by intros [= <- <-] H.
Qed.

Lemma span_digits_no_digit s d r : span_digits s = (d, r) → no_digit r.
Proof.
  revert d r. induction s as [|c s IH]; intros d r; simpl; [by intros [= <- <-]|].
  destruct (is_digit c) eqn:E; [|by intros [= <- <-]].
  destruct (span_digits s) as [d' r'] eqn:Es. intros [= <- <-]. by eapply IH.
Qed.

Lemma no_digit_app r rest : no_digit r → no_digit rest → no_digit (r +:+ rest).
Proof. by destruct r. Qed.

Lemma read_int_app s tok r rest :
  s ≠ EmptyString → read_int s = (tok, r) → no_digit rest →
  read_int (s +:+ rest) = (tok, r +:+ rest).
Proof.
  intros Hs Hr Hd.
  assert (∀ x d r', span_digits x = (d, r') →
            span_digits (x +:+ rest) = (d, r' +:+ rest)) as Hsp.
  { intros. eapply span_digits_app; [done|].
    apply no_digit_app; [by eapply span_digits_no_digit|done]. }
  destruct s as [|c s]; [done|]. simpl in *. destruct (Ascii.eqb c "-").
  - destruct (span_digits s) as [d' r'] eqn:Es.
    injection Hr as <- <-. by rewrite (Hsp _ _ _ Es).
  - exact (Hsp (String c s) _ _ Hr).
Qed.

Lemma parse_int_app s v r rest :
  parse_int s = Some (v, r) → no_digit rest →
  parse_int (s +:+ rest) = Some (v, r +:+ rest).
Proof.
  unfold parse_int. intros H Hd. destruct (read_int s) as [tok r'] eqn:E.
  destruct s as [|c s].
  { injection E as <- <-. discriminate H. }
  rewrite (read_int_app (String c s) tok r' rest) by done.
  destruct (DecimalString.NilZero.int_of_string tok); [|done]. simpl in *.
  destruct (String.eqb _ _); [|done]. congruence.
Qed.

Lemma expect_app c s r rest :
  expect c s = Some r → expect c (s +:+ rest) = Some (r +:+ rest).
Proof.
  unfold expect. destruct (skip_ws s) as [|d r'] eqn:E; [done|].
  rewrite (skip_ws_app _ rest _ _ E). destruct (Ascii.eqb d c); congruence.
Qed.

(** A failed [expect] stays failed when the text is extended, once the text
    has a character to look at. *)
Lemma expect_app_None c s rest :
  expect c s = None → skip_ws s ≠ EmptyString → expect c (s +:+ rest) = None.
Proof.
  unfold expect. destruct (skip_ws s) as [|d r'] eqn:E; [done|].
  rewrite (skip_ws_app _ rest _ _ E). by destruct (Ascii.eqb d c).
Qed.

Lemma expect_Some_skip c s r : expect c s = Some r → skip_ws s ≠ EmptyString.
Proof. unfold expect. by destruct (skip_ws s). Qed.

Lemma parse_value_nonempty n s x : parse_value n s = Some x → skip_ws s ≠ EmptyString.
Proof. destruct n; simpl; [done|]. by destruct (skip_ws s). Qed.

Lemma parse_elems_nonempty n s x : parse_elems n s = Some x → skip_ws s ≠ EmptyString.
Proof.
  destruct n; simpl; [done|]. destruct (parse_value n s) eqn:E; [|done].
  intros _. by eapply parse_value_nonempty.
Qed.

Lemma parse_members_nonempty n s x :
  parse_members n s = Some x → skip_ws s ≠ EmptyString.
Proof.
  destruct n as [|n]; simpl; [done|]. destruct n as [|n]; simpl; [done|].
  destruct (expect "034" s) eqn:E; [|done]. intros _. by eapply expect_Some_skip.
Qed.

(** With more text behind it and more fuel, a reader returns the same value. *)
Lemma parse_app n :
  (∀ s v r m rest, parse_value n s = Some (v, r) → (n ≤ m)%nat → no_digit rest →
     parse_value m (s +:+ rest) = Some (v, r +:+ rest)) ∧
  (∀ s v r m rest, parse_elems n s = Some (v, r) → (n ≤ m)%nat → no_digit rest →
     parse_elems m (s +:+ rest) = Some (v, r +:+ rest)) ∧
  (∀ s v r m rest, parse_members n s = Some (v, r) → (n ≤ m)%nat → no_digit rest →
     parse_members m (s +:+ rest) = Some (v, r +:+ rest)) ∧
  (∀ s v r m rest, parse_member n s = Some (v, r) → (n ≤ m)%nat → no_digit rest →
     parse_member m (s +:+ rest) = Some (v, r +:+ rest)).
Proof.
  induction n as [|n (IHv & IHe & IHms & IHm)]; [done|].
  repeat split; intros s v r [|m] rest H Hm Hd; try lia; simpl in *.
  - destruct (skip_ws s) as [|c r0] eqn:E; [done|].
    rewrite (skip_ws_app _ rest _ _ E).
    destruct (Ascii.eqb c "034").
    { destruct (parse_str r0) as [[t r']|] eqn:Es; [|done].
      rewrite (parse_str_app _ _ _ rest Es). by simplify_eq. }
    destruct (Ascii.eqb c "{").
    { destruct (expect "}" r0) as [r'|] eqn:Ee.
      - rewrite (expect_app _ _ _ rest Ee). by simplify_eq.
      - destruct (parse_members n r0) as [[kvs r']|] eqn:Em; [|done].
        rewrite expect_app_None by eauto using parse_members_nonempty.
        rewrite (IHms _ _ _ m rest Em) by (done || lia). by simplify_eq. }
    destruct (Ascii.eqb c "[").
    { destruct (expect "]" r0) as [r'|] eqn:Ee.
      - rewrite (expect_app _ _ _ rest Ee). by simplify_eq.
      - destruct (parse_elems n r0) as [[vs r']|] eqn:Em; [|done].
        rewrite expect_app_None by eauto using parse_elems_nonempty.
        rewrite (IHe _ _ _ m rest Em) by (done || lia). by simplify_eq. }
    repeat case_match; eauto using lit_app.
    exact (parse_int_app (String c r0) _ _ rest H Hd).
  - destruct (parse_value n s) as [[v' r']|] eqn:Ev; [|done].
    rewrite (IHv _ _ _ m rest Ev) by (done || lia).
    destruct (expect "]" r') as [r1|] eqn:E1.
    { rewrite (expect_app _ _ _ rest E1). by simplify_eq. }
    destruct (expect "," r') as [r1|] eqn:E2; [|done].
    rewrite (expect_app_None _ _ rest E1) by eauto using expect_Some_skip.
    rewrite (expect_app _ _ _ rest E2).
    destruct (parse_elems n r1) as [[vs r2]|] eqn:Es; [|done].
    rewrite (IHe _ _ _ m rest Es) by (done || lia). by simplify_eq.
  - destruct (parse_member n s) as [[v' r']|] eqn:Ev; [|done].
    rewrite (IHm _ _ _ m rest Ev) by (done || lia).
    destruct (expect "}" r') as [r1|] eqn:E1.
    { rewrite (expect_app _ _ _ rest E1). by simplify_eq. }
    destruct (expect "," r') as [r1|] eqn:E2; [|done].
    rewrite (expect_app_None _ _ rest E1) by eauto using expect_Some_skip.
    rewrite (expect_app _ _ _ rest E2).
    destruct (parse_members n r1) as [[vs r2]|] eqn:Es; [|done].
    rewrite (IHms _ _ _ m rest Es) by (done || lia). by simplify_eq.
  - destruct (expect "034" s) as [r1|] eqn:E1; [|done].
    rewrite (expect_app _ _ _ rest E1).
    destruct (parse_str r1) as [[k r2]|] eqn:Ek; [|done].
    rewrite (parse_str_app _ _ _ rest Ek).
    destruct (expect ":" r2) as [r3|] eqn:E3; [|done].
    rewrite (expect_app _ _ _ rest E3).
    destruct (parse_value n r3) as [[v' r']|] eqn:Ev; [|done].
    rewrite (IHv _ _ _ m rest Ev) by (done || lia). by simplify_eq.
Qed.

Lemma parse_value_app n m s v r rest :
  parse_value n s = Some (v, r) → (n ≤ m)%nat → no_digit rest →
  parse_value m (s +:+ rest) = Some (v, r +:+ rest).
Proof. intros. by eapply (parse_app n). Qed.
