(* ===== verification/NxJson.v ===== *)
(** The JSON writer of [macos-validation/probes/common/nx_json.{h,c}].

    [nx_json_t] is a record, an API function is an [op nx_json_t]: the stream
    [fp] is the text written to it so far, and an access of [need_comma]
    outside its 32 elements is undefined behaviour ([None]).  The second half
    of the file relates the writer to an abstract document builder: a stack of
    the containers that are still open.  Every client is verified against the
    builder through the class [Implements]. *)

From S2P Require Import Prelude.

Local Open Scope oracle_scope.

(** ** Data *)

Definition max_depth : nat := 32.

Record nx_json_t := mk_json {
  fp : string;
  depth : nat;
  need_comma : list bool;
}.

(** [const char *]: [None] is the null pointer. *)
Definition char_ptr : Type := option string.
Definition c_str (s : string) : char_ptr := Some s.
Coercion c_str : string >-> char_ptr.
Definition NULL : char_ptr := None.

Definition dquote : ascii := "034".
Definition backslash : ascii := "092".
Definition newline : ascii := "010".
Definition creturn : ascii := "013".
Definition htab : ascii := "009".
Definition nul : ascii := "000".

Definition str1 (c : ascii) : string := String c EmptyString.

(** ** The C functions *)

Definition fputs (s : string) (j : nx_json_t) : nx_json_t :=
  mk_json (fp j +:+ s) (depth j) (need_comma j).
Definition fputc (c : ascii) : nx_json_t → nx_json_t := fputs (str1 c).

Definition set_depth (d : nat) (j : nx_json_t) : nx_json_t :=
  mk_json (fp j) d (need_comma j).

(** [j->need_comma[i]] as an rvalue and as an lvalue. *)
Definition get_comma (i : nat) (j : nx_json_t) : option bool := need_comma j !! i.
Definition set_comma (i : nat) (b : bool) : op nx_json_t := λ j,
  match need_comma j !! i with
  | Some _ => Some (mk_json (fp j) (depth j) (<[i := b]> (need_comma j)))
  | None => None
  end.

Definition nx_json_init (out : string) : nx_json_t :=
  mk_json out 0 (replicate max_depth false).

Definition emit_comma_if_needed : op nx_json_t := λ j,
  if (0 <? depth j)%nat then
    match get_comma (depth j) j with
    | Some b => Some (if b then fputc "," j else j)
    | None => None
    end
  else Some j.

Definition mark_value_written : op nx_json_t := λ j,
  if (0 <? depth j)%nat then set_comma (depth j) true j else Some j.

(** ["%04x"] of a value below 256. *)
Definition fmt_04x (z : Z) : string :=
  let s := fmt_x z in
  String.concat EmptyString (replicate (4 - String.length s) "0"%string) +:+ s.

(** The body of the loop of [emit_escaped]. *)
Definition escape_char (c : ascii) : string :=
  if Ascii.eqb c dquote then String backslash (str1 dquote)
  else if Ascii.eqb c backslash then String backslash (str1 backslash)
  else if Ascii.eqb c newline then String backslash "n"
  else if Ascii.eqb c creturn then String backslash "r"
  else if Ascii.eqb c htab then String backslash "t"
  else if (nat_of_ascii c <? 32)%nat
       then String backslash ("u" +:+ fmt_04x (Z.of_nat (nat_of_ascii c)))
       else str1 c.

Fixpoint emit_bytes (s : string) (j : nx_json_t) : nx_json_t :=
  match s with
  | EmptyString => j
  | String c s' =>
      if Ascii.eqb c nul then j else emit_bytes s' (fputs (escape_char c) j)
  end.

Definition emit_escaped (s : char_ptr) (j : nx_json_t) : nx_json_t :=
  match s with None => j | Some s => emit_bytes s j end.

(** A statement that cannot fail, as an operation. *)
Definition stm (f : nx_json_t → nx_json_t) : op nx_json_t := λ j, Some (f j).

Definition nx_json_begin (c : ascii) : op nx_json_t :=
  emit_comma_if_needed ;;
  stm (fputc c) ;;
  stm (λ j, set_depth (S (depth j)) j) ;;
  (λ j, if (depth j <? max_depth)%nat then set_comma (depth j) false j else Some j).

Definition nx_json_end (c : ascii) : op nx_json_t :=
  stm (fputc c) ;;
  stm (λ j, if (0 <? depth j)%nat then set_depth (depth j - 1) j else j) ;;
  mark_value_written.

Definition nx_json_begin_object : op nx_json_t := nx_json_begin "{".
Definition nx_json_end_object : op nx_json_t := nx_json_end "}".
Definition nx_json_begin_array : op nx_json_t := nx_json_begin "[".
Definition nx_json_end_array : op nx_json_t := nx_json_end "]".

Definition nx_json_key (key : char_ptr) : op nx_json_t :=
  emit_comma_if_needed ;;
  stm (fputc dquote) ;;
  stm (emit_escaped key) ;;
  stm (fputs (String dquote ":")) ;;
  (λ j, if (0 <? depth j)%nat then set_comma (depth j) false j else Some j).

Definition nx_json_string (val : char_ptr) : op nx_json_t :=
  emit_comma_if_needed ;;
  stm (fputc dquote) ;;
  stm (emit_escaped val) ;;
  stm (fputc dquote) ;;
  mark_value_written.

Definition nx_json_int (val : Z) : op nx_json_t :=
  emit_comma_if_needed ;; stm (fputs (fmt_lld val)) ;; mark_value_written.

Definition nx_json_uint (val : Z) : op nx_json_t :=
  emit_comma_if_needed ;; stm (fputs (fmt_lld val)) ;; mark_value_written.

Definition nx_json_bool (val : bool) : op nx_json_t :=
  emit_comma_if_needed ;;
  stm (fputs (if val then "true" else "false")) ;;
  mark_value_written.

Definition nx_json_null : op nx_json_t :=
  emit_comma_if_needed ;; stm (fputs "null") ;; mark_value_written.

Definition nx_json_key_string (key val : char_ptr) : op nx_json_t :=
  nx_json_key key ;; nx_json_string val.

Definition nx_json_key_string_or_null (key val : char_ptr) : op nx_json_t :=
  nx_json_key key ;;
  match val with Some _ => nx_json_string val | None => nx_json_null end.

Definition nx_json_key_int (key : char_ptr) (val : Z) : op nx_json_t :=
  nx_json_key key ;; nx_json_int val.

Definition nx_json_key_uint (key : char_ptr) (val : Z) : op nx_json_t :=
  nx_json_key key ;; nx_json_uint val.

Definition nx_json_key_bool (key : char_ptr) (val : bool) : op nx_json_t :=
  nx_json_key key ;; nx_json_bool val.

Definition nx_json_key_null (key : char_ptr) : op nx_json_t :=
  nx_json_key key ;; nx_json_null.

(** Proof search treats the operations as primitive. *)
#[global] Typeclasses Opaque op_seq op_skip nx_json_begin_object nx_json_end_object
  nx_json_begin_array nx_json_end_array nx_json_key nx_json_string nx_json_int
  nx_json_uint nx_json_bool nx_json_null nx_json_key_string nx_json_key_string_or_null
  nx_json_key_int nx_json_key_uint nx_json_key_bool nx_json_key_null.
