(* ===== verification/JsonText.v ===== *)
(** The text the writer of [nx_json.c] produces for a document, and the proof
    that the reader of [Json] reads the same document back. *)

From S2P Require Import Prelude Json NxJson.

(** ** The text of a document *)

Fixpoint escape (s : string) : string :=
  match s with
  | EmptyString => EmptyString
  | String c s' => if Ascii.eqb c nul then EmptyString else escape_char c +:+ escape s'
  end.

(** A C string ends at its first NUL. *)
Fixpoint cstr (s : string) : string :=
  match s with
  | EmptyString => EmptyString
  | String c s' => if Ascii.eqb c nul then EmptyString else String c (cstr s')
  end.

Definition quote (s : string) : string := String dquote (escape s +:+ str1 dquote).

Fixpoint join (l : list string) : string :=
  match l with
  | [] => EmptyString
  | [x] => x
  | x :: l' => x +:+ String "," (join l')
  end.

Fixpoint render (v : json) : string :=
  match v with
  | JNull => "null"
  | JBool b => if b then "true" else "false"
  | JInt z => fmt_lld z
  | JStr s => quote s
  | JArr vs => String "[" (join (map render vs) +:+ "]")
  | JObj kvs =>
      String "{" (join (map (λ kv, quote kv.1 +:+ String ":" (render kv.2)) kvs) +:+ "}")
  | JRaw s => s
  end.

(** The document a reader sees: strings up to their NUL, raw text read. *)
Fixpoint denote (v : json) : json :=
  match v with
  | JStr s => JStr (cstr s)
  | JArr vs => JArr (map denote vs)
  | JObj kvs => JObj (map (λ kv, (cstr kv.1, denote kv.2)) kvs)
  | JRaw s => match parse_doc s with Some v => v | None => JNull end
  | _ => v
  end.

(** All raw texts in the document are documents themselves. *)
Fixpoint raw_ok (v : json) : Prop :=
  match v with
  | JArr vs => foldr and True (map raw_ok vs)
  | JObj kvs => foldr and True (map (λ kv, raw_ok kv.2) kvs)
  | JRaw s => is_Some (parse_doc s)
  | _ => True
  end.

(** ** Strings *)

Lemma parse_escape_char c x :
  c ≠ nul → parse_str (escape_char c +:+ x) = cons_char c (parse_str x).
Proof. destruct c as [[] [] [] [] [] [] [] []]; intros Hc; done. Qed.

Lemma parse_escape s rest :
  parse_str (escape s +:+ String dquote rest) = Some (cstr s, rest).
Proof.
  induction s as [|c s IH]; [done|]. simpl. destruct (Ascii.eqb_spec c nul); [done|].
  by rewrite string_app_assoc, parse_escape_char, IH.
Qed.

(** ** Numbers *)

Lemma span_digits_uint d rest :
  no_digit rest →
  span_digits (DecimalString.NilEmpty.string_of_uint d +:+ rest)
  = (DecimalString.NilEmpty.string_of_uint d, rest).
Proof.
  intros Hd. induction d; simpl; try by rewrite IHd.
  destruct rest as [|c rest]; [done|]. simpl in *. by rewrite Hd.
Qed.

Lemma span_digits_nilzero d rest :
  no_digit rest →
  span_digits (DecimalString.NilZero.string_of_uint d +:+ rest)
  = (DecimalString.NilZero.string_of_uint d, rest).
Proof.
  intros Hd. unfold DecimalString.NilZero.string_of_uint.
  destruct d; try by apply span_digits_uint. by apply (span_digits_uint (Decimal.D0 Decimal.Nil)).
Qed.

Lemma string_of_uint_head d :
  ∃ c s, DecimalString.NilZero.string_of_uint d = String c s ∧ is_digit c = true.
Proof. destruct d; simpl; eauto. Qed.

Lemma digit_not_minus c : is_digit c = true → Ascii.eqb c "-" = false.
Proof. by destruct c as [[] [] [] [] [] [] [] []]. Qed.

Lemma read_int_fmt_lld z rest :
  no_digit rest → read_int (fmt_lld z +:+ rest) = (fmt_lld z, rest).
Proof.
  intros Hd. unfold fmt_lld, DecimalString.NilZero.string_of_int.
  destruct (Z.to_int z) as [d|d].
  - pose proof (span_digits_nilzero d rest Hd) as Hs.
    destruct (string_of_uint_head d) as (c & s & E & Hc). rewrite E in *.
    simpl String.append in *. unfold read_int. by rewrite digit_not_minus.
  - simpl. by rewrite span_digits_nilzero.
Qed.

Lemma Z_to_int_nonnil z :
  Z.to_int z ≠ Decimal.Pos Decimal.Nil ∧ Z.to_int z ≠ Decimal.Neg Decimal.Nil.
Proof.
  destruct z as [|p|p]; simpl; split; try done; intros [= H];
    by apply DecimalPos.Unsigned.to_uint_nonnil in H.
Qed.

Lemma parse_int_fmt_lld z rest :
  no_digit rest → parse_int (fmt_lld z +:+ rest) = Some (JInt z, rest).
Proof.
  intros Hd. unfold parse_int. rewrite read_int_fmt_lld by done.
  unfold fmt_lld at 1. destruct (Z_to_int_nonnil z) as [H1 H2].
  rewrite DecimalString.NilZero.isi by done.
  rewrite DecimalZ.of_to. by rewrite String.eqb_refl.
Qed.

Definition starts_number (c : ascii) : bool := is_digit c || Ascii.eqb c "-".

Lemma fmt_lld_head z : ∃ c s, fmt_lld z = String c s ∧ starts_number c = true.
Proof.
  unfold fmt_lld, DecimalString.NilZero.string_of_int, starts_number.
  destruct (Z.to_int z) as [d|d]; [|eauto].
  destruct (string_of_uint_head d) as (c & s & -> & Hc).
  exists c, s. by rewrite Hc.
Qed.

Lemma parse_value_number n c s :
  starts_number c = true → parse_value (S n) (String c s) = parse_int (String c s).
Proof. by destruct c as [[] [] [] [] [] [] [] []]. Qed.

(** ** Documents *)

Lemma skip_ws_empty_app w x : skip_ws w = EmptyString → skip_ws (w +:+ x) = skip_ws x.
Proof.
  induction w as [|c w IH]; simpl; [done|]. by destruct (is_ws c); [apply IH|].
Qed.

Lemma expect_ws w c x : skip_ws w = EmptyString → expect c (w +:+ x) = expect c x.
Proof. intros. unfold expect. by rewrite skip_ws_empty_app. Qed.

Lemma no_digit_ws w x : skip_ws w = EmptyString → no_digit x → no_digit (w +:+ x).
Proof.
  destruct w as [|c w]; simpl; [done|]. destruct (is_ws c) eqn:E; [|done].
  intros _ _. by destruct c as [[] [] [] [] [] [] [] []].
Qed.

(** A value does not begin with a closing bracket. *)
Lemma parse_value_not_close n s x : parse_value n s = Some x → expect "]" s = None.
Proof.
  destruct n; simpl; [done|]. unfold expect.
  destruct (skip_ws s) as [|c r]; [done|].
  destruct (Ascii.eqb_spec c "]") as [->|]; [|done]. done.
Qed.

(** The reader reads the text of [v], up to some white space behind it. *)
Definition reads (v : json) : Prop :=
  ∀ n rest, (String.length (render v) < n)%nat → no_digit rest →
    ∃ w, skip_ws w = EmptyString ∧
         parse_value n (render v +:+ rest) = Some (denote v, w +:+ rest).

Lemma join_cons x y l : join (x :: y :: l) = x +:+ String "," (join (y :: l)).
Proof. done. Qed.

Lemma parse_elems_join v vs n rest :
  Forall reads (v :: vs) → (String.length (join (map render (v :: vs))) + 1 < n)%nat →
  parse_elems n (join (map render (v :: vs)) +:+ String "]" rest)
  = Some (map denote (v :: vs), rest).
Proof.
  revert v n. induction vs as [|v2 vs IH]; intros v [|n] [Hv Hvs]%Forall_cons Hn; try lia.
  - simpl in *. destruct (Hv n (String "]" rest) ltac:(lia) ltac:(done)) as (w & Hw & ->).
    by rewrite expect_ws.
  - simpl map in *. rewrite join_cons in *. rewrite string_app_assoc.
    rewrite string_length_app, string_length_cons in Hn. cbn -[join].
    destruct (Hv n (String "," (join (render v2 :: map render vs) +:+ String "]" rest))
      ltac:(lia) ltac:(done)) as (w & Hw & ->).
    rewrite !expect_ws by done. cbn -[join].
    specialize (IH v2 n Hvs). simpl map in IH. by rewrite IH by lia.
Qed.

Definition render_member (kv : string * json) : string :=
  quote kv.1 +:+ String ":" (render kv.2).
Definition denote_member (kv : string * json) : string * json :=
  (cstr kv.1, denote kv.2).

Lemma render_obj kvs :
  render (JObj kvs) = String "{" (join (map render_member kvs) +:+ "}").
Proof. done. Qed.

Lemma denote_obj kvs : denote (JObj kvs) = JObj (map denote_member kvs).
Proof. done. Qed.

Lemma parse_member_reads kv n rest :
  reads kv.2 → (String.length (render_member kv) < n)%nat → no_digit rest →
  ∃ w, skip_ws w = EmptyString ∧
       parse_member n (render_member kv +:+ rest) = Some (denote_member kv, w +:+ rest).
Proof.
  destruct kv as [k v]; unfold render_member, quote; simpl. intros Hv Hn Hd.
  rewrite !string_length_app in Hn. simpl in Hn.
  destruct n as [|n]; [lia|].
  destruct (Hv n rest ltac:(lia) Hd) as (w & Hw & Hp). exists w. split; [done|].
  rewrite !string_app_assoc. simpl.
  rewrite parse_escape. simpl. by rewrite Hp.
Qed.

Lemma parse_members_join kv kvs n rest :
  Forall (λ kv, reads kv.2) (kv :: kvs) →
  (String.length (join (map render_member (kv :: kvs))) + 1 < n)%nat →
  parse_members n (join (map render_member (kv :: kvs)) +:+ String "}" rest)
  = Some (map denote_member (kv :: kvs), rest).
Proof.
  revert kv n. induction kvs as [|kv2 kvs IH];
    intros kv [|n] [Hv Hvs]%Forall_cons Hn; try lia.
  - cbn -[render_member denote_member] in *.
    destruct (parse_member_reads kv n (String "}" rest) Hv ltac:(lia) ltac:(done))
      as (w & Hw & ->). by rewrite expect_ws.
  - simpl map in *. rewrite join_cons in *. rewrite string_app_assoc.
    rewrite string_length_app, string_length_cons in Hn.
    cbn -[render_member denote_member join].
    destruct (parse_member_reads kv n
      (String "," (join (render_member kv2 :: map render_member kvs) +:+ String "}" rest))
      Hv ltac:(lia) ltac:(done)) as (w & Hw & ->).
    rewrite !expect_ws by done. cbn -[render_member denote_member join].
    by rewrite IH by (done || (simpl map; lia)).
Qed.

Lemma foldr_and_Forall {A} (P : A → Prop) l : foldr and True (map P l) ↔ Forall P l.
Proof. induction l; simpl; [done|]. rewrite Forall_cons. tauto. Qed.

Lemma skip_ws_render_head v vs rest :
  reads v → expect "]" (join (map render (v :: vs)) +:+ rest) = None.
Proof.
  intros Hv.
  assert (∃ x, join (map render (v :: vs)) +:+ rest = render v +:+ x ∧
               (no_digit rest → no_digit x)) as (x & -> & _).
  { destruct vs; simpl map; [by exists rest|]. rewrite join_cons, string_app_assoc.
    by eexists. }
  destruct (Hv (S (String.length (render v))) EmptyString ltac:(lia) ltac:(done))
    as (w & Hw & Hp).
  pose proof (parse_value_not_close _ _ _ Hp) as He.
  pose proof (parse_value_nonempty _ _ _ Hp) as Hne.
  rewrite string_app_nil_r in *. by apply expect_app_None.
Qed.

Lemma reads_all v : raw_ok v → reads v.
Proof.
  induction v as [| | | |vs IH|kvs IH|s] using json_nested_ind;
    intros Hok n rest Hn Hd; simpl in Hok.
  - exists EmptyString. destruct n; simpl in *; [lia|]. done.
  - exists EmptyString. destruct n; simpl in *; [lia|]. by destruct b.
  - exists EmptyString. split; [done|]. destruct n as [|n]; [lia|]. simpl render.
    pose proof (parse_int_fmt_lld z rest Hd) as Hp.
    destruct (fmt_lld_head z) as (c & s & E & Hc). rewrite E in *.
    simpl String.append in *. by rewrite parse_value_number.
  - exists EmptyString. split; [done|]. destruct n as [|n]; [lia|].
    simpl. rewrite string_app_assoc. simpl. by rewrite parse_escape.
  - exists EmptyString. split; [done|]. destruct n as [|n]; [lia|].
    destruct vs as [|v vs]; [done|].
    apply foldr_and_Forall in Hok.
    assert (Forall reads (v :: vs)) as Hr.
    { apply Forall_forall. intros x Hx. rewrite Forall_forall in IH, Hok. eauto. }
    cbn -[join map String.length] in *.
    rewrite string_length_cons, string_length_app in Hn. rewrite string_app_assoc.
    rewrite skip_ws_render_head by (by inversion Hr).
    simpl String.append at 2. simpl String.length at 2 in Hn.
    by rewrite parse_elems_join by (done || lia).
  - exists EmptyString. split; [done|]. destruct n as [|n]; [lia|].
    destruct kvs as [|kv kvs]; [done|].
    apply foldr_and_Forall in Hok.
    assert (Forall (λ kv, reads kv.2) (kv :: kvs)) as Hr.
    { apply Forall_forall. intros x Hx. rewrite Forall_forall in IH, Hok. eauto. }
    rewrite render_obj, string_length_cons, string_length_app in Hn.
    rewrite render_obj, denote_obj. cbn -[join map String.length render_member].
    rewrite string_app_assoc. change ("}" +:+ rest) with (String "}" rest). simpl String.length at 2 in Hn.
    pose proof (parse_members_join kv kvs n rest Hr ltac:(lia)) as Hp.
    assert (expect "}" (join (map render_member (kv :: kvs)) +:+ String "}" rest) = None)
      as ->; [|by rewrite Hp].
    destruct kvs; done.
  - destruct Hok as [v Hv]. simpl in *. rewrite Hv. unfold parse_doc in Hv.
    destruct (parse_value _ s) as [[v' r]|] eqn:E; [|done].
    destruct (skip_ws r) eqn:Er; [|done]. injection Hv as ->.
    exists r. split; [done|]. eapply parse_value_app; [done|lia|done].
Qed.

(** Reading back the text of a document gives the document. *)
Lemma parse_render v : raw_ok v → parse_doc (render v +:+ str1 newline) = Some (denote v).
Proof.
  intros Hv. unfold parse_doc.
  destruct (reads_all v Hv (S (String.length (render v +:+ str1 newline)))
    (str1 newline)) as (w & Hw & ->); [rewrite string_length_app; lia|done|].
  by rewrite skip_ws_empty_app.
Qed.
