(* ===== verification/Builder.v ===== *)
(** An abstract document builder, and the proof that the writer of
    [nx_json.c] implements it.

    The builder keeps the containers that are still open as a stack of frames
    and accepts a call only where JSON allows it (a value in an object only
    after its key, a closing bracket only for the innermost container) and
    only down to nesting depth 31.  [Implements o b] says that the C operation
    [o] simulates the builder operation [b]; the writer's clients are verified
    by composing its instances. *)

From S2P Require Import Prelude Json NxJson JsonText.

Local Open Scope oracle_scope.

(** ** The builder *)

Inductive frame : Type :=
  | FObj (kvs : list (string * json)) (pending : option string)
  | FArr (vs : list json).

(** [base] is the text before the first open container. *)
Record bstate := mk_b { base : string; stack : list frame }.

Definition nonempty {A} (l : list A) : bool :=
  match l with [] => false | _ => true end.

(** Whether the next item of the container is preceded by a comma. *)
Definition comma_due (f : frame) : bool :=
  match f with
  | FObj kvs None => nonempty kvs
  | FObj _ (Some _) => false
  | FArr vs => nonempty vs
  end.

Definition comma (b : bool) : string := if b then "," else "".

Definition sep (st : list frame) : string :=
  match st with [] => "" | f :: _ => comma (comma_due f) end.

Definition frame_text (f : frame) : string :=
  match f with
  | FObj kvs p =>
      String "{" (join (map render_member kvs) +:+
        match p with
        | None => ""
        | Some k => comma (nonempty kvs) +:+ quote k +:+ ":"
        end)
  | FArr vs => String "[" (join (map render vs))
  end.

Fixpoint text (b : string) (st : list frame) : string :=
  match st with
  | [] => b
  | f :: st' => text b st' +:+ sep st' +:+ frame_text f
  end.

Definition b_value (v : json) : op bstate := λ s,
  match stack s with
  | [] => Some (mk_b (base s +:+ render v) [])
  | FObj kvs (Some k) :: st => Some (mk_b (base s) (FObj (kvs ++ [(k, v)]) None :: st))
  | FArr vs :: st => Some (mk_b (base s) (FArr (vs ++ [v]) :: st))
  | FObj _ None :: _ => None
  end.

Definition b_key (k : string) : op bstate := λ s,
  match stack s with
  | FObj kvs None :: st => Some (mk_b (base s) (FObj kvs (Some k) :: st))
  | _ => None
  end.

(** A member: a key followed by its value. *)
Definition b_field (k : string) (v : json) : op bstate := λ s,
  match stack s with
  | FObj kvs None :: st => Some (mk_b (base s) (FObj (kvs ++ [(k, v)]) None :: st))
  | _ => None
  end.

Definition value_allowed (st : list frame) : bool :=
  match st with FObj _ None :: _ => false | _ => true end.

(** Room for [h] more levels of nesting. *)
Definition fits (h : nat) (st : list frame) : bool := (length st + h <? max_depth)%nat.

Definition b_open (f : frame) : op bstate := λ s,
  if value_allowed (stack s) && fits 1 (stack s)
  then Some (mk_b (base s) (f :: stack s)) else None.

Definition b_close_object : op bstate := λ s,
  match stack s with
  | FObj kvs None :: st => b_value (JObj kvs) (mk_b (base s) st)
  | _ => None
  end.

Definition b_close_array : op bstate := λ s,
  match stack s with
  | FArr vs :: st => b_value (JArr vs) (mk_b (base s) st)
  | _ => None
  end.

(** Several members, several elements. *)
Definition b_fields (l : list (string * json)) : op bstate := λ s,
  match stack s with
  | FObj kvs None :: st => Some (mk_b (base s) (FObj (kvs ++ l) None :: st))
  | _ => None
  end.

Definition b_elems (l : list json) : op bstate := λ s,
  match stack s with
  | FArr vs :: st => Some (mk_b (base s) (FArr (vs ++ l) :: st))
  | _ => None
  end.

(** ** Simulation *)

Definition flag_ok (j : nx_json_t) (st : list frame) : Prop :=
  match st with
  | [] => True
  | f :: _ => need_comma j !! length st = Some (comma_due f)
  end.

Record represents (j : nx_json_t) (s : bstate) : Prop := {
  rep_fp : fp j = text (base s) (stack s);
  rep_depth : depth j = length (stack s);
  rep_size : length (need_comma j) = max_depth;
  rep_bound : (length (stack s) < max_depth)%nat;
  rep_flag : flag_ok j (stack s);
}.

Class Implements (o : op nx_json_t) (b : op bstate) : Prop :=
  implements : ∀ j s s', represents j s → b s = Some s' →
    ∃ j', o j = Some j' ∧ represents j' s'.

#[export] Instance implements_skip : Implements op_skip op_skip.
Proof. intros j s s' Hr [= <-]. by exists j. Qed.

#[export] Instance implements_seq o1 o2 b1 b2 :
  Implements o1 b1 → Implements o2 b2 → Implements (o1 ;; o2) (b1 ;; b2).
Proof.
  intros H1 H2 j s s' Hr. unfold op_seq. intros (s1 & Hs1 & Hs2)%bind_Some.
  destruct (H1 _ _ _ Hr Hs1) as (j1 & -> & Hr1). by apply (H2 _ _ _ Hr1).
Qed.

#[export] Instance implements_if (c : bool) o1 o2 b1 b2 :
  Implements o1 b1 → Implements o2 b2 →
  Implements (if c then o1 else o2) (if c then b1 else b2) | 10.
Proof. by destruct c. Qed.

(** ** Texts *)

Lemma join_snoc l x :
  join (l ++ [x]) = join l +:+ comma (nonempty l) +:+ x.
Proof.
  induction l as [|a [|b l] IH]; [done..|].
  simpl app in *. rewrite !join_cons, IH, !string_app_assoc. done.
Qed.

Lemma map_nonempty {A B} (f : A → B) l : nonempty (map f l) = nonempty l.
Proof. by destruct l. Qed.

Lemma b_value_text v s s' :
  b_value v s = Some s' →
  text (base s') (stack s') = text (base s) (stack s) +:+ sep (stack s) +:+ render v.
Proof.
  destruct s as [b [|[kvs [k|]|vs] st]]; unfold b_value; simpl; intros [= <-]; simpl.
  - done.
  - rewrite map_app. cbn [map]. rewrite join_snoc, map_nonempty. unfold render_member at 2. cbn [fst snd].
    unfold quote. by str_norm.
  - rewrite map_app. cbn [map]. by rewrite join_snoc, map_nonempty, !string_app_assoc.
Qed.

(** ** The operations *)

Lemma nonempty_snoc {A} (l : list A) x : nonempty (l ++ [x]) = true.
Proof. by destruct l. Qed.

Lemma fputs_app a b j : fputs b (fputs a j) = fputs (a +:+ b) j.
Proof. unfold fputs. simpl. by rewrite string_app_assoc. Qed.

Lemma fputs_empty j : fputs "" j = j.
Proof. destruct j. unfold fputs. simpl. by rewrite string_app_nil_r. Qed.

Lemma emit_bytes_escape s j : emit_bytes s j = fputs (escape s) j.
Proof.
  revert j. induction s as [|c s IH]; intros j; simpl; [by rewrite fputs_empty|].
  destruct (Ascii.eqb c nul); [by rewrite fputs_empty|].
  by rewrite IH, fputs_app.
Qed.

(** The text of a C string argument; a null pointer prints nothing. *)
Definition ptr_text (s : char_ptr) : string :=
  match s with Some s => s | None => EmptyString end.

Lemma emit_escaped_fputs s j : emit_escaped s j = fputs (escape (ptr_text s)) j.
Proof. destruct s as [s|]; simpl; [apply emit_bytes_escape|]. by rewrite fputs_empty. Qed.

Lemma comma_represents j s :
  represents j s → emit_comma_if_needed j = Some (fputs (sep (stack s)) j).
Proof.
  intros [_ Hd _ _ Hf]. unfold emit_comma_if_needed, get_comma. rewrite Hd.
  destruct (stack s) as [|f st]; simpl in *; [by rewrite fputs_empty|].
  rewrite Hf. unfold fputc, comma, str1. by destruct (comma_due f); rewrite ?fputs_empty.
Qed.

Lemma set_comma_ok i b j :
  (i < length (need_comma j))%nat →
  set_comma i b j = Some (mk_json (fp j) (depth j) (<[i := b]> (need_comma j))).
Proof. intros [x Hx]%lookup_lt_is_Some. unfold set_comma. by rewrite Hx. Qed.

(** Appending a value leaves the stack shape and makes the comma due. *)
Lemma b_value_shape v s s' :
  b_value v s = Some s' →
  length (stack s') = length (stack s) ∧
  match stack s' with [] => True | f :: _ => comma_due f = true end.
Proof.
  destruct s as [b [|[kvs [k|]|vs] st]]; unfold b_value; simpl; intros [= <-];
    simpl; by rewrite ?nonempty_snoc.
Qed.

(** The end of every value: the text is out, the flag is set. *)
Lemma mark_represents j v s s' :
  b_value v s = Some s' →
  fp j = text (base s) (stack s) +:+ sep (stack s) +:+ render v →
  depth j = length (stack s) → length (need_comma j) = max_depth →
  (length (stack s) < max_depth)%nat →
  ∃ j', mark_value_written j = Some j' ∧ represents j' s'.
Proof.
  intros Hv Hfp Hd Hn Hb. destruct (b_value_shape _ _ _ Hv) as [Hl Hc].
  rewrite <- (b_value_text _ _ _ Hv) in Hfp. unfold mark_value_written.
  rewrite Hd, <- Hl in *. destruct (stack s') as [|f st] eqn:E; simpl.
  - eexists; split; [done|]. split; rewrite ?E; simpl; auto.
  - rewrite set_comma_ok by (simpl in *; lia).
    eexists; split; [done|]. split; rewrite ?E; simpl; auto.
    + by rewrite length_insert.
    + simpl in Hb. by rewrite list_lookup_insert_eq, Hc by lia.
Qed.

(** A scalar: separator, text, mark. *)
Lemma implements_scalar o v :
  (∀ j, o j = (emit_comma_if_needed ;; stm (fputs (render v)) ;; mark_value_written) j) →
  Implements o (b_value v).
Proof.
  intros Ho j s s' Hr Hs. rewrite Ho. unfold op_seq, stm.
  rewrite (comma_represents _ _ Hr). simpl. rewrite fputs_app.
  destruct Hr as [Hfp Hd Hn Hb Hf].
  eapply mark_represents; simpl; eauto. by rewrite Hfp.
Qed.

#[export] Instance implements_string s :
  Implements (nx_json_string s) (b_value (JStr (ptr_text s))).
Proof.
  apply implements_scalar. intros j. unfold nx_json_string, op_seq, stm.
  destruct (emit_comma_if_needed j) as [j1|]; simpl; [|done].
  unfold fputc, quote. by rewrite emit_escaped_fputs, !fputs_app; str_norm.
Qed.

#[export] Instance implements_int z : Implements (nx_json_int z) (b_value (JInt z)).
Proof. by apply implements_scalar. Qed.

#[export] Instance implements_uint z : Implements (nx_json_uint z) (b_value (JInt z)).
Proof. by apply implements_scalar. Qed.

#[export] Instance implements_bool b : Implements (nx_json_bool b) (b_value (JBool b)).
Proof. by apply implements_scalar. Qed.

#[export] Instance implements_null : Implements nx_json_null (b_value JNull).
Proof. by apply implements_scalar. Qed.

#[export] Instance implements_key k :
  Implements (nx_json_key k) (b_key (ptr_text k)).
Proof.
  intros j s s' Hr Hs. unfold nx_json_key, op_seq, stm.
  rewrite (comma_represents _ _ Hr). simpl.
  destruct Hr as [Hfp Hd Hn Hb Hf].
  destruct s as [b [|[kvs [k0|]|vs] st]]; unfold b_key in Hs; simpl in *; simplify_eq.
  unfold fputc. rewrite emit_escaped_fputs, !fputs_app. simpl. rewrite Hd. simpl.
  rewrite set_comma_ok by (simpl; unfold max_depth in *; lia).
  eexists; split; [done|]. split; simpl; auto.
  - rewrite Hfp. unfold quote. by str_norm.
  - by rewrite length_insert.
  - by rewrite list_lookup_insert_eq by lia.
Qed.

Lemma implements_begin c f :
  frame_text f = str1 c → comma_due f = false →
  Implements (nx_json_begin c) (b_open f).
Proof.
  intros Hc Hcd j s s' Hr Hs. unfold nx_json_begin, op_seq, stm.
  rewrite (comma_represents _ _ Hr). simpl.
  destruct Hr as [Hfp Hd Hn Hb Hf]. unfold b_open in Hs.
  destruct (value_allowed _ && _) eqn:E; simplify_eq.
  apply andb_prop in E as [_ E]. unfold fits in E.
  apply Nat.ltb_lt in E. unfold max_depth in *.
  rewrite Hd. destruct (S (length (stack s)) <? 32)%nat eqn:E2;
    [|apply Nat.ltb_ge in E2; lia].
  rewrite set_comma_ok by (simpl; lia).
  eexists; split; [done|]. unfold fputc. split; simpl; auto.
  - by rewrite Hfp, Hc, string_app_assoc.
  - by rewrite length_insert.
  - unfold max_depth. lia.
  - by rewrite list_lookup_insert_eq, Hcd by lia.
Qed.

#[export] Instance implements_begin_object :
  Implements nx_json_begin_object (b_open (FObj [] None)).
Proof. by apply implements_begin. Qed.

#[export] Instance implements_begin_array :
  Implements nx_json_begin_array (b_open (FArr [])).
Proof. by apply implements_begin. Qed.

(** Closing a container [f] whose text is that of the value [v]. *)
Lemma end_represents c f v j b st s' :
  represents j (mk_b b (f :: st)) → frame_text f +:+ str1 c = render v →
  b_value v (mk_b b st) = Some s' →
  ∃ j', nx_json_end c j = Some j' ∧ represents j' s'.
Proof.
  intros [Hfp Hd Hn Hb Hf] Hc Hv. unfold nx_json_end, op_seq, stm. simpl in *.
  rewrite Hd. simpl. eapply mark_represents; simpl; eauto.
  - by rewrite Hfp, <- Hc, !string_app_assoc.
  - by rewrite Nat.sub_0_r.
  - simpl. lia.
Qed.

#[export] Instance implements_end_object : Implements nx_json_end_object b_close_object.
Proof.
  intros j [b [|[kvs [k|]|vs] st]] s' Hr Hs; try done.
  eapply end_represents; [exact Hr| |exact Hs]. simpl. by rewrite string_app_nil_r.
Qed.

#[export] Instance implements_end_array : Implements nx_json_end_array b_close_array.
Proof.
  intros j [b [|[kvs [k|]|vs] st]] s' Hr Hs; try done.
  eapply end_represents; [exact Hr| |exact Hs]. done.
Qed.

(** ** Keys with their values *)

Lemma implements_weaken o b b' :
  Implements o b → (∀ s s', b' s = Some s' → b s = Some s') → Implements o b'.
Proof. intros Ho Hb j s s' Hr Hs. eapply Ho; eauto. Qed.

Lemma implements_field o k v :
  Implements o (b_value v) → Implements (nx_json_key k ;; o) (b_field (ptr_text k) v).
Proof.
  intros Ho. eapply implements_weaken; [by apply implements_seq; [apply implements_key|]|].
  by intros [b [|[kvs [k0|]|vs] st]] s'.
Qed.

#[export] Instance implements_key_string k v :
  Implements (nx_json_key_string k v) (b_field (ptr_text k) (JStr (ptr_text v))).
Proof. apply implements_field, _. Qed.

#[export] Instance implements_key_int k z :
  Implements (nx_json_key_int k z) (b_field (ptr_text k) (JInt z)).
Proof. apply implements_field, _. Qed.

#[export] Instance implements_key_uint k z :
  Implements (nx_json_key_uint k z) (b_field (ptr_text k) (JInt z)).
Proof. apply implements_field, _. Qed.

#[export] Instance implements_key_bool k b :
  Implements (nx_json_key_bool k b) (b_field (ptr_text k) (JBool b)).
Proof. apply implements_field, _. Qed.

#[export] Instance implements_key_null k :
  Implements (nx_json_key_null k) (b_field (ptr_text k) JNull).
Proof. apply implements_field, _. Qed.

Definition str_or_null (v : char_ptr) : json :=
  match v with Some s => JStr s | None => JNull end.

#[export] Instance implements_key_string_or_null k v :
  Implements (nx_json_key_string_or_null k v) (b_field (ptr_text k) (str_or_null v)).
Proof. apply implements_field. destruct v; apply _. Qed.

Lemma b_if_field (c : bool) k v1 v2 s :
  (if c then b_field k v1 else b_field k v2) s = b_field k (if c then v1 else v2) s.
Proof. by destruct c. Qed.

#[export] Instance implements_if_field (c : bool) o1 o2 k v1 v2 :
  Implements o1 (b_field k v1) → Implements o2 (b_field k v2) →
  Implements (if c then o1 else o2) (b_field k (if c then v1 else v2)) | 5.
Proof. by destruct c. Qed.

(** A conditional element of an array. *)
Lemma implements_when_value (c : bool) o v :
  Implements o (b_value v) →
  Implements (if c then o else op_skip) (b_elems (if c then [v] else [])).
Proof.
  intros Ho. destruct c; [eapply implements_weaken|eapply implements_weaken].
  - exact Ho.
  - by intros [b [|[kvs [k0|]|vs] st]] s'.
  - apply implements_skip.
  - intros [b [|[kvs [k0|]|vs] st]] s'; unfold b_elems; simpl; try done.
    by rewrite app_nil_r.
Qed.

(** ** Whole documents *)

Lemma represents_init out : represents (nx_json_init out) (mk_b out []).
Proof. by split; simpl; unfold max_depth; auto with lia. Qed.

Lemma implements_document o b v :
  Implements o b → b (mk_b "" []) = Some (mk_b (render v) []) →
  ∃ j, o (nx_json_init "") = Some j ∧ fp j = render v.
Proof.
  intros Ho Hb. destruct (Ho _ _ _ (represents_init "") Hb) as (j & Hj & Hr).
  exists j. split; [done|]. apply Hr.
Qed.

(** The sequence of API calls that writes a document. *)
Fixpoint emit (v : json) : op nx_json_t :=
  match v with
  | JNull => nx_json_null
  | JBool b => nx_json_bool b
  | JInt z => nx_json_int z
  | JStr s => nx_json_string s
  | JArr vs =>
      nx_json_begin_array ;;
      (fix go l := match l with [] => op_skip | v :: l' => emit v ;; go l' end) vs ;;
      nx_json_end_array
  | JObj kvs =>
      nx_json_begin_object ;;
      (fix go (l : list (string * json)) := match l with
                   | [] => op_skip
                   | kv :: l' => nx_json_key kv.1 ;; emit kv.2 ;; go l'
                   end) kvs ;;
      nx_json_end_object
  | JRaw _ => op_skip
  end.

Definition emit_elems (l : list json) : op nx_json_t :=
  (fix go l := match l with [] => op_skip | v :: l' => emit v ;; go l' end) l.
Definition emit_members (l : list (string * json)) : op nx_json_t :=
  (fix go (l : list (string * json)) := match l with
               | [] => op_skip
               | kv :: l' => nx_json_key kv.1 ;; emit kv.2 ;; go l'
               end) l.

Lemma emit_arr vs :
  emit (JArr vs) = (nx_json_begin_array ;; emit_elems vs ;; nx_json_end_array).
Proof. done. Qed.

Lemma emit_obj kvs :
  emit (JObj kvs) = (nx_json_begin_object ;; emit_members kvs ;; nx_json_end_object).
Proof. done. Qed.

Fixpoint height (v : json) : nat :=
  match v with
  | JArr vs => S (foldr max O (map height vs))
  | JObj kvs => S (foldr max O (map (λ kv, height kv.2) kvs))
  | _ => O
  end.

Fixpoint no_raw (v : json) : bool :=
  match v with
  | JArr vs => forallb no_raw vs
  | JObj kvs => forallb (λ kv, no_raw kv.2) kvs
  | JRaw _ => false
  | _ => true
  end.

(** Writing [v] with [n] levels of nesting to spare. *)
Definition emits (v : json) : Prop :=
  ∀ j s s', represents j s → (length (stack s) + height v < max_depth)%nat →
    b_value v s = Some s' → ∃ j', emit v j = Some j' ∧ represents j' s'.

Lemma emit_elems_ok b l st vs j :
  Forall emits l →
  represents j (mk_b b (FArr vs :: st)) →
  (S (length st) + foldr max O (map height l) < max_depth)%nat →
  ∃ j', emit_elems l j = Some j' ∧ represents j' (mk_b b (FArr (vs ++ l) :: st)).
Proof.
  revert vs j. induction l as [|v l IH]; intros vs j Hl Hr Hn; simpl in *.
  { exists j. by rewrite app_nil_r. }
  apply Forall_cons in Hl as [Hv Hl].
  destruct (Hv j _ (mk_b b (FArr (vs ++ [v]) :: st)) Hr) as (j1 & Hj1 & Hr1);
    [simpl; lia|done|].
  unfold op_seq. rewrite Hj1. simpl.
  destruct (IH (vs ++ [v]) j1 Hl Hr1 ltac:(lia)) as (j2 & Hj2 & Hr2).
  rewrite <- app_assoc in Hr2. by exists j2.
Qed.

Lemma emit_members_ok b l st kvs j :
  Forall (λ kv, emits kv.2) l →
  represents j (mk_b b (FObj kvs None :: st)) →
  (S (length st) + foldr max O (map (λ kv, height kv.2) l) < max_depth)%nat →
  ∃ j', emit_members l j = Some j' ∧ represents j' (mk_b b (FObj (kvs ++ l) None :: st)).
Proof.
  revert kvs j. induction l as [|[k v] l IH]; intros kvs j Hl Hr Hn; simpl in *.
  { exists j. by rewrite app_nil_r. }
  apply Forall_cons in Hl as [Hv Hl]. simpl in Hv.
  destruct (implements_key k j _ (mk_b b (FObj kvs (Some k) :: st)) Hr)
    as (j0 & Hj0 & Hr0); [done|].
  destruct (Hv j0 _ (mk_b b (FObj (kvs ++ [(k, v)]) None :: st)) Hr0)
    as (j1 & Hj1 & Hr1); [simpl; lia|done|].
  unfold op_seq. rewrite Hj0. simpl. rewrite Hj1. simpl.
  destruct (IH (kvs ++ [(k, v)]) j1 Hl Hr1 ltac:(lia)) as (j2 & Hj2 & Hr2).
  rewrite <- app_assoc in Hr2. by exists j2.
Qed.

Lemma b_value_allowed v s s' : b_value v s = Some s' → value_allowed (stack s) = true.
Proof. by destruct s as [b [|[kvs [k|]|vs] st]]. Qed.

Lemma b_open_ok f v s s' :
  b_value v s = Some s' → (length (stack s) + 1 < max_depth)%nat →
  b_open f s = Some (mk_b (base s) (f :: stack s)).
Proof.
  intros Hv Hn. unfold b_open, fits. rewrite (b_value_allowed _ _ _ Hv).
  by destruct (Nat.ltb_spec (length (stack s) + 1) max_depth); [|lia].
Qed.

Lemma fits_cons h f st : fits h (f :: st) = fits (S h) st.
Proof. unfold fits. simpl. by rewrite Nat.add_succ_r. Qed.

Lemma fits_le h h' st : fits h st = true → (h' ≤ h)%nat → fits h' st = true.
Proof. unfold fits. rewrite !Nat.ltb_lt. lia. Qed.

Lemma no_raw_Forall {A} (f : A → json) l P :
  Forall (λ x, no_raw (f x) = true → P (f x)) l →
  forallb (λ x, no_raw (f x)) l = true → Forall (λ x, P (f x)) l.
Proof. induction 1; simpl; [done|]. intros [? ?]%andb_prop. eauto. Qed.

Lemma emits_all v : no_raw v = true → emits v.
Proof.
  induction v as [|b|z|t|vs IH|kvs IH|r] using json_nested_ind;
    intros Hraw j s s' Hr Hn Hv; try done; simpl in Hn.
  - by eapply implements_null.
  - by eapply implements_bool.
  - by eapply implements_int.
  - by eapply (implements_string t).
  - apply (no_raw_Forall id) in IH; [|done].
    destruct (implements_begin_array _ _ _ Hr (b_open_ok (FArr []) _ _ _ Hv ltac:(lia)))
      as (j1 & Hj1 & Hr1).
    destruct (emit_elems_ok _ _ _ _ _ IH Hr1 ltac:(lia)) as (j2 & Hj2 & Hr2).
    destruct (implements_end_array _ _ s' Hr2) as (j3 & Hj3 & Hr3); [by destruct s|].
    exists j3. split; [|done]. rewrite emit_arr. unfold op_seq. rewrite Hj1. simpl.
    by rewrite Hj2.
  - apply (no_raw_Forall snd) in IH; [|done].
    destruct (implements_begin_object _ _ _ Hr
      (b_open_ok (FObj [] None) _ _ _ Hv ltac:(lia))) as (j1 & Hj1 & Hr1).
    destruct (emit_members_ok _ _ _ _ _ IH Hr1 ltac:(lia)) as (j2 & Hj2 & Hr2).
    destruct (implements_end_object _ _ s' Hr2) as (j3 & Hj3 & Hr3); [by destruct s|].
    exists j3. split; [|done]. rewrite emit_obj. unfold op_seq. rewrite Hj1. simpl.
    by rewrite Hj2.
Qed.

(** ** Composite items

    The same operations for items that nest [h] levels deep: they need as much
    room on the stack. *)

Definition room (h : nat) (b : op bstate) : op bstate := λ s,
  if fits h (stack s) then b s else None.

Definition b_val (h : nat) (v : json) : op bstate := room h (b_value v).
Definition b_mem (h : nat) (k : string) (v : json) : op bstate := room h (b_field k v).
Definition b_mems (h : nat) (l : list (string * json)) : op bstate := room h (b_fields l).
Definition b_els (h : nat) (l : list json) : op bstate := room h (b_elems l).

Lemma room_Some h b s s' :
  room h b s = Some s' ↔ (length (stack s) + h < max_depth)%nat ∧ b s = Some s'.
Proof.
  unfold room, fits. destruct (Nat.ltb_spec (length (stack s) + h) max_depth).
  - tauto.
  - split; [done|]. lia.
Qed.

(** [Elems o h l]: in an array, [o] writes the elements [l]. *)
Class Elems (o : op nx_json_t) (h : nat) (l : list json) : Prop :=
  elems_implements :: Implements o (b_els h l).

#[export] Instance elems_value o h v : Implements o (b_val h v) → Elems o h [v] | 5.
Proof.
  intros Ho. eapply implements_weaken; [exact Ho|].
  intros [b [|[kvs [k0|]|vs] st]] s'; unfold b_els, b_val; rewrite !room_Some; by intros [? ?].
Qed.

#[export] Instance elems_skip : Elems op_skip 0 [] | 1.
Proof.
  eapply implements_weaken; [apply implements_skip|].
  intros [b [|[kvs [k0|]|vs] st]] s'; unfold b_els; rewrite room_Some; intros [_ H];
    try done. unfold b_elems in H. simpl in H. by rewrite app_nil_r in H.
Qed.

#[export] Instance elems_seq o1 o2 h1 h2 l1 l2 :
  Elems o1 h1 l1 → Elems o2 h2 l2 → Elems (o1 ;; o2) (max h1 h2) (l1 ++ l2) | 3.
Proof.
  intros H1 H2. eapply implements_weaken; [by apply implements_seq; [exact H1|exact H2]|].
  intros [b [|[kvs [k0|]|vs] st]] s'; unfold b_els; rewrite room_Some; intros [Hb H];
    try done. unfold op_seq. apply bind_Some. unfold b_elems in H. simpl in *.
  exists (mk_b b (FArr (vs ++ l1) :: st)). rewrite !room_Some. simpl.
  unfold b_elems. simpl. rewrite <- (assoc_L (++)). repeat split; (done || lia).
Qed.

#[export] Instance elems_if (c : bool) o1 o2 h1 h2 l1 l2 :
  Elems o1 h1 l1 → Elems o2 h2 l2 →
  Elems (if c then o1 else o2) (max h1 h2) (if c then l1 else l2) | 2.
Proof.
  intros H1 H2. destruct c; (eapply implements_weaken; [eassumption|]);
    intros s s'; unfold b_els; rewrite !room_Some; intros [? ?]; split; (done || lia).
Qed.

(** A conditional block of elements in an array is a block of elements. *)
#[export] Instance implements_when_elems (c : bool) o h l :
  Elems o h l → Implements (if c then o else op_skip) (b_els (max h 0) (if c then l else [])) | 4.
Proof. intros. apply elems_if; apply _. Qed.

(** The same for the members of an object: [Fields o h l] says that [o] writes the
    members [l]. *)
Class Fields (o : op nx_json_t) (h : nat) (l : list (string * json)) : Prop :=
  fields_implements :: Implements o (b_mems h l).

#[export] Instance fields_one o k v : Implements o (b_field k v) → Fields o 0 [(k, v)] | 5.
Proof.
  intros Ho. eapply implements_weaken; [exact Ho|].
  intros [b [|[kvs [k0|]|vs] st]] s'; unfold b_mems; rewrite room_Some; by intros [? ?].
Qed.

#[export] Instance fields_skip : Fields op_skip 0 [] | 1.
Proof.
  eapply implements_weaken; [apply implements_skip|].
  intros [b [|[kvs [k0|]|vs] st]] s'; unfold b_mems; rewrite room_Some; intros [_ H];
    try done. unfold b_fields in H. simpl in H. by rewrite app_nil_r in H.
Qed.

#[export] Instance fields_seq o1 o2 h1 h2 l1 l2 :
  Fields o1 h1 l1 → Fields o2 h2 l2 → Fields (o1 ;; o2) (max h1 h2) (l1 ++ l2) | 3.
Proof.
  intros H1 H2. eapply implements_weaken; [by apply implements_seq; [exact H1|exact H2]|].
  intros [b [|[kvs [k0|]|vs] st]] s'; unfold b_mems; rewrite room_Some; intros [Hb H];
    try done. unfold op_seq. apply bind_Some. unfold b_fields in H. simpl in *.
  exists (mk_b b (FObj (kvs ++ l1) None :: st)). rewrite !room_Some. simpl.
  unfold b_fields. simpl. rewrite <- (assoc_L (++)). repeat split; (done || lia).
Qed.

(** A conditional block of members. *)
#[export] Instance implements_when_fields (c : bool) o h l :
  Fields o h l → Implements (if c then o else op_skip) (b_mems h (if c then l else [])) | 4.
Proof.
  intros Ho. destruct c; [exact Ho|]. eapply implements_weaken; [apply fields_skip|].
  intros s s'; unfold b_mems; rewrite !room_Some; intros [? ?]; split; (done || lia).
Qed.

(** Evaluates a builder program on a stack whose containers are known. *)
Ltac b_eval :=
  cbv beta iota zeta delta
    [op_seq op_skip b_key b_field b_fields b_elems b_value b_open b_close_object
     b_close_array b_val b_mem b_mems b_els room fits stack base mbind option_bind app
     length value_allowed andb ptr_text c_str NULL str_or_null
     Nat.ltb Nat.leb Nat.add Nat.sub Nat.max max_depth].

(** One stretch of the evaluation where the depth below the known containers
    is a variable: up to the next test of the room that is left. *)
Ltac b_stretch :=
  cbv beta iota zeta delta
    [op_seq op_skip b_key b_field b_fields b_elems b_value b_open b_close_object
     b_close_array b_val b_mem b_mems b_els room stack base mbind option_bind
     value_allowed andb ptr_text c_str NULL str_or_null].

Ltac b_reduce H :=
  b_stretch;
  repeat (rewrite ?fits_cons;
          match goal with
          | |- context [fits ?h ?st] => rewrite (fits_le _ h st H) by lia
          end; b_stretch).

(** Proves that a composite of builder operations does what one item does. *)
Ltac b_solve :=
  intros [? [|[? [?|]|?] ?]] ?;
  unfold b_val, b_mem, b_mems, b_els; unfold room at 1; cbn [stack base];
  let H := fresh "Hfits" in
  match goal with
  | |- (if fits ?h ?st then _ else _) = _ → _ => destruct (fits h st) eqn:H; [|done]
  end;
  rewrite ?fits_cons in H;
  intros Hstep; cbv [b_value b_field b_fields b_elems stack base] in Hstep;
  try discriminate Hstep; injection Hstep as <-;
  b_reduce H; rewrite <- ?(assoc_L (++)); try reflexivity.
