(* ===== verification/JsonProps.v ===== *)
(** The contract of the JSON writer: which sequences of calls are defined, and
    what the calls that serialise a value leave on the stream. *)

From S2P Require Import Prelude Json NxJson JsonText Builder.

Local Open Scope oracle_scope.

(** ** The API as a transition system *)

(** The functions [nx_json.h] exports. *)
Inductive api_call : Type :=
  | BeginObject | EndObject | BeginArray | EndArray
  | Key (k : char_ptr) | Str (v : char_ptr) | Int (z : Z) | Uint (z : Z)
  | Boolean (b : bool) | Null
  | KeyString (k v : char_ptr) | KeyStringOrNull (k v : char_ptr)
  | KeyInt (k : char_ptr) (z : Z) | KeyUint (k : char_ptr) (z : Z)
  | KeyBool (k : char_ptr) (b : bool) | KeyNull (k : char_ptr).

Definition exec (c : api_call) : op nx_json_t :=
  match c with
  | BeginObject => nx_json_begin_object
  | EndObject => nx_json_end_object
  | BeginArray => nx_json_begin_array
  | EndArray => nx_json_end_array
  | Key k => nx_json_key k
  | Str v => nx_json_string v
  | Int z => nx_json_int z
  | Uint z => nx_json_uint z
  | Boolean b => nx_json_bool b
  | Null => nx_json_null
  | KeyString k v => nx_json_key_string k v
  | KeyStringOrNull k v => nx_json_key_string_or_null k v
  | KeyInt k z => nx_json_key_int k z
  | KeyUint k z => nx_json_key_uint k z
  | KeyBool k b => nx_json_key_bool k b
  | KeyNull k => nx_json_key_null k
  end.

Fixpoint exec_all (l : list api_call) : op nx_json_t :=
  match l with [] => op_skip | c :: l' => exec c ;; exec_all l' end.

Definition closes (c : api_call) : bool :=
  match c with EndObject | EndArray => true | _ => false end.

(** Every state a sequence of calls on a fresh writer can lead to. *)
Inductive reachable : nx_json_t → Prop :=
  | reach_init out : reachable (nx_json_init out)
  | reach_call j c j' : reachable j → exec c j = Some j' → reachable j'.

(** The type invariant of [nx_json_t]. *)
Record writer_ok (j : nx_json_t) : Prop := {
  ok_flags : length (need_comma j) = max_depth;
  ok_depth : (depth j ≤ max_depth)%nat;
}.

(** *** What each call writes

    The text of a call, with a comma in front where a value precedes, and the flag it leaves:
    whether a value now precedes at the level it leaves. *)
Definition begins (c : api_call) : bool :=
  match c with BeginObject | BeginArray => true | _ => false end.
Definition is_key (c : api_call) : bool := match c with Key _ => true | _ => false end.

Definition member (k : char_ptr) (v : json) : string := quote (ptr_text k) +:+ ":" +:+ render v.
Definition call_text (c : api_call) : string :=
  match c with
  | BeginObject => "{" | EndObject => "}" | BeginArray => "[" | EndArray => "]"
  | Key k => quote (ptr_text k) +:+ ":"
  | Str v => render (JStr (ptr_text v))
  | Int z | Uint z => render (JInt z)
  | Boolean b => render (JBool b)
  | Null => render JNull
  | KeyString k v => member k (JStr (ptr_text v))
  | KeyStringOrNull k v => member k (str_or_null v)
  | KeyInt k z | KeyUint k z => member k (JInt z)
  | KeyBool k b => member k (JBool b)
  | KeyNull k => member k JNull
  end.

(** A value precedes; never outside of the containers. *)
Definition preceded (j : nx_json_t) : bool :=
  (0 <? depth j)%nat && match need_comma j !! depth j with Some b => b | None => false end.
Definition comma_text (j : nx_json_t) : string := if preceded j then "," else "".

(** There is no flag outside of the containers, nor at the 32nd level. *)
Definition mark (i : nat) (b : bool) (l : list bool) : list bool :=
  if (0 <? i)%nat && (i <? max_depth)%nat then <[i := b]> l else l.

(** The level after a call. *)
Definition next_depth (c : api_call) (d : nat) : nat :=
  if begins c then S d else if closes c then (d - 1)%nat else d.

Definition after (c : api_call) (j : nx_json_t) : nx_json_t :=
  mk_json (fp j +:+ (if closes c then "" else comma_text j) +:+ call_text c)
    (next_depth c (depth j))
    (mark (next_depth c (depth j)) (negb (begins c || is_key c)) (need_comma j)).

(** An operation that writes at the current level. *)
Definition writes (t : string) (b : bool) (o : op nx_json_t) : Prop := ∀ j, writer_ok j →
  o j = if (depth j <? max_depth)%nat
        then Some (mk_json (fp j +:+ comma_text j +:+ t) (depth j) (mark (depth j) b (need_comma j)))
        else None.

Lemma mark_length i b l : length (mark i b l) = length l.
Proof. unfold mark. case_match; [apply length_insert|done]. Qed.
Lemma mark_mark i b b' l : mark i b' (mark i b l) = mark i b' l.
Proof. unfold mark. case_match; [apply list_insert_insert_eq|done]. Qed.

Lemma comma_written j :
  writer_ok j →
  emit_comma_if_needed j = if (depth j <? max_depth)%nat then Some (fputs (comma_text j) j) else None.
Proof.
  intros [Hl Hd]. unfold emit_comma_if_needed, comma_text, preceded, get_comma.
  destruct (Nat.ltb_spec (depth j) max_depth) as [Hm|Hm].
  - destruct (Nat.ltb_spec 0 (depth j)); simpl; [|by rewrite fputs_empty].
    destruct (lookup_lt_is_Some_2 (need_comma j) (depth j)) as [b ->]; [lia|].
    destruct b; [done|by rewrite fputs_empty].
  - rewrite (proj2 (Nat.ltb_lt 0 (depth j))) by (unfold max_depth in *; lia).
    by rewrite (lookup_ge_None_2 (need_comma j)) by lia.
Qed.

Lemma flag_written s d b l :
  length l = max_depth → (d < max_depth)%nat →
  (if (0 <? d)%nat then set_comma d b (mk_json s d l) else Some (mk_json s d l)) =
  Some (mk_json s d (mark d b l)).
Proof.
  intros Hl Hd. unfold mark. rewrite (proj2 (Nat.ltb_lt d max_depth) Hd), andb_true_r.
  destruct (0 <? d)%nat; [|done]. by rewrite set_comma_ok by (simpl; lia).
Qed.

Lemma writes_scalar t : writes t true (emit_comma_if_needed ;; stm (fputs t) ;; mark_value_written).
Proof.
  intros j Hj. unfold op_seq, stm, mark_value_written. rewrite (comma_written j Hj). destruct Hj as [Hl Hd].
  destruct (Nat.ltb_spec (depth j) max_depth) as [Hm|]; [|done]. simpl. rewrite fputs_app.
  unfold fputs. simpl. by apply flag_written.
Qed.

Lemma writes_eq o o' t b : (∀ j, o j = o' j) → writes t b o' → writes t b o.
Proof. intros He Ho j Hj. rewrite He. by apply Ho. Qed.

Lemma writes_string v : writes (quote (ptr_text v)) true (nx_json_string v).
Proof.
  eapply writes_eq; [|apply writes_scalar].
  intros j. unfold nx_json_string, op_seq, stm. destruct (emit_comma_if_needed j); [|done]. simpl.
  unfold fputc, quote. by rewrite emit_escaped_fputs, !fputs_app; str_norm.
Qed.

Lemma writes_key k : writes (quote (ptr_text k) +:+ ":") false (nx_json_key k).
Proof.
  intros j Hj. unfold nx_json_key, op_seq, stm. rewrite (comma_written j Hj). destruct Hj as [Hl Hd].
  destruct (Nat.ltb_spec (depth j) max_depth) as [Hm|]; [|done]. simpl.
  unfold fputc. rewrite emit_escaped_fputs, !fputs_app.
  unfold fputs. simpl. rewrite flag_written by done. do 2 f_equal. unfold quote. by str_norm.
Qed.

Lemma writes_member k t o :
  writes t true o → writes (quote (ptr_text k) +:+ ":" +:+ t) true (nx_json_key k ;; o).
Proof.
  intros Ho j Hj. unfold op_seq. rewrite (writes_key k j Hj). destruct Hj as [Hl Hd].
  destruct (Nat.ltb_spec (depth j) max_depth) as [Hm|]; [|done]. simpl.
  rewrite Ho by (split; simpl; [by rewrite mark_length|lia]). simpl.
  rewrite (proj2 (Nat.ltb_lt _ _) Hm). rewrite mark_mark. do 2 f_equal.
  unfold comma_text at 2, preceded, mark. simpl. rewrite (proj2 (Nat.ltb_lt _ _) Hm), andb_true_r.
  destruct (Nat.ltb_spec 0 (depth j)); simpl; [|by str_norm].
  rewrite list_lookup_insert_eq by lia. by str_norm.
Qed.

Lemma exec_level c :
  begins c = false → closes c = false → writes (call_text c) (negb (is_key c)) (exec c).
Proof.
  destruct c as [| | | |k|v|z|z|b| |k v|k [v|]|k z|k z|k b|k]; intros Hb Hc; try done;
    first [apply writes_key | apply writes_string | apply writes_scalar
          | apply writes_member; first [apply writes_string|apply writes_scalar]].
Qed.

Lemma exec_begin ch j :
  writer_ok j →
  nx_json_begin ch j =
    if (depth j <? max_depth)%nat
    then Some (mk_json (fp j +:+ comma_text j +:+ str1 ch) (S (depth j)) (mark (S (depth j)) false (need_comma j)))
    else None.
Proof.
  intros Hj. unfold nx_json_begin, op_seq, stm. rewrite (comma_written j Hj). destruct Hj as [Hl Hd].
  destruct (Nat.ltb_spec (depth j) max_depth) as [Hm|]; [|done]. simpl.
  unfold fputc. rewrite fputs_app. unfold fputs, set_depth. simpl.
  destruct (Nat.ltb_spec (S (depth j)) max_depth) as [Hs|Hs].
  - by apply (flag_written _ (S (depth j)) false).
  - unfold mark. by rewrite (proj2 (Nat.ltb_ge _ _) Hs), andb_false_r.
Qed.

Lemma exec_end ch j :
  writer_ok j →
  nx_json_end ch j =
    Some (mk_json (fp j +:+ str1 ch) (depth j - 1) (mark (depth j - 1) true (need_comma j))).
Proof.
  intros [Hl Hd]. unfold nx_json_end, op_seq, stm, fputc, fputs, mark_value_written, set_depth. simpl.
  destruct (Nat.ltb_spec 0 (depth j)); simpl.
  - apply flag_written; [done|lia].
  - replace (depth j) with O by lia. done.
Qed.

Lemma exec_spec c j :
  writer_ok j →
  exec c j = if (depth j <? max_depth)%nat || closes c then Some (after c j) else None.
Proof.
  intros Hj. unfold after, next_depth.
  destruct (begins c) eqn:Eb; [|destruct (closes c) eqn:Ec].
  - assert (closes c = false) as -> by by destruct c. rewrite orb_false_r.
    assert (∃ ch, exec c = nx_json_begin ch ∧ call_text c = str1 ch) as (ch & -> & ->)
      by (destruct c; by eauto).
    by apply exec_begin.
  - rewrite orb_true_r.
    assert (∃ ch, exec c = nx_json_end ch ∧ call_text c = str1 ch ∧ is_key c = false) as (ch & -> & -> & ->)
      by (destruct c; by eauto).
    by apply exec_end.
  - rewrite orb_false_r. by apply exec_level.
Qed.

Lemma after_ok c j :
  writer_ok j → (depth j < max_depth)%nat ∨ closes c = true → writer_ok (after c j).
Proof.
  intros [Hl Hd] Hc. split; simpl; [by rewrite mark_length|]. unfold next_depth.
  destruct (begins c) eqn:Eb; [|destruct (closes c); lia].
  destruct Hc as [|Hc]; [lia|by destruct c].
Qed.

Lemma reachable_ok j : reachable j → writer_ok j.
Proof.
  induction 1 as [out|j c j' _ IH He]; [split; [done|simpl; lia]|].
  rewrite (exec_spec c j IH) in He. case_match eqn:E; [|done]. injection He as <-.
  apply after_ok; [done|]. apply orb_true_iff in E as [E%Nat.ltb_lt|E]; auto.
Qed.

Lemma no_raw_ok v : no_raw v = true → raw_ok v.
Proof.
  induction v as [|b|z|t|vs IH|kvs IH|r] using json_nested_ind; try done; simpl; intros Hv.
  - apply foldr_and_Forall. by apply (no_raw_Forall id vs raw_ok).
  - apply (foldr_and_Forall (λ kv, raw_ok kv.2)). by apply (no_raw_Forall snd kvs raw_ok).
Qed.

(** ** The properties *)

(** C4: in every state a sequence of calls can lead to, also one that JSON does not allow, the
    flag array has its 32 elements and the depth is at most 32.  A call is defined exactly if
    the depth is below 32 or the call closes a container; it appends its own text, escaped,
    after a comma if a value precedes at its level and it does not close, changes the depth by
    one level if it opens or closes, and leaves at the level it ends at, if it has a flag, that
    a value precedes, but after an opening and a key; no other flag changes. *)
Theorem writer_calls j c :
  reachable j →
  length (need_comma j) = max_depth ∧ (depth j ≤ max_depth)%nat ∧
  exec c j = if (depth j <? max_depth)%nat || closes c then Some (after c j) else None.
Proof.
  intros Hr. pose proof (reachable_ok j Hr) as Hj. destruct (Hj) as [Hl Hd].
  split; [done|]. split; [done|]. by apply exec_spec.
Qed.

Lemma writer_calls_witness :
  let j := mk_json "[1" 1 (mark 1 true (replicate max_depth false)) in
  reachable j ∧ exec (Key "k") j = Some (mk_json ("[1," +:+ quote "k" +:+ ":") 1 (replicate max_depth false)).
Proof.
  intros j.
  assert (reachable j) as Hj.
  { apply (reach_call (mk_json "[" 1 (replicate max_depth false)) (Int 1)); [|done].
    by apply (reach_call (nx_json_init "") BeginArray (mk_json "[" 1 (replicate max_depth false)));
      [constructor|]. }
  split; [exact Hj|]. exact (proj2 (proj2 (writer_calls j (Key "k") Hj))).
Defined.

(** C5: the calls that serialise a document nested less than 32 levels deep are
    all defined, and a JSON reader that is given the text they leave on the
    stream, with the newline a probe appends, reads the document back. *)
Theorem document_roundtrip v :
  no_raw v = true → (height v < max_depth)%nat →
  ∃ j, emit v (nx_json_init "") = Some j ∧ depth j = 0%nat ∧
       parse_doc (fp j +:+ str1 newline) = Some (denote v).
Proof.
  intros Hv Hh.
  destruct (emits_all v Hv (nx_json_init "") (mk_b "" []) (mk_b (render v) []))
    as (j & Hj & Hr); [apply represents_init|simpl; lia|done|].
  exists j. split; [done|]. destruct Hr as [Hfp Hd _ _ _]. simpl in *.
  split; [done|]. rewrite Hfp. by apply parse_render, no_raw_ok.
Qed.

Lemma document_roundtrip_witness :
  let v := JObj [("a", JArr [JInt (-3); JBool true; JNull]); ("b", JStr (str1 newline))] in
  no_raw v = true ∧ (height v < max_depth)%nat ∧
  ∃ j, emit v (nx_json_init "") = Some j ∧ depth j = 0%nat ∧
       parse_doc (fp j +:+ str1 newline) = Some (denote v).
Proof.
  split; [reflexivity|]. split; [simpl; unfold max_depth; lia|].
  apply document_roundtrip; [reflexivity|simpl; unfold max_depth; lia].
Defined.

(** ** The abstract builder as the specification *)

(** The call as the specification has it: [None] where JSON does not allow it. *)
Definition abstractly (c : api_call) : op bstate :=
  match c with
  | BeginObject => b_open (FObj [] None)
  | EndObject => b_close_object
  | BeginArray => b_open (FArr [])
  | EndArray => b_close_array
  | Key k => b_key (ptr_text k)
  | Str v => b_value (JStr (ptr_text v))
  | Int z | Uint z => b_value (JInt z)
  | Boolean b => b_value (JBool b)
  | Null => b_value JNull
  | KeyString k v => b_field (ptr_text k) (JStr (ptr_text v))
  | KeyStringOrNull k v => b_field (ptr_text k) (str_or_null v)
  | KeyInt k z | KeyUint k z => b_field (ptr_text k) (JInt z)
  | KeyBool k b => b_field (ptr_text k) (JBool b)
  | KeyNull k => b_field (ptr_text k) JNull
  end.

Fixpoint abstractly_all (l : list api_call) : op bstate :=
  match l with [] => op_skip | c :: l' => abstractly c ;; abstractly_all l' end.

#[export] Instance implements_call c : Implements (exec c) (abstractly c).
Proof. destruct c; apply _. Qed.

#[export] Instance implements_calls l : Implements (exec_all l) (abstractly_all l).
Proof. induction l; apply _. Qed.

(** C2: the writer refines the builder: every sequence of calls that the builder
    accepts is defined on the writer, which ends at the builder's depth and has
    written the text of what the builder has; and when that is one finished
    document, a JSON reader reads it back from the stream. *)
Theorem writer_refines_builder l out s :
  abstractly_all l (mk_b out []) = Some s →
  ∃ j, exec_all l (nx_json_init out) = Some j ∧
       depth j = length (stack s) ∧ fp j = text (base s) (stack s) ∧
       ∀ v, s = mk_b (render v) [] → no_raw v = true →
         parse_doc (fp j +:+ str1 newline) = Some (denote v).
Proof.
  intros Hl. destruct (implements_calls l _ _ _ (represents_init out) Hl) as (j & Hj & Hr).
  exists j. split; [done|]. destruct Hr as [Hfp Hd _ _ _].
  split; [done|]. split; [done|]. intros v -> Hv. rewrite Hfp.
  by apply parse_render, no_raw_ok.
Qed.

Lemma writer_refines_builder_witness :
  let l := [BeginObject; KeyInt (Some "n") (-1); Key (Some "l"); BeginArray; Boolean true;
            Null; EndArray; EndObject] in
  let v := JObj [("n", JInt (-1)); ("l", JArr [JBool true; JNull])] in
  abstractly_all l (mk_b "" []) = Some (mk_b (render v) []) ∧
  ∃ j, exec_all l (nx_json_init "") = Some j ∧
       parse_doc (fp j +:+ str1 newline) = Some (denote v).
Proof.
  intros l v. assert (abstractly_all l (mk_b "" []) = Some (mk_b (render v) [])) as Hl
    by reflexivity.
  split; [exact Hl|].
  destruct (writer_refines_builder l "" _ Hl) as (j & Hj & _ & _ & Hp).
  exists j. split; [exact Hj|]. exact (Hp v eq_refl eq_refl).
Defined.

(** The guard of the opening calls admits one level too many: thirty-two
    nested arrays are opened without complaint, and the next value written is
    an access of [need_comma[32]], past the end of the array. *)
Theorem nesting_limit :
  ∃ j, exec_all (replicate max_depth BeginArray) (nx_json_init "") = Some j ∧
       depth j = max_depth ∧ need_comma j !! depth j = None ∧
       nx_json_int 0 j = None ∧ nx_json_key "k" j = None.
Proof. eexists. split; [vm_compute; reflexivity|]. by vm_compute. Qed.
