(* ===== verification/MachApi.v ===== *)
(** The Mach interface as the probes see it: the calls, programs that make
    them, their execution by a kernel, and a logic for them.

    The kernel is not part of the repository.  A program is a tree of calls
    ([prog]); a kernel is any instance of [Kernel], and what a theorem needs of
    it is stated by a transition relation on an abstract state ([wp]).  The
    first argument of most calls, [mach_task_self()], is the calling task and
    is left out. *)

From S2P Require Import Prelude.

Local Open Scope Z_scope.

(** ** Types and constants of the interface *)

Abbreviation kern_return_t := Z (only parsing).
Abbreviation mach_msg_return_t := Z (only parsing).
Abbreviation mach_port_t := Z (only parsing).
Abbreviation mach_port_type_t := Z (only parsing).
Abbreviation mach_port_urefs_t := Z (only parsing).

(** The values of [nx_mach_utils.h], lines 31 to 77. *)
Definition MACH_PORT_NULL : Z := 0.
Definition KERN_SUCCESS : Z := 0.
Definition KERN_INVALID_ADDRESS : Z := 1.
Definition KERN_PROTECTION_FAILURE : Z := 2.
Definition KERN_NO_SPACE : Z := 3.
Definition KERN_INVALID_ARGUMENT : Z := 4.
Definition KERN_FAILURE : Z := 5.
Definition KERN_RESOURCE_SHORTAGE : Z := 6.
Definition KERN_NOT_RECEIVER : Z := 7.
Definition KERN_NO_ACCESS : Z := 8.
Definition KERN_INVALID_NAME : Z := 15.
Definition KERN_INVALID_RIGHT : Z := 17.
Definition KERN_INVALID_VALUE : Z := 18.
Definition KERN_UREFS_OVERFLOW : Z := 19.
Definition KERN_INVALID_CAPABILITY : Z := 20.
Definition KERN_NOT_SUPPORTED : Z := 46.
Definition MACH_MSG_SUCCESS : Z := 0.
Definition MACH_SEND_INVALID_DATA : Z := 0x10000002.
Definition MACH_SEND_INVALID_DEST : Z := 0x10000003.
Definition MACH_SEND_TIMED_OUT : Z := 0x10000004.
Definition MACH_SEND_INVALID_HEADER : Z := 0x10000010.
Definition MACH_SEND_INVALID_NOTIFY : Z := 0x1000000b.
Definition MACH_SEND_NO_BUFFER : Z := 0x1000000d.
Definition MACH_SEND_INVALID_RIGHT : Z := 0x10000009.
Definition MACH_SEND_INVALID_TYPE : Z := 0x1000000f.
Definition MACH_SEND_MSG_TOO_SMALL : Z := 0x10000008.
Definition MACH_RCV_INVALID_NAME : Z := 0x10004002.
Definition MACH_RCV_TIMED_OUT : Z := 0x10004003.
Definition MACH_RCV_TOO_LARGE : Z := 0x10004004.
Definition MACH_RCV_INVALID_DATA : Z := 0x10004008.
Definition MACH_RCV_HEADER_ERROR : Z := 0x1000400d.
Definition MACH_RCV_BODY_ERROR : Z := 0x1000400e.
Definition MACH_PORT_TYPE_SEND : Z := Z.shiftl 1 16.
Definition MACH_PORT_TYPE_RECEIVE : Z := Z.shiftl 1 17.
Definition MACH_PORT_TYPE_SEND_ONCE : Z := Z.shiftl 1 18.
Definition MACH_PORT_TYPE_PORT_SET : Z := Z.shiftl 1 19.
Definition MACH_PORT_TYPE_DEAD_NAME : Z := Z.shiftl 1 20.
Definition MACH_PORT_TYPE_SEND_RECEIVE : Z :=
  Z.lor MACH_PORT_TYPE_SEND MACH_PORT_TYPE_RECEIVE.
Definition MACH_PORT_RIGHT_SEND : Z := 0.
Definition MACH_PORT_RIGHT_RECEIVE : Z := 1.
Definition MACH_PORT_RIGHT_PORT_SET : Z := 3.
Definition MACH_MSG_TYPE_MAKE_SEND : Z := 20.
Definition MACH_MSG_PORT_DESCRIPTOR : Z := 0.

(** Constants and macros of the platform's Mach headers that the repository
    uses without defining them: a parameter of every probe. *)
Class MachSdk := {
  MACH_MSG_TYPE_MOVE_RECEIVE : Z;
  MACH_MSG_TYPE_MOVE_SEND : Z;
  MACH_MSG_TYPE_MOVE_SEND_ONCE : Z;
  MACH_MSG_TYPE_COPY_SEND : Z;
  MACH_MSG_TYPE_MAKE_SEND_ONCE : Z;
  MACH_SEND_MSG : Z;
  MACH_RCV_MSG : Z;
  MACH_SEND_TIMEOUT : Z;
  MACH_RCV_TIMEOUT : Z;
  MACH_MSGH_BITS_COMPLEX : Z;
  MACH_MSGH_BITS : Z → Z → Z;
  MACH_MSGH_BITS_REMOTE : Z → Z;
  MACH_MSGH_BITS_LOCAL : Z → Z;
  sizeof_mach_msg_header : Z;
  sizeof_mach_msg_body : Z;
  sizeof_mach_msg_port_descriptor : Z;
  sizeof_mach_msg_max_trailer : Z;
  MACH_PORT_RECEIVE_STATUS : Z;
  MACH_PORT_RECEIVE_STATUS_COUNT : Z;
  HOST_BASIC_INFO : Z;
  HOST_BASIC_INFO_COUNT : Z;
  MACH_TASK_BASIC_INFO : Z;
  MACH_TASK_BASIC_INFO_COUNT : Z;
  TASK_BOOTSTRAP_PORT : Z;
  MACH_PORT_RIGHT_SEND_ONCE : Z;
  MACH_PORT_RIGHT_DEAD_NAME : Z;
}.

(** The host a probe is compiled for and runs on: whether [__APPLE__] is
    defined, the task's own port, the process environment and the files. *)
Class Host := {
  APPLE : bool;
  mach_task_self : Z;
  getenv : string → option string;
  read_file : string → option string;
}.

(** An out-of-line array the kernel maps into the task: its address and its
    elements; the count the kernel returns is the number of elements. *)
Record vm_array := mk_array { addr : Z; elems : list Z }.

Record mach_msg_port_descriptor_t := mk_desc {
  desc_name : Z; desc_disposition : Z; desc_type : Z }.

(** A message buffer: header, and the body and descriptors of a complex one.  No
    probe has room for more than two. *)
Record mach_msg_buf := mk_msg {
  msgh_bits : Z;
  msgh_size : Z;
  msgh_remote_port : Z;
  msgh_local_port : Z;
  msgh_id : Z;
  msgh_descriptor_count : Z;
  msg_cargo : mach_msg_port_descriptor_t;
  msg_second : mach_msg_port_descriptor_t;
}.

Definition zero_desc : mach_msg_port_descriptor_t := mk_desc 0 0 0.
(** [memset(&msg, 0, sizeof(msg))] *)
Definition zero_msg : mach_msg_buf := mk_msg 0 0 0 0 0 0 zero_desc zero_desc.

Record mach_port_status_t := mk_status {
  st_pset : Z; st_seqno : Z; st_mscount : Z; st_qlimit : Z; st_msgcount : Z;
  st_sorights : Z; st_srights : bool; st_pdrequest : bool; st_nsrequest : bool;
  st_flags : Z }.

Record host_basic_info_t := mk_host_basic {
  hb_max_cpus : Z; hb_avail_cpus : Z; hb_cpu_type : Z; hb_cpu_subtype : Z;
  hb_cpu_threadtype : Z; hb_physical_cpu : Z; hb_physical_cpu_max : Z;
  hb_logical_cpu : Z; hb_logical_cpu_max : Z; hb_memory_size : Z; hb_max_mem : Z }.

Record task_basic_info_t := mk_task_basic {
  tb_suspend_count : Z; tb_policy : Z; tb_virtual_size : Z; tb_resident_size : Z;
  tb_user_seconds : Z; tb_user_microseconds : Z;
  tb_system_seconds : Z; tb_system_microseconds : Z }.

(** The result of [read] and [write]: an error, which is [EINTR] or not, or
    what was transferred. *)
Inductive io_result (A : Type) : Type :=
  | IoErr (eintr : bool)
  | IoOk (a : A).
Arguments IoErr {A} eintr.
Arguments IoOk {A} a.

(** ** Calls

    The Mach calls, and the POSIX ones of the probes with a child process.
    [sys_fork] answers 0 in the child.  A response carries the returned value
    and what the call leaves in its out parameters. *)
Inductive mach_call : Type → Type :=
  | mach_port_names : mach_call (kern_return_t * vm_array * vm_array)
  | vm_allocate (size : Z) : mach_call (kern_return_t * Z)
  | vm_deallocate (a size : Z) : mach_call kern_return_t
  | mach_port_allocate (right : Z) : mach_call (kern_return_t * mach_port_t)
  | mach_port_type (name : mach_port_t) : mach_call (kern_return_t * mach_port_type_t)
  | mach_port_get_refs (name : mach_port_t) (right : Z) :
      mach_call (kern_return_t * mach_port_urefs_t)
  | mach_port_insert_right (name poly : mach_port_t) (disp : Z) : mach_call kern_return_t
  | mach_port_extract_right (name : mach_port_t) (disp : Z) :
      mach_call (kern_return_t * mach_port_t * Z)
  | mach_port_mod_refs (name : mach_port_t) (right delta : Z) : mach_call kern_return_t
  | mach_port_deallocate (name : mach_port_t) : mach_call kern_return_t
  | mach_port_destroy (name : mach_port_t) : mach_call kern_return_t
  | mach_port_move_member (member after : mach_port_t) : mach_call kern_return_t
  | mach_port_get_attributes (name : mach_port_t) (flavor count : Z) :
      mach_call (kern_return_t * mach_port_status_t * Z)
  | mach_msg (msg : mach_msg_buf) (option send_size rcv_size : Z)
      (rcv_name : mach_port_t) (timeout : Z) (notify : mach_port_t) :
      mach_call (mach_msg_return_t * mach_msg_buf)
  | mach_host_self : mach_call mach_port_t
  | host_info (host : mach_port_t) (flavor count : Z) :
      mach_call (kern_return_t * host_basic_info_t * Z)
  | task_info (task : mach_port_t) (flavor count : Z) :
      mach_call (kern_return_t * task_basic_info_t * Z)
  | mach_absolute_time : mach_call Z
  | mach_timebase_info : mach_call (kern_return_t * (Z * Z))
  | task_get_special_port (which : Z) : mach_call (kern_return_t * mach_port_t)
  | task_set_special_port (which : Z) (port : mach_port_t) : mach_call kern_return_t
  | sys_pipe : mach_call (option (Z * Z))
  | sys_fork : mach_call Z
  | sys_close (fd : Z) : mach_call unit
  | sys_write (fd : Z) (buf : list Z) : mach_call (io_result nat)
  | sys_read (fd : Z) (len : nat) : mach_call (io_result (list Z))
  | sys_waitpid (pid : Z) : mach_call (Z * Z).

(** ** Programs *)

Inductive prog (A : Type) : Type :=
  | Ret (a : A)
  | Call {R : Type} (c : mach_call R) (k : R → prog A).
Arguments Ret {A} a.
Arguments Call {A R} c k.

#[export] Instance prog_ret : MRet prog := λ A, Ret.
#[export] Instance prog_bind : MBind prog := λ A B f,
  fix go p := match p with Ret a => f a | Call c k => Call c (λ r, go (k r)) end.

Definition call {R} (c : mach_call R) : prog R := Call c Ret.

(** [if (c) { ... }] around a call whose results have initial values. *)
Definition guarded {A} (c : bool) (init : A) (p : prog A) : prog A :=
  if c then p else mret init.

(** The out parameter of a routine that assigns it on success only, after
    [mach_port_t port = MACH_PORT_NULL]. *)
Definition out_port (kr : kern_return_t) (port : mach_port_t) : mach_port_t :=
  if kr =? KERN_SUCCESS then port else MACH_PORT_NULL.

(** ** Kernels *)

Class Kernel (W : Type) := handle : ∀ {R : Type}, mach_call R → W → R * W.

Fixpoint run {W} `{Kernel W} {A} (p : prog A) (w : W) : A * W :=
  match p with
  | Ret a => (a, w)
  | Call c k => let '(r, w') := handle c w in run (k r) w'
  end.

Lemma run_bind {W} `{Kernel W} {A B} (f : A → prog B) (p : prog A) w :
  run (p ≫= f) w = let '(a, w') := run p w in run (f a) w'.
Proof.
  revert w. induction p as [a|R c k IH]; intros w; simpl; [done|].
  destruct (handle c w) as [r w']. apply IH.
Qed.

(** ** A logic of programs

    [step c s r s'] says that from the abstract state [s] the call [c] may
    return [r] and lead to [s']; [pre c s] is what the program must ensure
    before it makes the call. *)
Section logic.
Context {S : Type}.
Variable pre : ∀ R, mach_call R → S → Prop.
Variable step : ∀ R, mach_call R → S → R → S → Prop.

Fixpoint wp {A} (p : prog A) (Q : A → S → Prop) (s : S) : Prop :=
  match p with
  | Ret a => Q a s
  | Call c k => pre _ c s ∧ ∀ r s', step _ c s r s' → wp (k r) Q s'
  end.

Lemma wp_mono {A} (p : prog A) (Q Q' : A → S → Prop) s :
  wp p Q s → (∀ a s', Q a s' → Q' a s') → wp p Q' s.
Proof.
  revert s. induction p as [a|R c k IH]; intros s; simpl; [auto|].
  intros [Hp Hk] HQ. split; [done|]. intros r s' Hr. eapply IH; eauto.
Qed.

Lemma wp_bind {A B} (f : A → prog B) (p : prog A) Q s :
  wp p (λ a, wp (f a) Q) s → wp (p ≫= f) Q s.
Proof.
  revert s. induction p as [a|R c k IH]; intros s; simpl; [done|].
  intros [Hp Hk]. split; [done|]. intros r s' Hr. by apply IH, Hk.
Qed.

Lemma wp_call {R} (c : mach_call R) Q s :
  pre _ c s → (∀ r s', step _ c s r s' → Q r s') → wp (call c) Q s.
Proof. by split. Qed.

Lemma wp_ret {A} (a : A) (Q : A → S → Prop) s : Q a s → wp (mret a) Q s.
Proof. done. Qed.

Lemma wp_guarded {A} (c : bool) (a : A) p Q s :
  (c = true → wp p Q s) → (c = false → Q a s) → wp (guarded c a p) Q s.
Proof. destruct c; simpl; auto. Qed.

(** One call of a program that runs beside others on a shared state. *)
Definition prog_step {A} (p : prog A) (s : S) (p' : prog A) (s' : S) : Prop :=
  match p with
  | Ret _ => False
  | Call c k => ∃ r, step _ c s r s' ∧ p' = k r
  end.

(** A kernel whose behaviour in healthy states, seen through [view], is
    described by [step] ends in a state and with a result that satisfy the
    postcondition. *)
Lemma wp_sound {W} `{Kernel W} (view : W → S) (healthy : W → Prop) :
  (∀ R (c : mach_call R) w, healthy w → pre _ c (view w) →
     step _ c (view w) (handle c w).1 (view (handle c w).2) ∧ healthy (handle c w).2) →
  ∀ A (p : prog A) Q w, healthy w → wp p Q (view w) →
    Q (run p w).1 (view (run p w).2) ∧ healthy (run p w).2.
Proof.
  intros Hk A p Q. induction p as [a|R c k IH]; intros w Hh; simpl; [done|].
  intros [Hp Hw]. destruct (Hk R c w Hh Hp) as [Hs Hh'].
  destruct (handle c w) as [r w']. simpl in *. by apply IH, Hw.
Qed.
End logic.
