(* ===== verification/NxMachUtils.v ===== *)
(** [macos-validation/probes/common/nx_mach_utils.{h,c}]: the snapshot of the
    task's port name space, its comparison, and the names of return codes and
    port types. *)

From stdpp Require Import sorting.
From S2P Require Import Prelude MachApi.

Local Open Scope Z_scope.

(** ** Baselines *)

Record nx_baseline_t := mk_baseline {
  names : vm_array;
  types : vm_array;
  valid : bool;
  kr : kern_return_t;
}.

Definition null_array : vm_array := mk_array 0 [].
(** [memset(b, 0, sizeof( *b))] *)
Definition zero_baseline : nx_baseline_t := mk_baseline null_array null_array false 0.

Definition names_count (b : nx_baseline_t) : Z := Z.of_nat (length (elems (names b))).
Definition types_count (b : nx_baseline_t) : Z := Z.of_nat (length (elems (types b))).

Definition sizeof_mach_port_name_t : Z := 4.
Definition sizeof_mach_port_type_t : Z := 4.

(** [ptr && count > 0] *)
Definition array_mapped (a : vm_array) : bool :=
  negb (addr a =? 0) && (0 <? Z.of_nat (length (elems a))).

Section baseline.
Context `{Host}.

Definition nx_baseline_capture : prog nx_baseline_t :=
  if APPLE then
    '(k, ns, ts) ← call mach_port_names;
    mret (mk_baseline ns ts (k =? KERN_SUCCESS) k)
  else mret (mk_baseline null_array null_array false KERN_FAILURE).

Definition nx_baseline_free (b : nx_baseline_t) : prog nx_baseline_t :=
  if APPLE then
    _ ← guarded (array_mapped (names b)) 0
          (call (vm_deallocate (addr (names b))
                   (names_count b * sizeof_mach_port_name_t)));
    _ ← guarded (array_mapped (types b)) 0
          (call (vm_deallocate (addr (types b))
                   (types_count b * sizeof_mach_port_type_t)));
    mret zero_baseline
  else mret zero_baseline.
End baseline.

(** The pointer arguments of the next three are never null in the program. *)
Definition nx_baseline_is_unsupported_gap (b : nx_baseline_t) : bool :=
  negb (valid b) && (kr b =? KERN_NOT_SUPPORTED).

Definition nx_baseline_blocks_probe (b : nx_baseline_t) : bool :=
  negb (valid b) && negb (nx_baseline_is_unsupported_gap b).

(** The inner loop: does entry [(nm, ty)] occur in [after]? *)
Definition entry_found (nm ty : Z) (after : list (Z * Z)) : bool :=
  existsb (λ '(n, t), (nm =? n) && (ty =? t)) after.

Definition entries (b : nx_baseline_t) : list (Z * Z) :=
  zip (elems (names b)) (elems (types b)).

(** Returns the result and the value stored in [*delta]. *)
Definition nx_baseline_compare (before after : nx_baseline_t) : bool * Z :=
  if nx_baseline_is_unsupported_gap before && nx_baseline_is_unsupported_gap after
  then (true, 0)
  else if negb (valid before) || negb (valid after) then (false, 0)
  else
    let d := s32 (names_count after) - s32 (names_count before) in
    if negb (d =? 0) || negb (types_count before =? names_count before)
       || negb (types_count after =? names_count after)
    then (false, d)
    else (forallb (λ '(nm, ty), entry_found nm ty (entries after)) (entries before), d).

(** ** Names of codes *)

Definition nx_kern_return_str (kr : kern_return_t) : string :=
  if kr =? KERN_SUCCESS then "KERN_SUCCESS"
  else if kr =? KERN_INVALID_ADDRESS then "KERN_INVALID_ADDRESS"
  else if kr =? KERN_PROTECTION_FAILURE then "KERN_PROTECTION_FAILURE"
  else if kr =? KERN_NO_SPACE then "KERN_NO_SPACE"
  else if kr =? KERN_INVALID_ARGUMENT then "KERN_INVALID_ARGUMENT"
  else if kr =? KERN_FAILURE then "KERN_FAILURE"
  else if kr =? KERN_RESOURCE_SHORTAGE then "KERN_RESOURCE_SHORTAGE"
  else if kr =? KERN_NOT_RECEIVER then "KERN_NOT_RECEIVER"
  else if kr =? KERN_NO_ACCESS then "KERN_NO_ACCESS"
  else if kr =? KERN_INVALID_NAME then "KERN_INVALID_NAME"
  else if kr =? KERN_INVALID_RIGHT then "KERN_INVALID_RIGHT"
  else if kr =? KERN_INVALID_VALUE then "KERN_INVALID_VALUE"
  else if kr =? KERN_UREFS_OVERFLOW then "KERN_UREFS_OVERFLOW"
  else if kr =? KERN_INVALID_CAPABILITY then "KERN_INVALID_CAPABILITY"
  else if kr =? KERN_NOT_SUPPORTED then "KERN_NOT_SUPPORTED"
  else snprintf 64 ("KERN_0x" +:+ fmt_x (u32 kr)).

Definition nx_msg_return_str (mr : mach_msg_return_t) : string :=
  if mr =? MACH_MSG_SUCCESS then "MACH_MSG_SUCCESS"
  else if mr =? MACH_SEND_INVALID_DATA then "MACH_SEND_INVALID_DATA"
  else if mr =? MACH_SEND_INVALID_DEST then "MACH_SEND_INVALID_DEST"
  else if mr =? MACH_SEND_TIMED_OUT then "MACH_SEND_TIMED_OUT"
  else if mr =? MACH_SEND_INVALID_HEADER then "MACH_SEND_INVALID_HEADER"
  else if mr =? MACH_SEND_INVALID_NOTIFY then "MACH_SEND_INVALID_NOTIFY"
  else if mr =? MACH_SEND_NO_BUFFER then "MACH_SEND_NO_BUFFER"
  else if mr =? MACH_SEND_INVALID_RIGHT then "MACH_SEND_INVALID_RIGHT"
  else if mr =? MACH_SEND_INVALID_TYPE then "MACH_SEND_INVALID_TYPE"
  else if mr =? MACH_SEND_MSG_TOO_SMALL then "MACH_SEND_MSG_TOO_SMALL"
  else if mr =? MACH_RCV_INVALID_NAME then "MACH_RCV_INVALID_NAME"
  else if mr =? MACH_RCV_TIMED_OUT then "MACH_RCV_TIMED_OUT"
  else if mr =? MACH_RCV_TOO_LARGE then "MACH_RCV_TOO_LARGE"
  else if mr =? MACH_RCV_INVALID_DATA then "MACH_RCV_INVALID_DATA"
  else if mr =? MACH_RCV_HEADER_ERROR then "MACH_RCV_HEADER_ERROR"
  else if mr =? MACH_RCV_BODY_ERROR then "MACH_RCV_BODY_ERROR"
  else snprintf 64 ("MACH_MSG_0x" +:+ fmt_x (u32 mr)).

Definition nx_port_type_str (type : mach_port_type_t) : string :=
  if type =? MACH_PORT_TYPE_SEND_RECEIVE then "MACH_PORT_TYPE_SEND_RECEIVE"
  else if type =? MACH_PORT_TYPE_SEND then "MACH_PORT_TYPE_SEND"
  else if type =? MACH_PORT_TYPE_RECEIVE then "MACH_PORT_TYPE_RECEIVE"
  else if type =? MACH_PORT_TYPE_SEND_ONCE then "MACH_PORT_TYPE_SEND_ONCE"
  else if type =? MACH_PORT_TYPE_PORT_SET then "MACH_PORT_TYPE_PORT_SET"
  else if type =? MACH_PORT_TYPE_DEAD_NAME then "MACH_PORT_TYPE_DEAD_NAME"
  else snprintf 128 ("MACH_PORT_TYPE_0x" +:+ fmt_x type).

(** ** Properties of the code names *)

Definition kern_return_table : list (string * Z) :=
  [("KERN_SUCCESS", KERN_SUCCESS); ("KERN_INVALID_ADDRESS", KERN_INVALID_ADDRESS);
   ("KERN_PROTECTION_FAILURE", KERN_PROTECTION_FAILURE); ("KERN_NO_SPACE", KERN_NO_SPACE);
   ("KERN_INVALID_ARGUMENT", KERN_INVALID_ARGUMENT); ("KERN_FAILURE", KERN_FAILURE);
   ("KERN_RESOURCE_SHORTAGE", KERN_RESOURCE_SHORTAGE);
   ("KERN_NOT_RECEIVER", KERN_NOT_RECEIVER); ("KERN_NO_ACCESS", KERN_NO_ACCESS);
   ("KERN_INVALID_NAME", KERN_INVALID_NAME); ("KERN_INVALID_RIGHT", KERN_INVALID_RIGHT);
   ("KERN_INVALID_VALUE", KERN_INVALID_VALUE);
   ("KERN_UREFS_OVERFLOW", KERN_UREFS_OVERFLOW);
   ("KERN_INVALID_CAPABILITY", KERN_INVALID_CAPABILITY);
   ("KERN_NOT_SUPPORTED", KERN_NOT_SUPPORTED)]%string.

Definition msg_return_table : list (string * Z) :=
  [("MACH_MSG_SUCCESS", MACH_MSG_SUCCESS);
   ("MACH_SEND_INVALID_DATA", MACH_SEND_INVALID_DATA);
   ("MACH_SEND_INVALID_DEST", MACH_SEND_INVALID_DEST);
   ("MACH_SEND_TIMED_OUT", MACH_SEND_TIMED_OUT);
   ("MACH_SEND_INVALID_HEADER", MACH_SEND_INVALID_HEADER);
   ("MACH_SEND_INVALID_NOTIFY", MACH_SEND_INVALID_NOTIFY);
   ("MACH_SEND_NO_BUFFER", MACH_SEND_NO_BUFFER);
   ("MACH_SEND_INVALID_RIGHT", MACH_SEND_INVALID_RIGHT);
   ("MACH_SEND_INVALID_TYPE", MACH_SEND_INVALID_TYPE);
   ("MACH_SEND_MSG_TOO_SMALL", MACH_SEND_MSG_TOO_SMALL);
   ("MACH_RCV_INVALID_NAME", MACH_RCV_INVALID_NAME);
   ("MACH_RCV_TIMED_OUT", MACH_RCV_TIMED_OUT);
   ("MACH_RCV_TOO_LARGE", MACH_RCV_TOO_LARGE);
   ("MACH_RCV_INVALID_DATA", MACH_RCV_INVALID_DATA);
   ("MACH_RCV_HEADER_ERROR", MACH_RCV_HEADER_ERROR);
   ("MACH_RCV_BODY_ERROR", MACH_RCV_BODY_ERROR)]%string.

Definition port_type_table : list (string * Z) :=
  [("MACH_PORT_TYPE_SEND_RECEIVE", MACH_PORT_TYPE_SEND_RECEIVE);
   ("MACH_PORT_TYPE_SEND", MACH_PORT_TYPE_SEND);
   ("MACH_PORT_TYPE_RECEIVE", MACH_PORT_TYPE_RECEIVE);
   ("MACH_PORT_TYPE_SEND_ONCE", MACH_PORT_TYPE_SEND_ONCE);
   ("MACH_PORT_TYPE_PORT_SET", MACH_PORT_TYPE_PORT_SET);
   ("MACH_PORT_TYPE_DEAD_NAME", MACH_PORT_TYPE_DEAD_NAME)]%string.

(** Walks down a chain of comparisons of one code. *)
Ltac code_cases :=
  repeat match goal with
  | |- context [if ?x =? ?y then _ else _] =>
      destruct (Z.eqb_spec x y) as [->|]; [reflexivity|]
  end.

Lemma kern_return_roundtrip kr :
  is_s32 kr →
  code_of_str kern_return_table "KERN_0x" (nx_kern_return_str kr) = Some (u32 kr).
Proof.
  intros Hk. unfold nx_kern_return_str. code_cases.
  apply code_of_str_hex; [apply u32_range|simpl; lia|repeat constructor].
Qed.

Lemma msg_return_roundtrip mr :
  is_s32 mr →
  code_of_str msg_return_table "MACH_MSG_0x" (nx_msg_return_str mr) = Some (u32 mr).
Proof.
  intros Hk. unfold nx_msg_return_str. code_cases.
  apply code_of_str_hex; [apply u32_range|simpl; lia|repeat constructor].
Qed.

Lemma port_type_roundtrip t :
  is_u32 t →
  code_of_str port_type_table "MACH_PORT_TYPE_0x" (nx_port_type_str t) = Some t.
Proof.
  intros Hk. unfold nx_port_type_str. code_cases.
  apply code_of_str_hex; [done|simpl; lia|repeat constructor].
Qed.

(** C30: the strings the reports show for 32-bit codes are faithful: every kernel
    return code, message return code and port type can be read back from its
    string, so no two values share one, extra type bits are never dropped, and
    the fixed-size buffers are never too small for the hexadecimal form. *)
Theorem code_names_roundtrip kr mr t :
  is_s32 kr → is_s32 mr → is_u32 t →
  code_of_str kern_return_table "KERN_0x" (nx_kern_return_str kr) = Some (u32 kr) ∧
  code_of_str msg_return_table "MACH_MSG_0x" (nx_msg_return_str mr) = Some (u32 mr) ∧
  code_of_str port_type_table "MACH_PORT_TYPE_0x" (nx_port_type_str t) = Some t.
Proof.
  intros. split; [by apply kern_return_roundtrip|].
  split; [by apply msg_return_roundtrip|by apply port_type_roundtrip].
Qed.

Lemma code_names_roundtrip_witness :
  is_s32 (-308) ∧ is_s32 0x10004003 ∧ is_u32 0x90000 ∧
  code_of_str kern_return_table "KERN_0x" (nx_kern_return_str (-308)) = Some 4294966988 ∧
  code_of_str msg_return_table "MACH_MSG_0x" (nx_msg_return_str 0x10004003)
    = Some 0x10004003 ∧
  code_of_str port_type_table "MACH_PORT_TYPE_0x" (nx_port_type_str 0x90000) = Some 0x90000.
Proof.
  split; [done|]. split; [done|]. split; [done|].
  apply (code_names_roundtrip (-308) 0x10004003 0x90000); done.
Defined.

(** ** Comparison of baselines *)

Lemma entry_found_elem nm ty l : entry_found nm ty l = true ↔ (nm, ty) ∈ l.
Proof.
  unfold entry_found. rewrite existsb_exists. setoid_rewrite <- list_elem_of_In. split.
  - intros ([n t] & Hin & [?%Z.eqb_eq ?%Z.eqb_eq]%andb_prop). by subst.
  - intros Hin. exists (nm, ty). by rewrite !Z.eqb_refl.
Qed.

Lemma zip_length_eq {A B} (l : list A) (k : list B) :
  length l = length k → length (zip l k) = length l.
Proof. intros. rewrite length_zip_with. lia. Qed.

Lemma NoDup_zip_l {A B} (l : list A) (k : list B) : NoDup l → NoDup (zip l k).
Proof.
  intros Hl. revert k. induction Hl as [|x l Hx Hl IH]; intros [|y k]; simpl;
    try constructor; [|apply IH].
  intros Hin. apply Hx. by eapply elem_of_zip_l.
Qed.

(** A snapshot the kernel took: as many types as names, no name twice, and
    the count fits its 32-bit type. *)
Record snapshot_ok (b : nx_baseline_t) : Prop := {
  snap_valid : valid b = true;
  snap_lengths : length (elems (types b)) = length (elems (names b));
  snap_nodup : NoDup (elems (names b));
  snap_count : is_u32 (names_count b);
}.

(** The pairwise search of the loop decides equality of name spaces. *)
Lemma nx_baseline_compare_entries before after :
  snapshot_ok before → snapshot_ok after →
  (nx_baseline_compare before after).1 = true ↔ entries before ≡ₚ entries after.
Proof.
  intros [Hv1 Hl1 Hn1 Hc1] [Hv2 Hl2 Hn2 Hc2].
  unfold nx_baseline_compare, nx_baseline_is_unsupported_gap. rewrite Hv1, Hv2. simpl.
  assert (types_count before = names_count before) as -> by (unfold types_count, names_count; lia).
  assert (types_count after = names_count after) as -> by (unfold types_count, names_count; lia).
  rewrite !Z.eqb_refl. simpl. rewrite !orb_false_r.
  destruct (Z.eqb_spec (s32 (names_count after) - s32 (names_count before)) 0) as [E|E]; simpl.
  - assert (names_count after = names_count before) as Hlen.
    { unfold s32, is_u32 in *.
      pose proof (Z.div_mod (names_count after + 2 ^ 31) (2 ^ 32) ltac:(lia)).
      pose proof (Z.div_mod (names_count before + 2 ^ 31) (2 ^ 32) ltac:(lia)). nia. }
    rewrite forallb_forall. setoid_rewrite <- list_elem_of_In. split.
    + intros Hall. apply submseteq_length_Permutation.
      * apply NoDup_submseteq; [by apply NoDup_zip_l|].
        intros [n t] Hin. apply entry_found_elem. exact (Hall _ Hin).
      * unfold entries. rewrite !zip_length_eq by done. unfold names_count in Hlen. lia.
    + intros Hp [n t] Hin. apply entry_found_elem. by rewrite <- Hp.
  - split; [done|]. intros Hp%Permutation_length. unfold entries in Hp.
    rewrite !zip_length_eq in Hp by done. exfalso. apply E. unfold names_count.
    rewrite Hp. lia.
Qed.

(** C28: for snapshots the kernel took, [nx_baseline_compare] decides whether the
    name space has the same names with the same types, in whatever order the
    kernel listed them, and stores the difference of the counts; snapshots that
    are not valid compare equal only when both are the gap of a kernel without
    [mach_port_names]. *)
Theorem nx_baseline_compare_decides before after b1 b2 :
  snapshot_ok before → snapshot_ok after → valid b1 && valid b2 = false →
  ((nx_baseline_compare before after).1 = true ↔ entries before ≡ₚ entries after) ∧
  (nx_baseline_compare before after).2 =
    s32 (names_count after) - s32 (names_count before) ∧
  nx_baseline_compare b1 b2 =
    (negb (valid b1) && negb (valid b2) && (kr b1 =? KERN_NOT_SUPPORTED) &&
     (kr b2 =? KERN_NOT_SUPPORTED), 0).
Proof.
  intros H1 H2 H3. split; [by apply nx_baseline_compare_entries|]. split.
  - destruct H1 as [Hv1 _ _ _], H2 as [Hv2 _ _ _].
    unfold nx_baseline_compare, nx_baseline_is_unsupported_gap. rewrite Hv1, Hv2. simpl.
    by destruct (_ || _).
  - unfold nx_baseline_compare, nx_baseline_is_unsupported_gap.
    destruct (valid b1), (valid b2); try done; simpl; rewrite ?andb_false_r; try done.
    by destruct (kr b1 =? _), (kr b2 =? _).
Qed.

Lemma nx_baseline_compare_decides_witness :
  let b := mk_baseline (mk_array 16 [259; 515]) (mk_array 32 [131072; 65536]) true 0 in
  let a := mk_baseline (mk_array 16 [515; 259]) (mk_array 32 [65536; 131072]) true 0 in
  let g := mk_baseline null_array null_array false KERN_NOT_SUPPORTED in
  snapshot_ok b ∧ snapshot_ok a ∧ valid g && valid g = false ∧
  ((nx_baseline_compare b a).1 = true ↔ entries b ≡ₚ entries a) ∧
  nx_baseline_compare g g = (true, 0).
Proof.
  intros b a g.
  assert (snapshot_ok b) as Hb by (split; [done|done| |done]; apply (bool_decide_unpack (NoDup _)); reflexivity).
  assert (snapshot_ok a) as Ha by (split; [done|done| |done]; apply (bool_decide_unpack (NoDup _)); reflexivity).
  do 3 (split; [done|]).
  destruct (nx_baseline_compare_decides b a g g Hb Ha eq_refl) as (H1 & _ & H3).
  by split.
Defined.
