(* ===== verification/Typed.v ===== *)
(** What the C types of the interface say of the answers of a kernel: return codes
    are [int]s, type bits, counts and message bits are unsigned words.  A property
    of what a program computes from such answers is proved along its calls, like
    the others, by the rules of [MachApi]. *)

From S2P Require Import Prelude MachApi NxMachUtils.

Local Open Scope Z_scope.

Definition message_typed (m : mach_msg_buf) : Prop :=
  is_u32 (msgh_bits m) ∧ is_u32 (msgh_size m) ∧ is_s32 (msgh_id m).

(** A snapshot has fewer than 2^31 names. *)
Definition reply_ok {R} (c : mach_call R) : R → Prop :=
  match c in mach_call R return R → Prop with
  | mach_port_names => λ '(k, ns, _), is_s32 k ∧ Z.of_nat (length (elems ns)) < 2 ^ 31
  | vm_allocate _ => λ '(k, _), is_s32 k
  | mach_port_allocate _ => λ '(k, _), is_s32 k
  | mach_port_type _ => λ '(k, t), is_s32 k ∧ is_u32 t
  | mach_port_get_refs _ _ => λ '(k, u), is_s32 k ∧ is_u32 u
  | mach_port_insert_right _ _ _ => is_s32
  | mach_port_extract_right _ _ => λ '(k, _, d), is_s32 k ∧ is_u32 d
  | mach_port_deallocate _ => is_s32
  | mach_port_destroy _ => is_s32
  | mach_msg _ _ _ _ _ _ _ => λ '(mr, m), is_s32 mr ∧ message_typed m
  | task_get_special_port _ => λ '(k, _), is_s32 k
  | _ => λ _, True
  end.

(** All answers a program gets are of their types. *)
Fixpoint replies_ok {W} `{Kernel W} {A} (p : prog A) (w : W) : Prop :=
  match p with
  | Ret _ => True
  | Call c k => let '(r, w') := handle c w in reply_ok c r ∧ replies_ok (k r) w'
  end.

Definition twp {A} (p : prog A) (Q : A → Prop) : Prop :=
  wp (S := unit) (λ _ _ _, True) (λ _ c _ r _, reply_ok c r) p (λ a _, Q a) tt.

Lemma twp_sound {W} `{Kernel W} {A} (p : prog A) (Q : A → Prop) w :
  twp p Q → replies_ok p w → Q (run p w).1.
Proof.
  unfold twp. revert w. induction p as [a|R c k IH]; intros w; simpl; [done|].
  intros [_ Hk]. destruct (handle c w) as [r w'] eqn:E. intros [Hr Hp].
  apply IH; [|done]. by apply (Hk r tt).
Qed.

Lemma twp_ret {A} (a : A) (Q : A → Prop) : Q a → twp (mret a) Q.
Proof. done. Qed.

Lemma twp_bind {A B} (f : A → prog B) (p : prog A) Q :
  twp p (λ a, twp (f a) Q) → twp (p ≫= f) Q.
Proof.
  intros Hp. apply wp_bind. eapply wp_mono; [exact Hp|]. by intros a [] Ha.
Qed.

Lemma twp_mono {A} (p : prog A) (P Q : A → Prop) :
  twp p P → (∀ a, P a → Q a) → twp p Q.
Proof. intros Hp HQ. eapply wp_mono; [exact Hp|]. intros a [] Ha. by apply HQ. Qed.

Lemma twp_call {R} (c : mach_call R) (Q : R → Prop) :
  (∀ r, reply_ok c r → Q r) → twp (call c) Q.
Proof. intros HQ. apply wp_call; [done|]. intros r [] Hr. by apply HQ. Qed.

Lemma twp_guarded {A} (c : bool) (a : A) p (Q : A → Prop) :
  twp p Q → Q a → twp (guarded c a p) Q.
Proof. by destruct c. Qed.

Definition baseline_typed (b : nx_baseline_t) : Prop :=
  is_s32 (kr b) ∧ names_count b < 2 ^ 31.

Section baselines.
Context `{Host}.

Lemma twp_capture (Q : nx_baseline_t → Prop) :
  (∀ b, baseline_typed b → Q b) → twp nx_baseline_capture Q.
Proof.
  intros HQ. unfold nx_baseline_capture. destruct APPLE.
  - apply twp_bind, twp_call. intros [[k ns] ts] [Hk Hn]. by apply twp_ret, HQ.
  - apply twp_ret, HQ. by vm_compute.
Qed.

Lemma twp_free b (Q : nx_baseline_t → Prop) :
  (∀ b', Q b') → twp (nx_baseline_free b) Q.
Proof.
  intros HQ. unfold nx_baseline_free. destruct APPLE; [|apply HQ].
  repeat first [ apply twp_bind | apply twp_guarded | apply twp_call; intros
               | apply twp_ret, HQ ].
Qed.
End baselines.

(** The difference of the counts is an [int]. *)
Lemma delta_range before after :
  baseline_typed before → baseline_typed after →
  is_s32 (nx_baseline_compare before after).2.
Proof.
  intros [_ Hb] [_ Ha]. unfold nx_baseline_compare, names_count in *.
  rewrite !s32_small by (unfold is_s32; lia).
  repeat case_match; cbn [snd]; unfold is_s32; lia.
Qed.

(** Executes one statement. *)
Ltac twp_step :=
  match goal with
  | |- twp (let '(_, _) := ?r in _) _ => destruct r
  | |- twp (_ ≫= _) _ => apply twp_bind
  | |- twp nx_baseline_capture _ => apply twp_capture; intros ? ?
  | |- twp (nx_baseline_free _) _ => apply twp_free; intros ?
  | |- twp (guarded _ _ _) _ => apply twp_guarded
  | |- twp (call _) _ => apply twp_call; intros ? ?
  | |- twp (mret _) _ => apply twp_ret
  end; cbn beta iota.

(** A constant is in the range of its type. *)
Lemma const_s32 z : bool_decide (- 2 ^ 31 ≤ z ∧ z < 2 ^ 31) = true → is_s32 z.
Proof. apply bool_decide_eq_true. Qed.
Lemma const_u32 z : bool_decide (0 ≤ z ∧ z < 2 ^ 32) = true → is_u32 z.
Proof. apply bool_decide_eq_true. Qed.

(** Values that are answers or constants have their types. *)
Ltac typed_tac :=
  repeat match goal with
         | H : reply_ok _ (_, _) |- _ => cbn in H
         | H : reply_ok _ ?r |- _ => first [is_var r; destruct r; cbn in H | cbn in H]
         | H : message_typed _ |- _ => unfold message_typed in H
         | H : _ ∧ _ |- _ => destruct H
         | |- _ ∧ _ => split
         end;
  cbn;
  first [assumption | apply const_s32; reflexivity | apply const_u32; reflexivity].
