(* ===== verification/Ledger.v ===== *)
(** Resource accounting for the probes, against an arbitrary kernel.

    The ledger records what a program holds: receive rights and port sets it
    allocated, send references and dead names it acquired, memory the kernel mapped into the
    task.  The kernel may answer anything; a program is safe when it releases
    only what it holds. *)

From stdpp Require Import gmultiset.
From S2P Require Import Prelude MachApi NxMachUtils.

Local Open Scope Z_scope.

Record ledger := mk_ledger {
  rights : gmultiset Z;
  sends : gmultiset Z;
  regions : gmultiset (Z * Z);
}.

Definition no_holdings : ledger := mk_ledger ∅ ∅ ∅.

(** The memory of an out-of-line array: what [nx_baseline_free] gives back. *)
Definition region (a : vm_array) : gmultiset (Z * Z) :=
  if array_mapped a then {[+ (addr a, Z.of_nat (length (elems a)) * 4) +]} else ∅.

(** All copies of [n] out of a multiset. *)
Definition drop_name (n : Z) (X : gmultiset Z) : gmultiset Z :=
  filter (λ x, x ≠ n) X.

(** A right the kernel put into the task, unless there is none or it is null. *)
Definition named (b : bool) (n : Z) : gmultiset Z :=
  if b && negb (n =? MACH_PORT_NULL) then {[+ n +]} else ∅.

(** [mach_port_allocate] makes receive rights, port sets and dead names; a dead
    name is given back like a send reference. *)
Definition dead_right (right : Z) : bool :=
  match right with 1 | 3 => false | _ => true end.

Lemma named_false n : named false n = ∅.
Proof. done. Qed.

Lemma named_out_port k n : named true (out_port k n) = named (k =? KERN_SUCCESS) n.
Proof. unfold named, out_port. by destruct (k =? KERN_SUCCESS). Qed.

(** What must be held before a call. *)
Definition holds {R} (c : mach_call R) (s : ledger) : bool :=
  match c with
  | vm_deallocate a n => bool_decide ((a, n) ∈ regions s)
  | mach_port_destroy n => bool_decide (n ∈ rights s)
  | mach_port_deallocate n => bool_decide (n ∈ sends s)
  | mach_port_mod_refs n _ _ => bool_decide (n ∈ sends s)
  | mach_port_insert_right n _ _ => bool_decide (n ∈ rights s)
  | mach_port_extract_right n _ => bool_decide (n ∈ rights s)
  | mach_port_move_member n _ => bool_decide (n ∈ rights s)
  | task_set_special_port _ n =>
      (n =? MACH_PORT_NULL) || bool_decide (n ∈ sends s)
  | _ => true
  end.

(** The ledger after a call and its answer.  Giving something back counts
    whatever the answer is; acquiring counts when the call succeeded. *)
Definition account {R} (c : mach_call R) : R → ledger → ledger :=
  match c in mach_call R return R → ledger → ledger with
  | mach_port_names => λ '(k, ns, ts) s,
      mk_ledger (rights s) (sends s) (regions s ⊎ (region ns ⊎ region ts))
  | vm_allocate n => λ '(k, a) s,
      mk_ledger (rights s) (sends s)
        (regions s ⊎ (if k =? KERN_SUCCESS then {[+ (a, n) +]} else ∅))
  | vm_deallocate a n => λ _ s,
      mk_ledger (rights s) (sends s) (regions s ∖ {[+ (a, n) +]})
  | mach_port_allocate rt => λ '(k, n) s,
      if dead_right rt then mk_ledger (rights s) (sends s ⊎ named (k =? KERN_SUCCESS) n) (regions s)
      else mk_ledger (rights s ⊎ (if k =? KERN_SUCCESS then {[+ n +]} else ∅)) (sends s)
        (regions s)
  | mach_port_insert_right _ p _ => λ k s,
      mk_ledger (rights s) (sends s ⊎ (if k =? KERN_SUCCESS then {[+ p +]} else ∅))
        (regions s)
  | mach_port_extract_right _ _ => λ '(k, n, _) s,
      mk_ledger (rights s) (sends s ⊎ named (k =? KERN_SUCCESS) n) (regions s)
  | mach_port_mod_refs n _ d => λ k s,
      mk_ledger (rights s)
        (if d <? 0 then sends s ∖ (Z.to_nat (- d) *: {[+ n +]})
         else if k =? KERN_SUCCESS then sends s ⊎ (Z.to_nat d *: {[+ n +]})
         else sends s)
        (regions s)
  | mach_port_deallocate n => λ _ s,
      mk_ledger (rights s) (sends s ∖ {[+ n +]}) (regions s)
  | mach_port_destroy n => λ _ s,
      mk_ledger (rights s ∖ {[+ n +]}) (drop_name n (sends s)) (regions s)
  | mach_host_self => λ n s,
      mk_ledger (rights s) (sends s ⊎ {[+ n +]}) (regions s)
  | task_get_special_port _ => λ '(k, n) s,
      mk_ledger (rights s) (sends s ⊎ named (k =? KERN_SUCCESS) n) (regions s)
  | sys_fork => λ pid s, if pid =? 0 then mk_ledger ∅ ∅ (regions s) else s
  | _ => λ _ s, s
  end.

(** The rights a received message carries into the task, for the programs whose
    receive buffer has a port descriptor. *)
Definition carried (m : mach_msg_buf) : gmultiset Z :=
  named (1 <=? msgh_descriptor_count m) (desc_name (msg_cargo m)) ⊎
  named (2 <=? msgh_descriptor_count m) (desc_name (msg_second m)).

Lemma no_carried m : msgh_descriptor_count m = 0 → carried m = ∅.
Proof. unfold carried. intros ->. unfold named. simpl. multiset_solver. Qed.

Lemma one_carried m :
  msgh_descriptor_count m ≤ 1 →
  carried m = named (1 <=? msgh_descriptor_count m) (desc_name (msg_cargo m)).
Proof.
  unfold carried. intros Hc. replace (2 <=? msgh_descriptor_count m) with false by lia.
  unfold named at 2. simpl. multiset_solver.
Qed.

Definition account_carried {R} (c : mach_call R) : R → ledger → ledger :=
  match c in mach_call R return R → ledger → ledger with
  | mach_msg _ _ _ rcv_size _ _ _ => λ '(mr, m) s,
      mk_ledger (rights s)
        (sends s ⊎ (if (mr =? MACH_MSG_SUCCESS) && (0 <? rcv_size) then carried m else ∅))
        (regions s)
  | c => account c
  end.

Section run_with.
Variable acc : ∀ R, mach_call R → R → ledger → ledger.

(** Executes a program under a kernel and keeps the ledger; [None] when the
    program makes a call it is not entitled to. *)
Fixpoint run_with {W} `{Kernel W} {A} (p : prog A) (w : W) (s : ledger) :
    option (A * W * ledger) :=
  match p with
  | Ret a => Some (a, w, s)
  | Call c k =>
      if holds c s then
        let '(r, w') := handle c w in run_with (k r) w' (acc _ c r s)
      else None
  end.

Definition l_pre R (c : mach_call R) (s : ledger) : Prop := holds c s = true.
Definition l_step R (c : mach_call R) (s : ledger) (r : R) (s' : ledger) : Prop :=
  s' = acc _ c r s.
Abbreviation lwp := (wp l_pre l_step).
Abbreviation run_ledger := run_with.

Lemma lwp_run {W} `{Kernel W} {A} (p : prog A) (Q : A → ledger → Prop) w s :
  lwp p Q s → ∃ a w' s', run_ledger p w s = Some (a, w', s') ∧ Q a s'.
Proof.
  revert w s. induction p as [a|R c k IH]; intros w s; simpl; [eauto 10|].
  unfold l_pre at 1. intros [-> Hk]. destruct (handle c w) as [r w']. by apply IH, Hk.
Qed.

(** Keeping the ledger does not change what is executed. *)
Lemma run_ledger_run {W} `{Kernel W} {A} (p : prog A) w s a w' s' :
  run_ledger p w s = Some (a, w', s') → run p w = (a, w').
Proof.
  revert w s. induction p as [b|R c k IH]; intros w s; simpl; [congruence|].
  destruct (holds c s); [|done]. destruct (handle c w) as [r w1]. apply IH.
Qed.

Lemma run_ledger_bind {W} `{Kernel W} {A B} (p : prog A) (f : A → prog B) w s a w' s' :
  run_ledger p w s = Some (a, w', s') →
  run_ledger (p ≫= f) w s = run_ledger (f a) w' s'.
Proof.
  revert w s. induction p as [b|R c k IH]; intros w s; simpl; [congruence|].
  destruct (holds c s); [|done]. destruct (handle c w) as [r w1]. apply IH.
Qed.

(** A program in two parts, the second of which gives back what the first
    holds and computes its result from the first's. *)
Lemma lwp_two_parts {A B} (p : prog A) (f : A → prog B) (r : A → B)
    (P : A → ledger → Prop) :
  lwp p P no_holdings →
  (∀ a s, P a s → lwp (f a) (λ b s', b = r a ∧ s' = no_holdings) s) →
  ∀ W (K : Kernel W) w, ∃ w',
    run_ledger (p ≫= f) w no_holdings = Some (r (run p w).1, w', no_holdings).
Proof.
  intros Hp Hf W K w.
  destruct (lwp_run p P w no_holdings Hp) as (a & w1 & s1 & Hr & HP).
  destruct (lwp_run (f a) _ w1 s1 (Hf a s1 HP)) as (b & w2 & s2 & Hr2 & -> & ->).
  exists w2. rewrite (run_ledger_bind _ _ _ _ _ _ _ Hr), Hr2.
  by rewrite (run_ledger_run _ _ _ _ _ _ Hr).
Qed.

(** Three parts: what the kernel answered in the first may be known when the
    second is run. *)
Lemma lwp_three_parts {W} `{Kernel W} {A B C} (p : prog A) (f : A → prog B)
    (g : B → prog C) (r : B → C) (P : A → ledger → Prop) (R : B → ledger → Prop) w :
  lwp p P no_holdings →
  (∀ s, P (run p w).1 s → lwp (f (run p w).1) R s) →
  (∀ b s, R b s → lwp (g b) (λ c s', c = r b ∧ s' = no_holdings) s) →
  ∃ w', run_ledger ((p ≫= f) ≫= g) w no_holdings =
    Some (r (run (p ≫= f) w).1, w', no_holdings).
Proof.
  intros Hp Hf Hg.
  destruct (lwp_run p P w no_holdings Hp) as (a & w1 & s1 & Hr & HP).
  rewrite (run_ledger_run _ _ _ _ _ _ Hr) in Hf.
  destruct (lwp_run (f a) _ w1 s1 (Hf s1 HP)) as (b & w2 & s2 & Hr2 & HR).
  destruct (lwp_run (g b) _ w2 s2 (Hg b s2 HR)) as (c & w3 & s3 & Hr3 & -> & ->).
  assert (run_ledger (p ≫= f) w no_holdings = Some (b, w2, s2)) as Hpf
    by (by rewrite (run_ledger_bind _ _ _ _ _ _ _ Hr)).
  exists w3. rewrite (run_ledger_bind _ _ _ _ _ _ _ Hpf), Hr3.
  by rewrite (run_ledger_run _ _ _ _ _ _ Hpf).
Qed.

(** The same for programs that are safe when what the kernel answers is as the
    program takes for granted: [T] says so of the result. *)
Definition safe_if {A} (p : prog A) (T : A → Prop) (Q : A → ledger → Prop) (s : ledger) :
    Prop :=
  ∀ W (K : Kernel W) w, T (run p w).1 →
    ∃ w' s', run_ledger p w s = Some ((run p w).1, w', s') ∧ Q (run p w).1 s'.

Lemma safe_if_lwp {A} (p : prog A) (T : A → Prop) (Q : A → ledger → Prop) s :
  lwp p Q s → safe_if p T Q s.
Proof.
  intros Hp W K w _. destruct (lwp_run p Q w s Hp) as (a & w' & s' & Hr & HQ).
  rewrite (run_ledger_run _ _ _ _ _ _ Hr). simpl. eauto.
Qed.

(** What is taken for granted of the result must follow for the first part. *)
Lemma safe_if_bind {A B} (p : prog A) (f : A → prog B) (T : A → Prop) (T' : B → Prop)
    (P : A → ledger → Prop) (Q : B → ledger → Prop) s :
  safe_if p T P s →
  (∀ a W (K : Kernel W) w, T' (run (f a) w).1 → T a) →
  (∀ a s', T a → P a s' → safe_if (f a) T' Q s') →
  safe_if (p ≫= f) T' Q s.
Proof.
  intros Hp HT Hf W K w. rewrite run_bind. destruct (run p w) as [a w1] eqn:E.
  intros HT'. specialize (HT a W K w1 HT').
  destruct (Hp W K w) as (w' & s' & Hr & HP); [by rewrite E|].
  rewrite E in Hr, HP. simpl in *. pose proof (run_ledger_run _ _ _ _ _ _ Hr) as E'.
  rewrite E in E'. injection E' as <-.
  rewrite (run_ledger_bind _ _ _ _ _ _ _ Hr). by apply Hf.
Qed.

(** A program in two parts, as in [lwp_two_parts]. *)
Lemma safe_if_two_parts {W} `{Kernel W} {A B} (p : prog A) (f : A → prog B) (r : A → B)
    (T : A → Prop) (P : A → ledger → Prop) w :
  safe_if p T P no_holdings →
  (∀ a s, P a s → lwp (f a) (λ b s', b = r a ∧ s' = no_holdings) s) →
  T (run p w).1 →
  ∃ w', run_ledger (p ≫= f) w no_holdings = Some (r (run p w).1, w', no_holdings).
Proof.
  intros Hp Hf HT. destruct (Hp W _ w HT) as (w1 & s1 & Hr & HP).
  destruct (lwp_run (f _) _ w1 s1 (Hf _ _ HP)) as (b & w2 & s2 & Hr2 & -> & ->).
  exists w2. by rewrite (run_ledger_bind _ _ _ _ _ _ _ Hr).
Qed.
End run_with.
Arguments safe_if_two_parts {acc W _ A B} p f r T P w _ _ _.
Arguments safe_if acc {A} p T Q s.
Arguments safe_if_lwp {acc A} p T Q s _.
Arguments safe_if_bind {acc A B} p f T T' P Q s _ _ _.
Arguments lwp_run {acc W _ A} p Q w s _.
Arguments run_ledger_bind {acc W _ A B} p f w s a w' s' _.
Arguments lwp_two_parts {acc A B} p f r P _ _ W K w.
Arguments lwp_three_parts {acc W _ A B C} p f g r P R w _ _ _.
Abbreviation run_ledger := (run_with (@account)).
Abbreviation lwp := (wp l_pre (l_step (@account))).

(** ** Multisets of names *)

Section drop_name.
Variable n : Z.

Lemma multiplicity_drop_name m X :
  multiplicity m (drop_name n X) = if decide (m = n) then 0%nat else multiplicity m X.
Proof. unfold drop_name. rewrite multiplicity_filter. repeat case_decide; done. Qed.

Lemma drop_name_empty : drop_name n ∅ = ∅.
Proof.
  apply gmultiset_eq. intros x. rewrite multiplicity_drop_name, multiplicity_empty.
  by case_decide.
Qed.

Lemma drop_name_disj_union X Y : drop_name n (X ⊎ Y) = drop_name n X ⊎ drop_name n Y.
Proof.
  apply gmultiset_eq. intros x.
  rewrite multiplicity_disj_union, !multiplicity_drop_name, multiplicity_disj_union.
  case_decide; lia.
Qed.

Lemma drop_name_difference X Y : drop_name n (X ∖ Y) = drop_name n X ∖ drop_name n Y.
Proof.
  apply gmultiset_eq. intros x.
  rewrite multiplicity_difference, !multiplicity_drop_name, multiplicity_difference.
  case_decide; lia.
Qed.

Lemma drop_name_singleton : drop_name n {[+ n +]} = ∅.
Proof.
  apply gmultiset_eq. intros x.
  rewrite multiplicity_drop_name, multiplicity_empty. case_decide; [done|].
  by apply multiplicity_singleton_ne.
Qed.

Lemma drop_name_if (b : bool) :
  drop_name n (if b then {[+ n +]} else ∅) = ∅.
Proof. destruct b; [apply drop_name_singleton|apply drop_name_empty]. Qed.
End drop_name.

Lemma rights_cancel (X : gmultiset Z) n : (X ⊎ {[+ n +]}) ∖ {[+ n +]} = X.
Proof. multiset_solver. Qed.

(** ** Baselines *)

Definition baseline_regions (b : nx_baseline_t) : gmultiset (Z * Z) :=
  region (names b) ⊎ region (types b).

(** Off the platform a snapshot is the empty one. *)
Definition captured `{Host} (b : nx_baseline_t) : Prop :=
  APPLE = false → b = mk_baseline null_array null_array false KERN_FAILURE.

Definition add_regions (X : gmultiset (Z * Z)) (s : ledger) : ledger :=
  mk_ledger (rights s) (sends s) (regions s ⊎ X).

(** Accounts that differ only in what messages carry. *)
Class KeepsSnapshots (acc : ∀ R, mach_call R → R → ledger → ledger) := {
  acc_names r s : acc _ mach_port_names r s = account mach_port_names r s;
  acc_vm a n r s : acc _ (vm_deallocate a n) r s = account (vm_deallocate a n) r s;
}.
#[export] Instance account_snapshots : KeepsSnapshots (@account).
Proof. by split. Qed.
#[export] Instance carried_snapshots : KeepsSnapshots (@account_carried).
Proof. by split. Qed.
#[export] Hint Extern 0 (KeepsSnapshots _) => apply _ : core.

Section baselines.
Context `{Host} (acc : ∀ R, mach_call R → R → ledger → ledger) `{!KeepsSnapshots acc}.
Abbreviation lwp := (wp l_pre (l_step acc)).

Lemma lwp_capture (Q : nx_baseline_t → ledger → Prop) s :
  (∀ b, captured b → Q b (add_regions (baseline_regions b) s)) →
  lwp nx_baseline_capture Q s.
Proof.
  intros HQ. unfold nx_baseline_capture, captured in *. destruct APPLE.
  - apply wp_bind, wp_call; [done|]. intros [[k ns] ts] s' ->. rewrite acc_names.
    by apply HQ.
  - apply wp_ret.
    specialize (HQ (mk_baseline null_array null_array false KERN_FAILURE) ltac:(done)).
    unfold add_regions, baseline_regions in HQ. simpl in HQ.
    replace (regions s ⊎ (region null_array ⊎ region null_array)) with (regions s)
      in HQ by (unfold region; simpl; multiset_solver).
    by destruct s.
Qed.

Lemma lwp_free_array a (Q : Z → ledger → Prop) X s :
  regions s = X ⊎ region a →
  (∀ k, Q k (mk_ledger (rights s) (sends s) X)) →
  lwp (guarded (array_mapped a) 0
         (call (vm_deallocate (addr a) (Z.of_nat (length (elems a)) * 4)))) Q s.
Proof.
  intros Hs HQ. unfold region in Hs.
  apply wp_guarded; intros E; rewrite E in Hs.
  - apply wp_call.
    + apply bool_decide_eq_true. simpl. rewrite Hs. multiset_solver.
    + intros k s' ->. rewrite acc_vm. simpl. rewrite Hs.
      replace ((X ⊎ {[+ (addr a, Z.of_nat (length (elems a)) * 4) +]})
        ∖ {[+ (addr a, Z.of_nat (length (elems a)) * 4) +]}) with X
        by multiset_solver. apply HQ.
  - destruct s as [r sd rg]; simpl in *. replace rg with X by multiset_solver. apply HQ.
Qed.

Lemma lwp_free b (Q : nx_baseline_t → ledger → Prop) X s :
  captured b → regions s = X ⊎ baseline_regions b →
  Q zero_baseline (mk_ledger (rights s) (sends s) X) →
  lwp (nx_baseline_free b) Q s.
Proof.
  intros Hb Hs HQ. unfold nx_baseline_free, captured, baseline_regions in *.
  destruct APPLE.
  - apply wp_bind. eapply (lwp_free_array _ _ (X ⊎ region (types b)));
      [rewrite Hs; multiset_solver|]. intros _.
    apply wp_bind. eapply (lwp_free_array _ _ X); [done|]. intros _. by apply wp_ret.
  - rewrite Hb in Hs by done. unfold region in Hs. simpl in Hs.
    destruct s as [r sd rg]; simpl in *. replace rg with X by multiset_solver.
    exact HQ.
Qed.

(** The same, for a snapshot anywhere among what is held. *)
Lemma lwp_free_held b (Q : nx_baseline_t → ledger → Prop) s :
  captured b → baseline_regions b ⊆ regions s →
  Q zero_baseline (mk_ledger (rights s) (sends s) (regions s ∖ baseline_regions b)) →
  lwp (nx_baseline_free b) Q s.
Proof.
  intros Hb Hs HQ. eapply lwp_free; [done| |exact HQ].
  rewrite (gmultiset_disj_union_difference (baseline_regions b) (regions s)) at 1 by done.
  multiset_solver.
Qed.

(** The last two statements of every probe. *)
Lemma lwp_tail {A} (r : A) b1 b2 (Q : A → ledger → Prop) s :
  captured b1 → captured b2 →
  s = mk_ledger ∅ ∅ (baseline_regions b1 ⊎ baseline_regions b2) →
  Q r no_holdings →
  lwp (_ ← nx_baseline_free b1; _ ← nx_baseline_free b2; mret r) Q s.
Proof.
  intros H1 H2 -> HQ. apply wp_bind.
  eapply (lwp_free _ _ (baseline_regions b2)); [done|simpl; multiset_solver|].
  apply wp_bind. eapply (lwp_free _ _ ∅); [done|simpl; multiset_solver|].
  by apply wp_ret.
Qed.
Lemma lwp_tail3 {A} (r : A) b1 b2 b3 (Q : A → ledger → Prop) s :
  captured b1 → captured b2 → captured b3 →
  s = mk_ledger ∅ ∅ (baseline_regions b1 ⊎ baseline_regions b2 ⊎ baseline_regions b3) →
  Q r no_holdings →
  lwp (_ ← nx_baseline_free b1; _ ← nx_baseline_free b2; _ ← nx_baseline_free b3; mret r) Q s.
Proof.
  intros H1 H2 H3 -> HQ. apply wp_bind.
  eapply (lwp_free _ _ (baseline_regions b2 ⊎ baseline_regions b3));
    [done|simpl; multiset_solver|]. by eapply lwp_tail.
Qed.
Lemma lwp_tail4 {A} (r : A) b1 b2 b3 b4 (Q : A → ledger → Prop) s :
  captured b1 → captured b2 → captured b3 → captured b4 →
  s = mk_ledger ∅ ∅ (baseline_regions b1 ⊎ baseline_regions b2 ⊎ baseline_regions b3 ⊎
                     baseline_regions b4) →
  Q r no_holdings →
  lwp (_ ← nx_baseline_free b1; _ ← nx_baseline_free b2; _ ← nx_baseline_free b3;
       _ ← nx_baseline_free b4; mret r) Q s.
Proof.
  intros H1 H2 H3 H4 -> HQ. apply wp_bind.
  eapply (lwp_free _ _ (baseline_regions b2 ⊎ baseline_regions b3 ⊎ baseline_regions b4));
    [done|simpl; multiset_solver|]. by eapply lwp_tail3.
Qed.
End baselines.

(** ** Symbolic execution *)

(** Evaluates the ledger of a path: the conditions that were passed decide
    what each call acquired. *)
Ltac ledger_norm :=
  cbv beta iota delta [account account_carried add_regions no_holdings rights sends regions holds
    dead_right MACH_PORT_RIGHT_RECEIVE MACH_PORT_RIGHT_PORT_SET];
  repeat match goal with
  | E : ?c = true |- context [if ?c then _ else _] => rewrite E
  | E : ?c = false |- context [if ?c then _ else _] => rewrite E
  end;
  cbn [Z.ltb Z.compare Z.opp Z.to_nat Pos.to_nat Pos.iter_op];
  rewrite ?gmultiset_scalar_mul_1;
  repeat first
    [ rewrite drop_name_disj_union | rewrite drop_name_difference
    | rewrite drop_name_singleton | rewrite drop_name_empty | rewrite drop_name_if ].

(** A call's precondition, and the ledger at the end of a path. *)
Ltac ledger_pre :=
  unfold l_pre; ledger_norm;
  first [reflexivity | apply bool_decide_eq_true; multiset_solver].
Ltac ledger_eq :=
  ledger_norm;
  match goal with |- mk_ledger _ _ _ = mk_ledger _ _ _ => f_equal; multiset_solver end.

(** Executes one statement.  Conditions that contradict what is known close
    the branch. *)
Ltac lwp_step :=
  match goal with
  | |- wp _ _ (let '(_, _) := ?r in _) _ _ => destruct r
  | |- wp _ _ (_ ≫= _) _ _ => apply wp_bind
  | |- wp _ (l_step ?acc) nx_baseline_capture _ _ => apply (lwp_capture acc); intros ? ?
  | |- wp _ (l_step ?acc) (nx_baseline_free _) _ _ =>
      apply (lwp_free_held acc); [assumption|ledger_norm; multiset_solver|]
  | |- wp _ _ (guarded ?c _ _) _ _ =>
      let E := fresh "E" in
      apply wp_guarded; intros E; try (exfalso; (discriminate E || congruence)); split_guards
  | |- wp _ _ (call ?c) _ _ => apply wp_call; [ | intros ? ? ->]
  | |- wp _ _ (mret _) _ _ => apply wp_ret
  end; cbn beta iota.

Ltac lwp_exec :=
  repeat lwp_step;
  match goal with
  | |- l_pre _ _ _ => ledger_pre
  | |- _ => idtac
  end.
