(* ===== verification/MachContract.v ===== *)
(** The documented behaviour of the Mach calls the probes make, as a contract
    between a probe and a kernel.

    [contract_step c s r s'] describes one call: [s] is the port name space of
    the calling task.  It leaves open what the documentation leaves open, and
    what the probes do not depend on.  [MachContract W] says that the kernel
    [W] keeps the contract; it is a hypothesis of the conformance theorems. *)

From stdpp Require Import gmap.
From S2P Require Import Prelude MachApi NxMachUtils.

Local Open Scope Z_scope.

(** ** Port name spaces *)

(** What the object behind a name is, as far as the probes care. *)
Inductive object := Port | HostPort | TaskPort.
#[export] Instance object_eq_dec : EqDecision object.
Proof. solve_decision. Defined.

(** What a name denotes: a receive right or port set, and the user references
    of its send right; the port set a receive right is in, the messages queued
    and the number of messages received; the user references of a dead name. *)
Record entry := mk_entry {
  e_obj : object;
  e_recv : bool;
  e_pset : bool;
  e_send : Z;
  e_in : Z;
  e_queue : list mach_msg_buf;
  e_seqno : Z;
  e_dead : Z;
}.

Abbreviation space := (gmap Z entry).

(** [mach_port_allocate] makes receive rights, port sets and dead names. *)
Definition fresh_entry (rt : Z) : entry :=
  mk_entry Port (rt =? MACH_PORT_RIGHT_RECEIVE) (rt =? MACH_PORT_RIGHT_PORT_SET)
    0 MACH_PORT_NULL [] 0
    (if (rt =? MACH_PORT_RIGHT_RECEIVE) || (rt =? MACH_PORT_RIGHT_PORT_SET) then 0 else 1).
(** The host port, before the task has a right to it. *)
Definition host_entry : entry := mk_entry HostPort false false 0 MACH_PORT_NULL [] 0 0.

Definition add_send (d : Z) (e : entry) : entry :=
  mk_entry (e_obj e) (e_recv e) (e_pset e) (e_send e + d) (e_in e) (e_queue e) (e_seqno e)
    (e_dead e).
Definition set_in (p : Z) (e : entry) : entry :=
  mk_entry (e_obj e) (e_recv e) (e_pset e) (e_send e) p (e_queue e) (e_seqno e)
    (e_dead e).
Definition enqueue (m : mach_msg_buf) (e : entry) : entry :=
  mk_entry (e_obj e) (e_recv e) (e_pset e) (e_send e) (e_in e) (e_queue e ++ [m])
    (e_seqno e) (e_dead e).
Definition dequeue (e : entry) : entry :=
  mk_entry (e_obj e) (e_recv e) (e_pset e) (e_send e) (e_in e) (tail (e_queue e))
    (e_seqno e + 1) (e_dead e).
Definition add_dead (d : Z) (e : entry) : entry :=
  mk_entry (e_obj e) (e_recv e) (e_pset e) (e_send e) (e_in e) (e_queue e) (e_seqno e)
    (e_dead e + d).

Definition type_bits (e : entry) : Z :=
  Z.lor (if 0 <? e_send e then MACH_PORT_TYPE_SEND else 0)
    (Z.lor (if e_recv e then MACH_PORT_TYPE_RECEIVE else 0)
           (Z.lor (if e_pset e then MACH_PORT_TYPE_PORT_SET else 0)
                  (if 0 <? e_dead e then MACH_PORT_TYPE_DEAD_NAME else 0))).

Definition right_refs `{MachSdk} (rt : Z) (e : entry) : Z :=
  if rt =? MACH_PORT_RIGHT_SEND then e_send e
  else if rt =? MACH_PORT_RIGHT_RECEIVE then (if e_recv e then 1 else 0)
  else if rt =? MACH_PORT_RIGHT_PORT_SET then (if e_pset e then 1 else 0)
  else if rt =? MACH_PORT_RIGHT_DEAD_NAME then e_dead e
  else 0.

(** A name with nothing behind it disappears. *)
Definition alive (e : entry) : bool := e_recv e || e_pset e || (0 <? e_send e) || (0 <? e_dead e).
Definition put (n : Z) (e : entry) (s : space) : space :=
  if alive e then <[n := e]> s else delete n s.

Definition UREFS_MAX : Z := 65535.

(** The name that stands for a right whose port is gone; it is in no name space. *)
Definition MACH_PORT_DEAD : Z := 2 ^ 32 - 1.
Definition valid_name (n : Z) : Prop := n ≠ MACH_PORT_NULL ∧ n ≠ MACH_PORT_DEAD.

(** A port name has 24 bits of index, so a task has no more names than that. *)
Definition max_names : Z := 2 ^ 24.

(** Snapshots of a name space. *)
Definition lists_space (s : space) (ns ts : list Z) : Prop :=
  length ts = length ns ∧ NoDup ns ∧ Z.of_nat (length ns) ≤ max_names ∧
  ∀ n t, (n, t) ∈ zip ns ts ↔ ∃ e, s !! n = Some e ∧ t = type_bits e.

(** No name denotes nothing, and none has a negative reference count. *)
Definition space_ok (s : space) : Prop :=
  ∀ n e, s !! n = Some e → alive e = true ∧ 0 ≤ e_send e ∧ 0 ≤ e_dead e.

(** No port is a member of [p]. *)
Definition no_members (p : Z) (s : space) : Prop :=
  ∀ n e, s !! n = Some e → e_in e ≠ p.

(** ** The contract *)

(** What differs between the kernels: whether [mach_port_names] is implemented
    (one target answers [KERN_NOT_SUPPORTED]), and which names the kernel
    chooses for new rights. *)
Record platform := mk_platform {
  names_supported : bool;
  kernel_name : Z → Prop;
}.

Section contract.
Context `{MachSdk}.
Variable pf : platform.

Definition msg_send_option : Z := Z.lor MACH_SEND_MSG MACH_SEND_TIMEOUT.
Definition msg_rcv_option : Z := Z.lor MACH_RCV_MSG MACH_RCV_TIMEOUT.

(** A simple message to a port whose receive right the task holds itself. *)
Definition send_to_self (m : mach_msg_buf) (s : space) (mr : Z) (s' : space) : Prop :=
  ∀ e, msgh_bits m = MACH_MSGH_BITS MACH_MSG_TYPE_COPY_SEND 0 →
    msgh_size m = sizeof_mach_msg_header →
    s !! msgh_remote_port m = Some e → e_recv e = true → 0 < e_send e →
    e_queue e = [] →
    mr = MACH_MSG_SUCCESS ∧
    s' = <[msgh_remote_port m := enqueue m e]> s.

(** The same, with a reference of the send right that the message takes along. *)
Definition send_moving (m : mach_msg_buf) (s : space) (mr : Z) (s' : space) : Prop :=
  ∀ e, msgh_bits m = MACH_MSGH_BITS MACH_MSG_TYPE_MOVE_SEND 0 →
    msgh_size m = sizeof_mach_msg_header →
    s !! msgh_remote_port m = Some e → e_recv e = true → 0 < e_send e →
    e_queue e = [] →
    mr = MACH_MSG_SUCCESS ∧
    s' = <[msgh_remote_port m := enqueue m (add_send (-1) e)]> s.

(** A disposition that no right can be sent with. *)
Definition invalid_disposition (d : Z) : Prop :=
  d ∉ [MACH_MSG_TYPE_MOVE_RECEIVE; MACH_MSG_TYPE_MOVE_SEND; MACH_MSG_TYPE_MOVE_SEND_ONCE;
       MACH_MSG_TYPE_COPY_SEND; MACH_MSG_TYPE_MAKE_SEND; MACH_MSG_TYPE_MAKE_SEND_ONCE].

(** A message with a descriptor of such a disposition is not sent, and no right
    changes. *)
Definition send_invalid (m : mach_msg_buf) (s : space) (mr : Z) (s' : space) : Prop :=
  msgh_bits m = Z.lor (MACH_MSGH_BITS MACH_MSG_TYPE_COPY_SEND 0) MACH_MSGH_BITS_COMPLEX →
  msgh_descriptor_count m = 1 → desc_type (msg_cargo m) = MACH_MSG_PORT_DESCRIPTOR →
  invalid_disposition (desc_disposition (msg_cargo m)) →
  mr ≠ MACH_MSG_SUCCESS ∧ s' = s.

(** A message that moves the one reference of a send right twice is not sent;
    whether the reference is gone is left open. *)
Definition send_overdrawn (m : mach_msg_buf) (s : space) (mr : Z) (s' : space) : Prop :=
  ∀ n e, msgh_bits m = Z.lor (MACH_MSGH_BITS MACH_MSG_TYPE_COPY_SEND 0) MACH_MSGH_BITS_COMPLEX →
    msgh_descriptor_count m = 2 →
    msg_cargo m = mk_desc n MACH_MSG_TYPE_MOVE_SEND MACH_MSG_PORT_DESCRIPTOR →
    msg_second m = mk_desc n MACH_MSG_TYPE_MOVE_SEND MACH_MSG_PORT_DESCRIPTOR →
    s !! n = Some e → e_recv e = true → e_send e = 1 →
    mr ≠ MACH_MSG_SUCCESS ∧ (s' = s ∨ s' = <[n := add_send (-1) e]> s).

(** A message with one descriptor that is to move a send right. *)
Definition moves_one (m : mach_msg_buf) (n : Z) : Prop :=
  msgh_bits m = Z.lor (MACH_MSGH_BITS MACH_MSG_TYPE_COPY_SEND 0) MACH_MSGH_BITS_COMPLEX ∧
  msgh_size m = sizeof_mach_msg_header + sizeof_mach_msg_body +
    sizeof_mach_msg_port_descriptor ∧
  msgh_descriptor_count m = 1 ∧
  msg_cargo m = mk_desc n MACH_MSG_TYPE_MOVE_SEND MACH_MSG_PORT_DESCRIPTOR.

(** A name that denotes nothing cannot be moved. *)
Definition send_nothing (m : mach_msg_buf) (s : space) (mr : Z) (s' : space) : Prop :=
  ∀ n, moves_one m n → valid_name n → s !! n = None →
    mr = MACH_SEND_INVALID_RIGHT ∧ s' = s.

(** A dead name can: the message takes one of its references along. *)
Definition without_port (m : mach_msg_buf) : mach_msg_buf :=
  mk_msg (msgh_bits m) (msgh_size m) (msgh_remote_port m) (msgh_local_port m) (msgh_id m)
    (msgh_descriptor_count m)
    (mk_desc MACH_PORT_DEAD (desc_disposition (msg_cargo m)) (desc_type (msg_cargo m)))
    (msg_second m).
Definition send_dead (m : mach_msg_buf) (s : space) (mr : Z) (s' : space) : Prop :=
  ∀ n e ed, moves_one m n → n ≠ msgh_remote_port m →
    s !! msgh_remote_port m = Some e → e_recv e = true → 0 < e_send e → e_queue e = [] →
    s !! n = Some ed → 0 < e_dead ed →
    mr = MACH_MSG_SUCCESS ∧
    s' = <[msgh_remote_port m := enqueue (without_port m) e]> (put n (add_dead (-1) ed) s).

(** The descriptor of a message that was received: where the port is gone, the
    name is [MACH_PORT_DEAD]. *)
Definition descriptor_arrives (m m' : mach_msg_buf) : Prop :=
  msgh_descriptor_count m = 1 → desc_name (msg_cargo m) = MACH_PORT_DEAD →
  msgh_descriptor_count m' = 1 ∧ desc_name (msg_cargo m') = MACH_PORT_DEAD.

(** Receiving from a receive right: its first message, or a time-out. *)
Definition receive_from (n rcv_size : Z) (s : space) (mr : Z) (m' : mach_msg_buf)
    (s' : space) : Prop :=
  ∀ e, s !! n = Some e → e_recv e = true → e_pset e = false → e_in e = MACH_PORT_NULL →
    match e_queue e with
    | [] => sizeof_mach_msg_header + sizeof_mach_msg_max_trailer ≤ rcv_size →
        mr = MACH_RCV_TIMED_OUT ∧ s' = s
    | m :: _ => msgh_size m + sizeof_mach_msg_max_trailer ≤ rcv_size →
        mr = MACH_MSG_SUCCESS ∧ msgh_local_port m' = n ∧ msgh_id m' = msgh_id m ∧
        descriptor_arrives m m' ∧ s' = <[n := dequeue e]> s
    end.

(** Receiving from a port set with a single member that has messages: the
    message names the member as its local port. *)
Definition receive_from_set (p rcv_size : Z) (s : space) (mr : Z) (m' : mach_msg_buf)
    (s' : space) : Prop :=
  ∀ ep n e m q, s !! p = Some ep → e_pset ep = true →
    s !! n = Some e → e_recv e = true → e_in e = p → e_queue e = m :: q →
    (∀ n' e', s !! n' = Some e' → e_in e' = p → n' = n) →
    msgh_size m + sizeof_mach_msg_max_trailer ≤ rcv_size →
    mr = MACH_MSG_SUCCESS ∧ msgh_local_port m' = n ∧ msgh_id m' = msgh_id m ∧
    s' = <[n := dequeue e]> s.

(** The attributes of a receive right. *)
Definition status_of (e : entry) (st : mach_port_status_t) : Prop :=
  st_pset st = e_in e ∧ st_seqno st = e_seqno e ∧
  st_msgcount st = Z.of_nat (length (e_queue e)) ∧ st_sorights st = 0 ∧
  st_srights st = (0 <? e_send e).

(** The flavors the probes use as invalid ones. *)
Definition invalid_port_flavor : Z := 0xff.
Definition invalid_info_flavor : Z := 0xffffff.

Definition contract_step {R} (c : mach_call R) (s : space) : R → space → Prop :=
  match c in mach_call R return R → space → Prop with
  | mach_port_names => λ '(k, ns, ts) s', s' = s ∧
      if names_supported pf then k = KERN_SUCCESS ∧ lists_space s (elems ns) (elems ts)
      else k = KERN_NOT_SUPPORTED
  | vm_allocate _ | vm_deallocate _ _ => λ _ s', s' = s
  | mach_port_allocate rt => λ '(k, n) s',
      (k ≠ KERN_SUCCESS ∧ s' = s) ∨
      (k = KERN_SUCCESS ∧ valid_name n ∧ kernel_name pf n ∧ s !! n = None ∧
       no_members n s ∧ s' = <[n := fresh_entry rt]> s)
  | mach_port_type n => λ '(k, t) s', s' = s ∧
      (∀ e, s !! n = Some e → k = KERN_SUCCESS ∧ t = type_bits e) ∧
      (valid_name n → s !! n = None → k = KERN_INVALID_NAME)
  | mach_port_get_refs n rt => λ '(k, u) s', s' = s ∧
      (∀ e, s !! n = Some e → k = KERN_SUCCESS ∧ u = right_refs rt e) ∧
      (valid_name n → s !! n = None → k = KERN_INVALID_NAME)
  | mach_port_insert_right n p d => λ k s',
      ∀ e, n = p → d = MACH_MSG_TYPE_MAKE_SEND → s !! n = Some e → e_recv e = true →
        e_send e < UREFS_MAX → k = KERN_SUCCESS ∧ s' = <[n := add_send 1 e]> s
  | mach_port_mod_refs n rt d => λ k s',
      ∀ e, rt = MACH_PORT_RIGHT_SEND → s !! n = Some e → 0 < e_send e →
        0 ≤ e_send e + d ≤ UREFS_MAX → k = KERN_SUCCESS ∧ s' = put n (add_send d e) s
  | mach_port_deallocate n => λ k s',
      (n = MACH_PORT_NULL → s' = s) ∧ (n = MACH_PORT_DEAD → k = KERN_SUCCESS ∧ s' = s) ∧
      (valid_name n → s !! n = None → k = KERN_INVALID_NAME ∧ s' = s) ∧
      ∀ e, n ≠ MACH_PORT_NULL → s !! n = Some e → 0 < e_send e →
        k = KERN_SUCCESS ∧ s' = put n (add_send (-1) e) s
  | mach_port_destroy n => λ k s',
      ∀ e, s !! n = Some e → no_members n s → k = KERN_SUCCESS ∧ s' = delete n s
  | mach_port_move_member m p => λ k s',
      ∀ e, s !! m = Some e → e_recv e = true →
        (p = MACH_PORT_NULL ∧ e_in e ≠ MACH_PORT_NULL ∨
         p ≠ MACH_PORT_NULL ∧ ∃ ep, s !! p = Some ep ∧ e_pset ep = true) →
        k = KERN_SUCCESS ∧ s' = <[m := set_in p e]> s
  | mach_port_get_attributes n flavor count => λ '(k, st, count') s', s' = s ∧
      (flavor = invalid_port_flavor → k ≠ KERN_SUCCESS) ∧
      (s !! n = None → k ≠ KERN_SUCCESS) ∧
      (flavor = MACH_PORT_RECEIVE_STATUS → count = MACH_PORT_RECEIVE_STATUS_COUNT →
       ∀ e, s !! n = Some e → e_recv e = true →
         k = KERN_SUCCESS ∧ count' = MACH_PORT_RECEIVE_STATUS_COUNT ∧ status_of e st)
  | mach_msg m option _ rcv_size rcv_name _ _ => λ '(mr, m') s',
      (option = msg_send_option →
         send_to_self m s mr s' ∧ send_moving m s mr s' ∧ send_invalid m s mr s' ∧
         send_overdrawn m s mr s' ∧ send_nothing m s mr s' ∧ send_dead m s mr s') ∧
      (option = msg_rcv_option →
         receive_from rcv_name rcv_size s mr m' s' ∧
         receive_from_set rcv_name rcv_size s mr m' s')
  | mach_host_self => λ n s',
      (n = MACH_PORT_NULL ∧ s' = s) ∨
      (n ≠ MACH_PORT_NULL ∧
       (∀ n' e', s !! n' = Some e' → e_obj e' = HostPort → n' = n) ∧
       ∃ e, (s !! n = Some e ∧ e_obj e = HostPort ∨ s !! n = None ∧ e = host_entry) ∧
            (e_send e < UREFS_MAX → s' = <[n := add_send 1 e]> s))
  | host_info host flavor count => λ '(k, info, count') s', s' = s ∧
      (host = MACH_PORT_NULL → k ≠ KERN_SUCCESS) ∧
      (flavor = invalid_info_flavor → k ≠ KERN_SUCCESS) ∧
      (flavor = HOST_BASIC_INFO → count = HOST_BASIC_INFO_COUNT → host ≠ MACH_PORT_NULL →
       ∀ e, s !! host = Some e → e_obj e = HostPort → 0 < e_send e → k = KERN_SUCCESS)
  | task_info task flavor count => λ '(k, info, count') s', s' = s ∧
      (task = MACH_PORT_NULL → k ≠ KERN_SUCCESS) ∧
      (flavor = invalid_info_flavor → k ≠ KERN_SUCCESS) ∧
      (flavor = MACH_TASK_BASIC_INFO → count = MACH_TASK_BASIC_INFO_COUNT →
       task ≠ MACH_PORT_NULL →
       ∀ e, s !! task = Some e → e_obj e = TaskPort → 0 < e_send e →
         k = KERN_SUCCESS ∧ count' = MACH_TASK_BASIC_INFO_COUNT)
  | mach_absolute_time => λ _ s', s' = s
  | mach_timebase_info => λ '(k, (numer, denom)) s', s' = s ∧
      k = KERN_SUCCESS ∧ 0 < numer < 2 ^ 31 ∧ 0 < denom < 2 ^ 31
  | _ => λ _ _, True
  end.
End contract.

(** The interface: a kernel whose states, when they are healthy, are seen
    through [view] as name spaces, and which keeps the contract and stays
    healthy. *)
Class MachContract (W : Type) `{MachSdk} `{Kernel W} := {
  view : W → space;
  healthy : W → Prop;
  kernel_platform : platform;
  view_ok : ∀ w, healthy w → space_ok (view w);
  contract : ∀ R (c : mach_call R) w, healthy w →
    contract_step kernel_platform c (view w) (handle c w).1 (view (handle c w).2) ∧
    healthy (handle c w).2;
}.

(** ** Rules of the logic, one per call *)

Section rules.
Context `{MachSdk}.
Variable pf : platform.

Definition c_pre R (_ : mach_call R) (_ : space) : Prop := True.
Definition c_step R (c : mach_call R) (s : space) (r : R) (s' : space) : Prop :=
  contract_step pf c s r s'.
Abbreviation cwp := (wp c_pre c_step).

Lemma cwp_allocate_valid rt (Q : Z * Z → space → Prop) s :
  (∀ k n, k ≠ KERN_SUCCESS → Q (k, n) s) →
  (∀ n, valid_name n → kernel_name pf n → s !! n = None → no_members n s →
     Q (KERN_SUCCESS, n) (<[n := fresh_entry rt]> s)) →
  cwp (call (mach_port_allocate rt)) Q s.
Proof.
  intros Hf Hs. apply wp_call; [done|].
  intros [k n] s' [[Hk ->]|(-> & Hn & Hg & Hl & Hin & ->)]; auto.
Qed.

Lemma cwp_allocate rt (Q : Z * Z → space → Prop) s :
  (∀ k n, k ≠ KERN_SUCCESS → Q (k, n) s) →
  (∀ n, n ≠ MACH_PORT_NULL → kernel_name pf n → s !! n = None → no_members n s →
     Q (KERN_SUCCESS, n) (<[n := fresh_entry rt]> s)) →
  cwp (call (mach_port_allocate rt)) Q s.
Proof. intros Hf Hs. apply cwp_allocate_valid; [done|]. intros n [Hn _]. by apply Hs. Qed.

Lemma cwp_type n e (Q : Z * Z → space → Prop) s :
  s !! n = Some e → Q (KERN_SUCCESS, type_bits e) s →
  cwp (call (mach_port_type n)) Q s.
Proof.
  intros Hn HQ. apply wp_call; [done|]. intros [k t] s' (-> & Hk & _).
  by destruct (Hk e Hn) as [-> ->].
Qed.

Lemma cwp_get_refs n rt e (Q : Z * Z → space → Prop) s :
  s !! n = Some e → Q (KERN_SUCCESS, right_refs rt e) s →
  cwp (call (mach_port_get_refs n rt)) Q s.
Proof.
  intros Hn HQ. apply wp_call; [done|]. intros [k t] s' (-> & Hk & _).
  by destruct (Hk e Hn) as [-> ->].
Qed.

(** A name that denotes nothing has no type and no references. *)
Lemma cwp_type_none n (Q : Z * Z → space → Prop) s :
  valid_name n → s !! n = None → (∀ t, Q (KERN_INVALID_NAME, t) s) →
  cwp (call (mach_port_type n)) Q s.
Proof.
  intros Hv Hn HQ. apply wp_call; [done|]. intros [k t] s' (-> & _ & Hk).
  by rewrite (Hk Hv Hn).
Qed.

Lemma cwp_get_refs_none n rt (Q : Z * Z → space → Prop) s :
  valid_name n → s !! n = None → (∀ u, Q (KERN_INVALID_NAME, u) s) →
  cwp (call (mach_port_get_refs n rt)) Q s.
Proof.
  intros Hv Hn HQ. apply wp_call; [done|]. intros [k t] s' (-> & _ & Hk).
  by rewrite (Hk Hv Hn).
Qed.

Lemma cwp_insert_make_send n e (Q : Z → space → Prop) s :
  s !! n = Some e → e_recv e = true → e_send e < UREFS_MAX →
  Q KERN_SUCCESS (<[n := add_send 1 e]> s) →
  cwp (call (mach_port_insert_right n n MACH_MSG_TYPE_MAKE_SEND)) Q s.
Proof.
  intros Hn Hr Hu HQ. apply wp_call; [done|]. intros k s' Hk.
  by destruct (Hk e) as [-> ->].
Qed.

Lemma put_recv n e s : e_recv e = true → put n e s = <[n := e]> s.
Proof. unfold put, alive. by intros ->. Qed.

(** Send references to a port the task can receive on: the name stays. *)
Lemma cwp_mod_refs n d e (Q : Z → space → Prop) s :
  s !! n = Some e → e_recv e = true → 0 < e_send e → 0 ≤ e_send e + d ≤ UREFS_MAX →
  Q KERN_SUCCESS (<[n := add_send d e]> s) →
  cwp (call (mach_port_mod_refs n MACH_PORT_RIGHT_SEND d)) Q s.
Proof.
  intros Hn Hr Hp Hu HQ. apply wp_call; [done|]. intros k s' Hk.
  destruct (Hk e) as [-> ->]; try done. by rewrite put_recv.
Qed.

Lemma cwp_deallocate_recv n e (Q : Z → space → Prop) s :
  n ≠ MACH_PORT_NULL → s !! n = Some e → e_recv e = true → 0 < e_send e →
  Q KERN_SUCCESS (<[n := add_send (-1) e]> s) →
  cwp (call (mach_port_deallocate n)) Q s.
Proof.
  intros H0 Hn Hr Hp HQ. apply wp_call; [done|]. intros k s' (_ & _ & _ & Hk).
  destruct (Hk e) as [-> ->]; try done. by rewrite put_recv.
Qed.

Lemma cwp_deallocate n e (Q : Z → space → Prop) s :
  n ≠ MACH_PORT_NULL → s !! n = Some e → 0 < e_send e →
  Q KERN_SUCCESS (put n (add_send (-1) e) s) →
  cwp (call (mach_port_deallocate n)) Q s.
Proof.
  intros H0 Hn Hr HQ. apply wp_call; [done|]. intros k s' (_ & _ & _ & Hk).
  by destruct (Hk e) as [-> ->].
Qed.

Lemma cwp_deallocate_none n (Q : Z → space → Prop) s :
  valid_name n → s !! n = None → Q KERN_INVALID_NAME s →
  cwp (call (mach_port_deallocate n)) Q s.
Proof.
  intros Hv Hn HQ. apply wp_call; [done|]. intros k s' (_ & _ & Hk & _).
  by destruct (Hk Hv Hn) as [-> ->].
Qed.

Lemma cwp_deallocate_dead (Q : Z → space → Prop) s :
  Q KERN_SUCCESS s → cwp (call (mach_port_deallocate MACH_PORT_DEAD)) Q s.
Proof.
  intros HQ. apply wp_call; [done|]. intros k s' (_ & Hk & _).
  by destruct (Hk eq_refl) as [-> ->].
Qed.

Lemma cwp_deallocate_null (Q : Z → space → Prop) s :
  (∀ k, Q k s) → cwp (call (mach_port_deallocate MACH_PORT_NULL)) Q s.
Proof.
  intros HQ. apply wp_call; [done|]. intros k s' (Hk & _). by rewrite Hk.
Qed.

Lemma cwp_destroy n e (Q : Z → space → Prop) s :
  s !! n = Some e → no_members n s → Q KERN_SUCCESS (delete n s) →
  cwp (call (mach_port_destroy n)) Q s.
Proof.
  intros Hn Hin HQ. apply wp_call; [done|]. intros k s' Hk.
  by destruct (Hk e Hn Hin) as [-> ->].
Qed.

Lemma cwp_move_in m p e ep (Q : Z → space → Prop) s :
  s !! m = Some e → e_recv e = true → p ≠ MACH_PORT_NULL →
  s !! p = Some ep → e_pset ep = true →
  Q KERN_SUCCESS (<[m := set_in p e]> s) →
  cwp (call (mach_port_move_member m p)) Q s.
Proof.
  intros Hm Hr Hp He Hs HQ. apply wp_call; [done|]. intros k s' Hk.
  destruct (Hk e) as [-> ->]; eauto.
Qed.

Lemma cwp_move_out m e (Q : Z → space → Prop) s :
  s !! m = Some e → e_recv e = true → e_in e ≠ MACH_PORT_NULL →
  Q KERN_SUCCESS (<[m := set_in MACH_PORT_NULL e]> s) →
  cwp (call (mach_port_move_member m MACH_PORT_NULL)) Q s.
Proof.
  intros Hm Hr Hp HQ. apply wp_call; [done|]. intros k s' Hk.
  destruct (Hk e) as [-> ->]; eauto.
Qed.

Lemma cwp_send m sz rsz rn tmo nt e (Q : Z * mach_msg_buf → space → Prop) s :
  msgh_bits m = MACH_MSGH_BITS MACH_MSG_TYPE_COPY_SEND 0 →
  msgh_size m = sizeof_mach_msg_header →
  s !! msgh_remote_port m = Some e → e_recv e = true → 0 < e_send e →
  e_queue e = [] →
  (∀ m', Q (MACH_MSG_SUCCESS, m') (<[msgh_remote_port m := enqueue m e]> s)) →
  cwp (call (mach_msg m (Z.lor MACH_SEND_MSG MACH_SEND_TIMEOUT) sz rsz rn tmo nt)) Q s.
Proof.
  intros Hb Hz Hn Hr Hu Hq HQ. apply wp_call; [done|]. intros [mr m'] s' [Hs _].
  destruct (Hs eq_refl) as [Hc _]. destruct (Hc e) as [-> ->]; auto.
Qed.

Lemma cwp_send_moving m sz rsz rn tmo nt e (Q : Z * mach_msg_buf → space → Prop) s :
  msgh_bits m = MACH_MSGH_BITS MACH_MSG_TYPE_MOVE_SEND 0 →
  msgh_size m = sizeof_mach_msg_header →
  s !! msgh_remote_port m = Some e → e_recv e = true → 0 < e_send e →
  e_queue e = [] →
  (∀ m', Q (MACH_MSG_SUCCESS, m') (<[msgh_remote_port m := enqueue m (add_send (-1) e)]> s)) →
  cwp (call (mach_msg m (Z.lor MACH_SEND_MSG MACH_SEND_TIMEOUT) sz rsz rn tmo nt)) Q s.
Proof.
  intros Hb Hz Hn Hr Hu Hq HQ. apply wp_call; [done|]. intros [mr m'] s' [Hs _].
  destruct (Hs eq_refl) as (_ & Hc & _). destruct (Hc e) as [-> ->]; auto.
Qed.

Lemma cwp_send_invalid m sz rsz rn tmo nt (Q : Z * mach_msg_buf → space → Prop) s :
  msgh_bits m = Z.lor (MACH_MSGH_BITS MACH_MSG_TYPE_COPY_SEND 0) MACH_MSGH_BITS_COMPLEX →
  msgh_descriptor_count m = 1 → desc_type (msg_cargo m) = MACH_MSG_PORT_DESCRIPTOR →
  invalid_disposition (desc_disposition (msg_cargo m)) →
  (∀ mr m', mr ≠ MACH_MSG_SUCCESS → Q (mr, m') s) →
  cwp (call (mach_msg m (Z.lor MACH_SEND_MSG MACH_SEND_TIMEOUT) sz rsz rn tmo nt)) Q s.
Proof.
  intros Hb Hc Ht Hd HQ. apply wp_call; [done|]. intros [mr m'] s' [Hs _].
  destruct (Hs eq_refl) as (_ & _ & Hi & _). destruct (Hi Hb Hc Ht Hd) as [Hm ->]. auto.
Qed.

Lemma cwp_send_overdrawn m sz rsz rn tmo nt n e (Q : Z * mach_msg_buf → space → Prop) s :
  msgh_bits m = Z.lor (MACH_MSGH_BITS MACH_MSG_TYPE_COPY_SEND 0) MACH_MSGH_BITS_COMPLEX →
  msgh_descriptor_count m = 2 →
  msg_cargo m = mk_desc n MACH_MSG_TYPE_MOVE_SEND MACH_MSG_PORT_DESCRIPTOR →
  msg_second m = mk_desc n MACH_MSG_TYPE_MOVE_SEND MACH_MSG_PORT_DESCRIPTOR →
  s !! n = Some e → e_recv e = true → e_send e = 1 →
  (∀ mr m', mr ≠ MACH_MSG_SUCCESS → Q (mr, m') s) →
  (∀ mr m', mr ≠ MACH_MSG_SUCCESS → Q (mr, m') (<[n := add_send (-1) e]> s)) →
  cwp (call (mach_msg m (Z.lor MACH_SEND_MSG MACH_SEND_TIMEOUT) sz rsz rn tmo nt)) Q s.
Proof.
  intros Hb Hc H1 H2 Hn Hr Hu Q1 Q2. apply wp_call; [done|]. intros [mr m'] s' [Hs _].
  destruct (Hs eq_refl) as (_ & _ & _ & Ho & _).
  destruct (Ho n e Hb Hc H1 H2 Hn Hr Hu) as [Hm [->| ->]]; auto.
Qed.

Lemma cwp_send_nothing m sz rsz rn tmo nt n (Q : Z * mach_msg_buf → space → Prop) s :
  moves_one m n → valid_name n → s !! n = None →
  (∀ m', Q (MACH_SEND_INVALID_RIGHT, m') s) →
  cwp (call (mach_msg m (Z.lor MACH_SEND_MSG MACH_SEND_TIMEOUT) sz rsz rn tmo nt)) Q s.
Proof.
  intros Hm Hv Hn HQ. apply wp_call; [done|]. intros [mr m'] s' [Hs _].
  destruct (Hs eq_refl) as (_ & _ & _ & _ & Hs0 & _).
  destruct (Hs0 n Hm Hv Hn) as [-> ->]. auto.
Qed.

Lemma cwp_send_dead m sz rsz rn tmo nt n e ed (Q : Z * mach_msg_buf → space → Prop) s :
  moves_one m n → n ≠ msgh_remote_port m →
  s !! msgh_remote_port m = Some e → e_recv e = true → 0 < e_send e → e_queue e = [] →
  s !! n = Some ed → 0 < e_dead ed →
  (∀ m', Q (MACH_MSG_SUCCESS, m')
     (<[msgh_remote_port m := enqueue (without_port m) e]> (put n (add_dead (-1) ed) s))) →
  cwp (call (mach_msg m (Z.lor MACH_SEND_MSG MACH_SEND_TIMEOUT) sz rsz rn tmo nt)) Q s.
Proof.
  intros Hm Hne He Hr Hu Hq Hn Hd HQ. apply wp_call; [done|]. intros [mr m'] s' [Hs _].
  destruct (Hs eq_refl) as (_ & _ & _ & _ & _ & Hs0).
  destruct (Hs0 n e ed Hm Hne He Hr Hu Hq Hn Hd) as [-> ->]. auto.
Qed.

Lemma cwp_receive m0 sz rsz n tmo nt e m q (Q : Z * mach_msg_buf → space → Prop) s :
  s !! n = Some e → e_recv e = true → e_pset e = false → e_in e = MACH_PORT_NULL →
  e_queue e = m :: q → msgh_size m + sizeof_mach_msg_max_trailer ≤ rsz →
  (∀ m', msgh_local_port m' = n → msgh_id m' = msgh_id m → descriptor_arrives m m' →
     Q (MACH_MSG_SUCCESS, m') (<[n := dequeue e]> s)) →
  cwp (call (mach_msg m0 (Z.lor MACH_RCV_MSG MACH_RCV_TIMEOUT) sz rsz n tmo nt)) Q s.
Proof.
  intros Hn Hr Hp Hi Hq Hz HQ. apply wp_call; [done|]. intros [mr m'] s' [_ Hs].
  destruct (Hs eq_refl) as [Hf _]. specialize (Hf e Hn Hr Hp Hi). rewrite Hq in Hf.
  destruct (Hf Hz) as (-> & Hl & Hid & Hd & ->). auto.
Qed.

Lemma cwp_receive_empty m sz rsz n tmo nt e (Q : Z * mach_msg_buf → space → Prop) s :
  s !! n = Some e → e_recv e = true → e_pset e = false → e_in e = MACH_PORT_NULL →
  e_queue e = [] →
  sizeof_mach_msg_header + sizeof_mach_msg_max_trailer ≤ rsz →
  (∀ m', Q (MACH_RCV_TIMED_OUT, m') s) →
  cwp (call (mach_msg m (Z.lor MACH_RCV_MSG MACH_RCV_TIMEOUT) sz rsz n tmo nt)) Q s.
Proof.
  intros Hn Hr Hp Hi Hq Hz HQ. apply wp_call; [done|]. intros [mr m'] s' [_ Hs].
  destruct (Hs eq_refl) as [Hf _]. specialize (Hf e Hn Hr Hp Hi). rewrite Hq in Hf.
  by destruct (Hf Hz) as [-> ->].
Qed.

Lemma cwp_receive_from_set m0 sz rsz p tmo nt ep n e m q
    (Q : Z * mach_msg_buf → space → Prop) s :
  s !! p = Some ep → e_pset ep = true →
  s !! n = Some e → e_recv e = true → e_in e = p → e_queue e = m :: q →
  (∀ n' e', s !! n' = Some e' → e_in e' = p → n' = n) →
  msgh_size m + sizeof_mach_msg_max_trailer ≤ rsz →
  (∀ m', msgh_local_port m' = n → msgh_id m' = msgh_id m →
     Q (MACH_MSG_SUCCESS, m') (<[n := dequeue e]> s)) →
  cwp (call (mach_msg m0 (Z.lor MACH_RCV_MSG MACH_RCV_TIMEOUT) sz rsz p tmo nt)) Q s.
Proof.
  intros Hp Hs Hn Hr Hi Hq Hu Hz HQ. apply wp_call; [done|]. intros [mr m'] s' [_ Hm].
  destruct (Hm eq_refl) as [_ Hf].
  destruct (Hf ep n e m q Hp Hs Hn Hr Hi Hq Hu Hz) as (-> & Hl & Hid & ->). auto.
Qed.

Lemma cwp_attributes n e (Q : Z * mach_port_status_t * Z → space → Prop) s :
  s !! n = Some e → e_recv e = true →
  (∀ st, status_of e st → Q (KERN_SUCCESS, st, MACH_PORT_RECEIVE_STATUS_COUNT) s) →
  cwp (call (mach_port_get_attributes n MACH_PORT_RECEIVE_STATUS
               MACH_PORT_RECEIVE_STATUS_COUNT)) Q s.
Proof.
  intros Hn Hr HQ. apply wp_call; [done|]. intros [[k st] c'] s' (-> & _ & _ & Hk).
  destruct (Hk eq_refl eq_refl e Hn Hr) as (-> & -> & Hst). auto.
Qed.

Lemma cwp_attributes_rejected n flavor count (Q : Z * mach_port_status_t * Z → space → Prop) s :
  flavor = invalid_port_flavor ∨ s !! n = None →
  (∀ k st c', k ≠ KERN_SUCCESS → Q (k, st, c') s) →
  cwp (call (mach_port_get_attributes n flavor count)) Q s.
Proof.
  intros Hn HQ. apply wp_call; [done|]. intros [[k st] c'] s' (-> & H1 & H2 & _).
  apply HQ. destruct Hn; auto.
Qed.

(** What [mach_host_self] finds: the task's host right, or none yet. *)
Definition host_before (s : space) (n : Z) (e : entry) : Prop :=
  n ≠ MACH_PORT_NULL ∧
  (∀ n' e', s !! n' = Some e' → e_obj e' = HostPort → n' = n) ∧
  (s !! n = Some e ∧ e_obj e = HostPort ∨ s !! n = None ∧ e = host_entry).

Lemma cwp_host_self (Q : Z → space → Prop) s :
  Q MACH_PORT_NULL s →
  (∀ n e, host_before s n e →
     e_send e < UREFS_MAX ∧ Q n (<[n := add_send 1 e]> s)) →
  cwp (call mach_host_self) Q s.
Proof.
  intros H0 HQ. apply wp_call; [done|].
  intros n s' [[-> ->]|(Hn & Hu & e & He & Hs)]; [done|].
  destruct (HQ n e) as [Hm Hq]; [done|]. by rewrite Hs.
Qed.

Lemma add_send_back e : add_send (-1) (add_send 1 e) = e.
Proof. destruct e; unfold add_send; simpl. f_equal. lia. Qed.

(** Giving back the references [mach_host_self] added. *)
Lemma cwp_release_host n e (Q : Z → space → Prop) s :
  space_ok s → host_before s n e → Q KERN_SUCCESS s →
  cwp (call (mach_port_deallocate n)) Q (<[n := add_send 1 e]> s).
Proof.
  intros Hok (Hn & _ & He) HQ.
  assert (0 ≤ e_send e) by (destruct He as [[He _]|[_ ->]]; [apply (Hok _ _ He)|done]).
  eapply cwp_deallocate; [done|apply lookup_insert_eq|simpl; lia|].
  rewrite add_send_back. replace (put n e _) with s; [done|]. unfold put.
  destruct He as [[He _]|[He ->]].
  - destruct (Hok _ _ He) as [-> _]. by rewrite insert_insert_eq, insert_id.
  - simpl. by rewrite delete_insert_id.
Qed.

(** The task has a host right now, and that is what [mach_host_self] finds. *)
Lemma host_before_again s n e n' e' :
  host_before s n e → host_before (<[n := add_send 1 e]> s) n' e' →
  n' = n ∧ e' = add_send 1 e.
Proof.
  intros (Hn & Hu & He) (Hn' & Hu' & He').
  assert (n = n') as <-.
  { apply (Hu' n (add_send 1 e)); [apply lookup_insert_eq|].
    by destruct He as [[_ He]|[_ ->]]. }
  destruct He' as [[He' _]|[He' _]]; rewrite lookup_insert_eq in He'; [|done].
  split; congruence.
Qed.

Lemma space_ok_host s n e :
  space_ok s → host_before s n e → space_ok (<[n := add_send 1 e]> s).
Proof.
  intros Hok (Hn & _ & He) m x [[<- <-]|[_ Hm]]%lookup_insert_Some; [|by apply Hok in Hm].
  assert (0 ≤ e_send e) by (destruct He as [[He _]|[_ ->]]; [apply (Hok _ _ He)|done]).
  assert (0 ≤ e_dead e) by (destruct He as [[He _]|[_ ->]]; [apply (Hok _ _ He)|done]).
  split; [|simpl; lia]. unfold alive. simpl. rewrite !orb_true_iff, !Z.ltb_lt. lia.
Qed.

Lemma cwp_host_info host flavor count (Q : Z * host_basic_info_t * Z → space → Prop) s :
  (∀ k i c,
     (host = MACH_PORT_NULL ∨ flavor = invalid_info_flavor → k ≠ KERN_SUCCESS) →
     (flavor = HOST_BASIC_INFO → count = HOST_BASIC_INFO_COUNT → host ≠ MACH_PORT_NULL →
      ∀ e, s !! host = Some e → e_obj e = HostPort → 0 < e_send e → k = KERN_SUCCESS) →
     Q (k, i, c) s) →
  cwp (call (host_info host flavor count)) Q s.
Proof.
  intros HQ. apply wp_call; [done|]. intros [[k i] c] s' (-> & H1 & H2 & H3).
  apply HQ; [intros [?|?]; auto|done].
Qed.

Lemma cwp_task_info task flavor count (Q : Z * task_basic_info_t * Z → space → Prop) s :
  (∀ k i c,
     (task = MACH_PORT_NULL ∨ flavor = invalid_info_flavor → k ≠ KERN_SUCCESS) →
     (flavor = MACH_TASK_BASIC_INFO → count = MACH_TASK_BASIC_INFO_COUNT →
      task ≠ MACH_PORT_NULL →
      ∀ e, s !! task = Some e → e_obj e = TaskPort → 0 < e_send e →
        k = KERN_SUCCESS ∧ c = MACH_TASK_BASIC_INFO_COUNT) →
     Q (k, i, c) s) →
  cwp (call (task_info task flavor count)) Q s.
Proof.
  intros HQ. apply wp_call; [done|]. intros [[k i] c] s' (-> & H1 & H2 & H3).
  apply HQ; [intros [?|?]; auto|done].
Qed.

Lemma cwp_absolute_time (Q : Z → space → Prop) s :
  (∀ t, Q t s) → cwp (call mach_absolute_time) Q s.
Proof.
  intros HQ. apply wp_call; [done|]. unfold c_step. simpl. intros t s' ->. apply HQ.
Qed.

Lemma cwp_timebase (Q : Z * (Z * Z) → space → Prop) s :
  (∀ numer denom, 0 < numer < 2 ^ 31 → 0 < denom < 2 ^ 31 →
     Q (KERN_SUCCESS, (numer, denom)) s) →
  cwp (call mach_timebase_info) Q s.
Proof.
  intros HQ. apply wp_call; [done|]. intros [k [nu de]] s' (-> & -> & H1 & H2). by apply HQ.
Qed.

(** ** Snapshots *)

Definition snapshot_of (s : space) (b : nx_baseline_t) : Prop :=
  if names_supported pf
  then valid b = true ∧ kr b = KERN_SUCCESS ∧
       lists_space s (elems (names b)) (elems (types b))
  else valid b = false ∧ kr b = KERN_NOT_SUPPORTED.

Context `{Host}.

Lemma cwp_capture (Q : nx_baseline_t → space → Prop) s :
  APPLE = true → (∀ b, snapshot_of s b → Q b s) → cwp nx_baseline_capture Q s.
Proof.
  intros Ha HQ. unfold nx_baseline_capture. rewrite Ha.
  apply wp_bind, wp_call; [done|]. intros [[k ns] ts] s'. unfold c_step. simpl.
  intros [-> Hk]. apply HQ. unfold snapshot_of. revert Hk.
  destruct (names_supported pf); simpl;
    [intros [-> Hl]; exact (conj eq_refl (conj eq_refl Hl))|by intros ->].
Qed.

Lemma cwp_vm_deallocate a n (Q : Z → space → Prop) s :
  (∀ k, Q k s) → cwp (call (vm_deallocate a n)) Q s.
Proof.
  intros HQ. apply wp_call; [done|]. unfold c_step. simpl. intros k s' ->. apply HQ.
Qed.

Lemma cwp_free b (Q : nx_baseline_t → space → Prop) s :
  Q zero_baseline s → cwp (nx_baseline_free b) Q s.
Proof.
  intros HQ. unfold nx_baseline_free. destruct APPLE; [|by apply wp_ret].
  apply wp_bind, wp_guarded; intros _; [apply cwp_vm_deallocate; intros _|];
    (apply wp_bind, wp_guarded; intros _; [apply cwp_vm_deallocate; intros _|]);
    by apply wp_ret.
Qed.

Lemma lists_space_snapshot s b :
  valid b = true → lists_space s (elems (names b)) (elems (types b)) → snapshot_ok b.
Proof.
  intros Hv (Hl & Hn & Hc & _). split; [done..|].
  unfold is_u32, names_count, max_names in *. lia.
Qed.

Lemma lists_space_perm s ns ts ns' ts' :
  lists_space s ns ts → lists_space s ns' ts' → zip ns ts ≡ₚ zip ns' ts'.
Proof.
  intros (Hl & Hn & _ & Hz) (Hl' & Hn' & _ & Hz').
  apply NoDup_Permutation; [by apply NoDup_zip_l..|].
  intros [n t]. by rewrite Hz, Hz'.
Qed.

Lemma lists_space_size s ns ts : lists_space s ns ts → length ns = size s.
Proof.
  intros (Hl & Hn & _ & Hz).
  rewrite <- (size_dom s), <- (size_list_to_set (C := gset Z) ns) by done. f_equal.
  apply set_eq. intros n. rewrite elem_of_list_to_set, elem_of_dom.
  rewrite <- (fst_zip ns ts) by lia. rewrite list_elem_of_fmap. split.
  - intros ([n' t] & -> & (e & He & _)%Hz). by exists e.
  - intros [e He]. exists (n, type_bits e). split; [done|]. apply Hz. eauto.
Qed.

(** The entry a snapshot has for a name. *)
Lemma lists_space_find s ns ts n e :
  lists_space s ns ts → s !! n = Some e →
  List.find (λ '(m, _), m =? n) (zip ns ts) = Some (n, type_bits e).
Proof.
  intros (Hl & _ & _ & Hz) He.
  destruct (List.find _ (zip ns ts)) as [[m t]|] eqn:E.
  - apply find_some in E as [Hin%list_elem_of_In Hm%Z.eqb_eq]. subst m.
    apply Hz in Hin as (e' & He' & ->). by simplify_eq.
  - assert ((n, type_bits e) ∈ zip ns ts) as Hin%list_elem_of_In by (apply Hz; eauto).
    pose proof (find_none _ _ E _ Hin) as Hf. simpl in Hf. by rewrite Z.eqb_refl in Hf.
Qed.

(** A snapshot the contract describes never blocks a probe. *)
Lemma snapshot_blocks s b : snapshot_of s b → nx_baseline_blocks_probe b = false.
Proof.
  unfold snapshot_of, nx_baseline_blocks_probe, nx_baseline_is_unsupported_gap.
  destruct (names_supported pf); [by intros [-> _]|by intros [-> ->]].
Qed.

(** Two snapshots of one name space compare equal, with no difference. *)
Lemma snapshots_compare s b1 b2 :
  snapshot_of s b1 → snapshot_of s b2 → nx_baseline_compare b1 b2 = (true, 0).
Proof.
  unfold snapshot_of. destruct (names_supported pf).
  - intros (Hv1 & _ & Hl1) (Hv2 & _ & Hl2).
    pose proof (lists_space_perm _ _ _ _ _ Hl1 Hl2) as Hp.
    pose proof (nx_baseline_compare_entries b1 b2
      (lists_space_snapshot _ _ Hv1 Hl1) (lists_space_snapshot _ _ Hv2 Hl2)) as Hc.
    apply Hc in Hp as Ht. unfold nx_baseline_compare, nx_baseline_is_unsupported_gap in *.
    rewrite Hv1, Hv2 in *. simpl in *.
    destruct (Z.eqb_spec (s32 (names_count b2) - s32 (names_count b1)) 0) as [E|];
      simpl in *; [|done].
    destruct (_ || _); simpl in *; [done|]. by rewrite Ht, E.
  - intros [Hv1 Hk1] [Hv2 Hk2].
    unfold nx_baseline_compare, nx_baseline_is_unsupported_gap.
    by rewrite Hv1, Hv2, Hk1, Hk2.
Qed.
End rules.
Abbreviation cwp pf := (wp c_pre (c_step pf)).

(** From the logic to executions. *)
Lemma cwp_sound {W} `{MachContract W} {A} (p : prog A) (Q : A → space → Prop) w :
  healthy w → cwp kernel_platform p Q (view w) →
  Q (run p w).1 (view (run p w).2) ∧ healthy (run p w).2.
Proof. intros Hw. apply wp_sound; [|done]. intros R c w' Hw' _. by apply contract. Qed.

(** What a program that starts with [p] observes satisfies [P], and at the end
    the name space is as it was. *)
Definition conforming {W} `{MachContract W} {A B} (p : prog A) (main : prog B)
    (P : A → Prop) (w : W) : Prop :=
  P (run p w).1 ∧ view (run main w).2 = view w.

(** A probe's [main]: what it observes, and then it only gives snapshots back. *)
Lemma cwp_two_parts {W} `{MachContract W} {A B} (p : prog A) (f : A → prog B)
    (P : A → Prop) w :
  healthy w →
  cwp kernel_platform p (λ a s, P a ∧ s = view w) (view w) →
  (∀ a s, cwp kernel_platform (f a) (λ _ s', s' = s) s) →
  conforming p (p ≫= f) P w.
Proof.
  intros Hw Hp Hf. unfold conforming. rewrite run_bind.
  destruct (cwp_sound p _ w Hw Hp) as [[HP Hs] Hh].
  destruct (run p w) as [a w1]. simpl in *. split; [done|].
  destruct (cwp_sound (f a) (λ _ s', s' = view w) w1 Hh) as [Hv _]; [|done].
  rewrite <- Hs. apply Hf.
Qed.

(** ** Symbolic execution *)

(** Looks a name up in a space the program has built. *)
Ltac space_lookup :=
  cbv beta; cbn [msgh_remote_port];
  first
    [ eassumption
    | apply lookup_insert_eq
    | rewrite lookup_insert_ne by congruence; space_lookup
    | rewrite lookup_delete_ne by congruence; space_lookup ].

(** The side conditions of the rules: fields of entries, and bounds. *)
Ltac space_side :=
  first [ done | eassumption | congruence | space_lookup
        | cbn; unfold UREFS_MAX; lia ].

(** Conditions that contradict what is known close their branch. *)
Ltac absurd_guard E :=
  exfalso; first
  [ discriminate E
  | match goal with
    | N : ?a ≠ ?b |- _ =>
        let N' := fresh in
        apply Z.eqb_neq in N as N'; rewrite N' in E; discriminate E
    end
  | split_guards;
    match goal with
    | N : ?a ≠ ?b, G : (?a =? ?b) = true |- _ => apply Z.eqb_eq in G; exact (N G)
    | G : false = true |- _ => discriminate G
    | _ => congruence
    end ].

Lemma no_members_insert_inv p n e (s : space) :
  no_members p (<[n := e]> s) → s !! n = None → no_members p s.
Proof.
  intros Hp Hn m x Hm. apply (Hp m x). rewrite lookup_insert_ne; [done|]. congruence.
Qed.

(** A set that was just made has the one member that was put into it. *)
Lemma only_member p m e ep (s : space) :
  no_members p s → e_in ep ≠ p →
  ∀ n x, <[m := e]> (<[p := ep]> s) !! n = Some x → e_in x = p → n = m.
Proof.
  intros Hp He n x Hx Hin. rewrite !lookup_insert in Hx.
  repeat case_decide; simplify_eq; try done. by destruct (Hp _ _ Hx).
Qed.

(** What the freshness of a new name says about the space before. *)
Ltac fresh_facts :=
  repeat match goal with
  | H : <[_ := _]> _ !! _ = None |- _ => apply lookup_insert_None in H as [H ?]
  | H : no_members _ (<[_ := _]> ?s), Hn : ?s !! _ = None |- _ =>
      apply no_members_insert_inv in H; [|exact Hn]
  end.

(** Nothing is a member of a port the program has just made, or emptied. *)
Ltac space_members :=
  let n' := fresh "n" in let e' := fresh "e" in let He := fresh "He" in
  intros n' e' He;
  repeat first [rewrite lookup_insert in He | rewrite lookup_delete in He];
  repeat case_decide; simplify_eq; cbn; (eauto; done || congruence).

(** Equality of name spaces, name by name. *)
Ltac space_eq :=
  apply map_eq; intros ?;
  repeat first [rewrite lookup_insert | rewrite lookup_delete];
  repeat case_decide; simplify_eq; congruence.

Ltac cwp_step :=
  match goal with
  | |- wp _ _ (_ ≫= _) _ _ => apply wp_bind
  | |- wp _ _ nx_baseline_capture _ _ => apply cwp_capture; [done|intros ? ?]
  | |- wp _ _ (nx_baseline_free _) _ _ => apply cwp_free
  | |- wp _ _ (guarded _ _ _) _ _ => 
      let E := fresh "E" in apply wp_guarded; intros E; try absurd_guard E
  | |- wp _ _ (mret _) _ _ => apply wp_ret
  | |- wp _ _ (call (mach_port_allocate _)) _ _ => apply cwp_allocate; intros; fresh_facts
  | |- wp _ _ (call (mach_port_type _)) _ _ => eapply cwp_type; [space_side|]
  | |- wp _ _ (call (mach_port_get_refs _ _)) _ _ => eapply cwp_get_refs; [space_side|]
  | |- wp _ _ (call (mach_port_insert_right _ _ _)) _ _ =>
      eapply cwp_insert_make_send; [space_side..|]
  | |- wp _ _ (call (mach_port_mod_refs _ _ _)) _ _ => eapply cwp_mod_refs; [space_side..|]
  | |- wp _ _ (call (mach_port_deallocate MACH_PORT_NULL)) _ _ =>
      apply cwp_deallocate_null; intros ?
  | |- wp _ _ (call (mach_port_deallocate _)) _ _ =>
      first [ apply cwp_release_host; [assumption..|]
            | eapply cwp_deallocate_recv; [space_side..|] ]
  | |- wp _ _ (call (mach_port_move_member _ MACH_PORT_NULL)) _ _ =>
      eapply cwp_move_out; [space_side..|]
  | |- wp _ _ (call (mach_port_move_member _ _)) _ _ =>
      eapply cwp_move_in; [space_side..|]
  | |- wp _ _ (call (mach_msg _ (Z.lor MACH_SEND_MSG _) _ _ _ _ _)) _ _ =>
      eapply cwp_send; [space_side..|intros; cbn [msgh_remote_port]]
  | |- wp _ _ (call mach_absolute_time) _ _ => apply cwp_absolute_time; intros ?
  | |- wp _ _ (call mach_timebase_info) _ _ => apply cwp_timebase; intros ? ? ? ?
  | |- wp _ _ (call (host_info _ _ _)) _ _ => apply cwp_host_info; intros ? ? ? ? ?
  | |- wp _ _ (call (task_info _ _ _)) _ _ => apply cwp_task_info; intros ? ? ? ? ?
  | |- wp _ _ (call (mach_port_destroy _)) _ _ => eapply cwp_destroy; [space_side|space_members|]
  end; cbn beta iota; rewrite ?insert_insert_eq.

(** Evaluates the conditions of a ladder with what is known. *)
Ltac known_conditions :=
  repeat match goal with
  | H : snapshot_of _ _ ?b |- context [nx_baseline_blocks_probe ?b] =>
      rewrite (snapshot_blocks _ _ b H)
  | H1 : snapshot_of _ _ ?b1, H2 : snapshot_of _ _ ?b2
    |- context [nx_baseline_compare ?b1 ?b2] =>
      rewrite (snapshots_compare _ _ b1 b2 H1 H2)
  | E : ?x = true |- context [?x] => rewrite E
  | E : ?x = false |- context [?x] => rewrite E
  end.

(** At the end of a path: the name space is back, and so the snapshots agree;
    [tac] unfolds the verdict. *)
Ltac conform_tac tac :=
  match goal with
  | |- _ ∧ ?s' = ?s =>
      let Hs := fresh "Hs" in
      assert (s' = s) as Hs by space_eq; split; [|exact Hs];
      repeat match goal with
      | H : snapshot_of _ s' _ |- _ => progress (rewrite Hs in H)
      end;
      tac; cbn; known_conditions; cbn; try done
  end.
