(* ===== verification/NxResult.v ===== *)
(** [macos-validation/probes/common/nx_result.{h,c}] and [nx_env.{h,c}]: the
    parts of the result document, as writer operations, and the builder
    operations they implement. *)

From S2P Require Import Prelude Json NxJson JsonText Builder MachApi.

Local Open Scope oracle_scope.
Local Open Scope Z_scope.

(** ** [nx_result.h] *)

Definition NX_SCHEMA_NAME : string := "nx-r64z.macos-oracle.v1".

Inductive nx_status_t : Type :=
  | NX_STATUS_PASS
  | NX_STATUS_FAIL
  | NX_STATUS_SKIP
  | NX_STATUS_PROBE_FAILURE.

Inductive nx_semantic_class_t : Type :=
  | NX_CLASS_EXACT_CONTRACT
  | NX_CLASS_EQUIVALENT_CONTRACT
  | NX_CLASS_VERSION_SENSITIVE
  | NX_CLASS_PRIVILEGE_SENSITIVE
  | NX_CLASS_NOT_OBSERVABLE
  | NX_CLASS_PROBE_FAILURE
  | NX_CLASS_INTENTIONAL_DIVERGENCE.

#[export] Instance nx_status_eq_dec : EqDecision nx_status_t.
Proof. solve_decision. Defined.
#[export] Instance nx_semantic_class_eq_dec : EqDecision nx_semantic_class_t.
Proof. solve_decision. Defined.

(** ** [nx_result.c] *)

Definition nx_status_str (s : nx_status_t) : string :=
  match s with
  | NX_STATUS_PASS => "pass"
  | NX_STATUS_FAIL => "fail"
  | NX_STATUS_SKIP => "skip"
  | NX_STATUS_PROBE_FAILURE => "probe_failure"
  end.

Definition nx_class_str (c : nx_semantic_class_t) : string :=
  match c with
  | NX_CLASS_EXACT_CONTRACT => "exact_contract"
  | NX_CLASS_EQUIVALENT_CONTRACT => "equivalent_contract"
  | NX_CLASS_VERSION_SENSITIVE => "version_sensitive"
  | NX_CLASS_PRIVILEGE_SENSITIVE => "privilege_sensitive"
  | NX_CLASS_NOT_OBSERVABLE => "not_observable"
  | NX_CLASS_PROBE_FAILURE => "probe_failure"
  | NX_CLASS_INTENTIONAL_DIVERGENCE => "intentional_divergence"
  end.

Definition nx_result_emit_header (agent test_id nextbsd_test_id donor_equivalent_id : char_ptr)
    (status : nx_status_t) (semantic_class : nx_semantic_class_t) : op nx_json_t :=
  nx_json_key_string "schema" NX_SCHEMA_NAME ;;
  nx_json_key_string "agent" agent ;;
  nx_json_key_string "test_id" test_id ;;
  nx_json_key "cross_reference" ;;
  nx_json_begin_object ;;
  nx_json_key_string_or_null "nextbsd_test_id" nextbsd_test_id ;;
  nx_json_key_string_or_null "donor_equivalent_id" donor_equivalent_id ;;
  nx_json_end_object ;;
  nx_json_key_string "status" (nx_status_str status) ;;
  nx_json_key_string "semantic_class" (nx_class_str semantic_class).

Definition nx_result_emit_cleanup (returned_to_baseline : bool) (notes : char_ptr) :
    op nx_json_t :=
  nx_json_key "cleanup" ;;
  nx_json_begin_object ;;
  nx_json_key_bool "returned_to_baseline" returned_to_baseline ;;
  nx_json_key_string "notes" (match notes with Some _ => notes | None => c_str "" end) ;;
  nx_json_end_object.

Definition nx_result_emit_return (cl returned_str : char_ptr) (raw : Z)
    (has_errno : bool) (errno_val : Z) : op nx_json_t :=
  nx_json_begin_object ;;
  nx_json_key_string "call" cl ;;
  nx_json_key_string "returned" returned_str ;;
  nx_json_key_int "raw" raw ;;
  (if has_errno then nx_json_key_int "errno" errno_val
   else nx_json_key_null "errno") ;;
  nx_json_end_object.

Definition nx_result_emit_right_delta (operation port_name right_type : char_ptr)
    (before_urefs after_urefs entry_refs_before entry_refs_after : Z)
    (expected : char_ptr) : op nx_json_t :=
  nx_json_begin_object ;;
  nx_json_key_string "operation" operation ;;
  nx_json_key_string "port_name" port_name ;;
  nx_json_key_string "right_type" right_type ;;
  (if before_urefs >=? 0 then nx_json_key_int "before_urefs" before_urefs
   else nx_json_key_null "before_urefs") ;;
  (if after_urefs >=? 0 then nx_json_key_int "after_urefs" after_urefs
   else nx_json_key_null "after_urefs") ;;
  (if entry_refs_before >=? 0 then nx_json_key_int "entry_refs_before" entry_refs_before
   else nx_json_key_null "entry_refs_before") ;;
  (if entry_refs_after >=? 0 then nx_json_key_int "entry_refs_after" entry_refs_after
   else nx_json_key_null "entry_refs_after") ;;
  nx_json_key_string "expected" expected ;;
  nx_json_end_object.

Definition nx_result_emit_empty_message : op nx_json_t :=
  nx_json_key "message" ;;
  nx_json_begin_object ;;
  nx_json_key_string "msgh_bits" "" ;;
  nx_json_key "remote_port" ;;
  nx_json_begin_object ;;
  nx_json_key_null "name" ;;
  nx_json_key_null "disposition" ;;
  nx_json_key_null "right_type" ;;
  nx_json_end_object ;;
  nx_json_key "local_port" ;;
  nx_json_begin_object ;;
  nx_json_key_null "name" ;;
  nx_json_key_null "disposition" ;;
  nx_json_key_null "right_type" ;;
  nx_json_end_object ;;
  nx_json_key "header_rights" ;;
  nx_json_begin_array ;;
  nx_json_end_array ;;
  nx_json_key_int "descriptor_count" 0 ;;
  nx_json_key "descriptors" ;;
  nx_json_begin_array ;;
  nx_json_end_array ;;
  nx_json_end_object.

(** ** [nx_env.c] *)

Section env.
Context `{Host}.

(** The file is copied character by character to the stream; [None] for the
    [return 0] of a file that cannot be opened. *)
Definition emit_file_raw (path : string) : option (op nx_json_t) :=
  match read_file path with
  | None => None
  | Some contents =>
      Some (stm (fputs contents) ;;
            (λ j, if (0 <? depth j)%nat then set_comma (depth j) true j else Some j))
  end.

Definition emit_minimal_fallback : op nx_json_t :=
  nx_json_begin_object ;;
  nx_json_key_null "sw_vers" ;;
  nx_json_key_null "uname" ;;
  nx_json_key_null "os_name" ;;
  nx_json_key_null "kernel_version" ;;
  nx_json_key_null "result_dir_name" ;;
  nx_json_key_null "arch" ;;
  nx_json_key_null "machine" ;;
  nx_json_key_null "compiler" ;;
  nx_json_key_null "sdk" ;;
  nx_json_key_null "sdk_version" ;;
  nx_json_key_null "sdk_path" ;;
  nx_json_key_null "xcode_select_path" ;;
  nx_json_key_null "cpu_brand" ;;
  nx_json_key "cpu_features" ;;
  nx_json_begin_object ;;
  nx_json_end_object ;;
  nx_json_key "apple_silicon" ;;
  nx_json_begin_object ;;
  nx_json_key_null "hw_optional_arm64" ;;
  nx_json_key_null "arm64e" ;;
  nx_json_key_null "pointer_authentication" ;;
  nx_json_key "raw_sysctls" ;;
  nx_json_begin_object ;;
  nx_json_end_object ;;
  nx_json_end_object ;;
  nx_json_key_null "rosetta" ;;
  nx_json_key_null "sip_enabled" ;;
  nx_json_key_null "sandboxed" ;;
  nx_json_key_bool "run_as_root" false ;;
  nx_json_key_bool "ad_hoc_signed" false ;;
  nx_json_key_bool "hardened_runtime" false ;;
  nx_json_key "signing" ;;
  nx_json_begin_object ;;
  nx_json_key "binaries" ;;
  nx_json_begin_array ;;
  nx_json_end_array ;;
  nx_json_end_object ;;
  nx_json_key_null "zig_version" ;;
  nx_json_key_null "zig_path" ;;
  nx_json_key_null "zig_lib_dir" ;;
  nx_json_key_bool "zig_fallback" false ;;
  nx_json_key_null "zig_fallback_reason" ;;
  nx_json_end_object.

Definition nx_env_emit : op nx_json_t :=
  nx_json_key "environment" ;;
  match getenv "NX_ORACLE_ENV_JSON_FILE" with
  | Some path =>
      if String.eqb path "" then emit_minimal_fallback
      else match emit_file_raw path with
           | Some o => o
           | None => emit_minimal_fallback
           end
  | None => emit_minimal_fallback
  end.
End env.

(** ** What they write *)

Definition return_doc (cl returned : char_ptr) (raw : Z) (has_errno : bool)
    (errno_val : Z) : json :=
  JObj [("call", JStr (ptr_text cl)); ("returned", JStr (ptr_text returned));
        ("raw", JInt raw); ("errno", if has_errno then JInt errno_val else JNull)].

(** A count, or [null] for a negative one. *)
Definition count_or_null (z : Z) : json := if z >=? 0 then JInt z else JNull.

Definition right_delta_doc (operation port_name right_type : char_ptr)
    (bu au eb ea : Z) (expected : char_ptr) : json :=
  JObj [("operation", JStr (ptr_text operation)); ("port_name", JStr (ptr_text port_name));
        ("right_type", JStr (ptr_text right_type)); ("before_urefs", count_or_null bu);
        ("after_urefs", count_or_null au); ("entry_refs_before", count_or_null eb);
        ("entry_refs_after", count_or_null ea); ("expected", JStr (ptr_text expected))].

Definition header_doc (agent test_id nextbsd donor : char_ptr) (status : nx_status_t)
    (class : nx_semantic_class_t) : list (string * json) :=
  [("schema", JStr NX_SCHEMA_NAME); ("agent", JStr (ptr_text agent));
   ("test_id", JStr (ptr_text test_id));
   ("cross_reference", JObj [("nextbsd_test_id", str_or_null nextbsd);
                             ("donor_equivalent_id", str_or_null donor)]);
   ("status", JStr (nx_status_str status)); ("semantic_class", JStr (nx_class_str class))].

Definition cleanup_doc (b : bool) (notes : char_ptr) : json :=
  JObj [("returned_to_baseline", JBool b); ("notes", JStr (ptr_text notes))].

Definition null_port_doc : json :=
  JObj [("name", JNull); ("disposition", JNull); ("right_type", JNull)].

Definition empty_message_doc : json :=
  JObj [("msgh_bits", JStr ""); ("remote_port", null_port_doc);
        ("local_port", null_port_doc); ("header_rights", JArr []);
        ("descriptor_count", JInt 0); ("descriptors", JArr [])].

Definition fallback_env_doc : json :=
  JObj [("sw_vers", JNull); ("uname", JNull); ("os_name", JNull);
        ("kernel_version", JNull); ("result_dir_name", JNull); ("arch", JNull);
        ("machine", JNull); ("compiler", JNull); ("sdk", JNull); ("sdk_version", JNull);
        ("sdk_path", JNull); ("xcode_select_path", JNull); ("cpu_brand", JNull);
        ("cpu_features", JObj []);
        ("apple_silicon", JObj [("hw_optional_arm64", JNull); ("arm64e", JNull);
           ("pointer_authentication", JNull); ("raw_sysctls", JObj [])]);
        ("rosetta", JNull); ("sip_enabled", JNull); ("sandboxed", JNull);
        ("run_as_root", JBool false); ("ad_hoc_signed", JBool false);
        ("hardened_runtime", JBool false); ("signing", JObj [("binaries", JArr [])]);
        ("zig_version", JNull); ("zig_path", JNull); ("zig_lib_dir", JNull);
        ("zig_fallback", JBool false); ("zig_fallback_reason", JNull)].

Definition env_doc `{Host} : json :=
  match getenv "NX_ORACLE_ENV_JSON_FILE" with
  | Some path =>
      if String.eqb path "" then fallback_env_doc
      else match read_file path with Some s => JRaw s | None => fallback_env_doc end
  | None => fallback_env_doc
  end.

(** The environment file, when there is one, holds a JSON document. *)
Definition env_file_ok `{Host} : Prop :=
  ∀ path s, getenv "NX_ORACLE_ENV_JSON_FILE" = Some path → path ≠ "" →
    read_file path = Some s → is_Some (parse_doc s).

(** ** Refinement of the builder *)

#[global] Typeclasses Opaque nx_result_emit_header nx_result_emit_cleanup
  nx_result_emit_return nx_result_emit_right_delta nx_result_emit_empty_message
  nx_env_emit emit_minimal_fallback.

#[export] Instance implements_return cl ret raw he ev :
  Implements (nx_result_emit_return cl ret raw he ev)
    (b_val 1 (return_doc cl ret raw he ev)).
Proof. eapply implements_weaken; [unfold nx_result_emit_return; apply _|]. b_solve. Qed.

#[export] Instance implements_right_delta o p t bu au eb ea ex :
  Implements (nx_result_emit_right_delta o p t bu au eb ea ex)
    (b_val 1 (right_delta_doc o p t bu au eb ea ex)).
Proof.
  eapply implements_weaken; [unfold nx_result_emit_right_delta; apply _|]. b_solve.
Qed.

#[export] Instance implements_header a t n d st c :
  Implements (nx_result_emit_header a t n d st c) (b_mems 1 (header_doc a t n d st c)).
Proof.
  eapply implements_weaken; [unfold nx_result_emit_header; apply _|].
  b_solve.
Qed.

#[export] Instance implements_cleanup b notes :
  Implements (nx_result_emit_cleanup b notes) (b_mem 1 "cleanup" (cleanup_doc b notes)).
Proof.
  eapply implements_weaken; [unfold nx_result_emit_cleanup; apply _|].
  by destruct notes; b_solve.
Qed.

#[export] Instance implements_empty_message :
  Implements nx_result_emit_empty_message (b_mem 2 "message" empty_message_doc).
Proof.
  eapply implements_weaken; [unfold nx_result_emit_empty_message; apply _|]. b_solve.
Qed.

Section env_refinement.
Context `{Host}.

#[export] Instance implements_fallback :
  Implements emit_minimal_fallback (b_val 3 fallback_env_doc).
Proof.
  eapply implements_weaken; [unfold emit_minimal_fallback; apply _|]. b_solve.
Qed.

(** Text copied after a key stands for its value. *)
Lemma implements_raw k contents :
  Implements (nx_json_key k ;;
              stm (fputs contents) ;;
              (λ j, if (0 <? depth j)%nat then set_comma (depth j) true j else Some j))
    (b_field (ptr_text k) (JRaw contents)).
Proof.
  intros j [b [|[kvs [k0|]|vs] st]] s' Hr Hs; try done.
  destruct (implements_key k _ _ (mk_b b (FObj kvs (Some (ptr_text k)) :: st)) Hr)
    as (j1 & Hj1 & [Hfp Hd Hn Hb Hf]); [done|].
  unfold op_seq, stm. rewrite Hj1.
  change (∃ j', mark_value_written (fputs contents j1) = Some j' ∧ represents j' s').
  eapply (mark_represents _ (JRaw contents)
            (mk_b b (FObj kvs (Some (ptr_text k)) :: st))); try done.
  simpl. by rewrite Hfp.
Qed.

#[export] Instance implements_env :
  Implements nx_env_emit (b_mem 3 "environment" env_doc).
Proof.
  assert (Implements (nx_json_key "environment" ;; emit_minimal_fallback)
            (b_mem 3 "environment" fallback_env_doc)) as Hfb.
  { eapply implements_weaken; [apply _|]. b_solve. }
  unfold nx_env_emit, env_doc, emit_file_raw.
  destruct (getenv _) as [path|]; [|exact Hfb].
  destruct (String.eqb path ""); [exact Hfb|].
  destruct (read_file path) as [s|]; [|exact Hfb].
  eapply implements_weaken; [apply implements_raw|].
  intros st st' [_ H1]%room_Some. exact H1.
Qed.
End env_refinement.
