(* ===== verification/Probe.v ===== *)
(** What all the probes share: the verdict, the end of [main], and the
    envelope of the result document. *)

From S2P Require Import Prelude Json NxJson JsonText Builder MachApi NxMachUtils Ledger.
From S2P Require Import MachContract NxResult.

Local Open Scope Z_scope.

(** ** Verdicts *)

Record verdict := mk_verdict {
  status : nx_status_t;
  sclass : nx_semantic_class_t;
  notes : string;
}.

(** The initial values, and the three assignments of a branch. *)
Definition pass : verdict := mk_verdict NX_STATUS_PASS NX_CLASS_EXACT_CONTRACT "".
Definition fail_contract : string → verdict :=
  mk_verdict NX_STATUS_FAIL NX_CLASS_EXACT_CONTRACT.
Definition fail_probe : string → verdict :=
  mk_verdict NX_STATUS_FAIL NX_CLASS_PROBE_FAILURE.
Definition probe_failure : string → verdict :=
  mk_verdict NX_STATUS_PROBE_FAILURE NX_CLASS_PROBE_FAILURE.
Definition skip : string → verdict :=
  mk_verdict NX_STATUS_SKIP NX_CLASS_NOT_OBSERVABLE.

(** [if (c1) ... else if (c2) ... else if ...]; without a match the verdict
    keeps its initial value. *)
Fixpoint ladder (l : list (bool * verdict)) : verdict :=
  match l with
  | [] => pass
  | (c, v) :: l' => if c then v else ladder l'
  end.

Definition no_pass (l : list (bool * verdict)) : bool :=
  forallb (λ e, negb (bool_decide (status e.2 = NX_STATUS_PASS))) l.

Lemma ladder_pass l :
  no_pass l = true → status (ladder l) = NX_STATUS_PASS ↔ Forall (λ e, e.1 = false) l.
Proof.
  unfold no_pass. induction l as [|[c v] l IH]; simpl; [done|].
  intros [Hv Hl]%andb_prop. apply negb_true_iff, bool_decide_eq_false in Hv.
  rewrite Forall_cons. destruct c; simpl; [by split; [|intros [? _]]|].
  rewrite IH by done. tauto.
Qed.

(** A ladder whose tests are all negative leaves the verdict as it was. *)
Lemma ladder_all_false l : Forall (λ e, e.1 = false) l → ladder l = pass.
Proof. induction 1 as [|[c v] l Hc Hl IH]; simpl in *; by subst. Qed.

Lemma ladder_skip l1 l2 :
  Forall (λ e, e.1 = false) l1 → ladder (l1 ++ l2) = ladder l2.
Proof. induction 1 as [|[c v] l Hc Hl IH]; simpl in *; by subst. Qed.

(** ** The end of [main] *)

(** [agent = getenv("NX_ORACLE_AGENT")], or ["development"]. *)
Definition agent_name `{Host} : string :=
  match getenv "NX_ORACLE_AGENT" with
  | Some a => if String.eqb a "" then "development" else a
  | None => "development"
  end.

(** [return (status == NX_STATUS_PASS || status == NX_STATUS_SKIP) ? 0 : 1] *)
Definition exit_code (s : nx_status_t) : Z :=
  match s with NX_STATUS_PASS | NX_STATUS_SKIP => 0 | _ => 1 end.

Record outcome := mk_outcome { stdout : string; exit_status : Z }.

(** Run the report on a fresh writer, end the line, return from [main]. *)
Definition finish (report : op nx_json_t) (v : verdict) : option outcome :=
  match report (nx_json_init "") with
  | Some j => Some (mk_outcome (fp j +:+ str1 newline) (exit_code (status v)))
  | None => None
  end.

Definition no_skip (l : list (bool * verdict)) : bool :=
  forallb (λ e, negb (bool_decide (status e.2 = NX_STATUS_SKIP))) l.

(** A program that judges with a ladder returns 0 only when it went all the way down. *)
Lemma finish_zero report l out :
  finish report (ladder l) = Some out → exit_status out = 0 → no_pass l = true → no_skip l = true →
  Forall (λ e, e.1 = false) l.
Proof.
  unfold finish. destruct (report _) as [j|]; [|done]. intros [= <-] He Hp Hs. cbn in He.
  apply (ladder_pass _ Hp). assert (status (ladder l) ≠ NX_STATUS_SKIP) as Hn.
  { clear -Hs. unfold no_skip in Hs. induction l as [|[c v] l IH]; simpl in *; [done|].
    apply andb_prop in Hs as [Hv Hl]. apply negb_true_iff, bool_decide_eq_false in Hv.
    destruct c; auto. }
  by destruct (status (ladder l)).
Qed.

(** [x.valid ? x.names_count : -1], an [unsigned int]. *)
Definition count_or_minus1 (b : nx_baseline_t) : Z :=
  c_uint_or_minus1 (valid b) (names_count b).

(** [kr == KERN_SUCCESS ? refs : -1] for a [mach_port_urefs_t]: unsigned too. *)
Definition refs_or_minus1 (kr refs : Z) : Z :=
  c_uint_or_minus1 (kr =? KERN_SUCCESS) refs.

(** [kr == KERN_SUCCESS ? (long long)refs : -1] *)
Definition refs_or_minus1_ll (kr refs : Z) : Z :=
  if kr =? KERN_SUCCESS then refs else -1.

(** ** The envelope *)

Definition envelope_keys : list string :=
  ["schema"; "agent"; "test_id"; "cross_reference"; "status"; "semantic_class";
   "environment"; "message"; "returns"; "right_deltas"; "observations"; "cleanup";
   "notes"]%string.

(** What a consumer of the result relies on: one JSON object with the members
    of the schema, in order, and the verdict under them.  [obs] is false for
    the one probe that has no observations. *)
Record envelope (obs : bool) (test_id : string) (v : verdict) (cleanup_ok : bool)
    (kvs : list (string * json)) : Prop := {
  env_keys : map fst kvs =
    if obs then envelope_keys
    else List.filter (λ k, negb (String.eqb k "observations")) envelope_keys;
  env_schema : assoc "schema" kvs = Some (JStr NX_SCHEMA_NAME);
  env_test_id : assoc "test_id" kvs = Some (JStr test_id);
  env_status : assoc "status" kvs = Some (JStr (nx_status_str (status v)));
  env_class : assoc "semantic_class" kvs = Some (JStr (nx_class_str (sclass v)));
  env_cleanup : assoc "cleanup" kvs ≫= field "returned_to_baseline" = Some (JBool cleanup_ok);
  env_notes : assoc "notes" kvs = Some (JStr (notes v));
}.

(** The standard output is such a document, on one line. *)
Definition emits_result (obs : bool) (test_id : string) (v : verdict) (cleanup_ok : bool)
    (report : op nx_json_t) : Prop :=
  ∃ o kvs, finish report v = Some o ∧
    exit_status o = exit_code (status v) ∧
    parse_doc (stdout o) = Some (JObj kvs) ∧
    envelope obs test_id v cleanup_ok kvs.

Lemma assoc_denote k kvs v :
  Forall (λ kv, cstr kv.1 = kv.1) kvs → assoc k kvs = Some v →
  assoc k (map denote_member kvs) = Some (denote v).
Proof.
  induction 1 as [|[k' v'] kvs Hk Hl IH]; simpl; [done|]. simpl in Hk. rewrite Hk.
  destruct (String.eqb k k'); [congruence|done].
Qed.

Lemma keys_denote kvs :
  Forall (λ kv, cstr kv.1 = kv.1) kvs → map fst (map denote_member kvs) = map fst kvs.
Proof. induction 1 as [|[k v] kvs Hk Hl IH]; simpl in *; congruence. Qed.

Lemma cstr_status s : cstr (nx_status_str s) = nx_status_str s.
Proof. by destruct s. Qed.

Lemma cstr_class c : cstr (nx_class_str c) = nx_class_str c.
Proof. by destruct c. Qed.

Lemma field_cleanup_denote v b kvs :
  v = cleanup_doc b kvs → field "returned_to_baseline" (denote v) = Some (JBool b).
Proof. by intros ->. Qed.

(** From the builder's document to the text on the standard output. *)
Lemma emits_result_intro obs test_id v cleanup_ok cn report b kvs :
  Implements report b →
  b (mk_b "" []) = Some (mk_b (render (JObj kvs)) []) →
  raw_ok (JObj kvs) →
  Forall (λ kv, cstr kv.1 = kv.1) kvs →
  cstr test_id = test_id → cstr (notes v) = notes v →
  envelope obs test_id v cleanup_ok kvs →
  assoc "cleanup" kvs = Some (cleanup_doc cleanup_ok cn) →
  emits_result obs test_id v cleanup_ok report.
Proof.
  intros Hi Hb Hraw Hk Ht Hn [E1 E2 E3 E4 E5 E6 E7] Hc.
  destruct (implements_document _ _ _ Hi Hb) as (j & Hj & Hfp).
  pose proof (parse_render _ Hraw) as Hp. rewrite denote_obj in Hp.
  unfold emits_result, finish. rewrite Hj. do 2 eexists. split; [done|].
  split; [done|]. split; [simpl; by rewrite Hfp, Hp|]. split.
  - by rewrite keys_denote.
  - rewrite (assoc_denote _ _ _ Hk E2). done.
  - rewrite (assoc_denote _ _ _ Hk E3). simpl. by rewrite Ht.
  - rewrite (assoc_denote _ _ _ Hk E4). simpl. by rewrite cstr_status.
  - rewrite (assoc_denote _ _ _ Hk E5). simpl. by rewrite cstr_class.
  - rewrite (assoc_denote _ _ _ Hk Hc). done.
  - rewrite (assoc_denote _ _ _ Hk E7). simpl. by rewrite Hn.
Qed.

(** The whole document, for statements about other members. *)
Lemma report_document report b d v :
  Implements report b → b (mk_b "" []) = Some (mk_b (render d) []) → raw_ok d →
  ∃ o, finish report v = Some o ∧ parse_doc (stdout o) = Some (denote d).
Proof.
  intros Hi Hb Hraw. destruct (implements_document _ _ _ Hi Hb) as (j & Hj & Hfp).
  unfold finish. rewrite Hj. eexists. split; [done|]. simpl. rewrite Hfp.
  by apply parse_render.
Qed.

(** ** Raw text in the parts of a report *)

Lemma raw_ok_env `{Host} : env_file_ok → raw_ok env_doc.
Proof.
  unfold env_file_ok, env_doc. intros Hf.
  destruct (getenv _) as [path|]; [|repeat constructor].
  destruct (String.eqb_spec path ""); [repeat constructor|].
  destruct (read_file path) as [s|] eqn:E; [|repeat constructor]. by eapply Hf.
Qed.

Lemma raw_ok_return a b c d e : raw_ok (return_doc a b c d e).
Proof. simpl. repeat split. by destruct d. Qed.

Lemma raw_ok_right_delta a b c d e f g h : raw_ok (right_delta_doc a b c d e f g h).
Proof. simpl. unfold count_or_null. repeat split; by case_match. Qed.

(** ** Running a probe *)

(** [main] under an arbitrary kernel, as the probes are all built: it is
    entitled to every call it makes, it ends with nothing held, and its result
    is the document for what [observe] saw. *)
Definition well_behaved {W} `{Kernel W} {O} (observe : prog O)
    (main : prog (option outcome)) (result : O → option outcome) (w : W) : Prop :=
  ∃ w', run_ledger main w no_holdings = Some (result (run observe w).1, w', no_holdings).

(** ** Tactics *)

(** All strings of a ladder are literals. *)
Lemma ladder_notes l :
  forallb (λ e, String.eqb (cstr (notes e.2)) (notes e.2)) l = true →
  cstr (notes (ladder l)) = notes (ladder l).
Proof.
  induction l as [|[c v] l IH]; simpl; [done|]. intros [Hv%String.eqb_eq Hl]%andb_prop.
  destruct c; auto.
Qed.

Ltac raw_ok_tac :=
  repeat match goal with
  | |- True => exact I
  | |- _ ∧ _ => split
  | |- raw_ok env_doc => by apply raw_ok_env
  | |- raw_ok (return_doc _ _ _ _ _) => apply raw_ok_return
  | |- raw_ok (right_delta_doc _ _ _ _ _ _ _ _) => apply raw_ok_right_delta
  | |- context [if ?c then _ else _] => destruct c
  | |- _ => progress cbn [raw_ok map foldr fst snd app header_doc cleanup_doc
      empty_message_doc null_port_doc str_or_null]
  end.

(** The unfolded report of a probe against the envelope: evaluate it on the
    builder, then read the members off. *)
Ltac report_tac :=
  eapply emits_result_intro;
  [ apply _
  | cbv delta [header_doc]; b_eval; reflexivity
  | raw_ok_tac
  | repeat constructor
  | reflexivity
  | match goal with
    | |- cstr (notes ?v) = _ =>
        let v' := eval red in v in change (cstr (notes v') = notes v')
    end;
    destruct APPLE;
    first [apply ladder_notes; reflexivity | reflexivity | by repeat case_match
          | case_match; first [apply ladder_notes; reflexivity | reflexivity]]
  | split; reflexivity
  | reflexivity ].

(** The part of [main] after [observe]. *)
Ltac tail_tac := repeat cwp_step; reflexivity.
