(* ===== verification/RefKernel.v ===== *)
(** A small executable kernel that keeps the Mach contract, with the constants
    of the macOS SDK and a host: the concrete instances of the parameters of
    the development, at which its theorems are evaluated. *)

From stdpp Require Import gmap.
From S2P Require Import Prelude MachApi NxMachUtils MachContract NxResult.

Local Open Scope Z_scope.

(** ** The constants of [<mach/message.h>] and its companions *)

Definition macos_sdk : MachSdk := {|
  MACH_MSG_TYPE_MOVE_RECEIVE := 16;
  MACH_MSG_TYPE_MOVE_SEND := 17;
  MACH_MSG_TYPE_MOVE_SEND_ONCE := 18;
  MACH_MSG_TYPE_COPY_SEND := 19;
  MACH_MSG_TYPE_MAKE_SEND_ONCE := 21;
  MACH_SEND_MSG := 1;
  MACH_RCV_MSG := 2;
  MACH_SEND_TIMEOUT := 0x10;
  MACH_RCV_TIMEOUT := 0x100;
  MACH_MSGH_BITS_COMPLEX := 0x80000000;
  MACH_MSGH_BITS := λ remote local, Z.lor remote (Z.shiftl local 8);
  MACH_MSGH_BITS_REMOTE := λ bits, Z.land bits 0x1f;
  MACH_MSGH_BITS_LOCAL := λ bits, Z.shiftr (Z.land bits 0x1f00) 8;
  sizeof_mach_msg_header := 24;
  sizeof_mach_msg_body := 4;
  sizeof_mach_msg_port_descriptor := 12;
  sizeof_mach_msg_max_trailer := 68;
  MACH_PORT_RECEIVE_STATUS := 2;
  MACH_PORT_RECEIVE_STATUS_COUNT := 10;
  HOST_BASIC_INFO := 1;
  HOST_BASIC_INFO_COUNT := 12;
  MACH_TASK_BASIC_INFO := 20;
  MACH_TASK_BASIC_INFO_COUNT := 12;
  TASK_BOOTSTRAP_PORT := 4;
  MACH_PORT_RIGHT_SEND_ONCE := 2;
  MACH_PORT_RIGHT_DEAD_NAME := 4;
|}.

(** A macOS host without result environment, one with an environment file, and
    one that is not macOS. *)
Definition task_self_name : Z := 0x203.
Definition macos : Host := {|
  APPLE := true;
  mach_task_self := task_self_name;
  getenv := λ _, None;
  read_file := λ _, None;
|}.
Definition not_macos : Host := {|
  APPLE := false;
  mach_task_self := 0;
  getenv := λ _, None;
  read_file := λ _, None;
|}.

(** ** States *)

Record machine := mk_machine { ks : space; ticks : Z }.

Definition name_limit : Z := 2 ^ 20.

(** The next name: above every name in use. *)
Definition next_name (s : space) : Z :=
  1 + foldr Z.max task_self_name
        (map fst (map_to_list s) ++ map (λ p, e_in p.2) (map_to_list s)).

Definition host_names (s : space) : list (Z * entry) :=
  filter (λ p, e_obj p.2 = HostPort) (map_to_list s).

(** The members of a port set that have messages. *)
Definition ready_members (p : Z) (s : space) : list (Z * entry) :=
  filter (λ m, e_in m.2 = p ∧ e_recv m.2 = true ∧ e_queue m.2 ≠ []) (map_to_list s).

Definition qlimit : Z := 5.

Definition delivered (n : Z) (m : mach_msg_buf) : mach_msg_buf :=
  mk_msg (msgh_bits m) (msgh_size m) MACH_PORT_NULL n (msgh_id m)
    (msgh_descriptor_count m) (msg_cargo m) (msg_second m).

(** Takes the first message of the receive right [n]. *)
Definition take_message (n : Z) (e : entry) (m0 : mach_msg_buf) (s : space) :
    Z * mach_msg_buf * space :=
  match e_queue e with
  | [] => (MACH_RCV_TIMED_OUT, m0, s)
  | m :: _ => (MACH_MSG_SUCCESS, delivered n m, <[n := dequeue e]> s)
  end.

(** Of the messages with descriptors it takes those that move a dead name. *)
Definition ref_send_complex (m : mach_msg_buf) (s : space) : Z * mach_msg_buf * space :=
  let n := desc_name (msg_cargo m) in
  if (msgh_descriptor_count m =? 1) && (desc_disposition (msg_cargo m) =? 17) then
    match s !! n, s !! msgh_remote_port m with
    | None, _ => (MACH_SEND_INVALID_RIGHT, m, s)
    | Some ed, Some e =>
        if (0 <? e_dead ed) && negb (n =? msgh_remote_port m) && e_recv e &&
           (0 <? e_send e) && (Z.of_nat (length (e_queue e)) <? qlimit)
        then (MACH_MSG_SUCCESS, m,
              <[msgh_remote_port m := enqueue (without_port m) e]> (put n (add_dead (-1) ed) s))
        else (MACH_SEND_INVALID_RIGHT, m, s)
    | _, None => (MACH_SEND_INVALID_DEST, m, s)
    end
  else (MACH_SEND_INVALID_TYPE, m, s).

Definition ref_send (m : mach_msg_buf) (s : space) : Z * mach_msg_buf * space :=
  if Z.testbit (msgh_bits m) 31 then ref_send_complex m s else
  match s !! msgh_remote_port m with
  | Some e =>
      if e_recv e && ((0 <? e_send e) || (msgh_bits m =? 20)) &&
         (Z.of_nat (length (e_queue e)) <? qlimit)
      then (MACH_MSG_SUCCESS, m, <[msgh_remote_port m :=
              enqueue m (if msgh_bits m =? 17 then add_send (-1) e else e)]> s)
      else (MACH_SEND_TIMED_OUT, m, s)
  | None => (MACH_SEND_INVALID_DEST, m, s)
  end.

Definition ref_receive (n : Z) (m0 : mach_msg_buf) (s : space) : Z * mach_msg_buf * space :=
  match s !! n with
  | Some e =>
      if e_pset e then
        match ready_members n s with
        | (n', e') :: _ => take_message n' e' m0 s
        | [] => (MACH_RCV_TIMED_OUT, m0, s)
        end
      else if e_recv e then take_message n e m0 s
      else (MACH_RCV_INVALID_NAME, m0, s)
  | None => (MACH_RCV_INVALID_NAME, m0, s)
  end.

Definition ref_status (e : entry) : mach_port_status_t :=
  mk_status (e_in e) (e_seqno e) 0 qlimit (Z.of_nat (length (e_queue e))) 0
    (0 <? e_send e) false false 0.

(** Leaves the sets the port was. *)
Definition leave_set (p : Z) (e : entry) : entry :=
  if e_in e =? p then set_in MACH_PORT_NULL e else e.

#[local] Existing Instance macos_sdk.

Section kernel.
Variable sup : bool.

Definition lookup_or {A} (s : space) (n : Z) (none : A) (some : entry → A) : A :=
  match s !! n with Some e => some e | None => none end.

Definition ref_step {R} (c : mach_call R) (s : space) (t : Z) : R * space :=
  match c in mach_call R return R * space with
  | mach_port_names =>
      if sup then
        let l := map_to_list s in
        ((KERN_SUCCESS, mk_array 0x10000 (map fst l),
           mk_array 0x20000 (map (λ p, type_bits p.2) l)), s)
      else ((KERN_NOT_SUPPORTED, mk_array 0 [], mk_array 0 []), s)
  | vm_allocate _ => ((KERN_SUCCESS, 0x30000), s)
  | vm_deallocate _ _ => (KERN_SUCCESS, s)
  | mach_port_allocate rt =>
      let n := next_name s in
      if (n <? name_limit) &&
         ((rt =? MACH_PORT_RIGHT_RECEIVE) || (rt =? MACH_PORT_RIGHT_PORT_SET) ||
          (rt =? MACH_PORT_RIGHT_DEAD_NAME))
      then ((KERN_SUCCESS, n), <[n := fresh_entry rt]> s)
      else ((KERN_NO_SPACE, MACH_PORT_NULL), s)
  | mach_port_type n =>
      (lookup_or s n (KERN_INVALID_NAME, 0) (λ e, (KERN_SUCCESS, type_bits e)), s)
  | mach_port_get_refs n rt =>
      (lookup_or s n (KERN_INVALID_NAME, 0) (λ e, (KERN_SUCCESS, right_refs rt e)), s)
  | mach_port_insert_right n p d =>
      lookup_or s n (KERN_INVALID_NAME, s) (λ e,
        if (n =? p) && (d =? MACH_MSG_TYPE_MAKE_SEND) && e_recv e && (e_send e <? UREFS_MAX)
        then (KERN_SUCCESS, <[n := add_send 1 e]> s) else (KERN_INVALID_VALUE, s))
  | mach_port_extract_right _ _ => ((KERN_NOT_SUPPORTED, MACH_PORT_NULL, 0), s)
  | mach_port_mod_refs n rt d =>
      lookup_or s n (KERN_INVALID_NAME, s) (λ e,
        if (rt =? MACH_PORT_RIGHT_SEND) && (0 <? e_send e) && (0 <=? e_send e + d) &&
           (e_send e + d <=? UREFS_MAX)
        then (KERN_SUCCESS, put n (add_send d e) s) else (KERN_INVALID_VALUE, s))
  | mach_port_deallocate n =>
      if (n =? MACH_PORT_NULL) || (n =? MACH_PORT_DEAD) then (KERN_SUCCESS, s) else
      lookup_or s n (KERN_INVALID_NAME, s) (λ e,
        if 0 <? e_send e then (KERN_SUCCESS, put n (add_send (-1) e) s)
        else if 0 <? e_dead e then (KERN_SUCCESS, put n (add_dead (-1) e) s)
        else (KERN_INVALID_RIGHT, s))
  | mach_port_destroy n =>
      lookup_or s n (KERN_INVALID_NAME, s) (λ _,
        (KERN_SUCCESS, leave_set n <$> delete n s))
  | mach_port_move_member m p =>
      lookup_or s m (KERN_INVALID_NAME, s) (λ e,
        if e_recv e &&
           (if p =? MACH_PORT_NULL then negb (e_in e =? MACH_PORT_NULL)
            else lookup_or s p false e_pset)
        then (KERN_SUCCESS, <[m := set_in p e]> s) else (KERN_INVALID_RIGHT, s))
  | mach_port_get_attributes n flavor count =>
      (lookup_or s n (KERN_INVALID_NAME, ref_status (fresh_entry 0), count) (λ e,
         if (flavor =? 2) && e_recv e && (count =? 10)
         then (KERN_SUCCESS, ref_status e, 10)
         else (KERN_INVALID_ARGUMENT, ref_status e, count)), s)
  | mach_msg m option _ _ rcv_name _ _ =>
      if option =? 0x11 then ref_send m s
      else if option =? 0x102 then ref_receive rcv_name m s
      else (MACH_SEND_INVALID_DATA, m, s)
  | mach_host_self =>
      match host_names s with
      | (n, e) :: _ => (n, <[n := add_send 1 e]> s)
      | [] => let n := next_name s in
              if n <? name_limit then (n, <[n := add_send 1 host_entry]> s)
              else (MACH_PORT_NULL, s)
      end
  | host_info host flavor count =>
      ((lookup_or s host KERN_INVALID_ARGUMENT (λ e,
          if bool_decide (e_obj e = HostPort) && (0 <? e_send e) && (flavor =? 1) &&
             (count =? 12) && negb (host =? MACH_PORT_NULL)
          then KERN_SUCCESS else KERN_INVALID_ARGUMENT),
        mk_host_basic 8 8 12 2 0 8 8 8 8 (2 ^ 31) (2 ^ 33), count), s)
  | task_info task flavor count =>
      ((lookup_or s task KERN_INVALID_ARGUMENT (λ e,
          if bool_decide (e_obj e = TaskPort) && (0 <? e_send e) && (flavor =? 20) &&
             (count =? 12) && negb (task =? MACH_PORT_NULL)
          then KERN_SUCCESS else KERN_INVALID_ARGUMENT),
        mk_task_basic 0 1 (2 ^ 32) (2 ^ 20) 0 1000 0 500, count), s)
  | mach_absolute_time => (t, s)
  | mach_timebase_info => ((KERN_SUCCESS, (125, 3)), s)
  | task_get_special_port _ => ((KERN_SUCCESS, MACH_PORT_NULL), s)
  | task_set_special_port _ _ => (KERN_SUCCESS, s)
  | sys_pipe => (Some (3, 4), s)
  | sys_fork => (-1, s)
  | sys_close _ => (tt, s)
  | sys_write _ buf => (IoOk (length buf), s)
  | sys_read _ _ => (IoOk [], s)
  | sys_waitpid _ => ((-1, 0), s)
  end.

(** The clock advances with every call, and stops at its largest value. *)
Definition next_tick (t : Z) : Z := Z.min (2 ^ 64 - 1) (Z.max 0 t + 1).

Definition ref_kernel : Kernel machine := λ R c w,
  let t := next_tick (ticks w) in
  let '(r, s) := ref_step c (ks w) t in (r, mk_machine s t).
End kernel.

(** ** The kernel keeps the contract *)

Definition names_bounded (s : space) : Prop :=
  ∀ n e, s !! n = Some e → 0 < n < name_limit.
Definition one_host (s : space) : Prop :=
  ∀ n n' e e', s !! n = Some e → s !! n' = Some e' →
    e_obj e = HostPort → e_obj e' = HostPort → n = n'.

Record ref_space_ok (s : space) : Prop := {
  ref_ok : space_ok s;
  ref_bounded : names_bounded s;
  ref_one_host : one_host s;
}.
Definition ref_healthy (w : machine) : Prop := ref_space_ok (ks w).

Lemma foldr_max_ge b l x : x ∈ l → x ≤ foldr Z.max b l.
Proof. induction 1; simpl; lia. Qed.
Lemma foldr_max_base b l : b ≤ foldr Z.max b l.
Proof. induction l; simpl; lia. Qed.

Lemma next_name_pos s : 0 < next_name s.
Proof.
  unfold next_name. pose proof (foldr_max_base task_self_name
    (map fst (map_to_list s) ++ map (λ p, e_in p.2) (map_to_list s))).
  unfold task_self_name in *. lia.
Qed.

Lemma next_name_above s n e : s !! n = Some e → n < next_name s ∧ e_in e < next_name s.
Proof.
  intros Hn%elem_of_map_to_list. unfold next_name.
  assert (∀ x, x ∈ map fst (map_to_list s) ++ map (λ p, e_in p.2) (map_to_list s) →
    x < 1 + foldr Z.max task_self_name
      (map fst (map_to_list s) ++ map (λ p, e_in p.2) (map_to_list s))) as Hx.
  { intros x Hx%(foldr_max_ge task_self_name). lia. }
  split; apply Hx, elem_of_app; [left|right]; apply list_elem_of_fmap; by exists (n, e).
Qed.

Lemma next_name_fresh s : s !! next_name s = None.
Proof.
  destruct (s !! next_name s) eqn:E; [|done]. apply next_name_above in E. lia.
Qed.

Lemma next_name_no_members s : no_members (next_name s) s.
Proof. intros n e Hn. apply next_name_above in Hn. lia. Qed.

(** ** Healthy spaces stay healthy *)

Lemma ref_delete n s : ref_space_ok s → ref_space_ok (delete n s).
Proof.
  intros [H1 H2 H3]. split.
  - intros m e [_ Hm]%lookup_delete_Some. eauto.
  - intros m e [_ Hm]%lookup_delete_Some. eauto.
  - intros m m' e e' [_ Hm]%lookup_delete_Some [_ Hm']%lookup_delete_Some. eauto.
Qed.

Lemma ref_update n e e' s :
  ref_space_ok s → s !! n = Some e → e_obj e' = e_obj e → alive e' = true →
  0 ≤ e_send e' → 0 ≤ e_dead e' → ref_space_ok (<[n := e']> s).
Proof.
  intros [H1 H2 H3] Hn Ho Ha Hs Hd. split.
  - intros m x [[<- <-]|[_ Hm]]%lookup_insert_Some; eauto.
  - intros m x [[<- <-]|[_ Hm]]%lookup_insert_Some; eauto.
  - intros m m' x x' [[<- <-]|[_ Hm]]%lookup_insert_Some [[<- <-]|[_ Hm']]%lookup_insert_Some;
      intros; try done; eapply H3; eauto; congruence.
Qed.

Lemma ref_insert n e s :
  ref_space_ok s → 0 < n < name_limit → alive e = true → 0 ≤ e_send e → 0 ≤ e_dead e →
  (e_obj e = HostPort → ∀ m x, s !! m = Some x → e_obj x ≠ HostPort) →
  ref_space_ok (<[n := e]> s).
Proof.
  intros [H1 H2 H3] Hn Ha Hs Hd Ho. split.
  - intros m x [[<- <-]|[_ Hm]]%lookup_insert_Some; eauto.
  - intros m x [[<- <-]|[_ Hm]]%lookup_insert_Some; eauto.
  - intros m m' x x' [[<- <-]|[_ Hm]]%lookup_insert_Some [[<- <-]|[_ Hm']]%lookup_insert_Some;
      intros E E'; [done|by destruct (Ho E _ _ Hm')|by destruct (Ho E' _ _ Hm)|eauto].
Qed.

Lemma ref_put n e e' s :
  ref_space_ok s → s !! n = Some e → e_obj e' = e_obj e → 0 ≤ e_send e' → 0 ≤ e_dead e' →
  ref_space_ok (put n e' s).
Proof.
  intros. unfold put. destruct (alive e') eqn:E; [by eapply ref_update|by apply ref_delete].
Qed.

Lemma leave_set_alive p e : alive (leave_set p e) = alive e.
Proof. unfold leave_set. by case_match. Qed.
Lemma leave_set_send p e : e_send (leave_set p e) = e_send e.
Proof. unfold leave_set. by case_match. Qed.
Lemma leave_set_dead p e : e_dead (leave_set p e) = e_dead e.
Proof. unfold leave_set. by case_match. Qed.
Lemma leave_set_obj p e : e_obj (leave_set p e) = e_obj e.
Proof. unfold leave_set. by case_match. Qed.

Lemma ref_leave p s : ref_space_ok s → ref_space_ok (leave_set p <$> s).
Proof.
  intros [H1 H2 H3]. split.
  - intros m e (x & <- & Hx)%lookup_fmap_Some.
    rewrite leave_set_alive, leave_set_send, leave_set_dead. eauto.
  - intros m e (x & <- & Hx)%lookup_fmap_Some. eauto.
  - intros m m' e e' (x & <- & Hx)%lookup_fmap_Some (x' & <- & Hx')%lookup_fmap_Some.
    rewrite !leave_set_obj. eauto.
Qed.

Lemma leave_set_none p s : no_members p s → leave_set p <$> delete p s = delete p s.
Proof.
  intros Hp. apply map_eq. intros n. rewrite lookup_fmap, lookup_delete.
  case_decide; [done|]. destruct (s !! n) as [e|] eqn:E; simpl; [|done].
  unfold leave_set. destruct (Z.eqb_spec (e_in e) p); [|done]. by destruct (Hp _ _ E).
Qed.

Lemma host_names_spec s n e :
  (n, e) ∈ host_names s ↔ s !! n = Some e ∧ e_obj e = HostPort.
Proof.
  unfold host_names. rewrite list_elem_of_filter, elem_of_map_to_list. tauto.
Qed.

Lemma ready_members_spec p s n e :
  (n, e) ∈ ready_members p s ↔
  s !! n = Some e ∧ e_in e = p ∧ e_recv e = true ∧ e_queue e ≠ [].
Proof.
  unfold ready_members. rewrite list_elem_of_filter, elem_of_map_to_list. simpl. tauto.
Qed.

(** ** Snapshots *)

Lemma bounded_count s : names_bounded s → Z.of_nat (length (map_to_list s)) ≤ max_names.
Proof.
  intros Hb. unfold max_names.
  assert (length (map fst (map_to_list s)) ≤ length (seqZ 0 name_limit))%nat as Hl.
  { apply NoDup_incl_length; [apply NoDup_ListNoDup, NoDup_fst_map_to_list|].
    intros n Hn%list_elem_of_In. apply list_elem_of_In.
    apply list_elem_of_fmap in Hn as ([n' e] & -> & Hn). apply elem_of_map_to_list in Hn.
    apply elem_of_seqZ. specialize (Hb _ _ Hn). simpl. lia. }
  rewrite length_map, length_seqZ in Hl. unfold name_limit in Hl. lia.
Qed.

Lemma ref_lists_space s :
  names_bounded s →
  lists_space s (map fst (map_to_list s)) (map (λ p, type_bits p.2) (map_to_list s)).
Proof.
  intros Hb. split; [by rewrite !length_map|].
  split; [apply NoDup_fst_map_to_list|].
  split; [rewrite length_map; by apply bounded_count|].
  intros n t.
  assert (∀ l : list (Z * entry),
    zip (map fst l) (map (λ p, type_bits p.2) l) = map (λ p, (p.1, type_bits p.2)) l) as ->.
  { induction l as [|x l IH]; simpl; by f_equal. }
  rewrite list_elem_of_fmap. split.
  - intros ([n' e] & [= -> ->] & Hn). exists e. by apply elem_of_map_to_list in Hn.
  - intros (e & Hn & ->). exists (n, e). split; [done|]. by apply elem_of_map_to_list.
Qed.

(** ** The contract, call by call *)

Definition ref_platform (sup : bool) : platform :=
  mk_platform sup (λ n, 0 < n < name_limit).

(** One call keeps the contract, and the space healthy. *)
Definition keeps (sup : bool) {R} (c : mach_call R) (s : space) (r : R) (s' : space) : Prop :=
  contract_step (ref_platform sup) c s r s' ∧ ref_space_ok s'.

Lemma keeps_names sup s :
  ref_space_ok s →
  keeps sup mach_port_names s (ref_step sup mach_port_names s 0).1 s.
Proof.
  intros Hs. split; [|done]. destruct sup; simpl; [|done].
  split; [done|]. split; [done|]. apply ref_lists_space, Hs.
Qed.

Lemma keeps_allocate sup rt s t :
  ref_space_ok s →
  keeps sup (mach_port_allocate rt) s (ref_step sup (mach_port_allocate rt) s t).1
    (ref_step sup (mach_port_allocate rt) s t).2.
Proof.
  intros Hs. unfold keeps. simpl. pose proof (next_name_pos s).
  destruct (Z.ltb_spec (next_name s) name_limit); simpl; [|by split; [left|]].
  destruct (_ || _) eqn:E; simpl; [|by split; [left|]].
  split.
  - right. split; [done|].
    split; [unfold valid_name, MACH_PORT_NULL, MACH_PORT_DEAD, name_limit in *; lia|].
    split; [simpl; lia|].
    split; [apply next_name_fresh|]. split; [apply next_name_no_members|done].
  - apply ref_insert; [done|lia|..]; unfold alive, fresh_entry; simpl; try done;
      by repeat case_match.
Qed.

Lemma keeps_host_self sup s t :
  ref_space_ok s →
  keeps sup mach_host_self s (ref_step sup mach_host_self s t).1
    (ref_step sup mach_host_self s t).2.
Proof.
  intros Hs. unfold keeps. simpl. pose proof (next_name_pos s) as Hp.
  destruct (host_names s) as [|[n e] l] eqn:E.
  - assert (∀ m x, s !! m = Some x → e_obj x ≠ HostPort) as Hno.
    { intros m x Hm Hx. assert ((m, x) ∈ host_names s) by by apply host_names_spec.
      rewrite E in *. set_solver. }
    destruct (Z.ltb_spec (next_name s) name_limit); simpl; [|by split; [left|]].
    split; [|by apply ref_insert]. right. split; [unfold MACH_PORT_NULL; lia|].
    split; [intros m x Hm Hx; by destruct (Hno m x)|].
    exists host_entry. split; [right; split; [apply next_name_fresh|done]|done].
  - assert ((n, e) ∈ host_names s) as [Hn He]%host_names_spec by (rewrite E; set_solver).
    destruct (ref_ok s Hs n e Hn) as (Ha & Hu & Hd). destruct (ref_bounded s Hs n e Hn).
    simpl. split.
    + right. split; [unfold MACH_PORT_NULL; lia|].
      split; [intros m x Hm Hx; by eapply (ref_one_host s Hs)|]. exists e. eauto.
    + eapply ref_update; eauto; simpl; [|lia].
      unfold alive in *. simpl. rewrite !orb_true_iff, !Z.ltb_lt in *. lia.
Qed.

(** What the clauses for complex messages ask of [ref_send_complex]. *)
Lemma keeps_send_complex m s :
  ref_space_ok s → Z.testbit (msgh_bits m) 31 = true →
  let '(mr, _, s') := ref_send_complex m s in
  send_invalid m s mr s' ∧ send_overdrawn m s mr s' ∧ send_nothing m s mr s' ∧
  send_dead m s mr s' ∧ ref_space_ok s'.
Proof.
  intros Hs Hb. unfold ref_send_complex.
  destruct (Z.eqb_spec (msgh_descriptor_count m) 1) as [Hc|Hc]; simpl.
  2:{ split; [done|]. split; [by split; [|left]|].
      split; [intros n (_ & _ & ? & _); congruence|].
      split; [intros n e ed (_ & _ & ? & _); congruence|done]. }
  destruct (Z.eqb_spec (desc_disposition (msg_cargo m)) 17) as [Hd|Hd].
  2:{ split; [done|]. split; [by split; [|left]|].
      split; [intros n (_ & _ & _ & E); by rewrite E in Hd|].
      split; [intros n e ed (_ & _ & _ & E); by rewrite E in Hd|done]. }
  assert (∀ mr s', send_invalid m s mr s') as Hinv.
  { intros mr s' _ _ _ Hi. destruct Hi. rewrite Hd. simpl. set_solver. }
  assert (∀ mr s', send_overdrawn m s mr s') as Hover.
  { intros mr s' n e _ H2. lia. }
  destruct (s !! desc_name (msg_cargo m)) as [ed|] eqn:En.
  2:{ split; [apply Hinv|]. split; [apply Hover|]. split; [done|].
      split; [|done]. intros n e ed (_ & _ & _ & E) _ _ _ _ _ Hn. rewrite E in En. simpl in En.
      congruence. }
  assert (∀ mr s', send_nothing m s mr s') as Hno.
  { intros mr s' n (_ & _ & _ & E) _ Hn. rewrite E in En. simpl in En. congruence. }
  destruct (s !! msgh_remote_port m) as [e|] eqn:E.
  2:{ split; [apply Hinv|]. split; [apply Hover|]. split; [apply Hno|].
      split; [|done]. intros n e ed' _ _ He. congruence. }
  destruct (_ && _) eqn:Hg.
  - split; [apply Hinv|]. split; [apply Hover|]. split; [apply Hno|]. split.
    { intros n e' ed' (_ & _ & _ & Ec) _ He _ _ _ Hn _. rewrite Ec in *. simpl in *.
      split; [done|]. congruence. }
    rewrite !andb_true_iff, negb_true_iff, Z.eqb_neq, !Z.ltb_lt in Hg.
    destruct Hg as [[[[Hed Hne] Hr] Hu] _]. destruct (ref_ok s Hs _ e E) as (Ha & Hp & Hq).
    destruct (ref_ok s Hs _ ed En) as (_ & Hp' & _).
    eapply (ref_update _ e); simpl; [|..].
    + eapply ref_put; eauto; simpl; lia.
    + unfold put. case_match;
        [by rewrite lookup_insert_ne by done|by rewrite lookup_delete_ne by done].
    + done.
    + exact Ha.
    + done.
    + done.
  - split; [apply Hinv|]. split; [apply Hover|]. split; [apply Hno|]. split; [|done].
    intros n e' ed' (_ & _ & _ & Ec) Hne He Hr Hu Hq Hn Hd'. exfalso.
    rewrite Ec in *. simpl in *. assert (e' = e) as -> by congruence.
    assert (ed' = ed) as -> by congruence. apply Z.ltb_lt in Hu, Hd'. apply Z.eqb_neq in Hne.
    by rewrite Hr, Hq, Hd', Hne, Hu in Hg.
Qed.

Lemma keeps_send sup m sz rsz rn tmo nt s t :
  ref_space_ok s →
  keeps sup (mach_msg m 0x11 sz rsz rn tmo nt) s
    (ref_step sup (mach_msg m 0x11 sz rsz rn tmo nt) s t).1
    (ref_step sup (mach_msg m 0x11 sz rsz rn tmo nt) s t).2.
Proof.
  intros Hs. unfold keeps. simpl. unfold ref_send.
  destruct (Z.testbit (msgh_bits m) 31) eqn:Hc; simpl.
  { pose proof (keeps_send_complex m s Hs Hc) as Hk.
    destruct (ref_send_complex m s) as [[mr m'] s']. destruct Hk as (H1 & H2 & H3 & H4 & H5).
    split; [|done]. split; [|done]. intros _.
    split; [intros e Hb; by rewrite Hb in Hc|]. split; [intros e Hb; by rewrite Hb in Hc|].
    done. }
  assert (∀ mr s', send_invalid m s mr s' ∧ send_overdrawn m s mr s' ∧
    send_nothing m s mr s' ∧ send_dead m s mr s') as Hno.
  { intros mr s'. split; [|split; [|split]].
    - intros Hb. by rewrite Hb in Hc.
    - intros n e Hb. by rewrite Hb in Hc.
    - intros n [Hb _]. by rewrite Hb in Hc.
    - intros n e ed [Hb _]. by rewrite Hb in Hc. }
  destruct (s !! msgh_remote_port m) as [e|] eqn:E; simpl.
  - destruct (e_recv e && (_ || _) && _) eqn:Hg; simpl.
    + split; [split; [intros _|done]|].
      { split; [|split; [|apply Hno]]; intros e' Hb _ He _ _ _; (split; [done|]);
          assert (e' = e) as -> by congruence; by rewrite Hb. }
      apply andb_prop in Hg as [[Hr Hu]%andb_prop _].
      destruct (ref_ok s Hs _ e E) as (_ & Hp & Hd).
      eapply ref_update; [done|done|by case_match|..]; case_match; simpl; try lia;
        unfold alive; simpl; by rewrite Hr.
    + split; [split; [intros _|done]|done].
      split; [|split; [|apply Hno]]; intros e' _ _ He Hr Hp Hq; exfalso;
        assert (e' = e) as -> by congruence; rewrite Hr, Hq in Hg; simpl in Hg;
        rewrite andb_true_r in Hg; lia.
  - split; [split; [intros _|done]|done].
    split; [|split; [|apply Hno]]; intros e' _ _ He; congruence.
Qed.

Lemma keeps_take n e m0 s :
  ref_space_ok s → s !! n = Some e → ref_space_ok (take_message n e m0 s).2.
Proof.
  intros Hs Hn. unfold take_message. destruct (e_queue e); [done|]. simpl.
  destruct (ref_ok s Hs n e Hn) as (? & ? & ?). by eapply ref_update.
Qed.

Lemma keeps_receive sup m sz rsz rn tmo nt s t :
  ref_space_ok s →
  keeps sup (mach_msg m 0x102 sz rsz rn tmo nt) s
    (ref_step sup (mach_msg m 0x102 sz rsz rn tmo nt) s t).1
    (ref_step sup (mach_msg m 0x102 sz rsz rn tmo nt) s t).2.
Proof.
  intros Hs. unfold keeps. simpl. unfold ref_receive.
  destruct (s !! rn) as [e|] eqn:E; simpl.
  2:{ split; [split; [done|]|done]. intros _.
      split; [intros e He|intros e n e' m' q He]; congruence. }
  destruct (e_pset e) eqn:Hp; [|destruct (e_recv e) eqn:Hr]; simpl.
  - destruct (ready_members rn s) as [|[n1 e1] l] eqn:El.
    { split; [split; [done|]|done]. intros _. split; [intros e' He _ Hq; congruence|].
      intros ep n e' m' q _ _ Hn Hr' Hin Hq. exfalso.
      assert ((n, e') ∈ ready_members rn s) by (apply ready_members_spec; by rewrite Hq).
      rewrite El in *. set_solver. }
    assert ((n1, e1) ∈ ready_members rn s) as (Hn1 & Hi1 & Hr1 & Hq1)%ready_members_spec
      by (rewrite El; set_solver).
    split; [|by apply keeps_take].
    destruct (take_message n1 e1 m s) as [[mr m'] s'] eqn:Et. simpl. split; [done|]. intros _.
    split; [intros e' He _ Hq; congruence|].
    intros ep n e' m1 q _ _ Hn Hr' Hin Hq Hu _.
    assert (n1 = n) as -> by by eapply Hu. assert (e' = e1) as -> by congruence.
    unfold take_message in Et. rewrite Hq in Et. by simplify_eq.
  - split; [|by apply keeps_take].
    destruct (take_message rn e m s) as [[mr m'] s'] eqn:Et. simpl. split; [done|]. intros _.
    split; [|intros ep n e' m1 q Hp' Hps; congruence].
    intros e' He _ _ _. assert (e' = e) as -> by congruence.
    unfold take_message in Et. destruct (e_queue e); simplify_eq; [done|]. intros _.
    by split_and!.
  - split; [split; [done|]|done]. intros _.
    split; [intros e' He|intros ep n e' m' q Hp' Hps]; congruence.
Qed.

Lemma keeps_msg sup m option sz rsz rn tmo nt s t :
  ref_space_ok s →
  keeps sup (mach_msg m option sz rsz rn tmo nt) s
    (ref_step sup (mach_msg m option sz rsz rn tmo nt) s t).1
    (ref_step sup (mach_msg m option sz rsz rn tmo nt) s t).2.
Proof.
  intros Hs. destruct (Z.eq_dec option 0x11) as [->|N1]; [by apply keeps_send|].
  destruct (Z.eq_dec option 0x102) as [->|N2]; [by apply keeps_receive|].
  unfold keeps. simpl. rewrite !(proj2 (Z.eqb_neq _ _)) by done. simpl.
  split; [split; intros E; by subst|done].
Qed.

(** A call that looks one name up. *)
Ltac keeps_lookup s n :=
  unfold keeps, lookup_or; simpl; unfold lookup_or; destruct (s !! n) as [e|] eqn:E; simpl.

Lemma keeps_insert_right sup n p d s t :
  ref_space_ok s →
  keeps sup (mach_port_insert_right n p d) s (ref_step sup (mach_port_insert_right n p d) s t).1
    (ref_step sup (mach_port_insert_right n p d) s t).2.
Proof.
  intros Hs. keeps_lookup s n; [|split; [intros; congruence|done]].
  destruct (_ && _) eqn:Hc; simpl.
  - split; [intros e' _ _ He _ _; split; [done|congruence]|].
    rewrite !andb_true_iff in Hc. destruct Hc as [[_ Hr] _].
    destruct (ref_ok s Hs n e E) as (? & ? & ?). eapply ref_update; eauto; simpl; [|lia].
    unfold alive. simpl. by rewrite Hr.
  - split; [|done]. intros e' -> -> He Hr Hu. exfalso.
    assert (e' = e) as -> by congruence. rewrite Z.eqb_refl, Hr in Hc. simpl in Hc. lia.
Qed.

Lemma keeps_mod_refs sup n rt d s t :
  ref_space_ok s →
  keeps sup (mach_port_mod_refs n rt d) s (ref_step sup (mach_port_mod_refs n rt d) s t).1
    (ref_step sup (mach_port_mod_refs n rt d) s t).2.
Proof.
  intros Hs. keeps_lookup s n; [|split; [intros; congruence|done]].
  destruct (_ && _) eqn:Hc; simpl.
  - split; [intros e' _ He _ _; split; [done|congruence]|].
    rewrite !andb_true_iff in Hc. destruct Hc as [[_ Hr] _].
    destruct (ref_ok s Hs n e E) as (? & ? & ?). eapply ref_put; eauto; simpl; lia.
  - split; [|done]. intros e' -> He Hr Hu. exfalso.
    assert (e' = e) as -> by congruence. rewrite Z.eqb_refl in Hc. simpl in Hc. lia.
Qed.

Lemma keeps_deallocate sup n s t :
  ref_space_ok s →
  keeps sup (mach_port_deallocate n) s (ref_step sup (mach_port_deallocate n) s t).1
    (ref_step sup (mach_port_deallocate n) s t).2.
Proof.
  intros Hs. unfold keeps. simpl.
  destruct (Z.eqb_spec n MACH_PORT_NULL) as [->|N]; simpl.
  { split; [|done]. split; [done|]. split; [done|]. split; [intros []|]; done. }
  destruct (Z.eqb_spec n MACH_PORT_DEAD) as [->|N']; simpl.
  { split; [|done]. split; [done|]. split; [done|]. split; [intros []; done|].
    intros e _ He. apply ref_bounded in He; [|done]. unfold MACH_PORT_DEAD, name_limit in He.
    lia. }
  keeps_lookup s n.
  2:{ split; [|done]. split; [done|]. split; [done|]. split; [done|]. intros; congruence. }
  destruct (ref_ok s Hs n e E) as (_ & ? & ?).
  destruct (Z.ltb_spec 0 (e_send e)); [|destruct (Z.ltb_spec 0 (e_dead e))]; simpl.
  - split; [|eapply ref_put; eauto; simpl; lia].
    split; [done|]. split; [done|]. split; [intros; congruence|].
    intros e' _ He _. split; [done|congruence].
  - split; [|eapply ref_put; eauto; simpl; lia].
    split; [done|]. split; [done|]. split; [intros; congruence|].
    intros e' _ He Hp. exfalso. assert (e' = e) as -> by congruence. lia.
  - split; [|done]. split; [done|]. split; [done|]. split; [intros; congruence|].
    intros e' _ He Hp. exfalso. assert (e' = e) as -> by congruence. lia.
Qed.

Lemma keeps_destroy sup n s t :
  ref_space_ok s →
  keeps sup (mach_port_destroy n) s (ref_step sup (mach_port_destroy n) s t).1
    (ref_step sup (mach_port_destroy n) s t).2.
Proof.
  intros Hs. keeps_lookup s n; [|split; [intros; congruence|done]].
  split; [intros; split; [done|by apply leave_set_none]|]. by apply ref_leave, ref_delete.
Qed.

Lemma keeps_move_member sup m p s t :
  ref_space_ok s →
  keeps sup (mach_port_move_member m p) s (ref_step sup (mach_port_move_member m p) s t).1
    (ref_step sup (mach_port_move_member m p) s t).2.
Proof.
  intros Hs. keeps_lookup s m; [|split; [intros; congruence|done]].
  destruct (_ && _) eqn:Hc; simpl.
  - split; [intros e' He _ _; split; [done|congruence]|].
    destruct (ref_ok s Hs m e E) as (? & ? & ?). by eapply ref_update.
  - split; [|done]. intros e' He Hr Hp. exfalso. assert (e' = e) as -> by congruence.
    rewrite Hr in Hc. simpl in Hc. destruct Hp as [[-> Hp]|(Hp & ep & Hep & Hps)].
    + simpl in Hc. apply negb_false_iff, Z.eqb_eq in Hc. congruence.
    + apply Z.eqb_neq in Hp. rewrite Hp, Hep in Hc. congruence.
Qed.

Lemma keeps_get_attributes sup n flavor count s t :
  ref_space_ok s →
  keeps sup (mach_port_get_attributes n flavor count) s
    (ref_step sup (mach_port_get_attributes n flavor count) s t).1 s.
Proof.
  intros Hs. keeps_lookup s n.
  2:{ split; [|done]. split; [done|]. split; [done|]. split; [done|]. intros; congruence. }
  destruct (_ && _) eqn:Hc; simpl; (split; [|done]); (split; [done|]).
  - split; [|split; [intros; congruence|]].
    + intros ->. simpl in Hc. done.
    + intros _ _ e' He _. split; [done|]. split; [done|].
      assert (e' = e) as -> by congruence. by repeat split.
  - split; [done|]. split; [intros; congruence|]. intros -> -> e' He Hr. exfalso.
    assert (e' = e) as -> by congruence. by rewrite Hr in Hc.
Qed.

Lemma keeps_host_info sup n flavor count s t :
  ref_space_ok s →
  keeps sup (host_info n flavor count) s (ref_step sup (host_info n flavor count) s t).1 s.
Proof.
  intros Hs. keeps_lookup s n.
  2:{ split; [|done]. split; [done|]. split; [done|]. split; [done|]. intros; congruence. }
  destruct (_ && _) eqn:Hc; simpl; (split; [|done]); (split; [done|]).
  - rewrite !andb_true_iff in Hc. destruct Hc as [[[[_ _] Hf] _] Hn].
    split; [intros ->; done|]. split; [intros ->; done|done].
  - split; [done|]. split; [done|]. intros -> -> Hn e' He Ho Hp. exfalso.
    assert (e' = e) as -> by congruence.
    rewrite bool_decide_true in Hc by done. simpl in Hc.
    apply Z.ltb_lt in Hp. apply Z.eqb_neq in Hn. by rewrite Hp, Hn in Hc.
Qed.

Lemma keeps_task_info sup n flavor count s t :
  ref_space_ok s →
  keeps sup (task_info n flavor count) s (ref_step sup (task_info n flavor count) s t).1 s.
Proof.
  intros Hs. keeps_lookup s n.
  2:{ split; [|done]. split; [done|]. split; [done|]. split; [done|]. intros; congruence. }
  destruct (_ && _) eqn:Hc; simpl; (split; [|done]); (split; [done|]).
  - rewrite !andb_true_iff in Hc. destruct Hc as [[[[_ _] Hf] Hz] Hn].
    split; [intros ->; done|]. split; [intros ->; done|]. intros; split; [done|lia].
  - split; [done|]. split; [done|]. intros -> -> Hn e' He Ho Hp. exfalso.
    assert (e' = e) as -> by congruence.
    rewrite bool_decide_true in Hc by done. simpl in Hc.
    apply Z.ltb_lt in Hp. apply Z.eqb_neq in Hn. by rewrite Hp, Hn in Hc.
Qed.

Lemma ref_step_keeps sup R (c : mach_call R) s t :
  ref_space_ok s → keeps sup c s (ref_step sup c s t).1 (ref_step sup c s t).2.
Proof.
  intros Hs. destruct c;
    eauto using keeps_allocate, keeps_host_self, keeps_msg, keeps_insert_right,
      keeps_mod_refs, keeps_deallocate, keeps_destroy, keeps_move_member;
    try (by split).
  - pose proof (keeps_names sup s Hs) as Hk. simpl in *. by destruct sup.
  - keeps_lookup s name; (split; [|done]); (split; [done|]); (split; intros; [|done||congruence]);
      [split; [done|congruence]|congruence].
  - keeps_lookup s name; (split; [|done]); (split; [done|]); (split; intros; [|done||congruence]);
      [split; [done|congruence]|congruence].
  - by apply keeps_get_attributes.
  - by apply keeps_host_info.
  - by apply keeps_task_info.
Qed.

(** The instances at which the theorems of the probes are evaluated. *)
Definition ref_contract (sup : bool) : @MachContract machine macos_sdk (ref_kernel sup).
Proof.
  refine {| view := ks; healthy := ref_healthy; kernel_platform := ref_platform sup |}.
  - intros w Hs. apply Hs.
  - intros R c w Hs. unfold handle, ref_kernel.
    destruct (ref_step_keeps sup R c (ks w) (next_tick (ticks w)) Hs) as [H1 H2].
    destruct (ref_step sup c (ks w) _) as [r s']. by split.
Defined.

(** A task that has just started: its own port, and a receive right with
    nothing queued. *)
Definition boot_space : space :=
  {[ task_self_name := mk_entry TaskPort false false 1 MACH_PORT_NULL [] 0 0;
     0x103 := mk_entry Port true false 0 MACH_PORT_NULL [] 0 0 ]}.
Definition boot : machine := mk_machine boot_space 1000.

Lemma boot_lookup n e :
  boot_space !! n = Some e →
  n = task_self_name ∧ e = mk_entry TaskPort false false 1 MACH_PORT_NULL [] 0 0 ∨
  n = 0x103 ∧ e = mk_entry Port true false 0 MACH_PORT_NULL [] 0 0.
Proof.
  unfold boot_space. intros [[<- <-]|[_ Hn]]%lookup_insert_Some; [by left|].
  apply lookup_singleton_Some in Hn as [<- <-]. by right.
Qed.

Lemma boot_healthy : ref_healthy boot.
Proof.
  split.
  - intros n e [[-> ->]|[-> ->]]%boot_lookup; by vm_compute.
  - intros n e [[-> ->]|[-> ->]]%boot_lookup; by vm_compute.
  - intros n n' e e' [[-> ->]|[-> ->]]%boot_lookup [[-> ->]|[-> ->]]%boot_lookup; done.
Qed.

Lemma boot_urefs n e : boot_space !! n = Some e → e_send e + 2 ≤ UREFS_MAX.
Proof. by intros [[-> ->]|[-> ->]]%boot_lookup. Qed.

Lemma on_macos : @APPLE macos = true.
Proof. done. Qed.

Lemma no_env_file : @env_file_ok macos.
Proof. by intros path s [=]. Qed.

(** The instances: a macOS host without environment file, the SDK, and the
    reference kernel with [mach_port_names]. *)
Module OnMacos.
#[export] Existing Instance macos.
#[export] Existing Instance macos_sdk.
#[export] Instance reference_kernel : Kernel machine := ref_kernel true.
#[export] Instance reference_contract : MachContract machine := ref_contract true.

Lemma healthy_boot : healthy boot.
Proof. exact boot_healthy. Qed.
End OnMacos.
