(* ===== verification/TwoTasks.v ===== *)
(** Two tasks that exchange port rights, executable: a concrete kernel for the
    probes that fork.

    Each task has a name space of its own; the objects behind the names, with
    their queues of messages, are shared, and a right that travels in a message
    is renamed when it arrives.  [fork] starts the program it was given for the
    child; a parent's call that would block runs the child until it finishes or
    blocks itself.  This is one schedule of the many a real kernel has: it
    serves to evaluate theorems that hold for all of them. *)

From stdpp Require Import gmap.
From S2P Require Import Prelude MachApi NxMachUtils RefKernel.

Local Open Scope Z_scope.

(** ** States *)

(** A name: the object behind it, whether it is its receive right, the user
    references of its send right, or a send-once right. *)
Record right := mk_right { r_obj : Z; r_recv : bool; r_send : Z; r_once : bool }.

(** A message on its way: the object and the disposition the cargo arrives
    with, and the one the destination right has. *)
Record in_transit := mk_in_transit {
  t_msg : mach_msg_buf;
  t_disp : Z;
  t_cargo : option (Z * Z);
}.

Record task := mk_task { names : gmap Z right; special : Z }.

(** The queues of the ports that are alive, the bytes in the pipe. *)
Record shared := mk_shared { queues : gmap Z (list in_transit); pipe : list Z }.

Abbreviation answer R := (option (R * task * shared)).

Definition next_name (t : task) : Z :=
  1 + foldr Z.max task_self_name (map fst (map_to_list (names t))).
Definition next_object (g : shared) : Z :=
  1 + foldr Z.max 0 (map fst (map_to_list (queues g))).

Definition alive (g : shared) (r : right) : bool := bool_decide (is_Some (queues g !! r_obj r)).

Definition type_bits (g : shared) (r : right) : Z :=
  if alive g r then
    Z.lor (if 0 <? r_send r then MACH_PORT_TYPE_SEND else 0)
      (Z.lor (if r_recv r then MACH_PORT_TYPE_RECEIVE else 0)
             (if r_once r then MACH_PORT_TYPE_SEND_ONCE else 0))
  else MACH_PORT_TYPE_DEAD_NAME.

Definition with_names (f : gmap Z right → gmap Z right) (t : task) : task :=
  mk_task (f (names t)) (special t).

(** Changes the send references of a name, which disappears with its last
    right. *)
Definition put (n : Z) (r : right) : task → task :=
  with_names (if r_recv r || (0 <? r_send r) || r_once r then insert n r else delete n).
Definition add_send (d : Z) (r : right) : right :=
  mk_right (r_obj r) (r_recv r) (r_send r + d) (r_once r).

(** ** Rights in messages *)

(** What a task's right becomes in a message: the object and the disposition
    the receiver sees. *)
Definition copyin (t : task) (n disp : Z) : option (Z * Z * task) :=
  r ← names t !! n;
  if disp =? 19 then if 0 <? r_send r then Some (r_obj r, 17, t) else None
  else if disp =? 17 then
    if 0 <? r_send r then Some (r_obj r, 17, put n (add_send (-1) r) t) else None
  else if disp =? 20 then if r_recv r then Some (r_obj r, 17, t) else None
  else if disp =? 21 then if r_recv r then Some (r_obj r, 18, t) else None
  else if disp =? 18 then
    if r_once r then Some (r_obj r, 18, with_names (delete n) t) else None
  else None.

(** The name a right gets in the task that receives it. *)
Definition copyout (t : task) (obj disp : Z) : Z * task :=
  if disp =? 18 then
    let n := next_name t in (n, with_names (insert n (mk_right obj false 0 true)) t)
  else
    match filter (λ p, r_obj p.2 = obj ∧ r_once p.2 = false) (map_to_list (names t)) with
    | (n, r) :: _ => (n, with_names (insert n (add_send 1 r)) t)
    | [] => let n := next_name t in (n, with_names (insert n (mk_right obj false 1 false)) t)
    end.

Definition is_complex (bits : Z) : bool := Z.testbit bits 31.

Definition send (m : mach_msg_buf) (t : task) (g : shared) : Z * task * shared :=
  match copyin t (msgh_remote_port m) (Z.land (msgh_bits m) 0x1f) with
  | None => (MACH_SEND_INVALID_DEST, t, g)
  | Some (obj, disp, t1) =>
      match queues g !! obj with
      | None => (MACH_SEND_INVALID_DEST, t, g)
      | Some q =>
          let post cargo t' :=
            (MACH_MSG_SUCCESS, t',
             mk_shared (<[obj := q ++ [mk_in_transit m disp cargo]]> (queues g)) (pipe g)) in
          if is_complex (msgh_bits m) then
            match copyin t1 (desc_name (msg_cargo m)) (desc_disposition (msg_cargo m)) with
            | None => (MACH_SEND_INVALID_RIGHT, t, g)
            | Some (cargo, cargo_disp, t2) => post (Some (cargo, cargo_disp)) t2
            end
          else post None t1
      end
  end.

Definition deliver (n : Z) (x : in_transit) (t : task) : mach_msg_buf * task :=
  let m := t_msg x in
  let bits := Z.lor (Z.shiftl (t_disp x) 8) (Z.land (msgh_bits m) (Z.shiftl 1 31)) in
  match t_cargo x with
  | None =>
      (mk_msg bits (msgh_size m) MACH_PORT_NULL n (msgh_id m) 0 zero_desc zero_desc, t)
  | Some (obj, disp) =>
      let '(name, t) := copyout t obj disp in
      (mk_msg bits (msgh_size m) MACH_PORT_NULL n (msgh_id m) 1
         (mk_desc name disp MACH_MSG_PORT_DESCRIPTOR) zero_desc, t)
  end.

(** [None] when the receiver has to wait. *)
Definition receive (n : Z) (m0 : mach_msg_buf) (t : task) (g : shared) :
    answer (Z * mach_msg_buf) :=
  match names t !! n with
  | Some (mk_right obj true _ _) =>
      match queues g !! obj with
      | Some (x :: q) =>
          let '(m, t) := deliver n x t in
          Some ((MACH_MSG_SUCCESS, m), t, mk_shared (<[obj := q]> (queues g)) (pipe g))
      | _ => None
      end
  | _ => Some ((MACH_RCV_INVALID_NAME, m0), t, g)
  end.

(** ** Calls of a task

    [None] is a call that blocks.  The calls that no forking probe makes are not
    supported. *)

Definition named_right {A} (t : task) (n : Z) (none : A) (some : right → A) : A :=
  match names t !! n with Some r => some r | None => none end.

Definition task_step {R} (c : mach_call R) (t : task) (g : shared) : answer R :=
  match c in mach_call R return answer R with
  | mach_port_names =>
      let l := map_to_list (names t) in
      Some ((KERN_SUCCESS, mk_array 0x10000 (map fst l),
              mk_array 0x20000 (map (λ p, type_bits g p.2) l)), t, g)
  | vm_allocate _ => Some ((KERN_SUCCESS, 0x30000), t, g)
  | vm_deallocate _ _ => Some (KERN_SUCCESS, t, g)
  | mach_port_allocate rt =>
      let n := next_name t in
      let obj := next_object g in
      if rt =? MACH_PORT_RIGHT_RECEIVE then
        Some ((KERN_SUCCESS, n), with_names (insert n (mk_right obj true 0 false)) t,
               mk_shared (<[obj := []]> (queues g)) (pipe g))
      else Some ((KERN_NOT_SUPPORTED, MACH_PORT_NULL), t, g)
  | mach_port_type n =>
      Some (named_right t n (KERN_INVALID_NAME, 0) (λ r, (KERN_SUCCESS, type_bits g r)), t, g)
  | mach_port_get_refs n rt =>
      Some (named_right t n (KERN_INVALID_NAME, 0) (λ r,
              (KERN_SUCCESS,
               if rt =? 0 then (if alive g r then r_send r else 0)
               else if rt =? 1 then (if r_recv r then 1 else 0)
               else if rt =? 2 then (if r_once r then 1 else 0)
               else if rt =? 4 then (if alive g r then 0 else r_send r)
               else 0)), t, g)
  | mach_port_insert_right n p d =>
      Some (named_right t n (KERN_INVALID_NAME, t, g) (λ r,
        if (n =? p) && (d =? MACH_MSG_TYPE_MAKE_SEND) && r_recv r
        then (KERN_SUCCESS, put n (add_send 1 r) t, g) else (KERN_INVALID_VALUE, t, g)))
  | mach_port_extract_right n d =>
      Some (named_right t n ((KERN_INVALID_NAME, MACH_PORT_NULL, 0), t, g) (λ r,
        if (d =? 21) && r_recv r then
          let '(n', t') := copyout t (r_obj r) 18 in ((KERN_SUCCESS, n', 18), t', g)
        else ((KERN_INVALID_RIGHT, MACH_PORT_NULL, 0), t, g)))
  | mach_port_deallocate n =>
      Some (named_right t n (KERN_INVALID_NAME, t, g) (λ r,
        if 0 <? r_send r then (KERN_SUCCESS, put n (add_send (-1) r) t, g)
        else if r_once r then (KERN_SUCCESS, with_names (delete n) t, g)
        else (KERN_INVALID_RIGHT, t, g)))
  | mach_port_destroy n =>
      Some (named_right t n (KERN_INVALID_NAME, t, g) (λ r,
        (KERN_SUCCESS, with_names (delete n) t,
         if r_recv r then mk_shared (delete (r_obj r) (queues g)) (pipe g) else g)))
  | mach_msg m option _ _ rcv_name _ _ =>
      if option =? 0x11 then let '(mr, t, g) := send m t g in Some ((mr, m), t, g)
      else if option =? 0x102 then receive rcv_name m t g
      else Some ((MACH_SEND_INVALID_DATA, m), t, g)
  | task_get_special_port _ =>
      let '(n, t) := copyout t (special t) 17 in Some ((KERN_SUCCESS, n), t, g)
  | task_set_special_port _ n =>
      Some (named_right t n (KERN_INVALID_ARGUMENT, t, g) (λ r,
        (KERN_SUCCESS, mk_task (names t) (r_obj r), g)))
  | sys_pipe => Some (Some (3, 4), t, g)
  | sys_fork => Some (-1, t, g)
  | sys_close _ => Some (tt, t, g)
  | sys_write _ buf => Some (IoOk (length buf), t, mk_shared (queues g) (pipe g ++ buf))
  | sys_read _ len =>
      match pipe g with
      | [] => None
      | b => Some (IoOk (take len b), t, mk_shared (queues g) (drop len b))
      end
  | sys_waitpid _ => None
  | mach_port_mod_refs _ _ _ => Some (KERN_NOT_SUPPORTED, t, g)
  | mach_port_move_member _ _ => Some (KERN_NOT_SUPPORTED, t, g)
  | mach_port_get_attributes _ _ c =>
      Some ((KERN_NOT_SUPPORTED, mk_status 0 0 0 0 0 0 false false false 0, c), t, g)
  | mach_host_self => Some (MACH_PORT_NULL, t, g)
  | host_info _ _ c =>
      Some ((KERN_NOT_SUPPORTED, mk_host_basic 0 0 0 0 0 0 0 0 0 0 0, c), t, g)
  | task_info _ _ c => Some ((KERN_NOT_SUPPORTED, mk_task_basic 0 0 0 0 0 0 0 0, c), t, g)
  | mach_absolute_time => Some (0, t, g)
  | mach_timebase_info => Some ((KERN_SUCCESS, (1, 1)), t, g)
  end.

(** The answer of a call that waited in vain. *)
Definition timed_out {R} (c : mach_call R) : R :=
  match c in mach_call R return R with
  | mach_msg m _ _ _ _ _ _ => (MACH_RCV_TIMED_OUT, m)
  | c => (ref_step false c ∅ 0).1
  end.

(** ** Both tasks *)

Section world.
Context {C : Type} (exit_of : C → Z).

(** [image] is the program the child will run; [child] the rest of it. *)
Record world := mk_world {
  parent : task;
  offspring : task;
  common : shared;
  image : option (prog C);
  child : option (prog C);
}.

(** Runs a task until it blocks. *)
Fixpoint advance {A} (p : prog A) (t : task) (g : shared) : prog A * task * shared :=
  match p with
  | Ret a => (Ret a, t, g)
  | Call c k =>
      match task_step c t g with
      | Some (r, t, g) => advance (k r) t g
      | None => (Call c k, t, g)
      end
  end.

Definition run_child (w : world) : world :=
  match child w with
  | None => w
  | Some p =>
      let '(p, t, g) := advance p (offspring w) (common w) in
      mk_world (parent w) t g (image w) (Some p)
  end.

(** A call of the parent, when it does not block. *)
Definition parent_step {R} (c : mach_call R) (w : world) : option (R * world) :=
  match c in mach_call R return option (R * world) with
  | sys_fork =>
      match image w with
      | None => Some (-1, w)
      | Some p => Some (77, mk_world (parent w)
          (mk_task {[ task_self_name := mk_right 1 false 1 false ]} (special (parent w)))
          (common w) None (Some p))
      end
  | sys_waitpid _ =>
      match child w with
      | Some (Ret c) => Some ((77, exit_of c * 256), w)
      | _ => None
      end
  | c =>
      match task_step c (parent w) (common w) with
      | Some (r, t, g) => Some (r, mk_world t (offspring w) g (image w) (child w))
      | None => None
      end
  end.

(** The child's call has waited in vain. *)
Definition expire_child (w : world) : world :=
  match child w with
  | Some (Call c k) =>
      let '(p, t, g) := advance (k (timed_out c)) (offspring w) (common w) in
      mk_world (parent w) t g (image w) (Some p)
  | _ => w
  end.

(** When the parent's call blocks, the child runs; when both wait, the child's call
    times out first.  In the last case nothing can happen any more. *)
Definition two_handle R (c : mach_call R) (w : world) : R * world :=
  match parent_step c w with
  | Some r => r
  | None =>
      let w := run_child w in
      match parent_step c w with
      | Some r => r
      | None =>
          let w := expire_child w in
          default (timed_out c, w) (parent_step c w)
      end
  end.

(** The child's side of a program: it goes on with 0 at the fork. *)
Fixpoint fork_child {A} (p : prog A) (t : task) (g : shared) : option (prog A) :=
  match p with
  | Ret _ => None
  | Call c k =>
      let rest := match task_step c t g with
                  | Some (r, t, g) => fork_child (k r) t g
                  | None => None
                  end in
      match c in mach_call R return (R → prog A) → option (prog A) with
      | sys_fork => λ k, Some (k 0)
      | _ => λ _, rest
      end k
  end.
End world.
Arguments world : clear implicits.

(** A parent that has just started: its own port, and a bootstrap port. *)
Definition first_task : task :=
  mk_task {[ task_self_name := mk_right 1 false 1 false ]} 2.
Definition first_shared : shared := mk_shared (<[1 := []]> {[ 2 := [] ]}) [].
Definition first_world {C} (p : prog C) : world C :=
  mk_world first_task (mk_task ∅ 2) first_shared (fork_child p first_task first_shared) None.

(** What is left when both are done: the names of the parent and of the child,
    the result of the child, and the ports that are alive. *)
Definition left_over {C} (w : world C) : list Z * list Z * option C * list Z :=
  let w := run_child w in
  (map fst (map_to_list (names (parent w))), map fst (map_to_list (names (offspring w))),
   match child w with Some (Ret c) => Some c | _ => None end,
   map fst (map_to_list (queues (common w)))).
