(* ===== verification/StatusPipe.v ===== *)
(** The status pipe of the probes that fork: the child writes a status
    structure, the parent reads it.

    [write_full] and [read_full] are in [descriptor_copy_send.c],
    [descriptor_move_send.c] and [send_once_descriptor.c] of
    [macos-validation/probes/m2], in the same words.  The structures are made
    of four-byte integers only; their image is the one of a little-endian
    machine without padding. *)

From stdpp Require Import relations.
From S2P Require Import Prelude MachApi.

Local Open Scope Z_scope.

Module StatusPipe.

(** ** Images of structures *)

Definition bytes_of_word (z : Z) : list Z :=
  let u := u32 z in
  [u `mod` 256; (u / 256) `mod` 256; (u / 65536) `mod` 256; (u / 16777216) `mod` 256].

Definition bytes_of_words : list Z → list Z := flat_map bytes_of_word.

Fixpoint words_of_bytes (l : list Z) : list Z :=
  match l with
  | a :: b :: c :: d :: l' =>
      a + 256 * b + 65536 * c + 16777216 * d :: words_of_bytes l'
  | _ => []
  end.

Lemma bytes_of_word_inv z l :
  words_of_bytes (bytes_of_word z ++ l) = u32 z :: words_of_bytes l.
Proof.
  unfold bytes_of_word. cbn [app words_of_bytes]. f_equal.
  pose proof (u32_range z) as Hz. unfold is_u32 in Hz.
  generalize dependent (u32 z). intros u Hu.
  pose proof (Z.div_mod u 256 ltac:(lia)).
  pose proof (Z.div_mod (u / 256) 256 ltac:(lia)) as H2.
  pose proof (Z.div_mod (u / 65536) 256 ltac:(lia)) as H3.
  rewrite !Z.div_div in H2, H3 by lia. change (256 * 256) with 65536 in *.
  change (65536 * 256) with 16777216 in *.
  rewrite (Z.mod_small (u / 16777216) 256); [lia|].
  split; [apply Z.div_pos; lia|apply Z.div_lt_upper_bound; lia].
Qed.

Lemma words_of_bytes_of_words ws : words_of_bytes (bytes_of_words ws) = map u32 ws.
Proof.
  induction ws as [|z ws IH]; [done|]. cbn [flat_map bytes_of_words map].
  by rewrite bytes_of_word_inv, <- IH.
Qed.

Lemma length_bytes_of_words ws : length (bytes_of_words ws) = (4 * length ws)%nat.
Proof.
  unfold bytes_of_words. induction ws as [|z ws IH]; cbn [flat_map]; [done|].
  rewrite length_app, IH. simpl. lia.
Qed.

(** A word as an [int], and as an [unsigned int]. *)
Definition int_at (ws : list Z) (n : nat) : Z := s32 (nth n ws 0).
Definition uint_at (ws : list Z) (n : nat) : Z := nth n ws 0.

(** A structure of four-byte integers: its members in order, and a structure
    from the values of its words. *)
Class StatusStruct (T : Type) := {
  to_words : T → list Z;
  of_words : list Z → T;
  n_words : nat;
  in_range : T → Prop;
  to_words_length t : length (to_words t) = n_words;
  of_to_words t : in_range t → of_words (map u32 (to_words t)) = t;
}.

Section image.
Context {T : Type} `{StatusStruct T}.

Definition image (t : T) : list Z := bytes_of_words (to_words t).
Definition size_of_status : nat := 4 * n_words.

(** The structure after its first bytes were overwritten. *)
Definition overwrite (base : T) (bytes : list Z) : T :=
  of_words (words_of_bytes (bytes ++ drop (length bytes) (image base))).

Lemma image_length t : length (image t) = size_of_status.
Proof.
  unfold image, size_of_status. by rewrite length_bytes_of_words, to_words_length.
Qed.

Lemma overwrite_image base t : in_range t → overwrite base (image t) = t.
Proof.
  intros Ht. unfold overwrite. rewrite drop_ge by (by rewrite !image_length).
  rewrite app_nil_r. unfold image. rewrite words_of_bytes_of_words. by apply of_to_words.
Qed.

Lemma overwrite_nothing base : in_range base → overwrite base [] = base.
Proof.
  intros Hb. unfold overwrite, image. cbn [length app].
  rewrite drop_0, words_of_bytes_of_words. by apply of_to_words.
Qed.
End image.

(** Each word is in the range of its member's type. *)
Definition words_in_range (signed : nat → bool) (ws : list Z) : Prop :=
  ∀ n z, ws !! n = Some z → if signed n then is_s32 z else is_u32 z.

(** Looks for the word a range is asked of. *)
Ltac find_word Ht n :=
  lazymatch n with
  | 40%nat => fail
  | _ => first [exact (Ht n _ eq_refl) | find_word Ht (S n)]
  end.

(** A structure is read back from its words, one member after the other. *)
Ltac read_words Ht :=
  cbn [nth map]; f_equal; first [apply s32_u32 | apply u32_small]; find_word Ht 0%nat.

(** The range of each word of a structure, one after the other; [tac] prepares a
    goal, which is then closed by a hypothesis or by evaluation. *)
Ltac range_tac tac :=
  intros n z Hn;
  repeat (destruct n as [|n];
    [injection Hn as <-; cbv beta iota; cbn;
     tac; try assumption; try (by repeat case_match) |]);
  try done.

(** ** The loops

    Both loops go on for as long as they are interrupted.  [fuel] bounds the
    number of calls: the program has at most that many before [alarm] ends it,
    and then the result is [None]. *)

Fixpoint write_full (fuel : nat) (fd : Z) (buf : list Z) : prog (option bool) :=
  match buf, fuel with
  | [], _ => mret (Some true)
  | _, O => mret None
  | _, S fuel =>
      n ← call (sys_write fd buf);
      match n with
      | IoErr eintr => if eintr : bool then write_full fuel fd buf else mret (Some false)
      | IoOk n => if (n =? 0)%nat then mret (Some false) else write_full fuel fd (drop n buf)
      end
  end.

(** The result has the bytes that are in the buffer at the end. *)
Fixpoint read_full (fuel : nat) (fd : Z) (len : nat) (buf : list Z) :
    prog (option (bool * list Z)) :=
  match len, fuel with
  | O, _ => mret (Some (true, buf))
  | _, O => mret None
  | _, S fuel =>
      n ← call (sys_read fd len);
      match n with
      | IoErr eintr =>
          if eintr : bool then read_full fuel fd len buf else mret (Some (false, buf))
      | IoOk chunk =>
          if (length chunk =? 0)%nat then mret (Some (false, buf))
          else read_full fuel fd (len - length chunk) (buf ++ chunk)
      end
  end.

(** A program whose calls on file descriptors leave the abstract state as it is
    may run them anywhere. *)
Section neutral.
Context {S : Type} (pre : ∀ R, mach_call R → S → Prop)
  (step : ∀ R, mach_call R → S → R → S → Prop) (s : S).
Hypothesis pre_read : ∀ fd len, pre _ (sys_read fd len) s.
Hypothesis pre_write : ∀ fd buf, pre _ (sys_write fd buf) s.
Hypothesis step_read : ∀ fd len r s', step _ (sys_read fd len) s r s' → s' = s.
Hypothesis step_write : ∀ fd buf r s', step _ (sys_write fd buf) s r s' → s' = s.

Lemma wp_write_full fuel fd buf Q :
  (∀ r, Q r s) → wp pre step (write_full fuel fd buf) Q s.
Proof using All.
  intros HQ. revert buf. induction fuel as [|fuel IH]; intros [|b buf]; simpl; try apply HQ.
  split; [apply pre_write|]. intros [[]|[|n]] s' ->%step_write; simpl; auto.
Qed.

Lemma wp_read_full fuel fd len buf Q :
  (∀ r, Q r s) → wp pre step (read_full fuel fd len buf) Q s.
Proof using All.
  intros HQ. revert len buf. induction fuel as [|fuel IH]; intros [|len] buf; simpl;
    try apply HQ.
  split; [apply pre_read|]. intros [[]|[|c chunk]] s' ->%step_read; simpl; auto.
Qed.
End neutral.

(** ** The transfer

    The child writes the structure and closes the pipe; the parent reads.  The
    two run interleaved, calls are interrupted, data moves in pieces, and the
    child may die. *)

(** The bytes in the pipe, whether its write end is open, and how many calls
    will still be interrupted. *)
Record pipe_state := mk_pipe { bytes : list Z; wopen : bool; interrupts : nat }.

Section transfer.
Context {T : Type} `{StatusStruct T} (rfd wfd : Z).

Definition child_end (fuel : nat) (buf : list Z) : prog (option bool) :=
  w ← write_full fuel wfd buf;
  _ ← call (sys_close wfd);
  mret w.

Definition parent_end (fuel : nat) : prog (option (bool * list Z)) :=
  read_full fuel rfd size_of_status [].

(** What a pipe answers: a call is interrupted before it transferred
    anything, or transfers at least one byte; at the end of the data of a
    closed pipe [read] returns 0. *)
Definition pipe_step R (c : mach_call R) (s : pipe_state) : R → pipe_state → Prop :=
  match c in mach_call R return R → pipe_state → Prop with
  | sys_write fd buf => λ r s', fd = wfd ∧
      match r with
      | IoErr eintr => eintr = true ∧ ∃ i, interrupts s = S i ∧
          s' = mk_pipe (bytes s) (wopen s) i
      | IoOk n => (0 < n ≤ length buf)%nat ∧
          s' = mk_pipe (bytes s ++ take n buf) (wopen s) (interrupts s)
      end
  | sys_read fd len => λ r s', fd = rfd ∧
      match r with
      | IoErr eintr => eintr = true ∧ ∃ i, interrupts s = S i ∧
          s' = mk_pipe (bytes s) (wopen s) i
      | IoOk chunk => (length chunk ≤ len)%nat ∧
          (chunk ≠ [] ∨ bytes s = [] ∧ wopen s = false) ∧
          bytes s = chunk ++ bytes s' ∧
          s' = mk_pipe (bytes s') (wopen s) (interrupts s)
      end
  | sys_close fd => λ _ s', fd = wfd ∧ s' = mk_pipe (bytes s) false (interrupts s)
  | _ => λ _ _, False
  end.

(** The child, if it is alive, the parent, and the pipe between them. *)
Definition config : Type :=
  option (prog (option bool)) * prog (option (bool * list Z)) * pipe_state.

Definition finished {A} (p : prog A) : bool :=
  match p with Ret _ => true | Call _ _ => false end.

Inductive two_step : config → config → Prop :=
  | child_steps p q s p' s' :
      prog_step pipe_step p s p' s' → two_step (Some p, q, s) (Some p', q, s')
  | parent_steps p q s q' s' :
      prog_step pipe_step q s q' s' → two_step (p, q, s) (p, q', s')
  | child_dies p q s :
      finished p = false →
      two_step (Some p, q, s) (None, q, mk_pipe (bytes s) false (interrupts s)).

Definition start (fuel i : nat) (t : T) : config :=
  (Some (child_end fuel (image t)), parent_end fuel, mk_pipe [] true i).

(** The child has sent [sent] of [img] and needs at most [m] more steps. *)
Inductive child_inv (img : list Z) (s : pipe_state) :
    option (prog (option bool)) → list Z → nat → Prop :=
  | child_writing n fuel :
      (n ≤ length img)%nat → (length img - n + interrupts s ≤ fuel)%nat →
      wopen s = true →
      child_inv img s (Some (child_end fuel (drop n img))) (take n img) (length img - n + 1)
  | child_done :
      wopen s = false → child_inv img s (Some (mret (Some true))) img 0
  | child_dead n :
      wopen s = false → child_inv img s None (take n img) 0.

(** The parent has received all of [sent] that is not in the pipe. *)
Inductive parent_inv (img : list Z) (s : pipe_state) (dead : bool) (sent : list Z) :
    prog (option (bool * list Z)) → nat → Prop :=
  | parent_reading buf fuel :
      (length buf ≤ length img)%nat →
      (length img - length buf + interrupts s ≤ fuel)%nat →
      sent = buf ++ bytes s →
      parent_inv img s dead sent (read_full fuel rfd (length img - length buf) buf)
        (length img - length buf + 1)
  | parent_short :
      dead = true → wopen s = false → parent_inv img s dead sent (mret (Some (false, sent))) 0.

Definition transfer_inv (img : list Z) (c : config) (m : nat) : Prop :=
  let '(p, q, s) := c in
  ∃ sent m1 m2, child_inv img s p sent m1 ∧
    parent_inv img s (bool_decide (p = None)) sent q m2 ∧
    m = (m1 + m2 + interrupts s)%nat.

Lemma child_inv_weaken img s s' p sent m :
  child_inv img s p sent m → wopen s' = wopen s → (interrupts s' ≤ interrupts s)%nat →
  child_inv img s' p sent m.
Proof. intros [] Hw Hi; constructor; try lia; congruence. Qed.

Lemma child_inv_prefix img s p sent m :
  child_inv img s p sent m → ∃ k, sent = take k img.
Proof. intros []; eauto. exists (length img). by rewrite take_ge. Qed.

Lemma child_inv_step img s p sent m p' s' :
  child_inv img s (Some p) sent m → prog_step pipe_step p s p' s' →
  ∃ more m', child_inv img s' (Some p') (sent ++ more) m' ∧
    bytes s' = bytes s ++ more ∧ (interrupts s' ≤ interrupts s)%nat ∧
    (m' + interrupts s' < m + interrupts s)%nat.
Proof.
  intros Hc. inversion Hc as [n fuel Hn Hf Ho E1 E2 E3|Ho|]; subst; [|done].
  unfold child_end. pose proof (length_drop img n) as Hl.
  destruct (drop n img) as [|b buf] eqn:E; simpl in Hl.
  - intros Hs. assert (∃ r, (wfd = wfd ∧ s' = mk_pipe (bytes s) false (interrupts s)) ∧
      p' = mret (Some true)) as (_ & [_ ->] & ->) by (destruct fuel; exact Hs).
    exists [], 0%nat. rewrite !app_nil_r, take_ge by lia. simpl.
    split; [by constructor|]. split; [done|]. lia.
  - destruct fuel as [|fuel]; [lia|]. intros ([[]|k] & [_ Hr] & ->); cbn in Hr |- *.
    + destruct Hr as (_ & i & Hi & ->). exists [], (length img - n + 1)%nat.
      rewrite !app_nil_r. cbn [bytes interrupts]. split; [|split; [done|lia]].
      rewrite <- E. apply (child_writing img _ n fuel); simpl; auto; lia.
    + by destruct Hr.
    + destruct Hr as [Hk ->]. exists (take k (b :: buf)), (length img - (n + k) + 1)%nat.
      destruct k as [|k]; [lia|]. cbn [Nat.eqb].
      rewrite <- E, take_take_drop, drop_drop. cbn [bytes interrupts].
      split; [|split; [done|simpl in *; lia]].
      apply (child_writing img _ (n + S k) fuel); simpl in *; auto; lia.
Qed.

Lemma parent_inv_more img s s' d sent more q m :
  parent_inv img s d sent q m → d = false → bytes s' = bytes s ++ more →
  (interrupts s' ≤ interrupts s)%nat → parent_inv img s' d (sent ++ more) q m.
Proof.
  intros [] Hd Hb Hi; [|congruence]. constructor; [done|lia|].
  subst. by rewrite Hb, app_assoc.
Qed.

Lemma parent_inv_step img s p sent m1 m q q' s' :
  child_inv img s p sent m1 → parent_inv img s (bool_decide (p = None)) sent q m →
  prog_step pipe_step q s q' s' →
  ∃ m', parent_inv img s' (bool_decide (p = None)) sent q' m' ∧
    wopen s' = wopen s ∧ (interrupts s' ≤ interrupts s)%nat ∧
    (m' + interrupts s' < m + interrupts s)%nat.
Proof.
  intros Hc Hp. inversion Hp as [buf fuel Hb Hf Hs|]; subst; [|done].
  destruct (length img - length buf)%nat as [|len] eqn:El; [by destruct fuel|].
  destruct fuel as [|fuel]; [lia|]. intros ([[]|chunk] & [_ Hr] & ->); cbn in Hr |- *.
  - destruct Hr as (_ & i & Hi & ->). exists (S len + 1)%nat.
    cbn [wopen interrupts]. split; [|split; [done|lia]]. rewrite <- El.
    constructor; simpl; auto; lia.
  - by destruct Hr.
  - destruct Hr as (Hl & Hne & Hby & Hs'). rewrite Hs'. cbn [wopen interrupts].
    destruct chunk as [|c chunk]; cbn [length Nat.eqb].
    + destruct Hne as [?|[Hby0 Ho]]; [done|]. exists 0%nat. split; [|split; [done|lia]].
      rewrite Hby0 in Hby. simpl in Hby. rewrite <- Hby, Hby0, app_nil_r in *.
      assert (bool_decide (p = None) = true) as Hd.
      { inversion Hc as [n f ? ? Hw|? E2|]; subst; [congruence| |done].
        exfalso. lia. }
      rewrite Hd. by constructor.
    + exists (length img - length (buf ++ c :: chunk) + 1)%nat.
      split; [|split; [done|rewrite length_app; simpl in *; lia]].
      replace (S len - S (length chunk))%nat
        with (length img - length (buf ++ c :: chunk))%nat
        by (rewrite length_app; simpl; lia).
      constructor; rewrite ?length_app; simpl in *; try lia.
      by rewrite Hby, <- app_assoc.
Qed.

Lemma transfer_inv_start t fuel i :
  (size_of_status + i ≤ fuel)%nat →
  transfer_inv (image t) (start fuel i t) (2 * size_of_status + 2 + i).
Proof.
  intros Hf. exists [], (size_of_status + 1)%nat, (size_of_status + 1)%nat.
  pose proof (image_length t) as Hl. split; [|split; [|simpl; lia]].
  - pose proof (child_writing (image t) (mk_pipe [] true i) 0 fuel) as Hc.
    rewrite drop_0, Hl, Nat.sub_0_r in Hc. apply Hc; simpl; auto; lia.
  - pose proof (parent_reading (image t) (mk_pipe [] true i)
      (bool_decide (Some (child_end fuel (image t)) = None)) [] [] fuel) as Hp.
    rewrite Hl in Hp. simpl in Hp. rewrite Nat.sub_0_r in Hp. apply Hp; [lia..|done].
Qed.

Lemma transfer_inv_step img c c' m :
  transfer_inv img c m → two_step c c' → ∃ m', (m' < m)%nat ∧ transfer_inv img c' m'.
Proof.
  intros Hi Hs. destruct Hs as [p q s p' s' Hs|p q s q' s' Hs|p q s Hf];
    destruct Hi as (sent & m1 & m2 & Hc & Hp & ->).
  - destruct (child_inv_step _ _ _ _ _ _ _ Hc Hs) as (more & m1' & Hc' & Hb & Hi & Hm).
    exists (m1' + m2 + interrupts s')%nat. split; [lia|].
    exists (sent ++ more), m1', m2. split; [done|]. split; [|done].
    by eapply parent_inv_more.
  - destruct (parent_inv_step _ _ _ _ _ _ _ _ _ Hc Hp Hs) as (m2' & Hp' & Hw & Hi & Hm).
    exists (m1 + m2' + interrupts s')%nat. split; [lia|]. exists sent, m1, m2'.
    split; [by eapply child_inv_weaken|done].
  - inversion Hc as [n fuel Hn Hfu Ho|Ho|]; subst; [|done].
    exists (m2 + interrupts s)%nat. split; [lia|]. exists (take n img), 0%nat, m2.
    split; [by constructor|]. split; [|done].
    inversion Hp; subst; [|done]. by constructor.
Qed.

(** Someone can make a call. *)
Definition can_move (c : config) : Prop :=
  let '(p, q, s) := c in
  (∃ p0 p' s', p = Some p0 ∧ prog_step pipe_step p0 s p' s') ∨
  ∃ q' s', prog_step pipe_step q s q' s'.

Lemma transfer_inv_moves img p q s m :
  transfer_inv img (p, q, s) m → finished q = false → can_move (p, q, s).
Proof.
  intros (sent & m1 & m2 & Hc & Hp & ->) Hq. destruct Hp as [buf fuel Hb Hf Hs|]; [|done].
  destruct (length img - length buf)%nat as [|len] eqn:El; [by destruct fuel|].
  destruct fuel as [|fuel]; [lia|].
  destruct (bytes s) as [|b bs] eqn:Eb.
  2:{ right. do 2 eexists. exists (IoOk [b]).
      split; [|reflexivity]. split; [done|].
      split; [simpl; lia|]. split; [by left|].
      split; [by rewrite Eb; instantiate (1 := mk_pipe bs (wopen s) (interrupts s))|done]. }
  inversion Hc as [n f Hn Hfu Ho|Ho|n Ho]; subst.
  2,3: right; do 2 eexists; exists (IoOk []); (split; [|reflexivity]); (split; [done|]);
    (split; [simpl; lia|]); (split; [by right|]);
    split; [by rewrite Eb; instantiate (1 := mk_pipe [] (wopen s) (interrupts s))|done].
  left. unfold child_end. pose proof (length_drop img n) as Hl.
  destruct (drop n img) as [|b l]; simpl in Hl.
  - do 3 eexists. split; [done|]. destruct f; by exists tt.
  - destruct f as [|f]; [lia|]. do 3 eexists. split; [done|].
    exists (IoOk 1%nat). split; [|reflexivity]. split; [done|].
    split; [simpl; lia|reflexivity].
Qed.

Lemma transfer_inv_final img p r s m :
  transfer_inv img (p, mret r, s) m →
  r = Some (true, img) ∨ p = None ∧ ∃ k, r = Some (false, take k img).
Proof.
  intros (sent & m1 & m2 & Hc & Hp & ->). inversion Hp as [buf fuel Hb Hf Hs E|Hd Hw E]; subst.
  - destruct (length img - length buf)%nat as [|len] eqn:El.
    2:{ destruct fuel; [lia|done]. }
    left. assert (r = Some (true, buf)) as -> by (destruct fuel; by injection E).
    do 2 f_equal.
    destruct (child_inv_prefix _ _ _ _ _ Hc) as [k Hk].
    apply (f_equal (take (length buf))) in Hk.
    rewrite take_app_length, take_take in Hk. rewrite Hk at 1.
    apply take_ge. apply (f_equal length) in Hk. rewrite length_take in Hk. lia.
  - right. apply bool_decide_eq_true in Hd as ->. split; [done|].
    destruct (child_inv_prefix _ _ _ _ _ Hc) as [k ->]. eauto.
Qed.

Lemma transfer_inv_steps img n c c' m :
  transfer_inv img c m → nsteps two_step n c c' →
  ∃ m', (n + m' ≤ m)%nat ∧ transfer_inv img c' m'.
Proof.
  intros Hi Hn. revert m Hi. induction Hn as [c|n c1 c2 c3 Hs Hn IH]; intros m Hi.
  { exists m. split; [lia|done]. }
  destruct (transfer_inv_step _ _ _ _ Hi Hs) as (m' & Hm & Hi').
  destruct (IH _ Hi') as (m'' & Hm' & Hi''). exists m''. split; [lia|done].
Qed.

(** C3: whatever the schedule, the sizes of the pieces and the interruptions,
    the transfer comes to an end in a bounded number of steps and never blocks
    for ever; and when the parent's loop returns, the parent has exactly the
    structure the child wrote, or the child died and the loop reports failure
    after a prefix of it. *)
Theorem status_transfer t base fuel i n p q s :
  in_range t → (size_of_status + i ≤ fuel)%nat →
  nsteps two_step n (start fuel i t) (p, q, s) →
  (n ≤ 2 * size_of_status + 2 + i)%nat ∧
  (finished q = false → can_move (p, q, s)) ∧
  ∀ r, q = mret r →
    (∃ bytes, r = Some (true, bytes) ∧ overwrite base bytes = t) ∨
    (p = None ∧ ∃ k, r = Some (false, take k (image t))).
Proof.
  intros Ht Hf Hn.
  destruct (transfer_inv_steps _ _ _ _ _ (transfer_inv_start t fuel i Hf) Hn)
    as (m & Hm & Hi).
  split; [lia|]. split; [by eapply transfer_inv_moves|]. intros r ->.
  destruct (transfer_inv_final _ _ _ _ _ Hi) as [->|?]; [left|by right].
  eexists. split; [done|]. by apply overwrite_image.
Qed.
End transfer.

(** A structure of one [int], written and read at once. *)
Section witnesses.

Lemma one_word_of_to t : is_s32 t → int_at (map u32 [t]) 0 = t.
Proof. apply s32_u32. Qed.

#[local] Instance one_word : StatusStruct Z := {|
  to_words t := [t];
  of_words ws := int_at ws 0;
  n_words := 1;
  in_range := is_s32;
  to_words_length t := eq_refl;
  of_to_words := one_word_of_to;
|}.

Lemma three_steps :
  nsteps (two_step 3 4) 3 (start 3 4 4 0 (-7))
    (Some (mret (Some true)), mret (Some (true, image (-7))), mk_pipe [] false 0).
Proof.
  eapply nsteps_l; [apply child_steps; exists (IoOk 4%nat); split; [|reflexivity]|].
  { split; [done|]. split; [vm_compute; lia|reflexivity]. }
  eapply nsteps_l; [apply child_steps; exists tt; split; [|reflexivity]|].
  { by split. }
  eapply nsteps_l; [|apply nsteps_O].
  apply parent_steps. exists (IoOk (image (-7))). split; [|reflexivity].
  split; [done|]. split; [vm_compute; lia|]. split; [by left|]. by split.
Qed.

Lemma status_transfer_witness :
  is_s32 (-7) ∧ (4 + 0 ≤ 4)%nat ∧
  ∃ bytes, Some (true, image (-7)) = Some (true, bytes) ∧ overwrite 0 bytes = -7.
Proof.
  assert (is_s32 (-7)) as Ht by (unfold is_s32; lia).
  split; [exact Ht|]. split; [lia|].
  destruct (@status_transfer Z one_word 3 4 (-7) 0 4 0 3 _ _ _ Ht (le_n 4) three_steps) as (_ & _ & Hr).
  destruct (Hr _ eq_refl) as [H|[H _]]; [exact H|discriminate H].
Defined.
End witnesses.
End StatusPipe.
