(* ===== verification/Trace.v ===== *)
(** The calls a program makes in a run, with what was answered, in order, and rules to
    establish what they are. *)

From stdpp Require Import list.
From S2P Require Import Prelude MachApi NxMachUtils StatusPipe.

Local Open Scope Z_scope.

Module Trace.

Inductive event : Type :=
  | Ev {R : Type} (c : mach_call R) (r : R).

Fixpoint trace {W} `{Kernel W} {A} (p : prog A) (w : W) : list event :=
  match p with
  | Ret _ => []
  | Call c k => let '(r, w') := handle c w in Ev c r :: trace (k r) w'
  end.

(** Whatever is answered, the result and the calls of the run are related. *)
Fixpoint does {A} (p : prog A) (Φ : A → list event → Prop) : Prop :=
  match p with
  | Ret a => Φ a []
  | Call c k => ∀ r, does (k r) (λ a t, Φ a (Ev c r :: t))
  end.

Lemma does_run {W} `{Kernel W} {A} (p : prog A) (Φ : A → list event → Prop) w :
  does p Φ → Φ (run p w).1 (trace p w).
Proof.
  revert w Φ. induction p as [a|R c k IH]; intros w Φ Hp; simpl in *; [done|].
  destruct (handle c w) as [r w']. exact (IH r w' _ (Hp r)).
Qed.

Lemma does_mono {A} (p : prog A) (Φ Ψ : A → list event → Prop) :
  does p Φ → (∀ a t, Φ a t → Ψ a t) → does p Ψ.
Proof.
  revert Φ Ψ. induction p as [a|R c k IH]; intros Φ Ψ Hp HΦ; simpl in *; [by apply HΦ|].
  intros r. eapply IH; [apply Hp|]. intros a t. apply HΦ.
Qed.

Lemma does_any {A} (p : prog A) : does p (λ _ _, True).
Proof. induction p as [a|R c k IH]; simpl; [done|exact IH]. Qed.

Lemma does_bind {A B} (f : A → prog B) (p : prog A) (Φ : B → list event → Prop) :
  does p (λ a t, does (f a) (λ b t', Φ b (t ++ t'))) → does (p ≫= f) Φ.
Proof. revert Φ. induction p as [a|R c k IH]; intros Φ Hp; simpl in *; [done|]. intros r. apply IH, Hp. Qed.

Lemma does_call {R} (c : mach_call R) (Φ : R → list event → Prop) :
  (∀ r, Φ r [Ev c r]) → does (call c) Φ.
Proof. done. Qed.

Lemma does_ret {A} (a : A) (Φ : A → list event → Prop) : Φ a [] → does (mret a) Φ.
Proof. done. Qed.

Lemma does_guarded {A} (c : bool) (a : A) p (Φ : A → list event → Prop) :
  (c = true → does p Φ) → (c = false → Φ a []) → does (guarded c a p) Φ.
Proof. destruct c; simpl; auto. Qed.

(** ** What is read off the calls *)

(** The snapshots of the name space. *)
Definition snapshot_of (e : event) : option nx_baseline_t :=
  match e with
  | Ev c r => match c in mach_call R return R → option nx_baseline_t with
      | mach_port_names => λ '(k, ns, ts), Some (mk_baseline ns ts (k =? KERN_SUCCESS) k)
      | _ => λ _, None
      end r
  end.
Definition snapshots (t : list event) : list nx_baseline_t := omap snapshot_of t.

(** The bytes that were read. *)
Definition bytes_of (e : event) : list Z :=
  match e with
  | Ev c r => match c in mach_call R return R → list Z with
      | sys_read _ _ => λ r, match r with IoOk l => l | IoErr _ => [] end
      | _ => λ _, []
      end r
  end.
Definition bytes_read (t : list event) : list Z := flat_map bytes_of t.

Definition plain (t : list event) : Prop := snapshots t = [] ∧ bytes_read t = [].

Lemma snapshots_app t t' : snapshots (t ++ t') = snapshots t ++ snapshots t'.
Proof. apply omap_app. Qed.
Lemma bytes_read_app t t' : bytes_read (t ++ t') = bytes_read t ++ bytes_read t'.
Proof. apply flat_map_app. Qed.
Lemma plain_app t t' : plain t → plain t' → plain (t ++ t').
Proof.
  intros [H1 H2] [H3 H4]. split; [by rewrite snapshots_app, H1, H3|by rewrite bytes_read_app, H2, H4].
Qed.

(** A call that neither lists the names nor reads. *)
Lemma plain_one e : snapshot_of e = None → bytes_of e = [] → plain [e].
Proof. intros H1 H2. unfold plain, snapshots, bytes_read. simpl. by rewrite H1, H2. Qed.

Lemma sublist_both {A} (l1 l2 k1 k2 : list A) :
  l1 `sublist_of` k1 → l2 `sublist_of` k2 → l1 ++ l2 `sublist_of` k1 ++ k2.
Proof. apply sublist_app. Qed.

(** ** The operations of the probes *)

Section common.
Context `{Host}.

Definition listed (b : nx_baseline_t) : event := Ev mach_port_names (kr b, names b, types b).

Lemma does_capture (Φ : nx_baseline_t → list event → Prop) :
  APPLE = true → (∀ b, valid b = (kr b =? KERN_SUCCESS) → Φ b [listed b]) → does nx_baseline_capture Φ.
Proof.
  intros Ha HΦ. unfold nx_baseline_capture. rewrite Ha. simpl. intros [[k ns] ts].
  by apply (HΦ (mk_baseline ns ts (k =? KERN_SUCCESS) k)).
Qed.

Lemma snapshots_listed b t :
  valid b = (kr b =? KERN_SUCCESS) → snapshots (listed b :: t) = b :: snapshots t.
Proof. destruct b. simpl. by intros ->. Qed.

Lemma does_free b (Φ : nx_baseline_t → list event → Prop) :
  (∀ t, plain t → Φ zero_baseline t) → does (nx_baseline_free b) Φ.
Proof.
  intros HΦ. unfold nx_baseline_free. destruct APPLE; [|by apply HΦ].
  apply does_bind, does_guarded; intros _; [apply does_call; intros r|];
    (apply does_bind, does_guarded; intros _; [apply does_call; intros r'|]); by apply does_ret, HΦ.
Qed.
End common.

(** Without a report of success there may be less than was asked for. *)
Lemma does_read_full fuel fd len buf :
  does (StatusPipe.read_full fuel fd len buf) (λ r t, snapshots t = [] ∧
    match r with
    | Some (ok, bytes) => bytes = buf ++ bytes_read t ∧
        (ok = true → (length buf + len ≤ length bytes)%nat)
    | None => True
    end).
Proof.
  revert len buf. induction fuel as [|fuel IH]; intros [|len] buf; simpl; try done;
    try (rewrite app_nil_r; repeat split; lia).
  intros [[]|chunk].
  - eapply does_mono; [apply IH|]. intros [[ok bytes]|] t [Hs Hb]; by split.
  - simpl. by rewrite app_nil_r.
  - destruct (length chunk =? 0)%nat eqn:E.
    + simpl. apply Nat.eqb_eq, nil_length_inv in E as ->. by rewrite app_nil_r.
    + eapply does_mono; [apply IH|]. intros [[ok bytes]|] t [Hs Hb]; [|done].
      destruct Hb as [Hb Hl]. split; [done|]. simpl. rewrite Hb, <- app_assoc. split; [done|].
      intros Hok. specialize (Hl Hok). rewrite Hb, !length_app in Hl.
      rewrite !length_app. apply Nat.eqb_neq in E. lia.
Qed.
End Trace.
