(* ===== verification/Exchange.v ===== *)
(** What the probes that exchange port descriptors share: the strings for
    dispositions and descriptor types, the send and receive calls, and the rules
    of the ledger for rights that travel in messages.

    The functions are [static] in every file of [macos-validation/probes/m2]
    that uses them, in the same words. *)

From stdpp Require Import gmultiset.
From S2P Require Import Prelude MachApi NxMachUtils Ledger RefKernel StatusPipe.

Import StatusPipe.
Local Open Scope Z_scope.

(** The twelve static buffers are never in use at once. *)
Definition hex32 (value : Z) : string := snprintf 32 ("0x" +:+ fmt_x value).

Section strings.
Context `{MachSdk}.

Definition disposition_str (disposition : Z) : string :=
  if disposition =? MACH_MSG_TYPE_MOVE_RECEIVE then "MACH_MSG_TYPE_MOVE_RECEIVE"
  else if disposition =? MACH_MSG_TYPE_MOVE_SEND then
    "MACH_MSG_TYPE_MOVE_SEND_OR_PORT_SEND"
  else if disposition =? MACH_MSG_TYPE_MOVE_SEND_ONCE then
    "MACH_MSG_TYPE_MOVE_SEND_ONCE_OR_PORT_SEND_ONCE"
  else if disposition =? MACH_MSG_TYPE_COPY_SEND then "MACH_MSG_TYPE_COPY_SEND"
  else if disposition =? MACH_MSG_TYPE_MAKE_SEND then "MACH_MSG_TYPE_MAKE_SEND"
  else if disposition =? MACH_MSG_TYPE_MAKE_SEND_ONCE then "MACH_MSG_TYPE_MAKE_SEND_ONCE"
  else if disposition =? 0 then "0"
  else hex32 disposition.

Definition descriptor_type_str (type : Z) : string :=
  if type =? MACH_MSG_PORT_DESCRIPTOR then "MACH_MSG_PORT_DESCRIPTOR" else hex32 type.

Definition send_msg (timeout : Z) (m : mach_msg_buf) :
    prog (mach_msg_return_t * mach_msg_buf) :=
  call (mach_msg m (Z.lor MACH_SEND_MSG MACH_SEND_TIMEOUT) (msgh_size m) 0 MACH_PORT_NULL
          timeout MACH_PORT_NULL).

Definition receive_msg (timeout size : Z) (port : mach_port_t) :
    prog (mach_msg_return_t * mach_msg_buf) :=
  call (mach_msg zero_msg (Z.lor MACH_RCV_MSG MACH_RCV_TIMEOUT) 0 size port timeout
          MACH_PORT_NULL).

End strings.

(** The sizes of the structures of the interface. *)
Class SdkSizes `{MachSdk} : Prop := {
  header_size : 0 < sizeof_mach_msg_header;
  body_size : 0 ≤ sizeof_mach_msg_body;
  descriptor_size : 0 ≤ sizeof_mach_msg_port_descriptor;
  trailer_size : 0 ≤ sizeof_mach_msg_max_trailer;
}.

(** The macros of the message header keep to its 32 bits. *)
Class SdkBits `{MachSdk} : Prop := {
  bits_u32 disp : disp ∈ [MACH_MSG_TYPE_COPY_SEND; MACH_MSG_TYPE_MOVE_SEND_ONCE] →
    is_u32 (Z.lor (MACH_MSGH_BITS disp 0) MACH_MSGH_BITS_COMPLEX);
  remote_u32 b : is_u32 b → is_u32 (MACH_MSGH_BITS_REMOTE b);
  local_u32 b : is_u32 b → is_u32 (MACH_MSGH_BITS_LOCAL b);
}.

(** The constant for dead names is none of those for receive rights, port sets
    and send rights. *)
Class SdkRights `{MachSdk} : Prop := {
  dead_name_right : MACH_PORT_RIGHT_DEAD_NAME
    ∉ [MACH_PORT_RIGHT_SEND; MACH_PORT_RIGHT_RECEIVE; MACH_PORT_RIGHT_PORT_SET];
}.

Lemma dead_right_dead_name `{SdkRights} : dead_right MACH_PORT_RIGHT_DEAD_NAME = true.
Proof.
  pose proof dead_name_right as Hd. unfold dead_right.
  rewrite !not_elem_of_cons in Hd. destruct Hd as (_ & H1 & H2 & _).
  repeat case_match; done.
Qed.

Lemma land_u32 b m : 0 ≤ m < 2 ^ 32 → is_u32 (Z.land b m).
Proof.
  intros Hm. unfold is_u32.
  assert (0 ≤ Z.land b m) by (apply Z.land_nonneg; lia).
  assert (Z.land m (Z.ones 32) = m) as Ho
    by (rewrite Z.land_ones, Z.mod_small by lia; done).
  rewrite <- Ho, Z.land_assoc, Z.land_ones by lia. apply Z.mod_pos_bound. lia.
Qed.

#[export] Instance macos_bits : @SdkBits macos_sdk.
Proof.
  split.
  - intros disp Hd. unfold is_u32.
    rewrite !elem_of_cons, elem_of_nil in Hd. by destruct Hd as [->|[->|[]]].
  - intros b _. by apply land_u32.
  - intros b _. cbn. pose proof (land_u32 b 0x1f00 ltac:(lia)) as [Hl Hu]. split.
    + by apply Z.shiftr_nonneg.
    + rewrite Z.shiftr_div_pow2 by lia. apply Z.div_lt_upper_bound; lia.
Qed.

#[export] Instance macos_rights : @SdkRights macos_sdk.
Proof. split. by apply (bool_decide_unpack _). Qed.

#[export] Instance macos_sizes : @SdkSizes macos_sdk.
Proof. by split. Qed.

Abbreviation rwp := (wp l_pre (l_step (@account_carried))).

(** A port the process allocated: its receive right, and the send
    right that was made. *)
Definition own_right (kr port : Z) : gmultiset Z :=
  if kr =? KERN_SUCCESS then {[+ port +]} else ∅.
Definition own_send (kr kr_insert port : Z) : gmultiset Z :=
  if (kr =? KERN_SUCCESS) && (kr_insert =? KERN_SUCCESS) then {[+ port +]} else ∅.

Section rules.
Context `{MachSdk}.

Definition add_sends (X : gmultiset Z) (s : ledger) : ledger :=
  mk_ledger (rights s) (sends s ⊎ X) (regions s).

(** The rights that came with a message that was received. *)
Definition came_with (mr : mach_msg_return_t) (m : mach_msg_buf) : gmultiset Z :=
  if mr =? MACH_MSG_SUCCESS then carried m else ∅.

Lemma nothing_came mr m :
  (mr = MACH_MSG_SUCCESS → msgh_descriptor_count m = 0) → came_with mr m = ∅.
Proof.
  unfold came_with. intros Hm. destruct (Z.eqb_spec mr MACH_MSG_SUCCESS); [|done].
  by apply no_carried, Hm.
Qed.

Lemma add_no_sends s : add_sends ∅ s = s.
Proof. destruct s. unfold add_sends. simpl. f_equal. multiset_solver. Qed.

Lemma rwp_receive timeout size port (Q : Z * mach_msg_buf → ledger → Prop) s :
  0 < size → (∀ mr m, Q (mr, m) (add_sends (came_with mr m) s)) →
  rwp (receive_msg timeout size port) Q s.
Proof.
  intros Hz HQ. apply wp_call; [done|]. intros [mr m] s' ->. unfold account_carried.
  apply Z.ltb_lt in Hz. rewrite Hz, andb_true_r. apply HQ.
Qed.

Lemma rwp_send timeout m (Q : Z * mach_msg_buf → ledger → Prop) s :
  (∀ r, Q r s) → rwp (send_msg timeout m) Q s.
Proof.
  intros HQ. apply wp_call; [done|]. intros [mr m'] s' ->. unfold account_carried.
  rewrite andb_false_r. fold (add_sends ∅ s). rewrite add_no_sends. apply HQ.
Qed.

Lemma rwp_write fuel fd buf (Q : option bool → ledger → Prop) s :
  (∀ r, Q r s) → rwp (write_full fuel fd buf) Q s.
Proof. apply wp_write_full; done. Qed.

Lemma rwp_read fuel fd len buf (Q : option (bool * list Z) → ledger → Prop) s :
  (∀ r, Q r s) → rwp (read_full fuel fd len buf) Q s.
Proof. apply wp_read_full; done. Qed.

Lemma drop_own kr kr_insert n m b :
  (kr = KERN_SUCCESS → n ≠ m) → kr = KERN_SUCCESS →
  drop_name n (named b m ⊎ own_send kr kr_insert n) = named b m.
Proof.
  intros Hf Hk. specialize (Hf Hk). unfold own_send, named.
  apply gmultiset_eq. intros x. rewrite multiplicity_drop_name.
  case_decide as Hx; subst.
  - destruct (b && _); [|by rewrite multiplicity_empty].
    by rewrite multiplicity_singleton_ne.
  - rewrite multiplicity_disj_union. destruct (_ && (kr_insert =? _)).
    + rewrite multiplicity_singleton_ne by done. lia.
    + rewrite multiplicity_empty. lia.
Qed.

(** Destroying the process's own port leaves what came from elsewhere. *)
Lemma rwp_destroy_own kr kr_insert n m b B (Q : Z → ledger → Prop) :
  (kr = KERN_SUCCESS → n ≠ m) →
  (∀ k, Q k (mk_ledger ∅ (named b m) B)) →
  rwp (guarded (kr =? KERN_SUCCESS) KERN_FAILURE (call (mach_port_destroy n))) Q
    (mk_ledger (own_right kr n) (named b m ⊎ own_send kr kr_insert n) B).
Proof.
  intros Hf HQ. unfold own_right. apply wp_guarded; intros E; rewrite ?E.
  - apply Z.eqb_eq in E. apply wp_call; [ledger_pre|]. intros k s' ->.
    cbn [account_carried account rights sends regions]. rewrite drop_own by done.
    replace ({[+ n +]} ∖ {[+ n +]}) with (∅ : gmultiset Z) by multiset_solver. apply HQ.
  - unfold own_send. rewrite E. cbn [andb].
    replace (named b m ⊎ ∅) with (named b m) by multiset_solver. apply HQ.
Qed.

(** The process's own port is all that is left. *)
Lemma rwp_destroy_last kr kr_insert n init B (Q : Z → ledger → Prop) :
  (∀ k, Q k (mk_ledger ∅ ∅ B)) →
  rwp (guarded (kr =? KERN_SUCCESS) init (call (mach_port_destroy n))) Q
    (mk_ledger (own_right kr n) (own_send kr kr_insert n) B).
Proof.
  intros HQ. unfold own_right, own_send. apply wp_guarded; intros E; rewrite E; [|apply HQ].
  apply wp_call; [ledger_pre|]. intros k s' ->.
  cbn [account_carried account rights sends regions andb].
  rewrite drop_name_if.
  replace ({[+ n +]} ∖ {[+ n +]}) with (∅ : gmultiset Z) by multiset_solver. apply HQ.
Qed.

(** Giving a right back, if it is there. *)
Lemma rwp_give_named b b' n init R X B (Q : Z → ledger → Prop) :
  (n ≠ MACH_PORT_NULL → b = b') → (∀ k, Q k (mk_ledger R X B)) →
  rwp (guarded (b && negb (n =? MACH_PORT_NULL)) init (call (mach_port_deallocate n))) Q
    (mk_ledger R (named b' n ⊎ X) B).
Proof.
  intros Hb HQ. unfold named. destruct (Z.eqb_spec n MACH_PORT_NULL) as [|Hn].
  - rewrite !andb_false_r. replace (∅ ⊎ X) with X by multiset_solver. apply HQ.
  - rewrite <- Hb by done. apply wp_guarded; intros E; rewrite E.
    + apply wp_call; [apply bool_decide_eq_true; cbn [sends]; multiset_solver|].
      intros k s' ->. cbn [account_carried account rights sends regions].
      replace (_ ∖ {[+ n +]}) with X by multiset_solver. apply HQ.
    + replace (∅ ⊎ X) with X by multiset_solver. apply HQ.
Qed.

(** Giving back the one right that is left. *)
Lemma rwp_deallocate_named b n init B (Q : Z → ledger → Prop) :
  (∀ k, Q k (mk_ledger ∅ ∅ B)) →
  rwp (guarded (b && negb (n =? MACH_PORT_NULL)) init (call (mach_port_deallocate n))) Q
    (mk_ledger ∅ (named b n) B).
Proof.
  intros HQ. replace (named b n) with (named b n ⊎ ∅) by multiset_solver.
  by apply rwp_give_named.
Qed.

End rules.

(** Executes one statement, with the rules above. *)
Ltac rwp_step :=
  match goal with
  | |- wp _ _ (send_msg _ _) _ _ => apply rwp_send; intros [? ?]
  | |- wp _ _ (receive_msg _ _ _) _ _ => apply rwp_receive; [|intros ? ?]
  | |- wp _ _ (write_full _ _ _) _ _ => apply rwp_write; intros ?
  | |- wp _ _ (read_full _ _ _ _) _ _ => apply rwp_read; intros ?
  | |- wp _ _ (call sys_fork) _ _ => fail 1
  | |- _ => lwp_step
  end.

(** Simplifies both sides of an equation of ledgers by what is known of the
    path. *)
Ltac known_path :=
  known_bools;
  change (KERN_FAILURE =? KERN_SUCCESS) with false; unfold named; cbn [andb];
  f_equal; try multiset_solver; repeat case_match; try multiset_solver.

(** The size of a structure with a header is positive. *)
Ltac size_tac :=
  pose proof header_size; pose proof body_size; pose proof descriptor_size;
  pose proof trailer_size; lia.
