(* ===== verification/Header.v ===== *)
(** What the two probes of [macos-validation/probes/m1] share: a simple message
    that a task sends to a port it can receive on itself, and what is looked at
    before the send, after it and after the receive.

    The functions are [static] in [header_copy_send_accounting.c] and
    [header_move_send_accounting.c], in the same words. *)

From stdpp Require Import gmap.
From S2P Require Import Prelude MachApi NxMachUtils Ledger MachContract StatusPipe Exchange.

Local Open Scope Z_scope.

Module Header.
Section header.
Context `{MachSdk}.

Definition disposition_str (disposition : Z) : string :=
  if disposition =? MACH_MSG_TYPE_MOVE_RECEIVE then "MACH_MSG_TYPE_MOVE_RECEIVE"
  else if disposition =? MACH_MSG_TYPE_MOVE_SEND then "MACH_MSG_TYPE_MOVE_SEND"
  else if disposition =? MACH_MSG_TYPE_MOVE_SEND_ONCE then "MACH_MSG_TYPE_MOVE_SEND_ONCE"
  else if disposition =? MACH_MSG_TYPE_COPY_SEND then "MACH_MSG_TYPE_COPY_SEND"
  else if disposition =? MACH_MSG_TYPE_MAKE_SEND then "MACH_MSG_TYPE_MAKE_SEND"
  else if disposition =? MACH_MSG_TYPE_MAKE_SEND_ONCE then "MACH_MSG_TYPE_MAKE_SEND_ONCE"
  else if disposition =? 0 then "0"
  else hex32 disposition.

Definition port_label (observed service_port : mach_port_t) : string :=
  if observed =? MACH_PORT_NULL then "MACH_PORT_NULL"
  else if observed =? service_port then "service_port"
  else "other_port".

(** The user references and the type of a name, and how the calls returned. *)
Record seen := mk_seen {
  kr_refs : kern_return_t;
  refs : mach_port_urefs_t;
  kr_type : kern_return_t;
  type : mach_port_type_t;
}.
Definition unseen : seen := mk_seen KERN_FAILURE 0 KERN_FAILURE 0.

(** [mach_port_get_refs] for the send right, then [mach_port_type]. *)
Definition look (port : mach_port_t) : prog seen :=
  '(kr_refs, refs) ← call (mach_port_get_refs port MACH_PORT_RIGHT_SEND);
  '(kr_type, type) ← call (mach_port_type port);
  mret (mk_seen kr_refs refs kr_type type).

(** The port with its two rights. *)
Record held := mk_held {
  kr_alloc_receive : kern_return_t;
  service_port : mach_port_t;
  kr_insert_send : kern_return_t;
  before_send : seen;
}.

Definition acquire : prog held :=
  '(kr_alloc, port) ← call (mach_port_allocate MACH_PORT_RIGHT_RECEIVE);
  kr_insert ← guarded (kr_alloc =? KERN_SUCCESS) KERN_FAILURE
    (call (mach_port_insert_right port port MACH_MSG_TYPE_MAKE_SEND));
  before ← guarded (kr_insert =? KERN_SUCCESS) unseen (look port);
  mret (mk_held kr_alloc port kr_insert before).

(** [sizeof] of the two message structures. *)
Definition sizeof_send_msg : Z := sizeof_mach_msg_header.
Definition sizeof_recv_msg : Z := sizeof_mach_msg_header + sizeof_mach_msg_max_trailer.

Definition header_msg (disposition : Z) (port : mach_port_t) (id : Z) : mach_msg_buf :=
  mk_msg (MACH_MSGH_BITS disposition 0) sizeof_send_msg port MACH_PORT_NULL id 0 zero_desc
    zero_desc.

(** The members of the header that was received. *)
Record header_fields := mk_fields {
  received_msgh_bits : Z;
  received_remote_disp : Z;
  received_local_disp : Z;
  received_msgh_size : Z;
  received_msgh_id : Z;
  received_remote_port : mach_port_t;
  received_local_port : mach_port_t;
}.
Definition no_fields : header_fields := mk_fields 0 0 0 0 0 MACH_PORT_NULL MACH_PORT_NULL.

Definition fields_of (m : mach_msg_buf) : header_fields :=
  mk_fields (msgh_bits m) (MACH_MSGH_BITS_REMOTE (msgh_bits m))
    (MACH_MSGH_BITS_LOCAL (msgh_bits m)) (msgh_size m) (msgh_id m) (msgh_remote_port m)
    (msgh_local_port m).

(** After a send that succeeded. *)
Record round_trip := mk_round_trip {
  after_send : seen;
  mr_receive : mach_msg_return_t;
  received : header_fields;
  after_receive : seen;
}.
Definition no_round_trip : round_trip :=
  mk_round_trip unseen MACH_RCV_INVALID_NAME no_fields unseen.

Definition receive_back (port : mach_port_t) : prog round_trip :=
  after_send ← look port;
  '(mr_receive, recv_msg) ← receive_msg 5000 sizeof_recv_msg port;
  after_receive ← look port;
  mret (mk_round_trip after_send mr_receive
          (if mr_receive =? MACH_MSG_SUCCESS then fields_of recv_msg else no_fields)
          after_receive).

(** ** Rules *)

Section contract_rules.
Variable pf : platform.

Definition seen_of (e : entry) : seen :=
  mk_seen KERN_SUCCESS (e_send e) KERN_SUCCESS (type_bits e).

Lemma cwp_look n e (Q : seen → space → Prop) s :
  s !! n = Some e → Q (seen_of e) s → cwp pf (look n) Q s.
Proof.
  intros Hn HQ. unfold look. apply wp_bind. eapply cwp_get_refs; [exact Hn|].
  apply wp_bind. eapply cwp_type; [exact Hn|]. by apply wp_ret.
Qed.

(** A new port with one send reference. *)
Definition service_entry : entry := add_send 1 (fresh_entry MACH_PORT_RIGHT_RECEIVE).

Lemma cwp_acquire (Q : held → space → Prop) s :
  (∀ k n, k ≠ KERN_SUCCESS → Q (mk_held k n KERN_FAILURE unseen) s) →
  (∀ n, n ≠ MACH_PORT_NULL → s !! n = None → no_members n s →
     Q (mk_held KERN_SUCCESS n KERN_SUCCESS (seen_of service_entry))
       (<[n := service_entry]> s)) →
  cwp pf acquire Q s.
Proof.
  intros Hf Hs. unfold acquire. apply wp_bind, cwp_allocate.
  - intros k n Hk. apply Z.eqb_neq in Hk as E. rewrite E. by apply wp_ret, Hf.
  - intros n Hn _ Hl Hm. apply wp_bind.
    eapply cwp_insert_make_send; [apply lookup_insert_eq|done|done|]. apply wp_bind.
    rewrite insert_insert_eq. eapply cwp_look; [apply lookup_insert_eq|]. by apply wp_ret, Hs.
Qed.

(** The one message in the queue comes back. *)
Lemma cwp_receive_back n e m (Q : round_trip → space → Prop) s :
  s !! n = Some e → e_recv e = true → e_pset e = false → e_in e = MACH_PORT_NULL →
  e_queue e = [m] → msgh_size m = sizeof_mach_msg_header →
  (∀ fields, received_msgh_id fields = msgh_id m → received_local_port fields = n →
     Q (mk_round_trip (seen_of e) MACH_MSG_SUCCESS fields (seen_of e))
       (<[n := dequeue e]> s)) →
  cwp pf (receive_back n) Q s.
Proof.
  intros Hn Hr Hp Hi Hq Hz HQ. unfold receive_back, receive_msg.
  apply wp_bind. eapply cwp_look; [exact Hn|]. apply wp_bind.
  eapply cwp_receive; [done..|unfold sizeof_recv_msg; lia|]. intros got Hl Hid _.
  apply wp_bind. eapply cwp_look; [apply lookup_insert_eq|]. apply wp_ret.
  by apply HQ.
Qed.
End contract_rules.
End header.
End Header.
