(* ===== verification/ToSelf.v ===== *)
(** What the probes share that send a port descriptor to a port of their own
    task: the two ports, and their end.

    The statements are those of [invalid_descriptor_disposition.c] and
    [double_move_send_descriptor.c] in [macos-validation/probes/m2]. *)

From stdpp Require Import gmap gmultiset.
From S2P Require Import Prelude MachApi NxMachUtils Ledger MachContract StatusPipe Exchange.
From S2P Require Import Header.

Local Open Scope Z_scope.

Module ToSelf.
Import Header(service_entry).

Definition OB24_SEND_TIMEOUT_MS : Z := 500.
Definition OB24_RECV_TIMEOUT_MS : Z := 100.

(** The port the message goes to, and the one whose right is in it. *)
Record ports := mk_ports {
  kr_alloc_service : kern_return_t;
  service_port : mach_port_t;
  kr_insert_service_send : kern_return_t;
  kr_alloc_cargo : kern_return_t;
  cargo_port : mach_port_t;
  kr_insert_cargo_send : kern_return_t;
}.
Definition no_ports : ports :=
  mk_ports KERN_FAILURE MACH_PORT_NULL KERN_FAILURE KERN_FAILURE MACH_PORT_NULL KERN_FAILURE.

Definition acquire_ports : prog ports :=
  '(kr_alloc_service, service_port) ← call (mach_port_allocate MACH_PORT_RIGHT_RECEIVE);
  kr_insert_service ← guarded (kr_alloc_service =? KERN_SUCCESS) KERN_FAILURE
    (call (mach_port_insert_right service_port service_port MACH_MSG_TYPE_MAKE_SEND));
  '(kr_alloc_cargo, cargo_port) ←
    guarded (kr_insert_service =? KERN_SUCCESS) (KERN_FAILURE, MACH_PORT_NULL)
      (call (mach_port_allocate MACH_PORT_RIGHT_RECEIVE));
  kr_insert_cargo ← guarded (kr_alloc_cargo =? KERN_SUCCESS) KERN_FAILURE
    (call (mach_port_insert_right cargo_port cargo_port MACH_MSG_TYPE_MAKE_SEND));
  mret (mk_ports kr_alloc_service service_port kr_insert_service kr_alloc_cargo cargo_port
          kr_insert_cargo).

(** Both destroyed: the results for the cargo port and for the service port. *)
Definition destroy_ports (p : ports) : prog (kern_return_t * kern_return_t) :=
  kr_cargo ← guarded (kr_alloc_cargo p =? KERN_SUCCESS) KERN_FAILURE
    (call (mach_port_destroy (cargo_port p)));
  kr_service ← guarded (kr_alloc_service p =? KERN_SUCCESS) KERN_FAILURE
    (call (mach_port_destroy (service_port p)));
  mret (kr_cargo, kr_service).

(** Gives a right back that a message brought. *)
Definition give_back (mr_receive : mach_msg_return_t) (port : mach_port_t) :
    prog kern_return_t :=
  guarded ((mr_receive =? MACH_MSG_SUCCESS) && negb (port =? MACH_PORT_NULL)) KERN_FAILURE
    (call (mach_port_deallocate port)).

(** ** What is held *)

Definition ports_hold (p : ports) (X : gmultiset Z) (B : gmultiset (Z * Z)) : ledger :=
  mk_ledger
    (own_right (kr_alloc_service p) (service_port p) ⊎
     own_right (kr_alloc_cargo p) (cargo_port p))
    (own_send (kr_alloc_service p) (kr_insert_service_send p) (service_port p) ⊎
     own_send (kr_alloc_cargo p) (kr_insert_cargo_send p) (cargo_port p) ⊎ X) B.

Lemma acquire_ports_ledger B :
  rwp acquire_ports (λ p l, l = ports_hold p ∅ B) (mk_ledger ∅ ∅ B).
Proof.
  unfold acquire_ports. repeat lwp_step; try ledger_pre.
  all: unfold ports_hold, own_right, own_send;
    cbn [account account_carried dead_right MACH_PORT_RIGHT_RECEIVE
         rights sends regions kr_alloc_service service_port
         kr_insert_service_send kr_alloc_cargo cargo_port kr_insert_cargo_send];
    known_path.
Qed.

Lemma give_back_ledger mr b port p X B (Q : Z → ledger → Prop) :
  (port ≠ MACH_PORT_NULL → mr = MACH_MSG_SUCCESS ∧ b = true) →
  (∀ k, Q k (ports_hold p X B)) →
  rwp (give_back mr port) Q (ports_hold p (named b port ⊎ X) B).
Proof.
  intros Hd HQ. unfold give_back, ports_hold.
  replace (_ ⊎ (named b port ⊎ X)) with
    (named b port ⊎
     (own_send (kr_alloc_service p) (kr_insert_service_send p) (service_port p) ⊎
      own_send (kr_alloc_cargo p) (kr_insert_cargo_send p) (cargo_port p) ⊎ X))
    by multiset_solver.
  apply rwp_give_named; [|exact HQ]. intros [-> ->]%Hd. done.
Qed.

(** Without the rights to the two ports nothing is left. *)
Ltac nothing_left :=
  apply gmultiset_eq; intros ?;
  rewrite ?multiplicity_drop_name, ?multiplicity_disj_union, ?multiplicity_empty;
  repeat case_decide; try done;
  rewrite ?multiplicity_drop_name, ?multiplicity_disj_union, ?multiplicity_empty;
  repeat case_decide; try done;
  repeat case_match; rewrite ?multiplicity_disj_union, ?multiplicity_empty;
  rewrite ?multiplicity_singleton_ne by done; done.

Lemma destroy_ports_ledger p B (Q : Z * Z → ledger → Prop) :
  (∀ r, Q r (mk_ledger ∅ ∅ B)) → rwp (destroy_ports p) Q (ports_hold p ∅ B).
Proof.
  intros HQ. unfold destroy_ports, ports_hold, own_right, own_send.
  repeat lwp_step.
  all: unfold l_pre, holds; cbn [account_carried account rights sends regions];
    known_bools; cbn [andb].
  all: try (apply bool_decide_eq_true; multiset_solver).
  all: match goal with |- _ _ (mk_ledger ?r ?s ?b) =>
         replace (mk_ledger r s b) with (mk_ledger ∅ ∅ b); [done|] end.
  all: f_equal; try multiset_solver.
  all: nothing_left.
Qed.
(** ** On a kernel that keeps the contract *)

Section contract_rules.
Context `{MachSdk}.
Variable pf : platform.

Lemma cwp_acquire_ports (Q : ports → space → Prop) s :
  (∀ k n, k ≠ KERN_SUCCESS →
     Q (mk_ports k n KERN_FAILURE KERN_FAILURE MACH_PORT_NULL KERN_FAILURE) s) →
  (∀ n k m, k ≠ KERN_SUCCESS → n ≠ MACH_PORT_NULL → s !! n = None → no_members n s →
     Q (mk_ports KERN_SUCCESS n KERN_SUCCESS k m KERN_FAILURE)
       (<[n := service_entry]> s)) →
  (∀ n m, n ≠ m → s !! n = None → s !! m = None → no_members n s → no_members m s →
     n ≠ MACH_PORT_NULL → m ≠ MACH_PORT_NULL →
     Q (mk_ports KERN_SUCCESS n KERN_SUCCESS KERN_SUCCESS m KERN_SUCCESS)
       (<[m := service_entry]> (<[n := service_entry]> s))) →
  cwp pf acquire_ports Q s.
Proof.
  intros Hf Hc Hs. unfold acquire_ports. apply wp_bind, cwp_allocate.
  { intros k n Hk. apply Z.eqb_neq in Hk as E. rewrite E. by apply wp_ret, Hf. }
  intros n Hn _ Hl Hm. apply wp_bind.
  eapply cwp_insert_make_send; [apply lookup_insert_eq|done|done|].
  rewrite insert_insert_eq. apply wp_bind, cwp_allocate.
  { intros k m Hk. apply Z.eqb_neq in Hk as E. rewrite E. by apply wp_ret, Hc. }
  intros m Hm0 _ [Hl' Hnm]%lookup_insert_None Hm'. apply wp_bind.
  eapply cwp_insert_make_send; [apply lookup_insert_eq|done|done|].
  rewrite insert_insert_eq. apply wp_ret, Hs; try done.
  by apply no_members_insert_inv in Hm'.
Qed.
End contract_rules.
End ToSelf.
