(* ===== verification/Smoke.v ===== *)
(** [macos-validation/probes/foundation/smoke.c]: one receive right is
    allocated, inspected and destroyed. *)

From S2P Require Import Prelude Json NxJson JsonText Builder MachApi NxMachUtils Ledger.
From S2P Require Import MachContract NxResult Probe RefKernel.

Local Open Scope oracle_scope.
Local Open Scope Z_scope.

Module Smoke.

Section smoke.
Context `{Host}.

(** The local variables of [main] the report reads. *)
Record obs := mk_obs {
  before : nx_baseline_t;
  after : nx_baseline_t;
  kr_alloc : kern_return_t;
  ptype : mach_port_type_t;
  kr_type : kern_return_t;
  recv_refs : mach_port_urefs_t;
  kr_refs : kern_return_t;
  kr_destroy : kern_return_t;
}.

Definition observe : prog obs :=
  before ← nx_baseline_capture;
  '(kr_alloc, kr_type, ptype, kr_refs, recv_refs, kr_destroy) ←
    guarded APPLE (KERN_FAILURE, KERN_FAILURE, 0, KERN_FAILURE, 0, KERN_FAILURE) (
      '(kr_alloc, port) ← call (mach_port_allocate MACH_PORT_RIGHT_RECEIVE);
      '(kr_type, ptype, kr_refs, recv_refs) ←
        guarded (kr_alloc =? KERN_SUCCESS) (KERN_FAILURE, 0, KERN_FAILURE, 0) (
          '(kr_type, ptype) ← call (mach_port_type port);
          '(kr_refs, recv_refs) ← call (mach_port_get_refs port MACH_PORT_RIGHT_RECEIVE);
          mret (kr_type, ptype, kr_refs, recv_refs));
      kr_destroy ←
        guarded (kr_alloc =? KERN_SUCCESS) KERN_FAILURE (call (mach_port_destroy port));
      mret (kr_alloc, kr_type, ptype, kr_refs, recv_refs, kr_destroy));
  after ← nx_baseline_capture;
  mret (mk_obs before after kr_alloc ptype kr_type recv_refs kr_refs kr_destroy).

Definition baseline_ok (o : obs) : bool := (nx_baseline_compare (before o) (after o)).1.

Definition ladder_of (o : obs) : list (bool * verdict) :=
  [(negb (kr_alloc o =? KERN_SUCCESS), probe_failure "mach_port_allocate failed");
   (negb (kr_type o =? KERN_SUCCESS),
     probe_failure "mach_port_type failed after mach_port_allocate succeeded");
   (negb (kr_refs o =? KERN_SUCCESS),
     probe_failure "mach_port_get_refs failed after mach_port_allocate succeeded");
   (negb (kr_destroy o =? KERN_SUCCESS), fail_probe "mach_port_destroy failed");
   (negb (baseline_ok o), fail_contract "port namespace did not return to baseline")].

Definition verdict_of (o : obs) : verdict :=
  if APPLE then ladder (ladder_of o)
  else skip "non-macOS host: Mach APIs unavailable, pipeline smoke only".

Definition cleanup_ok (o : obs) : bool := if APPLE then baseline_ok o else true.
Definition cleanup_notes (o : obs) : string :=
  if APPLE then (if baseline_ok o then "" else "namespace delta detected")
  else "not applicable on non-macOS host".

Definition report (o : obs) (v : verdict) : op nx_json_t :=
  nx_json_begin_object ;;
  nx_result_emit_header agent_name "macos_foundation_smoke" NULL NULL (status v) (sclass v) ;;
  nx_env_emit ;;
  nx_result_emit_empty_message ;;
  nx_json_key "returns" ;;
  nx_json_begin_array ;;
  nx_result_emit_return "mach_port_names_before"
    (nx_kern_return_str (kr (before o))) (kr (before o)) false 0 ;;
  nx_result_emit_return "mach_port_allocate"
    (nx_kern_return_str (kr_alloc o)) (kr_alloc o) false 0 ;;
  (when kr_alloc o =? KERN_SUCCESS do
     (nx_result_emit_return "mach_port_type"
        (nx_kern_return_str (kr_type o)) (kr_type o) false 0 ;;
      nx_result_emit_return "mach_port_get_refs"
        (nx_kern_return_str (kr_refs o)) (kr_refs o) false 0 ;;
      nx_result_emit_return "mach_port_destroy"
        (nx_kern_return_str (kr_destroy o)) (kr_destroy o) false 0)) ;;
  nx_result_emit_return "mach_port_names_after"
    (nx_kern_return_str (kr (after o))) (kr (after o)) false 0 ;;
  nx_json_end_array ;;
  nx_json_key "right_deltas" ;;
  nx_json_begin_array ;;
  (when kr_alloc o =? KERN_SUCCESS do
     (nx_result_emit_right_delta
        "allocate receive right" "smoke_port"
        (if kr_type o =? KERN_SUCCESS then nx_port_type_str (ptype o) else "unknown")
        (-1) (refs_or_minus1_ll (kr_refs o) (recv_refs o)) (-1) (-1) "created" ;;
      nx_result_emit_right_delta
        "destroy receive right" "smoke_port" "MACH_PORT_TYPE_RECEIVE"
        (refs_or_minus1_ll (kr_refs o) (recv_refs o)) 0 (-1) (-1) "destroyed")) ;;
  nx_json_end_array ;;
  nx_result_emit_cleanup (cleanup_ok o) (cleanup_notes o) ;;
  nx_json_key_string "notes" (notes v) ;;
  nx_json_end_object.

Definition main : prog (option outcome) :=
  o ← observe;
  let v := verdict_of o in
  let r := finish (report o v) v in
  _ ← nx_baseline_free (before o);
  _ ← nx_baseline_free (after o);
  mret r.

End smoke.

Section facts.
Context `{Host}.

Lemma smoke_written o :
  env_file_ok →
  emits_result false "macos_foundation_smoke" (verdict_of o) (cleanup_ok o)
    (report o (verdict_of o)).
Proof. intros Henv. unfold report. report_tac. Qed.

(** After [observe] only the two snapshots are held. *)
Lemma smoke_observe_ledger :
  lwp observe (λ o s, captured (before o) ∧ captured (after o) ∧
    s = mk_ledger ∅ ∅ (baseline_regions (before o) ⊎ baseline_regions (after o)))
    no_holdings.
Proof.
  unfold observe. lwp_exec; (split; [done|]; split; [done|]). all: ledger_eq.
Qed.

(** Whatever the kernel answers, [main] uses only port names it holds,
    gives back everything it acquired, and its standard output is one result
    document whose verdict is the one for what it observed. *)
Theorem smoke_main_safe {W} `{Kernel W} w :
  env_file_ok →
  let o := (run observe w).1 in
  well_behaved observe main (λ o, finish (report o (verdict_of o)) (verdict_of o)) w ∧
  emits_result false "macos_foundation_smoke" (verdict_of o) (cleanup_ok o)
    (report o (verdict_of o)).
Proof.
  intros Henv o. split; [|by apply smoke_written].
  eapply (lwp_two_parts _ _ _ _ smoke_observe_ledger). intros o' s (H1 & H2 & Hs).
  eapply lwp_tail; eauto.
Qed.

(** On a kernel that keeps the contract the verdict is a pass, unless no
    port could be allocated, and the name space is as it was. *)
Theorem smoke_conforms {W} `{MachContract W} w :
  APPLE = true → healthy w →
  conforming observe main (λ o,
    verdict_of o = (if kr_alloc o =? KERN_SUCCESS then pass
                    else probe_failure "mach_port_allocate failed") ∧
    cleanup_ok o = true) w.
Proof.
  intros Ha Hw. unfold main. apply cwp_two_parts; [done| |intros; tail_tac].
  unfold observe.
  repeat cwp_step.
  all: conform_tac ltac:(unfold verdict_of, cleanup_ok, ladder_of, baseline_ok).
Qed.
End facts.

(** The theorems at the reference kernel, on a task that has just started. *)
Section witnesses.
Import OnMacos.

Lemma smoke_main_safe_witness :
  env_file_ok ∧
  well_behaved observe main (λ o, finish (report o (verdict_of o)) (verdict_of o)) boot ∧
  emits_result false "macos_foundation_smoke" (verdict_of (run observe boot).1)
    (cleanup_ok (run observe boot).1)
    (report (run observe boot).1 (verdict_of (run observe boot).1)).
Proof. split; [exact no_env_file|]. exact (smoke_main_safe boot no_env_file). Defined.

Lemma smoke_conforms_witness :
  APPLE = true ∧ healthy boot ∧
  verdict_of (run observe boot).1 = pass ∧ cleanup_ok (run observe boot).1 = true ∧
  view (run main boot).2 = boot_space.
Proof.
  split; [done|]. split; [exact healthy_boot|].
  destruct (smoke_conforms boot on_macos healthy_boot)
    as [Hv Hs].
  split; [|split; [exact (proj2 Hv)|exact Hs]].
  etransitivity; [exact (proj1 Hv)|by vm_compute].
Defined.
End witnesses.
End Smoke.
