(* ===== verification/PortNames.v ===== *)
(** [macos-validation/probes/foundation/port_names.c]: [mach_port_names] sees a
    receive right while it exists. *)

From stdpp Require Import gmap.
From S2P Require Import Prelude Json NxJson JsonText Builder MachApi NxMachUtils Ledger.
From S2P Require Import MachContract NxResult Probe RefKernel.

Local Open Scope oracle_scope.
Local Open Scope Z_scope.

Module PortNames.

(** Returns the type stored in [*type_out] when the result is true. *)
Definition baseline_has_port (b : nx_baseline_t) (port : mach_port_t) :
    option mach_port_type_t :=
  if negb (valid b) || negb (types_count b =? names_count b) then None
  else snd <$> List.find (λ '(n, _), n =? port) (entries b).

Section port_names.
Context `{Host}.

Record obs := mk_obs {
  before : nx_baseline_t;
  during : nx_baseline_t;
  after : nx_baseline_t;
  kr_alloc : kern_return_t;
  kr_destroy : kern_return_t;
  observed_type : mach_port_type_t;
  probe_seen : bool;
  during_delta : Z;
  compared : bool * Z;
}.

Definition observe : prog obs :=
  before ← nx_baseline_capture;
  during ← nx_baseline_capture;
  after ← nx_baseline_capture;
  '(kr_alloc, during, probe_seen, observed_type, kr_destroy, after, during_delta, compared) ←
    guarded APPLE (KERN_FAILURE, during, false, 0, KERN_FAILURE, after, 0, (false, 0)) (
      '(kr_alloc, probe_port) ← call (mach_port_allocate MACH_PORT_RIGHT_RECEIVE);
      _ ← nx_baseline_free during;
      during ← nx_baseline_capture;
      let seen := if (kr_alloc =? KERN_SUCCESS) && valid during
                  then baseline_has_port during probe_port else None in
      kr_destroy ← guarded (kr_alloc =? KERN_SUCCESS) KERN_FAILURE
        (call (mach_port_destroy probe_port));
      _ ← nx_baseline_free after;
      after ← nx_baseline_capture;
      mret (kr_alloc, during,
            match seen with Some _ => true | None => false end,
            match seen with Some t => t | None => 0 end,
            kr_destroy, after,
            if valid before && valid during
            then s32 (names_count during) - s32 (names_count before) else 0,
            nx_baseline_compare before after));
  mret (mk_obs before during after kr_alloc kr_destroy observed_type probe_seen
          during_delta compared).

Definition baseline_ok (o : obs) : bool := (compared o).1.
Definition cleanup_delta (o : obs) : Z := (compared o).2.

Definition ladder_of (o : obs) : list (bool * verdict) :=
  [(nx_baseline_blocks_probe (before o), probe_failure "initial mach_port_names failed");
   (negb (kr_alloc o =? KERN_SUCCESS), probe_failure "mach_port_allocate failed");
   (nx_baseline_blocks_probe (during o),
     probe_failure "mach_port_names after allocation failed");
   (negb (probe_seen o),
     fail_contract "mach_port_names did not report allocated probe port");
   (negb (during_delta o =? 1),
     fail_contract "mach_port_names count delta was not one after allocation");
   (negb (kr_destroy o =? KERN_SUCCESS), fail_probe "mach_port_destroy failed");
   (nx_baseline_blocks_probe (after o), probe_failure "final mach_port_names failed");
   (negb (baseline_ok o), fail_contract "port namespace did not return to baseline")].

Definition verdict_of (o : obs) : verdict :=
  if APPLE then ladder (ladder_of o)
  else skip "non-macOS host: Mach APIs unavailable".

Definition cleanup_ok (o : obs) : bool := if APPLE then baseline_ok o else true.
Definition cleanup_notes (o : obs) : string :=
  if APPLE then (if baseline_ok o then "" else "namespace delta detected")
  else "not applicable on non-macOS host".

Definition seen_type (o : obs) : string :=
  if probe_seen o then nx_port_type_str (observed_type o) else "unknown".

Definition report (o : obs) (v : verdict) : op nx_json_t :=
  nx_json_begin_object ;;
  nx_result_emit_header agent_name "macos_foundation_port_names" NULL NULL
    (status v) (sclass v) ;;
  nx_env_emit ;;
  nx_result_emit_empty_message ;;
  nx_json_key "returns" ;;
  nx_json_begin_array ;;
  nx_result_emit_return "mach_port_names_before"
    (nx_kern_return_str (kr (before o))) (kr (before o)) false 0 ;;
  nx_result_emit_return "mach_port_allocate"
    (nx_kern_return_str (kr_alloc o)) (kr_alloc o) false 0 ;;
  nx_result_emit_return "mach_port_names_after_allocate"
    (nx_kern_return_str (kr (during o))) (kr (during o)) false 0 ;;
  nx_result_emit_return "mach_port_destroy"
    (nx_kern_return_str (kr_destroy o)) (kr_destroy o) false 0 ;;
  nx_result_emit_return "mach_port_names_after_destroy"
    (nx_kern_return_str (kr (after o))) (kr (after o)) false 0 ;;
  nx_json_end_array ;;
  nx_json_key "right_deltas" ;;
  nx_json_begin_array ;;
  (when kr_alloc o =? KERN_SUCCESS do
     (nx_result_emit_right_delta
        "allocate receive right observed by mach_port_names" "port_names_probe_port"
        (seen_type o) (-1) (-1) (-1) (-1)
        (if probe_seen o then "present" else "missing") ;;
      nx_result_emit_right_delta
        "destroy receive right observed by mach_port_names" "port_names_probe_port"
        (seen_type o) (-1) (-1) (-1) (-1)
        (if cleanup_ok o then "removed" else "cleanup_delta"))) ;;
  nx_json_end_array ;;
  nx_json_key "observations" ;;
  nx_json_begin_object ;;
  nx_json_key_int "names_before" (count_or_minus1 (before o)) ;;
  nx_json_key_int "names_after_allocate" (count_or_minus1 (during o)) ;;
  nx_json_key_int "names_after_destroy" (count_or_minus1 (after o)) ;;
  nx_json_key_int "allocation_delta" (during_delta o) ;;
  nx_json_key_int "cleanup_delta" (cleanup_delta o) ;;
  nx_json_key_bool "probe_port_seen" (probe_seen o) ;;
  nx_json_key_string "probe_port_label" "port_names_probe_port" ;;
  nx_json_end_object ;;
  nx_result_emit_cleanup (cleanup_ok o) (cleanup_notes o) ;;
  nx_json_key_string "notes" (notes v) ;;
  nx_json_end_object.

Definition main : prog (option outcome) :=
  o ← observe;
  let v := verdict_of o in
  let r := finish (report o v) v in
  _ ← nx_baseline_free (before o);
  _ ← nx_baseline_free (during o);
  _ ← nx_baseline_free (after o);
  mret r.

End port_names.

Section facts.
Context `{Host}.

Lemma port_names_written o :
  env_file_ok →
  emits_result true "macos_foundation_port_names" (verdict_of o) (cleanup_ok o)
    (report o (verdict_of o)).
Proof. intros Henv. unfold report. report_tac. Qed.

Lemma port_names_observe_ledger :
  lwp observe (λ o s, captured (before o) ∧ captured (during o) ∧ captured (after o) ∧
    s = mk_ledger ∅ ∅ (baseline_regions (before o) ⊎ baseline_regions (during o)
                         ⊎ baseline_regions (after o)))
    no_holdings.
Proof.
  unfold observe. lwp_exec; (split; [done|]; split; [done|]; split; [done|]). all: ledger_eq.
Qed.

(** Whatever the kernel answers, [main] uses only port names and memory it
    holds, gives back everything, and writes one result document. *)
Theorem port_names_main_safe {W} `{Kernel W} w :
  env_file_ok →
  let o := (run observe w).1 in
  well_behaved observe main (λ o, finish (report o (verdict_of o)) (verdict_of o)) w ∧
  emits_result true "macos_foundation_port_names" (verdict_of o) (cleanup_ok o)
    (report o (verdict_of o)).
Proof.
  intros Henv o. split; [|by apply port_names_written].
  eapply (lwp_two_parts _ _ _ _ port_names_observe_ledger). intros o' s (H1 & H2 & H3 & Hs).
  eapply lwp_tail3; eauto.
Qed.

(** The snapshots before and during, when a right is made between them. *)
Lemma snapshots_grow pf s n e b d :
  names_supported pf = true → s !! n = None →
  snapshot_of pf s b → snapshot_of pf (<[n := e]> s) d →
  valid b = true ∧ valid d = true ∧
  baseline_has_port d n = Some (type_bits e) ∧
  s32 (names_count d) - s32 (names_count b) = 1.
Proof.
  unfold snapshot_of. intros -> Hn (Hb & _ & Lb) (Hd & _ & Ld). do 2 (split; [done|]). split.
  - unfold baseline_has_port, entries. rewrite Hd.
    rewrite (lists_space_find _ _ _ n e Ld) by apply lookup_insert_eq.
    destruct Ld as [Hl _]. unfold types_count, names_count. by rewrite Hl, Z.eqb_refl.
  - pose proof (lists_space_size _ _ _ Lb) as Sb. pose proof (lists_space_size _ _ _ Ld) as Sd.
    rewrite map_size_insert_None in Sd by done.
    destruct Lb as (_ & _ & Cb & _), Ld as (_ & _ & Cd & _).
    unfold names_count, max_names in *. rewrite !s32_small by (unfold is_s32; lia). lia.
Qed.

(** On a kernel that keeps the contract the probe passes when the kernel
    implements [mach_port_names] and a port could be allocated; where the call
    is not supported the verdict is a contract failure, not a probe failure.
    The name space is as it was. *)
Theorem port_names_conforms {W} `{MachContract W} w :
  APPLE = true → healthy w →
  conforming observe main (λ o,
    verdict_of o =
      (if negb (kr_alloc o =? KERN_SUCCESS) then probe_failure "mach_port_allocate failed"
       else if names_supported kernel_platform then pass
       else fail_contract "mach_port_names did not report allocated probe port") ∧
    cleanup_ok o = true) w.
Proof.
  intros Ha Hw. unfold main. apply cwp_two_parts; [done| |intros; tail_tac].
  unfold observe.
  repeat cwp_step.
  all: conform_tac ltac:(unfold verdict_of, cleanup_ok, ladder_of, baseline_ok).
  split; [|done]. destruct (names_supported kernel_platform) eqn:Es.
  - match goal with
    | Hn : _ !! _ = None, Hd : snapshot_of _ (<[_ := _]> _) ?d, Hb : snapshot_of _ _ ?b
      |- context [valid ?b && valid ?d] =>
        destruct (snapshots_grow _ _ _ _ _ _ Es Hn Hb Hd) as (-> & -> & -> & ->)
    end. done.
  - match goal with
    | Hd : snapshot_of _ (<[_ := _]> _) _ |- _ =>
        unfold snapshot_of in Hd; rewrite Es in Hd; by destruct Hd as [-> _]
    end.
Qed.
End facts.

(** The theorems at the reference kernel, on a task that has just started. *)
Section witnesses.
Import OnMacos.

Lemma port_names_main_safe_witness :
  env_file_ok ∧
  well_behaved observe main (λ o, finish (report o (verdict_of o)) (verdict_of o)) boot ∧
  emits_result true "macos_foundation_port_names" (verdict_of (run observe boot).1)
    (cleanup_ok (run observe boot).1)
    (report (run observe boot).1 (verdict_of (run observe boot).1)).
Proof. split; [exact no_env_file|]. exact (port_names_main_safe boot no_env_file). Defined.

Lemma port_names_conforms_witness :
  APPLE = true ∧ healthy boot ∧
  verdict_of (run observe boot).1 = pass ∧ cleanup_ok (run observe boot).1 = true ∧
  view (run main boot).2 = boot_space.
Proof.
  split; [done|]. split; [exact healthy_boot|].
  destruct (port_names_conforms boot on_macos healthy_boot)
    as [Hv Hs].
  split; [|split; [exact (proj2 Hv)|exact Hs]].
  etransitivity; [exact (proj1 Hv)|by vm_compute].
Defined.
End witnesses.
End PortNames.
