(* ===== verification/PortType.v ===== *)
(** [macos-validation/probes/foundation/port_type.c]: the type bits of a
    receive right, with and without a send right, of a port set, and of the
    task's own port. *)

From S2P Require Import Prelude Json NxJson JsonText Builder MachApi NxMachUtils Ledger.
From S2P Require Import MachContract NxResult Probe RefKernel.

Local Open Scope oracle_scope.
Local Open Scope Z_scope.

Module PortType.

(** The four static buffers are never in use at once. *)
Definition type_hex (type : mach_port_type_t) : string :=
  snprintf 32 ("0x" +:+ fmt_x (u32 type)).

Definition is_exact_type (observed expected : mach_port_type_t) : bool :=
  observed =? expected.

Section port_type.
Context `{Host}.

Record obs := mk_obs {
  before : nx_baseline_t;
  after : nx_baseline_t;
  kr_alloc_receive : kern_return_t;
  kr_type_receive : kern_return_t;
  kr_insert_send : kern_return_t;
  kr_type_send_receive : kern_return_t;
  kr_alloc_port_set : kern_return_t;
  kr_type_port_set : kern_return_t;
  kr_type_task_self : kern_return_t;
  kr_destroy_receive : kern_return_t;
  kr_destroy_port_set : kern_return_t;
  type_receive : mach_port_type_t;
  type_send_receive : mach_port_type_t;
  type_port_set : mach_port_type_t;
  type_task_self : mach_port_type_t;
  compared : bool * Z;
}.

(** The receive right's part, after a successful allocation. *)
Definition observe_receive (receive_port : mach_port_t) :
    prog (Z * Z * Z * Z * Z) :=
  '(kr_type_receive, type_receive) ← call (mach_port_type receive_port);
  kr_insert_send ←
    call (mach_port_insert_right receive_port receive_port MACH_MSG_TYPE_MAKE_SEND);
  '(kr_type_send_receive, type_send_receive) ←
    guarded (kr_insert_send =? KERN_SUCCESS) (KERN_FAILURE, 0)
      (call (mach_port_type receive_port));
  mret (kr_type_receive, type_receive, kr_insert_send, kr_type_send_receive,
        type_send_receive).

Definition observe : prog obs :=
  before ← nx_baseline_capture;
  after ← nx_baseline_capture;
  guarded APPLE
    (mk_obs before after KERN_FAILURE KERN_FAILURE KERN_FAILURE KERN_FAILURE KERN_FAILURE
       KERN_FAILURE KERN_FAILURE KERN_FAILURE KERN_FAILURE 0 0 0 0 (false, 0)) (
    '(kr_alloc_receive, receive_port) ← call (mach_port_allocate MACH_PORT_RIGHT_RECEIVE);
    '(kr_type_receive, type_receive, kr_insert_send, kr_type_send_receive,
      type_send_receive) ←
      guarded (kr_alloc_receive =? KERN_SUCCESS)
        (KERN_FAILURE, 0, KERN_FAILURE, KERN_FAILURE, 0)
        (observe_receive receive_port);
    '(kr_alloc_port_set, port_set) ← call (mach_port_allocate MACH_PORT_RIGHT_PORT_SET);
    '(kr_type_port_set, type_port_set) ←
      guarded (kr_alloc_port_set =? KERN_SUCCESS) (KERN_FAILURE, 0)
        (call (mach_port_type port_set));
    '(kr_type_task_self, type_task_self) ← call (mach_port_type mach_task_self);
    kr_destroy_receive ← guarded (kr_alloc_receive =? KERN_SUCCESS) KERN_FAILURE
      (call (mach_port_destroy receive_port));
    kr_destroy_port_set ← guarded (kr_alloc_port_set =? KERN_SUCCESS) KERN_FAILURE
      (call (mach_port_destroy port_set));
    _ ← nx_baseline_free after;
    after ← nx_baseline_capture;
    mret (mk_obs before after kr_alloc_receive kr_type_receive kr_insert_send
            kr_type_send_receive kr_alloc_port_set kr_type_port_set kr_type_task_self
            kr_destroy_receive kr_destroy_port_set type_receive type_send_receive
            type_port_set type_task_self (nx_baseline_compare before after))).

Definition baseline_ok (o : obs) : bool := (compared o).1.
Definition cleanup_delta (o : obs) : Z := (compared o).2.

Definition receive_exact (o : obs) : bool :=
  is_exact_type (type_receive o) MACH_PORT_TYPE_RECEIVE.
Definition send_receive_exact (o : obs) : bool :=
  is_exact_type (type_send_receive o) MACH_PORT_TYPE_SEND_RECEIVE.
Definition port_set_exact (o : obs) : bool :=
  is_exact_type (type_port_set o) MACH_PORT_TYPE_PORT_SET.
Definition task_self_observed (o : obs) : bool := kr_type_task_self o =? KERN_SUCCESS.

Definition ladder_of (o : obs) : list (bool * verdict) :=
  [(nx_baseline_blocks_probe (before o), probe_failure "initial mach_port_names failed");
   (negb (kr_alloc_receive o =? KERN_SUCCESS),
     probe_failure "mach_port_allocate receive failed");
   (negb (kr_type_receive o =? KERN_SUCCESS),
     probe_failure "mach_port_type receive failed");
   (negb (receive_exact o),
     fail_contract "receive right type was not exact MACH_PORT_TYPE_RECEIVE");
   (negb (kr_insert_send o =? KERN_SUCCESS),
     probe_failure "mach_port_insert_right MAKE_SEND failed");
   (negb (kr_type_send_receive o =? KERN_SUCCESS),
     probe_failure "mach_port_type send_receive failed");
   (negb (send_receive_exact o),
     fail_contract "send+receive type was not exact MACH_PORT_TYPE_SEND_RECEIVE");
   (negb (kr_alloc_port_set o =? KERN_SUCCESS),
     probe_failure "mach_port_allocate port set failed");
   (negb (kr_type_port_set o =? KERN_SUCCESS),
     probe_failure "mach_port_type port set failed");
   (negb (port_set_exact o),
     fail_contract "port set type was not exact MACH_PORT_TYPE_PORT_SET");
   (negb (kr_type_task_self o =? KERN_SUCCESS),
     probe_failure "mach_port_type mach_task_self failed");
   (negb (kr_destroy_receive o =? KERN_SUCCESS),
     fail_probe "mach_port_destroy receive failed");
   (negb (kr_destroy_port_set o =? KERN_SUCCESS),
     fail_probe "mach_port_destroy port set failed");
   (nx_baseline_blocks_probe (after o), probe_failure "final mach_port_names failed");
   (negb (baseline_ok o), fail_contract "port namespace did not return to baseline")].

Definition verdict_of (o : obs) : verdict :=
  if APPLE then ladder (ladder_of o)
  else skip "non-macOS host: Mach APIs unavailable".

Definition cleanup_ok (o : obs) : bool := if APPLE then baseline_ok o else true.
Definition cleanup_notes (o : obs) : string :=
  if APPLE then (if baseline_ok o then "" else "namespace delta detected")
  else "not applicable on non-macOS host".

Definition emit_returns (o : obs) : op nx_json_t :=
  nx_json_key "returns" ;;
  nx_json_begin_array ;;
  nx_result_emit_return "mach_port_names_before"
    (nx_kern_return_str (kr (before o))) (kr (before o)) false 0 ;;
  nx_result_emit_return "mach_port_allocate_receive"
    (nx_kern_return_str (kr_alloc_receive o)) (kr_alloc_receive o) false 0 ;;
  nx_result_emit_return "mach_port_type_receive"
    (nx_kern_return_str (kr_type_receive o)) (kr_type_receive o) false 0 ;;
  nx_result_emit_return "mach_port_insert_right_make_send"
    (nx_kern_return_str (kr_insert_send o)) (kr_insert_send o) false 0 ;;
  nx_result_emit_return "mach_port_type_send_receive"
    (nx_kern_return_str (kr_type_send_receive o)) (kr_type_send_receive o) false 0 ;;
  nx_result_emit_return "mach_port_allocate_port_set"
    (nx_kern_return_str (kr_alloc_port_set o)) (kr_alloc_port_set o) false 0 ;;
  nx_result_emit_return "mach_port_type_port_set"
    (nx_kern_return_str (kr_type_port_set o)) (kr_type_port_set o) false 0 ;;
  nx_result_emit_return "mach_port_type_task_self"
    (nx_kern_return_str (kr_type_task_self o)) (kr_type_task_self o) false 0 ;;
  nx_result_emit_return "mach_port_destroy_receive"
    (nx_kern_return_str (kr_destroy_receive o)) (kr_destroy_receive o) false 0 ;;
  nx_result_emit_return "mach_port_destroy_port_set"
    (nx_kern_return_str (kr_destroy_port_set o)) (kr_destroy_port_set o) false 0 ;;
  nx_result_emit_return "mach_port_names_after"
    (nx_kern_return_str (kr (after o))) (kr (after o)) false 0 ;;
  nx_json_end_array.

Definition emit_deltas (o : obs) : op nx_json_t :=
  nx_json_key "right_deltas" ;;
  nx_json_begin_array ;;
  (when kr_type_receive o =? KERN_SUCCESS do
     nx_result_emit_right_delta "allocate receive right" "port_type_receive_port"
       (nx_port_type_str (type_receive o)) (-1) (-1) (-1) (-1) "MACH_PORT_TYPE_RECEIVE") ;;
  (when kr_type_send_receive o =? KERN_SUCCESS do
     nx_result_emit_right_delta "insert send right" "port_type_receive_port"
       (nx_port_type_str (type_send_receive o)) (-1) (-1) (-1) (-1)
       "MACH_PORT_TYPE_SEND_RECEIVE") ;;
  (when kr_type_port_set o =? KERN_SUCCESS do
     nx_result_emit_right_delta "allocate port set" "port_type_port_set"
       (nx_port_type_str (type_port_set o)) (-1) (-1) (-1) (-1)
       "MACH_PORT_TYPE_PORT_SET") ;;
  (when kr_type_task_self o =? KERN_SUCCESS do
     nx_result_emit_right_delta "inspect task self" "mach_task_self"
       (nx_port_type_str (type_task_self o)) (-1) (-1) (-1) (-1) "observed") ;;
  nx_json_end_array.

Definition emit_observations (o : obs) : op nx_json_t :=
  nx_json_key "observations" ;;
  nx_json_begin_object ;;
  nx_json_key_string "receive_type" (nx_port_type_str (type_receive o)) ;;
  nx_json_key_string "receive_type_raw_hex" (type_hex (type_receive o)) ;;
  nx_json_key_bool "receive_type_exact" (receive_exact o) ;;
  nx_json_key_string "send_receive_type" (nx_port_type_str (type_send_receive o)) ;;
  nx_json_key_string "send_receive_type_raw_hex" (type_hex (type_send_receive o)) ;;
  nx_json_key_bool "send_receive_type_exact" (send_receive_exact o) ;;
  nx_json_key_string "port_set_type" (nx_port_type_str (type_port_set o)) ;;
  nx_json_key_string "port_set_type_raw_hex" (type_hex (type_port_set o)) ;;
  nx_json_key_bool "port_set_type_exact" (port_set_exact o) ;;
  nx_json_key_bool "task_self_observed" (task_self_observed o) ;;
  nx_json_key_string "task_self_type" (nx_port_type_str (type_task_self o)) ;;
  nx_json_key_string "task_self_type_raw_hex" (type_hex (type_task_self o)) ;;
  nx_json_key_int "names_before" (count_or_minus1 (before o)) ;;
  nx_json_key_int "names_after" (count_or_minus1 (after o)) ;;
  nx_json_key_int "cleanup_delta" (cleanup_delta o) ;;
  nx_json_end_object.

Definition report (o : obs) (v : verdict) : op nx_json_t :=
  nx_json_begin_object ;;
  nx_result_emit_header agent_name "macos_foundation_port_type" NULL NULL
    (status v) (sclass v) ;;
  nx_env_emit ;;
  nx_result_emit_empty_message ;;
  emit_returns o ;;
  emit_deltas o ;;
  emit_observations o ;;
  nx_result_emit_cleanup (cleanup_ok o) (cleanup_notes o) ;;
  nx_json_key_string "notes" (notes v) ;;
  nx_json_end_object.

Definition main : prog (option outcome) :=
  o ← observe;
  let v := verdict_of o in
  let r := finish (report o v) v in
  _ ← nx_baseline_free (before o);
  _ ← nx_baseline_free (after o);
  mret r.

End port_type.

Section facts.
Context `{Host}.

Lemma port_type_written o :
  env_file_ok →
  emits_result true "macos_foundation_port_type" (verdict_of o) (cleanup_ok o)
    (report o (verdict_of o)).
Proof.
  intros Henv. unfold report, emit_returns, emit_deltas, emit_observations. report_tac.
Qed.

Lemma port_type_observe_ledger :
  lwp observe (λ o s, captured (before o) ∧ captured (after o) ∧
    s = mk_ledger ∅ ∅ (baseline_regions (before o) ⊎ baseline_regions (after o)))
    no_holdings.
Proof.
  unfold observe, observe_receive. lwp_exec; (split; [done|]; split; [done|]).
  all: ledger_eq.
Qed.

(** Whatever the kernel answers, [main] uses only port names and memory it
    holds, gives back everything, and writes one result document. *)
Theorem port_type_main_safe {W} `{Kernel W} w :
  env_file_ok →
  let o := (run observe w).1 in
  well_behaved observe main (λ o, finish (report o (verdict_of o)) (verdict_of o)) w ∧
  emits_result true "macos_foundation_port_type" (verdict_of o) (cleanup_ok o)
    (report o (verdict_of o)).
Proof.
  intros Henv o. split; [|by apply port_type_written].
  eapply (lwp_two_parts _ _ _ _ port_type_observe_ledger). intros o' s (H1 & H2 & Hs).
  eapply lwp_tail; eauto.
Qed.

(** On a kernel that keeps the contract, for a task that has a name for its
    own port, the probe passes unless an allocation failed; the type bits it
    reports are the exact ones and the name space is as it was. *)
Theorem port_type_conforms {W} `{MachContract W} w :
  APPLE = true → healthy w → is_Some (view w !! mach_task_self) →
  conforming observe main (λ o,
    verdict_of o =
      (if negb (kr_alloc_receive o =? KERN_SUCCESS)
       then probe_failure "mach_port_allocate receive failed"
       else if negb (kr_alloc_port_set o =? KERN_SUCCESS)
       then probe_failure "mach_port_allocate port set failed"
       else pass) ∧
    cleanup_ok o = true) w.
Proof.
  intros Ha Hw [self Hself]. unfold main. apply cwp_two_parts; [done| |intros; tail_tac].
  unfold observe, observe_receive.
  repeat cwp_step.
  all: conform_tac ltac:(unfold verdict_of, cleanup_ok, ladder_of, baseline_ok).
Qed.
End facts.

(** The theorems at the reference kernel, on a task that has just started. *)
Section witnesses.
Import OnMacos.

Lemma port_type_main_safe_witness :
  env_file_ok ∧
  well_behaved observe main (λ o, finish (report o (verdict_of o)) (verdict_of o)) boot ∧
  emits_result true "macos_foundation_port_type" (verdict_of (run observe boot).1)
    (cleanup_ok (run observe boot).1)
    (report (run observe boot).1 (verdict_of (run observe boot).1)).
Proof. split; [exact no_env_file|]. exact (port_type_main_safe boot no_env_file). Defined.

Lemma port_type_conforms_witness :
  APPLE = true ∧ healthy boot ∧
  is_Some (view boot !! mach_task_self) ∧
  verdict_of (run observe boot).1 = pass ∧ cleanup_ok (run observe boot).1 = true ∧
  view (run main boot).2 = boot_space.
Proof.
  split; [done|]. split; [exact healthy_boot|].
  split; [by eexists|].
  destruct (port_type_conforms boot on_macos healthy_boot (ex_intro _ _ eq_refl))
    as [Hv Hs].
  split; [|split; [exact (proj2 Hv)|exact Hs]].
  etransitivity; [exact (proj1 Hv)|by vm_compute].
Defined.
End witnesses.
End PortType.
