(* ===== verification/PortGetRefs.v ===== *)
(** [macos-validation/probes/foundation/port_get_refs.c]: the user references
    of a receive right and of a send right that is made, duplicated and
    released. *)

From S2P Require Import Prelude Json NxJson JsonText Builder MachApi NxMachUtils Ledger.
From S2P Require Import MachContract NxResult Probe RefKernel.

Local Open Scope oracle_scope.
Local Open Scope Z_scope.

Module PortGetRefs.

Section port_get_refs.
Context `{Host}.

(** What the calls on the port returned, in the order of the calls. *)
Record refs_obs := mk_refs {
  kr_recv_refs_initial : kern_return_t;
  recv_refs_initial : mach_port_urefs_t;
  kr_send_refs_before_make : kern_return_t;
  send_refs_before_make : mach_port_urefs_t;
  kr_insert_send : kern_return_t;
  kr_send_refs_after_make : kern_return_t;
  send_refs_after_make : mach_port_urefs_t;
  kr_mod_refs_plus_one : kern_return_t;
  kr_send_refs_after_mod_plus : kern_return_t;
  send_refs_after_mod_plus : mach_port_urefs_t;
  kr_deallocate_send : kern_return_t;
  kr_send_refs_after_deallocate : kern_return_t;
  send_refs_after_deallocate : mach_port_urefs_t;
  kr_mod_refs_minus_one : kern_return_t;
  kr_send_refs_after_mod_minus : kern_return_t;
  send_refs_after_mod_minus : mach_port_urefs_t;
  kr_recv_refs_final : kern_return_t;
  recv_refs_final : mach_port_urefs_t;
  kr_destroy_receive : kern_return_t;
}.

Definition no_refs : refs_obs :=
  mk_refs KERN_FAILURE 0 KERN_FAILURE 0 KERN_FAILURE KERN_FAILURE 0 KERN_FAILURE
    KERN_FAILURE 0 KERN_FAILURE KERN_FAILURE 0 KERN_FAILURE KERN_FAILURE 0 KERN_FAILURE 0
    KERN_FAILURE.

Record obs := mk_obs {
  before : nx_baseline_t;
  after : nx_baseline_t;
  kr_alloc_receive : kern_return_t;
  refs : refs_obs;
  compared : bool * Z;
}.

(** [if (kr_alloc_receive == KERN_SUCCESS) { ... }] *)
Definition observe_refs (port : mach_port_t) : prog refs_obs :=
  '(kr_recv_refs_initial, recv_refs_initial) ←
    call (mach_port_get_refs port MACH_PORT_RIGHT_RECEIVE);
  '(kr_send_refs_before_make, send_refs_before_make) ←
    call (mach_port_get_refs port MACH_PORT_RIGHT_SEND);
  kr_insert_send ← call (mach_port_insert_right port port MACH_MSG_TYPE_MAKE_SEND);
  '(kr_send_refs_after_make, send_refs_after_make) ←
    guarded (kr_insert_send =? KERN_SUCCESS) (KERN_FAILURE, 0)
      (call (mach_port_get_refs port MACH_PORT_RIGHT_SEND));
  kr_mod_refs_plus_one ←
    guarded (kr_send_refs_after_make =? KERN_SUCCESS) KERN_FAILURE
      (call (mach_port_mod_refs port MACH_PORT_RIGHT_SEND 1));
  '(kr_send_refs_after_mod_plus, send_refs_after_mod_plus) ←
    guarded (kr_mod_refs_plus_one =? KERN_SUCCESS) (KERN_FAILURE, 0)
      (call (mach_port_get_refs port MACH_PORT_RIGHT_SEND));
  kr_deallocate_send ←
    guarded (kr_send_refs_after_mod_plus =? KERN_SUCCESS) KERN_FAILURE
      (call (mach_port_deallocate port));
  '(kr_send_refs_after_deallocate, send_refs_after_deallocate) ←
    guarded (kr_deallocate_send =? KERN_SUCCESS) (KERN_FAILURE, 0)
      (call (mach_port_get_refs port MACH_PORT_RIGHT_SEND));
  kr_mod_refs_minus_one ←
    guarded (kr_send_refs_after_deallocate =? KERN_SUCCESS) KERN_FAILURE
      (call (mach_port_mod_refs port MACH_PORT_RIGHT_SEND (-1)));
  '(kr_send_refs_after_mod_minus, send_refs_after_mod_minus) ←
    guarded (kr_mod_refs_minus_one =? KERN_SUCCESS) (KERN_FAILURE, 0)
      (call (mach_port_get_refs port MACH_PORT_RIGHT_SEND));
  '(kr_recv_refs_final, recv_refs_final) ←
    call (mach_port_get_refs port MACH_PORT_RIGHT_RECEIVE);
  kr_destroy_receive ← call (mach_port_destroy port);
  mret (mk_refs kr_recv_refs_initial recv_refs_initial kr_send_refs_before_make
    send_refs_before_make kr_insert_send kr_send_refs_after_make send_refs_after_make
    kr_mod_refs_plus_one kr_send_refs_after_mod_plus send_refs_after_mod_plus
    kr_deallocate_send kr_send_refs_after_deallocate send_refs_after_deallocate
    kr_mod_refs_minus_one kr_send_refs_after_mod_minus send_refs_after_mod_minus
    kr_recv_refs_final recv_refs_final kr_destroy_receive).

Definition observe : prog obs :=
  before ← nx_baseline_capture;
  after ← nx_baseline_capture;
  guarded APPLE (mk_obs before after KERN_FAILURE no_refs (false, 0)) (
    '(kr_alloc_receive, port) ← call (mach_port_allocate MACH_PORT_RIGHT_RECEIVE);
    refs ← guarded (kr_alloc_receive =? KERN_SUCCESS) no_refs (observe_refs port);
    _ ← nx_baseline_free after;
    after ← nx_baseline_capture;
    mret (mk_obs before after kr_alloc_receive refs (nx_baseline_compare before after))).

Definition baseline_ok (o : obs) : bool := (compared o).1.
Definition cleanup_delta (o : obs) : Z := (compared o).2.

(** [kr == KERN_SUCCESS && refs == n] *)
Definition exactly (n kr refs : Z) : bool := (kr =? KERN_SUCCESS) && (refs =? n).

Definition receive_refs_initial_exact (r : refs_obs) : bool :=
  exactly 1 (kr_recv_refs_initial r) (recv_refs_initial r).
Definition send_refs_before_make_zero (r : refs_obs) : bool :=
  exactly 0 (kr_send_refs_before_make r) (send_refs_before_make r).
Definition send_refs_after_make_exact (r : refs_obs) : bool :=
  exactly 1 (kr_send_refs_after_make r) (send_refs_after_make r).
Definition send_refs_after_mod_plus_exact (r : refs_obs) : bool :=
  exactly 2 (kr_send_refs_after_mod_plus r) (send_refs_after_mod_plus r).
Definition send_refs_after_deallocate_exact (r : refs_obs) : bool :=
  exactly 1 (kr_send_refs_after_deallocate r) (send_refs_after_deallocate r).
Definition send_refs_after_mod_minus_zero (r : refs_obs) : bool :=
  exactly 0 (kr_send_refs_after_mod_minus r) (send_refs_after_mod_minus r).
Definition receive_refs_final_exact (r : refs_obs) : bool :=
  exactly 1 (kr_recv_refs_final r) (recv_refs_final r).

Definition ladder_of (o : obs) : list (bool * verdict) :=
  let r := refs o in
  [(nx_baseline_blocks_probe (before o), probe_failure "initial mach_port_names failed");
   (negb (kr_alloc_receive o =? KERN_SUCCESS),
     probe_failure "mach_port_allocate receive failed");
   (negb (receive_refs_initial_exact r),
     fail_contract "initial receive refs were not exactly one");
   (negb (send_refs_before_make_zero r),
     fail_contract "send refs before MACH_MSG_TYPE_MAKE_SEND were not zero");
   (negb (kr_insert_send r =? KERN_SUCCESS),
     probe_failure "mach_port_insert_right MAKE_SEND failed");
   (negb (send_refs_after_make_exact r),
     fail_contract "send refs after MAKE_SEND were not exactly one");
   (negb (kr_mod_refs_plus_one r =? KERN_SUCCESS),
     probe_failure "mach_port_mod_refs SEND +1 failed");
   (negb (send_refs_after_mod_plus_exact r),
     fail_contract "send refs after mod_refs +1 were not exactly two");
   (negb (kr_deallocate_send r =? KERN_SUCCESS),
     probe_failure "mach_port_deallocate send failed");
   (negb (send_refs_after_deallocate_exact r),
     fail_contract "send refs after deallocate were not exactly one");
   (negb (kr_mod_refs_minus_one r =? KERN_SUCCESS),
     probe_failure "mach_port_mod_refs SEND -1 failed");
   (negb (send_refs_after_mod_minus_zero r),
     fail_contract "send refs after final SEND -1 were not zero");
   (negb (receive_refs_final_exact r),
     fail_contract "final receive refs were not exactly one");
   (negb (kr_destroy_receive r =? KERN_SUCCESS),
     fail_probe "mach_port_destroy receive failed");
   (nx_baseline_blocks_probe (after o), probe_failure "final mach_port_names failed");
   (negb (baseline_ok o), fail_contract "port namespace did not return to baseline")].

Definition verdict_of (o : obs) : verdict :=
  if APPLE then ladder (ladder_of o)
  else skip "non-macOS host: Mach APIs unavailable".

Definition cleanup_ok (o : obs) : bool := if APPLE then baseline_ok o else true.
Definition cleanup_notes (o : obs) : string :=
  if APPLE then (if baseline_ok o then "" else "namespace delta detected")
  else "not applicable on non-macOS host".

Definition emit_returns (o : obs) : op nx_json_t :=
  let r := refs o in
  nx_json_key "returns" ;;
  nx_json_begin_array ;;
  nx_result_emit_return "mach_port_names_before"
    (nx_kern_return_str (kr (before o))) (kr (before o)) false 0 ;;
  nx_result_emit_return "mach_port_allocate_receive"
    (nx_kern_return_str (kr_alloc_receive o)) (kr_alloc_receive o) false 0 ;;
  nx_result_emit_return "mach_port_get_refs_receive_initial"
    (nx_kern_return_str (kr_recv_refs_initial r)) (kr_recv_refs_initial r) false 0 ;;
  nx_result_emit_return "mach_port_get_refs_send_before_make"
    (nx_kern_return_str (kr_send_refs_before_make r)) (kr_send_refs_before_make r)
    false 0 ;;
  nx_result_emit_return "mach_port_insert_right_make_send"
    (nx_kern_return_str (kr_insert_send r)) (kr_insert_send r) false 0 ;;
  nx_result_emit_return "mach_port_get_refs_send_after_make"
    (nx_kern_return_str (kr_send_refs_after_make r)) (kr_send_refs_after_make r)
    false 0 ;;
  nx_result_emit_return "mach_port_mod_refs_send_plus_one"
    (nx_kern_return_str (kr_mod_refs_plus_one r)) (kr_mod_refs_plus_one r) false 0 ;;
  nx_result_emit_return "mach_port_get_refs_send_after_mod_plus"
    (nx_kern_return_str (kr_send_refs_after_mod_plus r)) (kr_send_refs_after_mod_plus r)
    false 0 ;;
  nx_result_emit_return "mach_port_deallocate_send"
    (nx_kern_return_str (kr_deallocate_send r)) (kr_deallocate_send r) false 0 ;;
  nx_result_emit_return "mach_port_get_refs_send_after_deallocate"
    (nx_kern_return_str (kr_send_refs_after_deallocate r))
    (kr_send_refs_after_deallocate r) false 0 ;;
  nx_result_emit_return "mach_port_mod_refs_send_minus_one"
    (nx_kern_return_str (kr_mod_refs_minus_one r)) (kr_mod_refs_minus_one r) false 0 ;;
  nx_result_emit_return "mach_port_get_refs_send_after_mod_minus"
    (nx_kern_return_str (kr_send_refs_after_mod_minus r))
    (kr_send_refs_after_mod_minus r) false 0 ;;
  nx_result_emit_return "mach_port_get_refs_receive_final"
    (nx_kern_return_str (kr_recv_refs_final r)) (kr_recv_refs_final r) false 0 ;;
  nx_result_emit_return "mach_port_destroy_receive"
    (nx_kern_return_str (kr_destroy_receive r)) (kr_destroy_receive r) false 0 ;;
  nx_result_emit_return "mach_port_names_after"
    (nx_kern_return_str (kr (after o))) (kr (after o)) false 0 ;;
  nx_json_end_array.

(** The counts are conditional expressions of type [mach_port_urefs_t], which
    is unsigned: the -1 of a failed call arrives as 4294967295. *)
Definition recv_initial (r : refs_obs) : Z :=
  refs_or_minus1 (kr_recv_refs_initial r) (recv_refs_initial r).
Definition before_make (r : refs_obs) : Z :=
  refs_or_minus1 (kr_send_refs_before_make r) (send_refs_before_make r).
Definition after_make (r : refs_obs) : Z :=
  refs_or_minus1 (kr_send_refs_after_make r) (send_refs_after_make r).
Definition after_mod_plus (r : refs_obs) : Z :=
  refs_or_minus1 (kr_send_refs_after_mod_plus r) (send_refs_after_mod_plus r).
Definition after_deallocate (r : refs_obs) : Z :=
  refs_or_minus1 (kr_send_refs_after_deallocate r) (send_refs_after_deallocate r).
Definition after_mod_minus (r : refs_obs) : Z :=
  refs_or_minus1 (kr_send_refs_after_mod_minus r) (send_refs_after_mod_minus r).
Definition recv_final (r : refs_obs) : Z :=
  refs_or_minus1 (kr_recv_refs_final r) (recv_refs_final r).

Definition emit_deltas (o : obs) : op nx_json_t :=
  let r := refs o in
  nx_json_key "right_deltas" ;;
  nx_json_begin_array ;;
  nx_result_emit_right_delta "allocate receive right" "port_get_refs_probe_port"
    "MACH_PORT_RIGHT_RECEIVE" (-1) (recv_initial r) (-1) (-1) "receive urefs exactly 1" ;;
  nx_result_emit_right_delta "make send right" "port_get_refs_probe_port"
    "MACH_PORT_RIGHT_SEND" (-1) (after_make r) (-1) (-1) "send urefs exactly 1" ;;
  nx_result_emit_right_delta "mach_port_mod_refs SEND +1" "port_get_refs_probe_port"
    "MACH_PORT_RIGHT_SEND" (after_make r) (after_mod_plus r) (-1) (-1)
    "incremented by 1" ;;
  nx_result_emit_right_delta "mach_port_deallocate SEND" "port_get_refs_probe_port"
    "MACH_PORT_RIGHT_SEND" (after_mod_plus r) (after_deallocate r) (-1) (-1)
    "decremented by 1" ;;
  nx_result_emit_right_delta "mach_port_mod_refs SEND -1" "port_get_refs_probe_port"
    "MACH_PORT_RIGHT_SEND" (after_deallocate r) (after_mod_minus r) (-1) (-1)
    "send urefs decremented to zero" ;;
  nx_json_end_array.

Definition emit_observations (o : obs) : op nx_json_t :=
  let r := refs o in
  nx_json_key "observations" ;;
  nx_json_begin_object ;;
  nx_json_key_int "receive_refs_initial" (recv_initial r) ;;
  nx_json_key_int "send_refs_before_make" (before_make r) ;;
  nx_json_key_bool "send_refs_before_make_zero" (send_refs_before_make_zero r) ;;
  nx_json_key_string "send_refs_before_make_return"
    (nx_kern_return_str (kr_send_refs_before_make r)) ;;
  nx_json_key_int "send_refs_after_make" (after_make r) ;;
  nx_json_key_int "send_refs_after_mod_plus" (after_mod_plus r) ;;
  nx_json_key_int "send_refs_after_deallocate" (after_deallocate r) ;;
  nx_json_key_int "send_refs_after_mod_minus" (after_mod_minus r) ;;
  nx_json_key_bool "send_refs_after_mod_minus_zero" (send_refs_after_mod_minus_zero r) ;;
  nx_json_key_string "send_refs_after_mod_minus_return"
    (nx_kern_return_str (kr_send_refs_after_mod_minus r)) ;;
  nx_json_key_int "receive_refs_final" (recv_final r) ;;
  nx_json_key_int "names_before" (count_or_minus1 (before o)) ;;
  nx_json_key_int "names_after" (count_or_minus1 (after o)) ;;
  nx_json_key_int "cleanup_delta" (cleanup_delta o) ;;
  nx_json_end_object.

Definition report (o : obs) (v : verdict) : op nx_json_t :=
  nx_json_begin_object ;;
  nx_result_emit_header agent_name "macos_foundation_port_get_refs" NULL NULL
    (status v) (sclass v) ;;
  nx_env_emit ;;
  nx_result_emit_empty_message ;;
  emit_returns o ;;
  emit_deltas o ;;
  emit_observations o ;;
  nx_result_emit_cleanup (cleanup_ok o) (cleanup_notes o) ;;
  nx_json_key_string "notes" (notes v) ;;
  nx_json_end_object.

Definition main : prog (option outcome) :=
  o ← observe;
  let v := verdict_of o in
  let r := finish (report o v) v in
  _ ← nx_baseline_free (before o);
  _ ← nx_baseline_free (after o);
  mret r.

End port_get_refs.

Section facts.
Context `{Host}.

Lemma port_get_refs_written o :
  env_file_ok →
  emits_result true "macos_foundation_port_get_refs" (verdict_of o) (cleanup_ok o)
    (report o (verdict_of o)).
Proof.
  intros Henv. unfold report, emit_returns, emit_deltas, emit_observations. report_tac.
Qed.

Lemma port_get_refs_observe_ledger :
  lwp observe (λ o s, captured (before o) ∧ captured (after o) ∧
    s = mk_ledger ∅ ∅ (baseline_regions (before o) ⊎ baseline_regions (after o)))
    no_holdings.
Proof.
  unfold observe, observe_refs. lwp_exec; (split; [done|]; split; [done|]).
  all: ledger_eq.
Qed.

(** Whatever the kernel answers, [main] uses only rights and memory it
    holds, gives back everything, and writes one result document. *)
Theorem port_get_refs_main_safe {W} `{Kernel W} w :
  env_file_ok →
  let o := (run observe w).1 in
  well_behaved observe main (λ o, finish (report o (verdict_of o)) (verdict_of o)) w ∧
  emits_result true "macos_foundation_port_get_refs" (verdict_of o) (cleanup_ok o)
    (report o (verdict_of o)).
Proof.
  intros Henv o. split; [|by apply port_get_refs_written].
  eapply (lwp_two_parts _ _ _ _ port_get_refs_observe_ledger). intros o' s (H1 & H2 & Hs).
  eapply lwp_tail; eauto.
Qed.

(** On a kernel that keeps the contract the reference counts are 1, 0, 1, 2,
    1, 0 and 1, so the probe passes unless no port could be allocated; the name
    space is as it was. *)
Theorem port_get_refs_conforms {W} `{MachContract W} w :
  APPLE = true → healthy w →
  conforming observe main (λ o,
    verdict_of o = (if kr_alloc_receive o =? KERN_SUCCESS then pass
                    else probe_failure "mach_port_allocate receive failed") ∧
    cleanup_ok o = true) w.
Proof.
  intros Ha Hw. unfold main. apply cwp_two_parts; [done| |intros; tail_tac].
  unfold observe, observe_refs.
  repeat cwp_step.
  all: conform_tac ltac:(unfold verdict_of, cleanup_ok, ladder_of, baseline_ok).
Qed.

(** When no send right could be made, the document does not say so with
    [null] or -1: the observation and the right delta claim 4294967295 user
    references. *)
Theorem port_get_refs_failed_count o :
  env_file_ok → kr_send_refs_after_make (refs o) ≠ KERN_SUCCESS →
  ∃ out doc, finish (report o (verdict_of o)) (verdict_of o) = Some out ∧
    parse_doc (stdout out) = Some doc ∧
    field "observations" doc ≫= field "send_refs_after_make" = Some (JInt 4294967295) ∧
    (∃ d1 d2 l, field "right_deltas" doc = Some (JArr (d1 :: d2 :: l)) ∧
       field "operation" d2 = Some (JStr "make send right") ∧
       field "after_urefs" d2 = Some (JInt 4294967295)).
Proof.
  intros Henv Hk%Z.eqb_neq.
  assert (after_make (refs o) = 4294967295) as Ha.
  { unfold after_make, refs_or_minus1. by rewrite Hk. }
  edestruct (report_document (report o (verdict_of o))) as (out & Hout & Hp);
    [unfold report, emit_returns, emit_deltas, emit_observations; apply _
    |cbv delta [header_doc]; b_eval; reflexivity|raw_ok_tac|].
  exists out. eexists. split; [exact Hout|]. split; [exact Hp|].
  split; [rewrite <- Ha; reflexivity|].
  do 3 eexists. split; [reflexivity|]. split; [reflexivity|].
  unfold right_delta_doc. rewrite Ha. reflexivity.
Qed.
End facts.

(** The theorems at the reference kernel, on a task that has just started. *)
Section witnesses.
Import OnMacos.

Lemma port_get_refs_failed_count_witness :
  let b := mk_baseline (mk_array 0 []) (mk_array 0 []) true KERN_SUCCESS in
  let o := mk_obs b b KERN_SUCCESS no_refs (true, 0) in
  env_file_ok ∧ kr_send_refs_after_make (refs o) ≠ KERN_SUCCESS ∧
  ∃ out doc, finish (report o (verdict_of o)) (verdict_of o) = Some out ∧
    parse_doc (stdout out) = Some doc ∧
    field "observations" doc ≫= field "send_refs_after_make" = Some (JInt 4294967295).
Proof.
  intros b o. split; [exact no_env_file|]. split; [done|].
  destruct (port_get_refs_failed_count o no_env_file ltac:(done))
    as (out & doc & H1 & H2 & H3 & _).
  exists out, doc. exact (conj H1 (conj H2 H3)).
Defined.

Lemma port_get_refs_main_safe_witness :
  env_file_ok ∧
  well_behaved observe main (λ o, finish (report o (verdict_of o)) (verdict_of o)) boot ∧
  emits_result true "macos_foundation_port_get_refs" (verdict_of (run observe boot).1)
    (cleanup_ok (run observe boot).1)
    (report (run observe boot).1 (verdict_of (run observe boot).1)).
Proof. split; [exact no_env_file|]. exact (port_get_refs_main_safe boot no_env_file). Defined.

Lemma port_get_refs_conforms_witness :
  APPLE = true ∧ healthy boot ∧
  verdict_of (run observe boot).1 = pass ∧ cleanup_ok (run observe boot).1 = true ∧
  view (run main boot).2 = boot_space.
Proof.
  split; [done|]. split; [exact healthy_boot|].
  destruct (port_get_refs_conforms boot on_macos healthy_boot)
    as [Hv Hs].
  split; [|split; [exact (proj2 Hv)|exact Hs]].
  etransitivity; [exact (proj1 Hv)|by vm_compute].
Defined.
End witnesses.
End PortGetRefs.
