(* ===== verification/PortSet.v ===== *)
(** [macos-validation/probes/foundation/port_set.c]: a message sent to a member
    of a port set is received through the set. *)

From S2P Require Import Prelude Json NxJson JsonText Builder MachApi NxMachUtils Ledger.
From S2P Require Import MachContract NxResult Probe RefKernel.

Local Open Scope oracle_scope.
Local Open Scope Z_scope.

Module PortSet.

Definition PORT_SET_MSG_ID : Z := 0x50535354.

(** The two static buffers are never in use at once. *)
Definition hex32 (value : Z) : string := snprintf 32 ("0x" +:+ fmt_x value).

Section port_set.
Context `{Host} `{MachSdk}.

(** [sizeof(ps_send_msg_t)] and [sizeof(ps_recv_msg_t)] *)
Definition sizeof_ps_send_msg : Z := sizeof_mach_msg_header.
Definition sizeof_ps_recv_msg : Z := sizeof_mach_msg_header + sizeof_mach_msg_max_trailer.

Record obs := mk_obs {
  before : nx_baseline_t;
  after : nx_baseline_t;
  set_type : mach_port_type_t;
  kr_alloc_set : kern_return_t;
  kr_alloc_mem : kern_return_t;
  kr_type_set : kern_return_t;
  kr_insert_send : kern_return_t;
  kr_move : kern_return_t;
  kr_unmove : kern_return_t;
  kr_destroy_mem : kern_return_t;
  kr_destroy_set : kern_return_t;
  mr_send : mach_msg_return_t;
  mr_recv : mach_msg_return_t;
  sent_msgh_bits : Z;
  routed_to_member : bool;
  id_matches : bool;
}.

Definition send_msg (member : mach_port_t) : mach_msg_buf :=
  mk_msg (MACH_MSGH_BITS MACH_MSG_TYPE_COPY_SEND 0) sizeof_ps_send_msg member
    MACH_PORT_NULL PORT_SET_MSG_ID 0 zero_desc zero_desc.

(** [if (kr_move == KERN_SUCCESS) { ... }] *)
Definition observe_send (member : mach_port_t) : prog (Z * Z) :=
  '(mr_send, _) ← call (mach_msg (send_msg member) (Z.lor MACH_SEND_MSG MACH_SEND_TIMEOUT)
                          (msgh_size (send_msg member)) 0 MACH_PORT_NULL 5000 MACH_PORT_NULL);
  mret (mr_send, msgh_bits (send_msg member)).

(** [if (mr_send == MACH_MSG_SUCCESS) { ... }] *)
Definition observe_recv (pset member : mach_port_t) : prog (Z * bool * bool) :=
  '(mr_recv, recv_msg) ← call (mach_msg zero_msg (Z.lor MACH_RCV_MSG MACH_RCV_TIMEOUT)
                                 0 sizeof_ps_recv_msg pset 5000 MACH_PORT_NULL);
  mret (mr_recv,
        (mr_recv =? MACH_MSG_SUCCESS) && (msgh_local_port recv_msg =? member),
        (mr_recv =? MACH_MSG_SUCCESS) && (msgh_id recv_msg =? PORT_SET_MSG_ID)).

Definition observe : prog obs :=
  before ← nx_baseline_capture;
  f ← guarded APPLE
    (λ after, mk_obs before after 0 KERN_FAILURE KERN_FAILURE KERN_FAILURE KERN_FAILURE
       KERN_FAILURE KERN_FAILURE KERN_FAILURE KERN_FAILURE MACH_SEND_INVALID_DEST
       MACH_RCV_INVALID_NAME 0 false false) (
    '(kr_alloc_set, pset) ← call (mach_port_allocate MACH_PORT_RIGHT_PORT_SET);
    '(kr_alloc_mem, member) ← call (mach_port_allocate MACH_PORT_RIGHT_RECEIVE);
    '(kr_type_set, set_type) ← guarded (kr_alloc_set =? KERN_SUCCESS) (KERN_FAILURE, 0)
      (call (mach_port_type pset));
    kr_insert_send ←
      guarded ((kr_alloc_set =? KERN_SUCCESS) && (kr_alloc_mem =? KERN_SUCCESS)) KERN_FAILURE
        (call (mach_port_insert_right member member MACH_MSG_TYPE_MAKE_SEND));
    kr_move ← guarded (kr_insert_send =? KERN_SUCCESS) KERN_FAILURE
      (call (mach_port_move_member member pset));
    '(mr_send, sent_msgh_bits) ←
      guarded (kr_move =? KERN_SUCCESS) (MACH_SEND_INVALID_DEST, 0) (observe_send member);
    '(mr_recv, routed_to_member, id_matches) ←
      guarded (mr_send =? MACH_MSG_SUCCESS) (MACH_RCV_INVALID_NAME, false, false)
        (observe_recv pset member);
    kr_unmove ← guarded (kr_move =? KERN_SUCCESS) KERN_FAILURE
      (call (mach_port_move_member member MACH_PORT_NULL));
    kr_destroy_mem ← guarded (kr_alloc_mem =? KERN_SUCCESS) KERN_FAILURE
      (call (mach_port_destroy member));
    kr_destroy_set ← guarded (kr_alloc_set =? KERN_SUCCESS) KERN_FAILURE
      (call (mach_port_destroy pset));
    mret (λ after, mk_obs before after set_type kr_alloc_set kr_alloc_mem kr_type_set
            kr_insert_send kr_move kr_unmove kr_destroy_mem kr_destroy_set mr_send mr_recv
            sent_msgh_bits routed_to_member id_matches));
  after ← nx_baseline_capture;
  mret (f after).

Definition baseline_ok (o : obs) : bool := (nx_baseline_compare (before o) (after o)).1.

Definition ladder_of (o : obs) : list (bool * verdict) :=
  [(negb (kr_alloc_set o =? KERN_SUCCESS),
     probe_failure "mach_port_allocate(PORT_SET) failed");
   (negb (kr_alloc_mem o =? KERN_SUCCESS),
     probe_failure "mach_port_allocate(RECEIVE) member failed");
   (negb (kr_type_set o =? KERN_SUCCESS),
     probe_failure "mach_port_type on the port set failed");
   (negb (kr_insert_send o =? KERN_SUCCESS),
     probe_failure "mach_port_insert_right(MAKE_SEND) on member failed");
   (negb (kr_move o =? KERN_SUCCESS),
     probe_failure "mach_port_move_member into the set failed");
   (negb (mr_send o =? MACH_MSG_SUCCESS), probe_failure "mach_msg SEND to member failed");
   (negb (mr_recv o =? MACH_MSG_SUCCESS),
     fail_contract "mach_msg RECEIVE via port set did not return MACH_MSG_SUCCESS");
   (negb (routed_to_member o),
     fail_contract "received message was not routed through the set to the member");
   (negb (id_matches o),
     fail_contract "received message id did not match the sent message id");
   (negb (kr_unmove o =? KERN_SUCCESS),
     probe_failure "mach_port_move_member out of the set failed");
   (negb (kr_destroy_mem o =? KERN_SUCCESS) || negb (kr_destroy_set o =? KERN_SUCCESS),
     fail_probe "port-set member or set destroy failed");
   (negb (baseline_ok o), fail_contract "port namespace did not return to baseline")].

Definition verdict_of (o : obs) : verdict :=
  if APPLE then ladder (ladder_of o)
  else skip "non-macOS host: Mach APIs unavailable, pipeline smoke only".

Definition cleanup_ok (o : obs) : bool := if APPLE then baseline_ok o else true.
Definition cleanup_notes (o : obs) : string :=
  if APPLE then (if baseline_ok o then "" else "namespace delta detected")
  else "not applicable on non-macOS host".

Definition emit_message (o : obs) : op nx_json_t :=
  nx_json_key "message" ;;
  nx_json_begin_object ;;
  nx_json_key_string "msgh_bits" (hex32 (sent_msgh_bits o)) ;;
  nx_json_key "remote_port" ;;
  nx_json_begin_object ;;
  nx_json_key_string "name" "member" ;;
  nx_json_key_string "disposition" "MACH_MSG_TYPE_COPY_SEND" ;;
  nx_json_key_string "right_type" "MACH_PORT_TYPE_SEND" ;;
  nx_json_end_object ;;
  nx_json_key "local_port" ;;
  nx_json_begin_object ;;
  nx_json_key_string "name" "port_set" ;;
  nx_json_key_null "disposition" ;;
  nx_json_key_null "right_type" ;;
  nx_json_end_object ;;
  nx_json_key "header_rights" ;;
  nx_json_begin_array ;;
  nx_json_begin_object ;;
  nx_json_key_string "field" "msgh_remote_port" ;;
  nx_json_key_string "disposition" "MACH_MSG_TYPE_COPY_SEND" ;;
  nx_json_key_string "right_type_before" "MACH_PORT_TYPE_SEND" ;;
  nx_json_key_string "right_type_after" "MACH_PORT_TYPE_SEND" ;;
  nx_json_end_object ;;
  nx_json_end_array ;;
  nx_json_key_int "descriptor_count" 0 ;;
  nx_json_key "descriptors" ;;
  nx_json_begin_array ;;
  nx_json_end_array ;;
  nx_json_end_object.

Definition emit_returns (o : obs) : op nx_json_t :=
  nx_json_key "returns" ;;
  nx_json_begin_array ;;
  nx_result_emit_return "mach_port_names_before"
    (nx_kern_return_str (kr (before o))) (kr (before o)) false 0 ;;
  nx_result_emit_return "mach_port_allocate_port_set"
    (nx_kern_return_str (kr_alloc_set o)) (kr_alloc_set o) false 0 ;;
  nx_result_emit_return "mach_port_allocate_member"
    (nx_kern_return_str (kr_alloc_mem o)) (kr_alloc_mem o) false 0 ;;
  nx_result_emit_return "mach_port_type_port_set"
    (nx_kern_return_str (kr_type_set o)) (kr_type_set o) false 0 ;;
  nx_result_emit_return "mach_port_insert_right_make_send"
    (nx_kern_return_str (kr_insert_send o)) (kr_insert_send o) false 0 ;;
  nx_result_emit_return "mach_port_move_member_into_set"
    (nx_kern_return_str (kr_move o)) (kr_move o) false 0 ;;
  nx_result_emit_return "mach_msg_send_to_member"
    (nx_msg_return_str (mr_send o)) (mr_send o) false 0 ;;
  nx_result_emit_return "mach_msg_receive_via_port_set"
    (nx_msg_return_str (mr_recv o)) (mr_recv o) false 0 ;;
  nx_result_emit_return "mach_port_move_member_out_of_set"
    (nx_kern_return_str (kr_unmove o)) (kr_unmove o) false 0 ;;
  nx_result_emit_return "mach_port_destroy_member"
    (nx_kern_return_str (kr_destroy_mem o)) (kr_destroy_mem o) false 0 ;;
  nx_result_emit_return "mach_port_destroy_port_set"
    (nx_kern_return_str (kr_destroy_set o)) (kr_destroy_set o) false 0 ;;
  nx_result_emit_return "mach_port_names_after"
    (nx_kern_return_str (kr (after o))) (kr (after o)) false 0 ;;
  nx_json_end_array.

Definition emit_observations (o : obs) : op nx_json_t :=
  nx_json_key "observations" ;;
  nx_json_begin_object ;;
  nx_json_key_bool "port_set_allocated" (kr_alloc_set o =? KERN_SUCCESS) ;;
  nx_json_key_string "port_set_type"
    (if kr_type_set o =? KERN_SUCCESS then nx_port_type_str (set_type o) else "unknown") ;;
  nx_json_key_bool "insert_send_succeeded" (kr_insert_send o =? KERN_SUCCESS) ;;
  nx_json_key_bool "move_member_succeeded" (kr_move o =? KERN_SUCCESS) ;;
  nx_json_key_bool "send_succeeded" (mr_send o =? MACH_MSG_SUCCESS) ;;
  nx_json_key_bool "receive_via_set_succeeded" (mr_recv o =? MACH_MSG_SUCCESS) ;;
  nx_json_key_bool "message_routed_to_member" (routed_to_member o) ;;
  nx_json_key_bool "received_msgh_id_matches" (id_matches o) ;;
  nx_json_key_bool "destroy_succeeded"
    ((kr_destroy_mem o =? KERN_SUCCESS) && (kr_destroy_set o =? KERN_SUCCESS)) ;;
  nx_json_end_object.

Definition report (o : obs) (v : verdict) : op nx_json_t :=
  nx_json_begin_object ;;
  nx_result_emit_header agent_name "macos_foundation_port_set" NULL NULL
    (status v) (sclass v) ;;
  nx_env_emit ;;
  emit_message o ;;
  emit_returns o ;;
  nx_json_key "right_deltas" ;;
  nx_json_begin_array ;;
  nx_json_end_array ;;
  emit_observations o ;;
  nx_result_emit_cleanup (cleanup_ok o) (cleanup_notes o) ;;
  nx_json_key_string "notes" (notes v) ;;
  nx_json_end_object.

Definition main : prog (option outcome) :=
  o ← observe;
  let v := verdict_of o in
  let r := finish (report o v) v in
  _ ← nx_baseline_free (before o);
  _ ← nx_baseline_free (after o);
  mret r.

End port_set.

Section facts.
Context `{Host} `{MachSdk}.

Lemma port_set_written o :
  env_file_ok →
  emits_result true "macos_foundation_port_set" (verdict_of o) (cleanup_ok o)
    (report o (verdict_of o)).
Proof.
  intros Henv. unfold report, emit_message, emit_returns, emit_observations. report_tac.
Qed.

Lemma port_set_observe_ledger :
  lwp observe (λ o s, captured (before o) ∧ captured (after o) ∧
    s = mk_ledger ∅ ∅ (baseline_regions (before o) ⊎ baseline_regions (after o)))
    no_holdings.
Proof.
  unfold observe, observe_send, observe_recv. lwp_exec; (split; [done|]; split; [done|]).
  all: ledger_eq.
Qed.

(** Whatever the kernel answers, [main] uses only rights and memory it
    holds, gives back everything, and writes one result document. *)
Theorem port_set_main_safe {W} `{Kernel W} w :
  env_file_ok →
  let o := (run observe w).1 in
  well_behaved observe main (λ o, finish (report o (verdict_of o)) (verdict_of o)) w ∧
  emits_result true "macos_foundation_port_set" (verdict_of o) (cleanup_ok o)
    (report o (verdict_of o)).
Proof.
  intros Henv o. split; [|by apply port_set_written].
  eapply (lwp_two_parts _ _ _ _ port_set_observe_ledger). intros o' s (Hb1 & Hb2 & Hs).
  eapply lwp_tail; eauto.
Qed.

(** On a kernel that keeps the contract the message sent to the member comes
    out of the set with the member's name and the id it was sent with, so the
    probe passes unless an allocation failed; the name space is as it was. *)
Theorem port_set_conforms {W} `{Kernel W} `{!MachContract W} w :
  APPLE = true → healthy w →
  conforming observe main (λ o,
    verdict_of o =
      (if negb (kr_alloc_set o =? KERN_SUCCESS)
       then probe_failure "mach_port_allocate(PORT_SET) failed"
       else if negb (kr_alloc_mem o =? KERN_SUCCESS)
       then probe_failure "mach_port_allocate(RECEIVE) member failed"
       else pass) ∧
    cleanup_ok o = true) w.
Proof.
  intros Ha Hw. unfold main. apply cwp_two_parts; [done| |intros; tail_tac].
  unfold observe, observe_send, observe_recv.
  repeat cwp_step.
  4: {
    eapply cwp_receive_from_set with (ep := fresh_entry MACH_PORT_RIGHT_PORT_SET);
      [space_side..|apply only_member; [done|by apply not_eq_sym]
      |cbn; unfold sizeof_ps_send_msg, sizeof_ps_recv_msg; lia|].
    intros got Hl Hid. cbn beta iota.
    repeat cwp_step.
    conform_tac ltac:(unfold verdict_of, cleanup_ok, ladder_of, baseline_ok).
    by rewrite Hl, Hid, !Z.eqb_refl.
  }
  all: conform_tac ltac:(unfold verdict_of, cleanup_ok, ladder_of, baseline_ok).
Qed.
End facts.

(** The theorems at the reference kernel, on a task that has just started. *)
Section witnesses.
Import OnMacos.

Lemma port_set_main_safe_witness :
  env_file_ok ∧
  well_behaved observe main (λ o, finish (report o (verdict_of o)) (verdict_of o)) boot ∧
  emits_result true "macos_foundation_port_set" (verdict_of (run observe boot).1)
    (cleanup_ok (run observe boot).1)
    (report (run observe boot).1 (verdict_of (run observe boot).1)).
Proof. split; [exact no_env_file|]. exact (port_set_main_safe boot no_env_file). Defined.

Lemma port_set_conforms_witness :
  APPLE = true ∧ healthy boot ∧
  verdict_of (run observe boot).1 = pass ∧ cleanup_ok (run observe boot).1 = true ∧
  view (run main boot).2 = boot_space.
Proof.
  split; [done|]. split; [exact healthy_boot|].
  destruct (port_set_conforms boot on_macos healthy_boot)
    as [Hv Hs].
  split; [|split; [exact (proj2 Hv)|exact Hs]].
  etransitivity; [exact (proj1 Hv)|by vm_compute].
Defined.
End witnesses.
End PortSet.
