(* ===== verification/MsgRcvTimeout.v ===== *)
(** [macos-validation/probes/foundation/msg_rcv_timeout.c]: receiving from an
    empty receive right times out, with and without a wait. *)

From S2P Require Import Prelude Json NxJson JsonText Builder MachApi NxMachUtils Ledger.
From S2P Require Import MachContract NxResult Probe RefKernel.

Local Open Scope oracle_scope.
Local Open Scope Z_scope.

Module MsgRcvTimeout.

Section msg_rcv_timeout.
Context `{Host} `{MachSdk}.

(** [sizeof(rt_recv_msg_t)] *)
Definition sizeof_rt_recv_msg : Z := sizeof_mach_msg_header + sizeof_mach_msg_max_trailer.

Record obs := mk_obs {
  before : nx_baseline_t;
  after : nx_baseline_t;
  kr_alloc : kern_return_t;
  kr_dest : kern_return_t;
  mr_timed : mach_msg_return_t;
  mr_poll : mach_msg_return_t;
}.

(** One receive on an empty right, waiting [timeout] milliseconds. *)
Definition receive (port : mach_port_t) (timeout : Z) : prog (Z * mach_msg_buf) :=
  call (mach_msg zero_msg (Z.lor MACH_RCV_MSG MACH_RCV_TIMEOUT) 0 sizeof_rt_recv_msg port
          timeout MACH_PORT_NULL).

Definition observe : prog obs :=
  before ← nx_baseline_capture;
  '(kr_alloc, mr_timed, mr_poll, kr_dest) ←
    guarded APPLE (KERN_FAILURE, MACH_RCV_TIMED_OUT, MACH_RCV_TIMED_OUT, KERN_FAILURE) (
      '(kr_alloc, port) ← call (mach_port_allocate MACH_PORT_RIGHT_RECEIVE);
      '(mr_timed, mr_poll, kr_dest) ←
        guarded (kr_alloc =? KERN_SUCCESS)
          (MACH_RCV_TIMED_OUT, MACH_RCV_TIMED_OUT, KERN_FAILURE) (
          '(mr_timed, _) ← receive port 200;
          '(mr_poll, _) ← receive port 0;
          kr_dest ← call (mach_port_destroy port);
          mret (mr_timed, mr_poll, kr_dest));
      mret (kr_alloc, mr_timed, mr_poll, kr_dest));
  after ← nx_baseline_capture;
  mret (mk_obs before after kr_alloc kr_dest mr_timed mr_poll).

Definition baseline_ok (o : obs) : bool := (nx_baseline_compare (before o) (after o)).1.
Definition timed_is_timeout (o : obs) : bool := mr_timed o =? MACH_RCV_TIMED_OUT.
Definition poll_is_timeout (o : obs) : bool := mr_poll o =? MACH_RCV_TIMED_OUT.

Definition ladder_of (o : obs) : list (bool * verdict) :=
  [(negb (kr_alloc o =? KERN_SUCCESS), probe_failure "mach_port_allocate(RECEIVE) failed");
   (negb (timed_is_timeout o),
     fail_contract "bounded (200ms) receive on empty right did not return MACH_RCV_TIMED_OUT");
   (negb (poll_is_timeout o),
     fail_contract "poll (timeout 0) receive on empty right did not return MACH_RCV_TIMED_OUT");
   (negb (kr_dest o =? KERN_SUCCESS), fail_probe "mach_port_destroy failed");
   (negb (baseline_ok o), fail_contract "port namespace did not return to baseline")].

Definition verdict_of (o : obs) : verdict :=
  if APPLE then ladder (ladder_of o)
  else skip "non-macOS host: Mach APIs unavailable, pipeline smoke only".

Definition cleanup_ok (o : obs) : bool := if APPLE then baseline_ok o else true.
Definition cleanup_notes (o : obs) : string :=
  if APPLE then (if baseline_ok o then "" else "namespace delta detected")
  else "not applicable on non-macOS host".

Definition emit_returns (o : obs) : op nx_json_t :=
  nx_json_key "returns" ;;
  nx_json_begin_array ;;
  nx_result_emit_return "mach_port_names_before"
    (nx_kern_return_str (kr (before o))) (kr (before o)) false 0 ;;
  nx_result_emit_return "mach_port_allocate_receive"
    (nx_kern_return_str (kr_alloc o)) (kr_alloc o) false 0 ;;
  nx_result_emit_return "mach_msg_receive_timeout_200ms"
    (nx_msg_return_str (mr_timed o)) (mr_timed o) false 0 ;;
  nx_result_emit_return "mach_msg_receive_poll_timeout_0"
    (nx_msg_return_str (mr_poll o)) (mr_poll o) false 0 ;;
  nx_result_emit_return "mach_port_destroy_receive"
    (nx_kern_return_str (kr_dest o)) (kr_dest o) false 0 ;;
  nx_result_emit_return "mach_port_names_after"
    (nx_kern_return_str (kr (after o))) (kr (after o)) false 0 ;;
  nx_json_end_array.

Definition emit_observations (o : obs) : op nx_json_t :=
  nx_json_key "observations" ;;
  nx_json_begin_object ;;
  nx_json_key_bool "allocate_succeeded" (kr_alloc o =? KERN_SUCCESS) ;;
  nx_json_key_string "timed_receive_return" (nx_msg_return_str (mr_timed o)) ;;
  nx_json_key_bool "timed_receive_is_mach_rcv_timed_out" (timed_is_timeout o) ;;
  nx_json_key_string "poll_receive_return" (nx_msg_return_str (mr_poll o)) ;;
  nx_json_key_bool "poll_receive_is_mach_rcv_timed_out" (poll_is_timeout o) ;;
  nx_json_key_bool "no_message_delivered" (negb (mr_timed o =? MACH_MSG_SUCCESS) && negb (mr_poll o =? MACH_MSG_SUCCESS)) ;;
  nx_json_key_bool "destroy_succeeded" (kr_dest o =? KERN_SUCCESS) ;;
  nx_json_end_object.

Definition report (o : obs) (v : verdict) : op nx_json_t :=
  nx_json_begin_object ;;
  nx_result_emit_header agent_name "macos_foundation_msg_rcv_timeout" NULL NULL
    (status v) (sclass v) ;;
  nx_env_emit ;;
  nx_result_emit_empty_message ;;
  emit_returns o ;;
  nx_json_key "right_deltas" ;;
  nx_json_begin_array ;;
  nx_json_end_array ;;
  emit_observations o ;;
  nx_result_emit_cleanup (cleanup_ok o) (cleanup_notes o) ;;
  nx_json_key_string "notes" (notes v) ;;
  nx_json_end_object.

Definition main : prog (option outcome) :=
  o ← observe;
  let v := verdict_of o in
  let r := finish (report o v) v in
  _ ← nx_baseline_free (before o);
  _ ← nx_baseline_free (after o);
  mret r.

End msg_rcv_timeout.

Section facts.
Context `{Host} `{MachSdk}.

Lemma msg_rcv_timeout_written o :
  env_file_ok →
  emits_result true "macos_foundation_msg_rcv_timeout" (verdict_of o) (cleanup_ok o)
    (report o (verdict_of o)).
Proof.
  intros Henv. unfold report, emit_returns, emit_observations. report_tac.
Qed.

Lemma msg_rcv_timeout_observe_ledger :
  lwp observe (λ o s, captured (before o) ∧ captured (after o) ∧
    s = mk_ledger ∅ ∅ (baseline_regions (before o) ⊎ baseline_regions (after o)))
    no_holdings.
Proof.
  unfold observe, receive. lwp_exec; (split; [done|]; split; [done|]).
  all: ledger_eq.
Qed.

(** Whatever the kernel answers, [main] uses only rights and memory it
    holds, gives back everything, and writes one result document. *)
Theorem msg_rcv_timeout_main_safe {W} `{Kernel W} w :
  env_file_ok →
  let o := (run observe w).1 in
  well_behaved observe main (λ o, finish (report o (verdict_of o)) (verdict_of o)) w ∧
  emits_result true "macos_foundation_msg_rcv_timeout" (verdict_of o) (cleanup_ok o)
    (report o (verdict_of o)).
Proof.
  intros Henv o. split; [|by apply msg_rcv_timeout_written].
  eapply (lwp_two_parts _ _ _ _ msg_rcv_timeout_observe_ledger). intros o' s (Hb1 & Hb2 & Hs).
  eapply lwp_tail; eauto.
Qed.

(** On a kernel that keeps the contract both receives time out, so the probe
    passes unless no port could be allocated; the name space is as it was. *)
Theorem msg_rcv_timeout_conforms {W} `{Kernel W} `{!MachContract W} w :
  APPLE = true → healthy w →
  conforming observe main (λ o,
    verdict_of o = (if kr_alloc o =? KERN_SUCCESS then pass
                    else probe_failure "mach_port_allocate(RECEIVE) failed") ∧
    cleanup_ok o = true) w.
Proof.
  intros Ha Hw. unfold main. apply cwp_two_parts; [done| |intros; tail_tac].
  unfold observe, receive.
  repeat cwp_step.
  2: {
    do 2 (eapply cwp_receive_empty;
            [space_side..|unfold sizeof_rt_recv_msg; lia|intros ?; cbn beta iota];
          try apply wp_bind).
    repeat cwp_step.
    conform_tac ltac:(unfold verdict_of, cleanup_ok, ladder_of, baseline_ok).
  }
  all: conform_tac ltac:(unfold verdict_of, cleanup_ok, ladder_of, baseline_ok).
Qed.
End facts.

(** The theorems at the reference kernel, on a task that has just started. *)
Section witnesses.
Import OnMacos.

Lemma msg_rcv_timeout_main_safe_witness :
  env_file_ok ∧
  well_behaved observe main (λ o, finish (report o (verdict_of o)) (verdict_of o)) boot ∧
  emits_result true "macos_foundation_msg_rcv_timeout" (verdict_of (run observe boot).1)
    (cleanup_ok (run observe boot).1)
    (report (run observe boot).1 (verdict_of (run observe boot).1)).
Proof. split; [exact no_env_file|]. exact (msg_rcv_timeout_main_safe boot no_env_file). Defined.

Lemma msg_rcv_timeout_conforms_witness :
  APPLE = true ∧ healthy boot ∧
  verdict_of (run observe boot).1 = pass ∧ cleanup_ok (run observe boot).1 = true ∧
  view (run main boot).2 = boot_space.
Proof.
  split; [done|]. split; [exact healthy_boot|].
  destruct (msg_rcv_timeout_conforms boot on_macos healthy_boot)
    as [Hv Hs].
  split; [|split; [exact (proj2 Hv)|exact Hs]].
  etransitivity; [exact (proj1 Hv)|by vm_compute].
Defined.
End witnesses.
End MsgRcvTimeout.
