(* ===== verification/PortGetAttributes.v ===== *)
(** [macos-validation/probes/foundation/port_get_attributes.c]: the status of a
    fresh receive right, an invalid flavor and an unused name. *)

From stdpp Require Import gmap.
From S2P Require Import Prelude Json NxJson JsonText Builder MachApi NxMachUtils Ledger.
From S2P Require Import MachContract NxResult Probe RefKernel.

Local Open Scope oracle_scope.
Local Open Scope Z_scope.

Module PortGetAttributes.

Section port_get_attributes.
Context `{Host} `{MachSdk}.

(** The members of [mach_port_status_t] the probe keeps, and their initial values. *)
Definition no_status : mach_port_status_t :=
  mk_status (-1) (-1) (-1) (-1) (-1) (-1) false false false (-1).

Record obs := mk_obs {
  before : nx_baseline_t;
  after : nx_baseline_t;
  kr_alloc : kern_return_t;
  kr_attrs : kern_return_t;
  kr_bad_flavor : kern_return_t;
  kr_bad_name : kern_return_t;
  kr_destroy : kern_return_t;
  attrs_count : Z;
  expected_attrs_count : Z;
  mps : mach_port_status_t;
}.

(** [if (kr_alloc == KERN_SUCCESS) { ... }]; the second of the two calls that
    must fail uses the count as the first has left it. *)
Definition observe_port (port : mach_port_t) :
    prog (Z * mach_port_status_t * Z * Z * Z * Z) :=
  '(kr_attrs, status, attrs_count) ←
    call (mach_port_get_attributes port MACH_PORT_RECEIVE_STATUS
            MACH_PORT_RECEIVE_STATUS_COUNT);
  '(kr_bad_flavor, _, bad_count) ←
    call (mach_port_get_attributes port 0xff MACH_PORT_RECEIVE_STATUS_COUNT);
  '(kr_bad_name, _, _) ←
    call (mach_port_get_attributes 0xdeadbeef MACH_PORT_RECEIVE_STATUS bad_count);
  kr_destroy ← call (mach_port_destroy port);
  mret (kr_attrs, if kr_attrs =? KERN_SUCCESS then status else no_status, attrs_count,
        kr_bad_flavor, kr_bad_name, kr_destroy).

Definition observe : prog obs :=
  before ← nx_baseline_capture;
  '(kr_alloc, (kr_attrs, mps, attrs_count, kr_bad_flavor, kr_bad_name, kr_destroy), expected) ←
    guarded APPLE
      (KERN_FAILURE, (KERN_FAILURE, no_status, 0, KERN_FAILURE, KERN_FAILURE, KERN_FAILURE), 0) (
      '(kr_alloc, port) ← call (mach_port_allocate MACH_PORT_RIGHT_RECEIVE);
      r ← guarded (kr_alloc =? KERN_SUCCESS)
            (KERN_FAILURE, no_status, 0, KERN_FAILURE, KERN_FAILURE, KERN_FAILURE)
            (observe_port port);
      mret (kr_alloc, r,
            if kr_alloc =? KERN_SUCCESS then MACH_PORT_RECEIVE_STATUS_COUNT else 0));
  after ← nx_baseline_capture;
  mret (mk_obs before after kr_alloc kr_attrs kr_bad_flavor kr_bad_name kr_destroy attrs_count
          expected mps).

Definition baseline_ok (o : obs) : bool := (nx_baseline_compare (before o) (after o)).1.
Definition count_exact (o : obs) : bool :=
  (kr_attrs o =? KERN_SUCCESS) && (attrs_count o =? expected_attrs_count o).
Definition fresh_receive_state (o : obs) : bool :=
  (kr_attrs o =? KERN_SUCCESS) && (st_msgcount (mps o) =? 0) && (st_seqno (mps o) =? 0) &&
  (st_sorights (mps o) =? 0) && negb (st_srights (mps o)) && (st_pset (mps o) =? 0).

Definition ladder_of (o : obs) : list (bool * verdict) :=
  [(negb (kr_alloc o =? KERN_SUCCESS), probe_failure "mach_port_allocate(RECEIVE) failed");
   (negb (kr_attrs o =? KERN_SUCCESS),
     probe_failure "mach_port_get_attributes(RECEIVE_STATUS) failed");
   (negb (count_exact o),
     fail_contract "get_attributes out-count did not match MACH_PORT_RECEIVE_STATUS_COUNT");
   (negb (fresh_receive_state o),
     fail_contract "fresh receive right did not read back an empty, send-less status");
   (kr_bad_flavor o =? KERN_SUCCESS,
     fail_contract "mach_port_get_attributes accepted an invalid flavor (expected rejection)");
   (kr_bad_name o =? KERN_SUCCESS,
     fail_contract
       "mach_port_get_attributes accepted a non-existent name (expected KERN_INVALID_NAME)");
   (negb (kr_destroy o =? KERN_SUCCESS), fail_probe "mach_port_destroy failed");
   (negb (baseline_ok o), fail_contract "port namespace did not return to baseline")].

Definition verdict_of (o : obs) : verdict :=
  if APPLE then ladder (ladder_of o)
  else skip "non-macOS host: Mach APIs unavailable, pipeline smoke only".

Definition cleanup_ok (o : obs) : bool := if APPLE then baseline_ok o else true.
Definition cleanup_notes (o : obs) : string :=
  if APPLE then (if baseline_ok o then "" else "namespace delta detected")
  else "not applicable on non-macOS host".

Definition emit_returns (o : obs) : op nx_json_t :=
  nx_json_key "returns" ;;
  nx_json_begin_array ;;
  nx_result_emit_return "mach_port_names_before"
    (nx_kern_return_str (kr (before o))) (kr (before o)) false 0 ;;
  nx_result_emit_return "mach_port_allocate_receive"
    (nx_kern_return_str (kr_alloc o)) (kr_alloc o) false 0 ;;
  nx_result_emit_return "mach_port_get_attributes_receive_status"
    (nx_kern_return_str (kr_attrs o)) (kr_attrs o) false 0 ;;
  nx_result_emit_return "mach_port_get_attributes_invalid_flavor"
    (nx_kern_return_str (kr_bad_flavor o)) (kr_bad_flavor o) false 0 ;;
  nx_result_emit_return "mach_port_get_attributes_bad_name"
    (nx_kern_return_str (kr_bad_name o)) (kr_bad_name o) false 0 ;;
  nx_result_emit_return "mach_port_destroy_receive"
    (nx_kern_return_str (kr_destroy o)) (kr_destroy o) false 0 ;;
  nx_result_emit_return "mach_port_names_after"
    (nx_kern_return_str (kr (after o))) (kr (after o)) false 0 ;;
  nx_json_end_array.

Definition emit_observations (o : obs) : op nx_json_t :=
  nx_json_key "observations" ;;
  nx_json_begin_object ;;
  nx_json_key_bool "allocate_succeeded" (kr_alloc o =? KERN_SUCCESS) ;;
  nx_json_key_bool "get_attributes_succeeded" (kr_attrs o =? KERN_SUCCESS) ;;
  nx_json_key_int "get_attributes_count" (attrs_count o) ;;
  nx_json_key_bool "count_matches_receive_status_count" (count_exact o) ;;
  nx_json_key_bool "fresh_receive_right_state" (fresh_receive_state o) ;;
  nx_json_key_bool "invalid_flavor_rejected" (negb (kr_bad_flavor o =? KERN_SUCCESS)) ;;
  nx_json_key_bool "bad_name_rejected" (negb (kr_bad_name o =? KERN_SUCCESS)) ;;
  nx_json_key_bool "destroy_succeeded" (kr_destroy o =? KERN_SUCCESS) ;;
  nx_json_key_int "mps_pset" (st_pset (mps o)) ;;
  nx_json_key_int "mps_seqno" (st_seqno (mps o)) ;;
  nx_json_key_int "mps_mscount" (st_mscount (mps o)) ;;
  nx_json_key_int "mps_qlimit" (st_qlimit (mps o)) ;;
  nx_json_key_int "mps_msgcount" (st_msgcount (mps o)) ;;
  nx_json_key_int "mps_sorights" (st_sorights (mps o)) ;;
  nx_json_key_bool "mps_srights" (st_srights (mps o)) ;;
  nx_json_key_bool "mps_pdrequest" (st_pdrequest (mps o)) ;;
  nx_json_key_bool "mps_nsrequest" (st_nsrequest (mps o)) ;;
  nx_json_key_int "mps_flags" (st_flags (mps o)) ;;
  nx_json_end_object.

Definition report (o : obs) (v : verdict) : op nx_json_t :=
  nx_json_begin_object ;;
  nx_result_emit_header agent_name "macos_foundation_port_get_attributes" NULL NULL
    (status v) (sclass v) ;;
  nx_env_emit ;;
  nx_result_emit_empty_message ;;
  emit_returns o ;;
  nx_json_key "right_deltas" ;;
  nx_json_begin_array ;;
  nx_json_end_array ;;
  emit_observations o ;;
  nx_result_emit_cleanup (cleanup_ok o) (cleanup_notes o) ;;
  nx_json_key_string "notes" (notes v) ;;
  nx_json_end_object.

Definition main : prog (option outcome) :=
  o ← observe;
  let v := verdict_of o in
  let r := finish (report o v) v in
  _ ← nx_baseline_free (before o);
  _ ← nx_baseline_free (after o);
  mret r.

End port_get_attributes.

Section facts.
Context `{Host} `{MachSdk}.

Lemma port_get_attributes_written o :
  env_file_ok →
  emits_result true "macos_foundation_port_get_attributes" (verdict_of o) (cleanup_ok o)
    (report o (verdict_of o)).
Proof.
  intros Henv. unfold report, emit_returns, emit_observations. report_tac.
Qed.

Lemma port_get_attributes_observe_ledger :
  lwp observe (λ o s, captured (before o) ∧ captured (after o) ∧
    s = mk_ledger ∅ ∅ (baseline_regions (before o) ⊎ baseline_regions (after o)))
    no_holdings.
Proof.
  unfold observe, observe_port. lwp_exec; (split; [done|]; split; [done|]).
  all: ledger_eq.
Qed.

(** Whatever the kernel answers, [main] uses only rights and memory it
    holds, gives back everything, and writes one result document. *)
Theorem port_get_attributes_main_safe {W} `{Kernel W} w :
  env_file_ok →
  let o := (run observe w).1 in
  well_behaved observe main (λ o, finish (report o (verdict_of o)) (verdict_of o)) w ∧
  emits_result true "macos_foundation_port_get_attributes" (verdict_of o) (cleanup_ok o)
    (report o (verdict_of o)).
Proof.
  intros Henv o. split; [|by apply port_get_attributes_written].
  eapply (lwp_two_parts _ _ _ _ port_get_attributes_observe_ledger). intros o' s (Hb1 & Hb2 & Hs).
  eapply lwp_tail; eauto.
Qed.

(** On a kernel that keeps the contract, whose names do not include the one
    the probe takes for an unused name, the probe passes unless no port could
    be allocated; the name space is as it was. *)
Theorem port_get_attributes_conforms {W} `{Kernel W} `{!MachContract W} w :
  APPLE = true → healthy w →
  view w !! 0xdeadbeef = None → ¬ kernel_name kernel_platform 0xdeadbeef →
  conforming observe main (λ o,
    verdict_of o = (if kr_alloc o =? KERN_SUCCESS then pass
                    else probe_failure "mach_port_allocate(RECEIVE) failed") ∧
    cleanup_ok o = true) w.
Proof.
  intros Ha Hw Hu Hk. unfold main. apply cwp_two_parts; [done| |intros; tail_tac].
  unfold observe, observe_port.
  repeat cwp_step.
  2: {
    eapply cwp_attributes; [space_side..|intros st Hst].
    apply wp_bind, cwp_attributes_rejected; [by left|intros k1 st1 c1 Hk1].
    apply wp_bind, cwp_attributes_rejected; [right|intros k2 st2 c2 Hk2].
    { rewrite lookup_insert_ne; [done|]. intros ->. by apply Hk. }
    cbn beta iota. repeat cwp_step.
    conform_tac ltac:(unfold verdict_of, cleanup_ok, ladder_of, baseline_ok).
    destruct Hst as (Hp & Hs' & Hm & Ho & Hr).
    unfold fresh_receive_state. simpl. rewrite Hp, Hs', Hm, Ho, Hr, Z.eqb_refl.
    by rewrite (proj2 (Z.eqb_neq k1 _) Hk1), (proj2 (Z.eqb_neq k2 _) Hk2).
  }
  all: conform_tac ltac:(unfold verdict_of, cleanup_ok, ladder_of, baseline_ok).
Qed.
End facts.

(** The theorems at the reference kernel, on a task that has just started. *)
Section witnesses.
Import OnMacos.

Lemma port_get_attributes_main_safe_witness :
  env_file_ok ∧
  well_behaved observe main (λ o, finish (report o (verdict_of o)) (verdict_of o)) boot ∧
  emits_result true "macos_foundation_port_get_attributes" (verdict_of (run observe boot).1)
    (cleanup_ok (run observe boot).1)
    (report (run observe boot).1 (verdict_of (run observe boot).1)).
Proof. split; [exact no_env_file|]. exact (port_get_attributes_main_safe boot no_env_file). Defined.

Lemma port_get_attributes_conforms_witness :
  APPLE = true ∧ healthy boot ∧
  view boot !! 0xdeadbeef = None ∧ ¬ kernel_name kernel_platform 0xdeadbeef ∧
  verdict_of (run observe boot).1 = pass ∧ cleanup_ok (run observe boot).1 = true ∧
  view (run main boot).2 = boot_space.
Proof.
  split; [done|]. split; [exact healthy_boot|].
  split; [done|]. split; [intros [_ Hn]; by vm_compute in Hn|].
  destruct (port_get_attributes_conforms boot on_macos healthy_boot eq_refl ltac:(intros [_ Hn]; by vm_compute in Hn))
    as [Hv Hs].
  split; [|split; [exact (proj2 Hv)|exact Hs]].
  etransitivity; [exact (proj1 Hv)|by vm_compute].
Defined.
End witnesses.
End PortGetAttributes.
