(* ===== verification/HostInfo.v ===== *)
(** [macos-validation/probes/foundation/host_info.c]: the host port, what it
    tells, and the calls on it that must be rejected. *)

From stdpp Require Import gmap.
From S2P Require Import Prelude Json NxJson JsonText Builder MachApi NxMachUtils Ledger.
From S2P Require Import MachContract NxResult Probe RefKernel.

Local Open Scope oracle_scope.
Local Open Scope Z_scope.

Module HostInfo.

Section host_info.
Context `{Host} `{MachSdk}.

(** The initial values of the topology variables. *)
Definition no_basic : host_basic_info_t := mk_host_basic 0 0 0 0 0 0 0 0 0 0 0.

Record obs := mk_obs {
  before : nx_baseline_t;
  after : nx_baseline_t;
  host_self_a : mach_port_t;
  host_self_b : mach_port_t;
  kr_basic : kern_return_t;
  kr_bad_flavor : kern_return_t;
  kr_null_host : kern_return_t;
  kr_dealloc_a : kern_return_t;
  kr_dealloc_b : kern_return_t;
  basic_count : Z;
  basic : host_basic_info_t;
}.

Definition observe : prog obs :=
  before ← nx_baseline_capture;
  f ← guarded APPLE
    (λ after, mk_obs before after MACH_PORT_NULL MACH_PORT_NULL KERN_FAILURE KERN_FAILURE
       KERN_FAILURE KERN_FAILURE KERN_FAILURE 0 no_basic) (
    host_self_a ← call mach_host_self;
    host_self_b ← call mach_host_self;
    '(kr_basic, basic, basic_count) ←
      call (host_info host_self_a HOST_BASIC_INFO HOST_BASIC_INFO_COUNT);
    '(kr_bad_flavor, _, _) ← call (host_info host_self_a 0xffffff HOST_BASIC_INFO_COUNT);
    '(kr_null_host, _, _) ←
      call (host_info MACH_PORT_NULL HOST_BASIC_INFO HOST_BASIC_INFO_COUNT);
    kr_dealloc_a ← call (mach_port_deallocate host_self_a);
    kr_dealloc_b ← call (mach_port_deallocate host_self_b);
    mret (λ after, mk_obs before after host_self_a host_self_b kr_basic kr_bad_flavor
            kr_null_host kr_dealloc_a kr_dealloc_b basic_count
            (if kr_basic =? KERN_SUCCESS then basic else no_basic)));
  after ← nx_baseline_capture;
  mret (f after).

Definition baseline_ok (o : obs) : bool := (nx_baseline_compare (before o) (after o)).1.

Definition ladder_of (o : obs) : list (bool * verdict) :=
  [(host_self_a o =? MACH_PORT_NULL, probe_failure "mach_host_self() returned MACH_PORT_NULL");
   (negb (kr_basic o =? KERN_SUCCESS), probe_failure "host_info(HOST_BASIC_INFO) failed");
   (kr_bad_flavor o =? KERN_SUCCESS,
     fail_contract "host_info accepted an invalid flavor (expected rejection)");
   (kr_null_host o =? KERN_SUCCESS,
     fail_contract "host_info accepted a null host port (expected failure)");
   (negb (kr_dealloc_a o =? KERN_SUCCESS) || negb (kr_dealloc_b o =? KERN_SUCCESS),
     probe_failure "mach_port_deallocate of host port failed");
   (negb (baseline_ok o), fail_contract "port namespace did not return to baseline")].

Definition verdict_of (o : obs) : verdict :=
  if APPLE then ladder (ladder_of o)
  else skip "non-macOS host: Mach APIs unavailable, pipeline smoke only".

Definition cleanup_ok (o : obs) : bool := if APPLE then baseline_ok o else true.
Definition cleanup_notes (o : obs) : string :=
  if APPLE then (if baseline_ok o then "" else "namespace delta detected")
  else "not applicable on non-macOS host".

Definition emit_returns (o : obs) : op nx_json_t :=
  nx_json_key "returns" ;;
  nx_json_begin_array ;;
  nx_result_emit_return "mach_port_names_before"
    (nx_kern_return_str (kr (before o))) (kr (before o)) false 0 ;;
  nx_result_emit_return "mach_host_self"
    (if host_self_a o =? MACH_PORT_NULL then "MACH_PORT_NULL" else "KERN_SUCCESS") (host_self_a o) false 0 ;;
  nx_result_emit_return "host_info_basic"
    (nx_kern_return_str (kr_basic o)) (kr_basic o) false 0 ;;
  nx_result_emit_return "host_info_invalid_flavor"
    (nx_kern_return_str (kr_bad_flavor o)) (kr_bad_flavor o) false 0 ;;
  nx_result_emit_return "host_info_null_host"
    (nx_kern_return_str (kr_null_host o)) (kr_null_host o) false 0 ;;
  nx_result_emit_return "mach_port_deallocate_host_a"
    (nx_kern_return_str (kr_dealloc_a o)) (kr_dealloc_a o) false 0 ;;
  nx_result_emit_return "mach_port_deallocate_host_b"
    (nx_kern_return_str (kr_dealloc_b o)) (kr_dealloc_b o) false 0 ;;
  nx_result_emit_return "mach_port_names_after"
    (nx_kern_return_str (kr (after o))) (kr (after o)) false 0 ;;
  nx_json_end_array.

Definition emit_observations (o : obs) : op nx_json_t :=
  nx_json_key "observations" ;;
  nx_json_begin_object ;;
  nx_json_key_bool "host_self_nonnull" (negb (host_self_a o =? MACH_PORT_NULL)) ;;
  nx_json_key_bool "host_self_stable_across_two_calls" (host_self_a o =? host_self_b o) ;;
  nx_json_key_bool "host_info_basic_succeeded" (kr_basic o =? KERN_SUCCESS) ;;
  nx_json_key_int "host_info_basic_count" (basic_count o) ;;
  nx_json_key_bool "host_info_basic_max_cpus_positive" ((kr_basic o =? KERN_SUCCESS) && (0 <? hb_max_cpus (basic o))) ;;
  nx_json_key_int "host_info_max_cpus" (hb_max_cpus (basic o)) ;;
  nx_json_key_int "host_info_avail_cpus" (hb_avail_cpus (basic o)) ;;
  nx_json_key_int "host_info_cpu_type" (hb_cpu_type (basic o)) ;;
  nx_json_key_int "host_info_cpu_subtype" (hb_cpu_subtype (basic o)) ;;
  nx_json_key_int "host_info_cpu_threadtype" (hb_cpu_threadtype (basic o)) ;;
  nx_json_key_int "host_info_physical_cpu" (hb_physical_cpu (basic o)) ;;
  nx_json_key_int "host_info_physical_cpu_max" (hb_physical_cpu_max (basic o)) ;;
  nx_json_key_int "host_info_logical_cpu" (hb_logical_cpu (basic o)) ;;
  nx_json_key_int "host_info_logical_cpu_max" (hb_logical_cpu_max (basic o)) ;;
  nx_json_key_uint "host_info_memory_size" (hb_memory_size (basic o)) ;;
  nx_json_key_uint "host_info_max_mem" (hb_max_mem (basic o)) ;;
  nx_json_key_bool "host_info_invalid_flavor_rejected" (negb (kr_bad_flavor o =? KERN_SUCCESS)) ;;
  nx_json_key_bool "host_info_null_host_rejected" (negb (kr_null_host o =? KERN_SUCCESS)) ;;
  nx_json_key_bool "host_port_dealloc_succeeded" ((kr_dealloc_a o =? KERN_SUCCESS) && (kr_dealloc_b o =? KERN_SUCCESS)) ;;
  nx_json_end_object.

Definition report (o : obs) (v : verdict) : op nx_json_t :=
  nx_json_begin_object ;;
  nx_result_emit_header agent_name "macos_foundation_host_info" NULL NULL
    (status v) (sclass v) ;;
  nx_env_emit ;;
  nx_result_emit_empty_message ;;
  emit_returns o ;;
  nx_json_key "right_deltas" ;;
  nx_json_begin_array ;;
  nx_json_end_array ;;
  emit_observations o ;;
  nx_result_emit_cleanup (cleanup_ok o) (cleanup_notes o) ;;
  nx_json_key_string "notes" (notes v) ;;
  nx_json_end_object.

Definition main : prog (option outcome) :=
  o ← observe;
  let v := verdict_of o in
  let r := finish (report o v) v in
  _ ← nx_baseline_free (before o);
  _ ← nx_baseline_free (after o);
  mret r.

End host_info.

Section facts.
Context `{Host} `{MachSdk}.

Lemma host_info_written o :
  env_file_ok →
  emits_result true "macos_foundation_host_info" (verdict_of o) (cleanup_ok o)
    (report o (verdict_of o)).
Proof.
  intros Henv. unfold report, emit_returns, emit_observations. report_tac.
Qed.

Lemma host_info_observe_ledger :
  lwp observe (λ o s, captured (before o) ∧ captured (after o) ∧
    s = mk_ledger ∅ ∅ (baseline_regions (before o) ⊎ baseline_regions (after o)))
    no_holdings.
Proof.
  unfold observe. lwp_exec; (split; [done|]; split; [done|]).
  all: ledger_eq.
Qed.

(** Whatever the kernel answers, [main] uses only rights and memory it
    holds, gives back everything, and writes one result document. *)
Theorem host_info_main_safe {W} `{Kernel W} w :
  env_file_ok →
  let o := (run observe w).1 in
  well_behaved observe main (λ o, finish (report o (verdict_of o)) (verdict_of o)) w ∧
  emits_result true "macos_foundation_host_info" (verdict_of o) (cleanup_ok o)
    (report o (verdict_of o)).
Proof.
  intros Henv o. split; [|by apply host_info_written].
  eapply (lwp_two_parts _ _ _ _ host_info_observe_ledger). intros o' s (Hb1 & Hb2 & Hs).
  eapply lwp_tail; eauto.
Qed.

(** On a kernel that keeps the contract, when [mach_host_self] returns a
    right both times and no reference count is at its limit, both calls return
    the same name and the probe passes.  The two references are released: the
    name space is as it was, whatever [mach_host_self] returns. *)
Theorem host_info_conforms {W} `{Kernel W} `{!MachContract W} w :
  APPLE = true → healthy w →
  (∀ n e, view w !! n = Some e → e_send e + 2 ≤ UREFS_MAX) →
  conforming observe main (λ o,
    (host_self_a o ≠ MACH_PORT_NULL → host_self_b o ≠ MACH_PORT_NULL →
     verdict_of o = pass ∧ host_self_a o = host_self_b o) ∧
    cleanup_ok o = true) w.
Proof.
  intros Ha Hw Hu. unfold main. apply cwp_two_parts; [done| |intros; tail_tac].
  pose proof (view_ok w Hw) as Hok.
  assert (∀ n e, host_before (view w) n e → e_send e + 2 ≤ UREFS_MAX) as Hm.
  { intros n e (_ & _ & [[Hn _]|[_ ->]]); [by eapply Hu|done]. }
  unfold observe. repeat cwp_step.
  apply cwp_host_self; [|intros n e Hb; split; [specialize (Hm _ _ Hb); lia|]];
    cbn beta; apply wp_bind.
  - apply cwp_host_self; [|intros n e Hb; split; [specialize (Hm _ _ Hb); lia|]];
      cbn beta; repeat cwp_step;
      conform_tac ltac:(unfold cleanup_ok, baseline_ok); by intuition.
  - pose proof (space_ok_host _ _ _ Hok Hb) as Hok1.
    apply cwp_host_self; [cbn beta|intros n' e' Hb'; split; cbn beta].
    + repeat cwp_step; conform_tac ltac:(unfold cleanup_ok, baseline_ok); by intuition.
    + destruct (host_before_again _ _ _ _ _ Hb Hb') as [_ ->]. specialize (Hm _ _ Hb).
      simpl. lia.
    + destruct (host_before_again _ _ _ _ _ Hb Hb') as [-> ->].
      repeat cwp_step.
      rewrite <- (insert_insert_eq (view w) n _ (add_send 1 e)).
      apply (cwp_release_host _ _ _ _ _ Hok1 Hb'). cbn beta. apply wp_bind.
      apply (cwp_release_host _ _ _ _ _ Hok Hb). cbn beta. repeat cwp_step.
      conform_tac ltac:(unfold verdict_of, cleanup_ok, ladder_of, baseline_ok).
      split; [intros Hn _|done].
      assert (k = KERN_SUCCESS) as ->.
      { eapply H4; [done..|apply lookup_insert_eq| |].
        - by destruct Hb as (_ & _ & [[_ Ho]|[_ ->]]).
        - destruct (Hok1 n (add_send 1 e)); [apply lookup_insert_eq|]. simpl in *. lia. }
      rewrite (proj2 (Z.eqb_neq n _) Hn), (proj2 (Z.eqb_neq k0 _)), (proj2 (Z.eqb_neq k1 _));
        [done|apply H7; by left|apply H5; by right].
Qed.
End facts.

(** The theorems at the reference kernel, on a task that has just started. *)
Section witnesses.
Import OnMacos.

Lemma host_info_main_safe_witness :
  env_file_ok ∧
  well_behaved observe main (λ o, finish (report o (verdict_of o)) (verdict_of o)) boot ∧
  emits_result true "macos_foundation_host_info" (verdict_of (run observe boot).1)
    (cleanup_ok (run observe boot).1)
    (report (run observe boot).1 (verdict_of (run observe boot).1)).
Proof. split; [exact no_env_file|]. exact (host_info_main_safe boot no_env_file). Defined.

Lemma host_info_conforms_witness :
  APPLE = true ∧ healthy boot ∧
  (∀ n e, view boot !! n = Some e → e_send e + 2 ≤ UREFS_MAX) ∧
  verdict_of (run observe boot).1 = pass ∧ cleanup_ok (run observe boot).1 = true ∧
  view (run main boot).2 = boot_space.
Proof.
  split; [done|]. split; [exact healthy_boot|].
  split; [exact boot_urefs|].
  destruct (host_info_conforms boot on_macos healthy_boot boot_urefs)
    as [Hv Hs].
  split; [|split; [exact (proj2 Hv)|exact Hs]].
  by apply (proj1 Hv); vm_compute.
Defined.
End witnesses.
End HostInfo.
