(* ===== verification/TaskInfo.v ===== *)
(** [macos-validation/probes/foundation/task_info.c]: the task's own port, what
    [task_info] tells, and the calls on it that must be rejected. *)

From S2P Require Import Prelude Json NxJson JsonText Builder MachApi NxMachUtils Ledger.
From S2P Require Import MachContract NxResult Probe RefKernel.

Local Open Scope oracle_scope.
Local Open Scope Z_scope.

Module TaskInfo.

Section task_info.
Context `{Host} `{MachSdk}.

(** The initial values of the variables that keep what the call returned. *)
Definition no_info : task_basic_info_t := mk_task_basic (-1) (-1) 0 0 (-1) (-1) (-1) (-1).

Record obs := mk_obs {
  before : nx_baseline_t;
  after : nx_baseline_t;
  task_self_a : mach_port_t;
  task_self_b : mach_port_t;
  ptype : mach_port_type_t;
  kr_type : kern_return_t;
  kr_basic : kern_return_t;
  kr_bad_flavor : kern_return_t;
  kr_null_task : kern_return_t;
  basic_count : Z;
  expected_basic_count : Z;
  info : task_basic_info_t;
}.

Definition observe : prog obs :=
  before ← nx_baseline_capture;
  f ← guarded APPLE
    (λ after, mk_obs before after MACH_PORT_NULL MACH_PORT_NULL 0 KERN_FAILURE KERN_FAILURE
       KERN_FAILURE KERN_FAILURE 0 0 no_info) (
    let task_self_a := mach_task_self in
    let task_self_b := mach_task_self in
    '(kr_type, ptype) ← call (mach_port_type task_self_a);
    '(kr_basic, basic_info, basic_count) ←
      call (task_info task_self_a MACH_TASK_BASIC_INFO MACH_TASK_BASIC_INFO_COUNT);
    '(kr_bad_flavor, _, _) ← call (task_info task_self_a 0xffffff MACH_TASK_BASIC_INFO_COUNT);
    '(kr_null_task, _, _) ←
      call (task_info MACH_PORT_NULL MACH_TASK_BASIC_INFO MACH_TASK_BASIC_INFO_COUNT);
    mret (λ after, mk_obs before after task_self_a task_self_b ptype kr_type kr_basic
            kr_bad_flavor kr_null_task basic_count MACH_TASK_BASIC_INFO_COUNT
            (if kr_basic =? KERN_SUCCESS then basic_info else no_info)));
  after ← nx_baseline_capture;
  mret (f after).

Definition baseline_ok (o : obs) : bool := (nx_baseline_compare (before o) (after o)).1.
Definition count_exact (o : obs) : bool :=
  (kr_basic o =? KERN_SUCCESS) && (basic_count o =? expected_basic_count o).

Definition ladder_of (o : obs) : list (bool * verdict) :=
  [(task_self_a o =? MACH_PORT_NULL, probe_failure "mach_task_self() returned MACH_PORT_NULL");
   (negb (kr_type o =? KERN_SUCCESS), probe_failure "mach_port_type on task-self failed");
   (negb (kr_basic o =? KERN_SUCCESS),
     probe_failure "task_info(MACH_TASK_BASIC_INFO) failed");
   (negb (count_exact o),
     fail_contract "task_info out-count did not match MACH_TASK_BASIC_INFO_COUNT");
   (kr_bad_flavor o =? KERN_SUCCESS,
     fail_contract "task_info accepted an invalid flavor (expected KERN_INVALID_ARGUMENT)");
   (kr_null_task o =? KERN_SUCCESS,
     fail_contract "task_info accepted a null task port (expected failure)");
   (negb (baseline_ok o), fail_contract "port namespace did not return to baseline")].

Definition verdict_of (o : obs) : verdict :=
  if APPLE then ladder (ladder_of o)
  else skip "non-macOS host: Mach APIs unavailable, pipeline smoke only".

Definition cleanup_ok (o : obs) : bool := if APPLE then baseline_ok o else true.
Definition cleanup_notes (o : obs) : string :=
  if APPLE then (if baseline_ok o then "" else "namespace delta detected")
  else "not applicable on non-macOS host".

Definition emit_returns (o : obs) : op nx_json_t :=
  nx_json_key "returns" ;;
  nx_json_begin_array ;;
  nx_result_emit_return "mach_port_names_before"
    (nx_kern_return_str (kr (before o))) (kr (before o)) false 0 ;;
  nx_result_emit_return "mach_task_self"
    (if task_self_a o =? MACH_PORT_NULL then "MACH_PORT_NULL" else "KERN_SUCCESS") (task_self_a o) false 0 ;;
  nx_result_emit_return "mach_port_type_task_self"
    (nx_kern_return_str (kr_type o)) (kr_type o) false 0 ;;
  nx_result_emit_return "task_info_mach_task_basic_info"
    (nx_kern_return_str (kr_basic o)) (kr_basic o) false 0 ;;
  nx_result_emit_return "task_info_invalid_flavor"
    (nx_kern_return_str (kr_bad_flavor o)) (kr_bad_flavor o) false 0 ;;
  nx_result_emit_return "task_info_null_task"
    (nx_kern_return_str (kr_null_task o)) (kr_null_task o) false 0 ;;
  nx_result_emit_return "mach_port_names_after"
    (nx_kern_return_str (kr (after o))) (kr (after o)) false 0 ;;
  nx_json_end_array.

Definition emit_observations (o : obs) : op nx_json_t :=
  nx_json_key "observations" ;;
  nx_json_begin_object ;;
  nx_json_key_bool "task_self_nonnull" (negb (task_self_a o =? MACH_PORT_NULL)) ;;
  nx_json_key_bool "task_self_stable_across_two_calls" (task_self_a o =? task_self_b o) ;;
  nx_json_key_string "task_self_port_type" (if kr_type o =? KERN_SUCCESS then nx_port_type_str (ptype o) else "unknown") ;;
  nx_json_key_bool "task_info_basic_succeeded" (kr_basic o =? KERN_SUCCESS) ;;
  nx_json_key_int "task_info_basic_count" (basic_count o) ;;
  nx_json_key_bool "task_info_basic_count_exact" (count_exact o) ;;
  nx_json_key_string "task_info_invalid_flavor_returned" (nx_kern_return_str (kr_bad_flavor o)) ;;
  nx_json_key_bool "task_info_invalid_flavor_rejected" (negb (kr_bad_flavor o =? KERN_SUCCESS)) ;;
  nx_json_key_bool "task_info_null_task_rejected" (negb (kr_null_task o =? KERN_SUCCESS)) ;;
  nx_json_key_int "suspend_count" (tb_suspend_count (info o)) ;;
  nx_json_key_bool "suspend_count_zero" (tb_suspend_count (info o) =? 0) ;;
  nx_json_key_int "policy" (tb_policy (info o)) ;;
  nx_json_key_uint "virtual_size" (tb_virtual_size (info o)) ;;
  nx_json_key_uint "resident_size" (tb_resident_size (info o)) ;;
  nx_json_key_int "user_time_seconds" (tb_user_seconds (info o)) ;;
  nx_json_key_int "user_time_microseconds" (tb_user_microseconds (info o)) ;;
  nx_json_key_int "system_time_seconds" (tb_system_seconds (info o)) ;;
  nx_json_key_int "system_time_microseconds" (tb_system_microseconds (info o)) ;;
  nx_json_end_object.

Definition report (o : obs) (v : verdict) : op nx_json_t :=
  nx_json_begin_object ;;
  nx_result_emit_header agent_name "macos_foundation_task_info" NULL NULL
    (status v) (sclass v) ;;
  nx_env_emit ;;
  nx_result_emit_empty_message ;;
  emit_returns o ;;
  nx_json_key "right_deltas" ;;
  nx_json_begin_array ;;
  nx_json_end_array ;;
  emit_observations o ;;
  nx_result_emit_cleanup (cleanup_ok o) (cleanup_notes o) ;;
  nx_json_key_string "notes" (notes v) ;;
  nx_json_end_object.

Definition main : prog (option outcome) :=
  o ← observe;
  let v := verdict_of o in
  let r := finish (report o v) v in
  _ ← nx_baseline_free (before o);
  _ ← nx_baseline_free (after o);
  mret r.

End task_info.

Section facts.
Context `{Host} `{MachSdk}.

Lemma task_info_written o :
  env_file_ok →
  emits_result true "macos_foundation_task_info" (verdict_of o) (cleanup_ok o)
    (report o (verdict_of o)).
Proof.
  intros Henv. unfold report, emit_returns, emit_observations. report_tac.
Qed.

Lemma task_info_observe_ledger :
  lwp observe (λ o s, captured (before o) ∧ captured (after o) ∧
    s = mk_ledger ∅ ∅ (baseline_regions (before o) ⊎ baseline_regions (after o)))
    no_holdings.
Proof.
  unfold observe. lwp_exec; (split; [done|]; split; [done|]).
  all: ledger_eq.
Qed.

(** Whatever the kernel answers, [main] uses only rights and memory it
    holds, gives back everything, and writes one result document. *)
Theorem task_info_main_safe {W} `{Kernel W} w :
  env_file_ok →
  let o := (run observe w).1 in
  well_behaved observe main (λ o, finish (report o (verdict_of o)) (verdict_of o)) w ∧
  emits_result true "macos_foundation_task_info" (verdict_of o) (cleanup_ok o)
    (report o (verdict_of o)).
Proof.
  intros Henv o. split; [|by apply task_info_written].
  eapply (lwp_two_parts _ _ _ _ task_info_observe_ledger). intros o' s (Hb1 & Hb2 & Hs).
  eapply lwp_tail; eauto.
Qed.

(** On a kernel that keeps the contract, for a task that holds a right to
    its own port, the probe passes, and the name space is untouched. *)
Theorem task_info_conforms {W} `{Kernel W} `{!MachContract W} w :
  APPLE = true → healthy w → mach_task_self ≠ MACH_PORT_NULL →
  (∃ e, view w !! mach_task_self = Some e ∧ e_obj e = TaskPort ∧ 0 < e_send e) →
  conforming observe main (λ o, verdict_of o = pass ∧ cleanup_ok o = true) w.
Proof.
  intros Ha Hw Hself (e & He & Ho & Hs). unfold main.
  apply cwp_two_parts; [done| |intros; tail_tac].
  unfold observe.
  repeat cwp_step.
  conform_tac ltac:(unfold verdict_of, cleanup_ok, ladder_of, baseline_ok).
  split; [|done].
  destruct (H4 eq_refl eq_refl Hself e He Ho Hs) as [-> ->].
  unfold count_exact. simpl.
  rewrite (proj2 (Z.eqb_neq _ _) Hself), (proj2 (Z.eqb_neq k0 _)), (proj2 (Z.eqb_neq k1 _)),
    Z.eqb_refl; [done|apply H7; by left|apply H5; by right].
Qed.
End facts.

(** The theorems at the reference kernel, on a task that has just started. *)
Section witnesses.
Import OnMacos.

Lemma task_info_main_safe_witness :
  env_file_ok ∧
  well_behaved observe main (λ o, finish (report o (verdict_of o)) (verdict_of o)) boot ∧
  emits_result true "macos_foundation_task_info" (verdict_of (run observe boot).1)
    (cleanup_ok (run observe boot).1)
    (report (run observe boot).1 (verdict_of (run observe boot).1)).
Proof. split; [exact no_env_file|]. exact (task_info_main_safe boot no_env_file). Defined.

Lemma task_info_conforms_witness :
  APPLE = true ∧ healthy boot ∧
  mach_task_self ≠ MACH_PORT_NULL ∧
  (∃ e, view boot !! mach_task_self = Some e ∧ e_obj e = TaskPort ∧ 0 < e_send e) ∧
  verdict_of (run observe boot).1 = pass ∧ cleanup_ok (run observe boot).1 = true ∧
  view (run main boot).2 = boot_space.
Proof.
  split; [done|]. split; [exact healthy_boot|].
  split; [done|]. split; [by eexists|].
  destruct (task_info_conforms boot on_macos healthy_boot ltac:(done) ltac:(by eexists))
    as [Hv Hs].
  split; [|split; [exact (proj2 Hv)|exact Hs]].
  exact (proj1 Hv).
Defined.
End witnesses.
End TaskInfo.
