(* ===== verification/AbsoluteTime.v ===== *)
(** [macos-validation/probes/foundation/absolute_time.c]: the clock is not zero,
    does not run backwards, and has a positive time base. *)

From S2P Require Import Prelude Json NxJson JsonText Builder MachApi NxMachUtils Ledger.
From S2P Require Import MachContract NxResult Probe RefKernel.

Local Open Scope oracle_scope.
Local Open Scope Z_scope.

Module AbsoluteTime.

Section absolute_time.
Context `{Host}.

Record obs := mk_obs {
  before : nx_baseline_t;
  after : nx_baseline_t;
  t1 : Z;
  t2 : Z;
  kr_tb : kern_return_t;
  numer : Z;
  denom : Z;
}.

Definition observe : prog obs :=
  before ← nx_baseline_capture;
  f ← guarded APPLE (λ after, mk_obs before after 0 0 KERN_FAILURE 0 0) (
    t1 ← call mach_absolute_time;
    t2 ← call mach_absolute_time;
    '(kr_tb, (tbi_numer, tbi_denom)) ← call mach_timebase_info;
    mret (λ after, mk_obs before after t1 t2 kr_tb
            (if kr_tb =? KERN_SUCCESS then s32 tbi_numer else 0)
            (if kr_tb =? KERN_SUCCESS then s32 tbi_denom else 0)));
  after ← nx_baseline_capture;
  mret (f after).

Definition baseline_ok (o : obs) : bool := (nx_baseline_compare (before o) (after o)).1.

Definition ladder_of (o : obs) : list (bool * verdict) :=
  [(t1 o =? 0, probe_failure "mach_absolute_time() returned 0");
   (t2 o <? t1 o, fail_contract "mach_absolute_time() went backwards (non-monotonic)");
   (negb (kr_tb o =? KERN_SUCCESS), probe_failure "mach_timebase_info() failed");
   ((numer o <=? 0) || (denom o <=? 0),
     fail_contract "mach_timebase_info() returned non-positive numer/denom");
   (negb (baseline_ok o), fail_contract "port namespace did not return to baseline")].

Definition verdict_of (o : obs) : verdict :=
  if APPLE then ladder (ladder_of o)
  else skip "non-macOS host: Mach APIs unavailable, pipeline smoke only".

Definition cleanup_ok (o : obs) : bool := if APPLE then baseline_ok o else true.
Definition cleanup_notes (o : obs) : string :=
  if APPLE then (if baseline_ok o then "" else "namespace delta detected")
  else "not applicable on non-macOS host".

Definition emit_returns (o : obs) : op nx_json_t :=
  nx_json_key "returns" ;;
  nx_json_begin_array ;;
  nx_result_emit_return "mach_port_names_before"
    (nx_kern_return_str (kr (before o))) (kr (before o)) false 0 ;;
  nx_result_emit_return "mach_absolute_time_first"
    (if t1 o =? 0 then "ZERO" else "KERN_SUCCESS") (s64 (t1 o)) false 0 ;;
  nx_result_emit_return "mach_absolute_time_second"
    (if t2 o =? 0 then "ZERO" else "KERN_SUCCESS") (s64 (t2 o)) false 0 ;;
  nx_result_emit_return "mach_timebase_info"
    (nx_kern_return_str (kr_tb o)) (kr_tb o) false 0 ;;
  nx_result_emit_return "mach_port_names_after"
    (nx_kern_return_str (kr (after o))) (kr (after o)) false 0 ;;
  nx_json_end_array.

Definition emit_observations (o : obs) : op nx_json_t :=
  nx_json_key "observations" ;;
  nx_json_begin_object ;;
  nx_json_key_bool "absolute_time_nonzero" (negb (t1 o =? 0)) ;;
  nx_json_key_bool "absolute_time_monotonic_nondecreasing" (t1 o <=? t2 o) ;;
  nx_json_key_bool "timebase_info_succeeded" (kr_tb o =? KERN_SUCCESS) ;;
  nx_json_key_bool "timebase_numer_positive" ((kr_tb o =? KERN_SUCCESS) && (0 <? numer o)) ;;
  nx_json_key_bool "timebase_denom_positive" ((kr_tb o =? KERN_SUCCESS) && (0 <? denom o)) ;;
  nx_json_key_int "timebase_numer" (numer o) ;;
  nx_json_key_int "timebase_denom" (denom o) ;;
  nx_json_end_object.

Definition report (o : obs) (v : verdict) : op nx_json_t :=
  nx_json_begin_object ;;
  nx_result_emit_header agent_name "macos_foundation_absolute_time" NULL NULL
    (status v) (sclass v) ;;
  nx_env_emit ;;
  nx_result_emit_empty_message ;;
  emit_returns o ;;
  nx_json_key "right_deltas" ;;
  nx_json_begin_array ;;
  nx_json_end_array ;;
  emit_observations o ;;
  nx_result_emit_cleanup (cleanup_ok o) (cleanup_notes o) ;;
  nx_json_key_string "notes" (notes v) ;;
  nx_json_end_object.

Definition main : prog (option outcome) :=
  o ← observe;
  let v := verdict_of o in
  let r := finish (report o v) v in
  _ ← nx_baseline_free (before o);
  _ ← nx_baseline_free (after o);
  mret r.

End absolute_time.

Section facts.
Context `{Host}.

Lemma absolute_time_written o :
  env_file_ok →
  emits_result true "macos_foundation_absolute_time" (verdict_of o) (cleanup_ok o)
    (report o (verdict_of o)).
Proof.
  intros Henv. unfold report, emit_returns, emit_observations. report_tac.
Qed.

Lemma absolute_time_observe_ledger :
  lwp observe (λ o s, captured (before o) ∧ captured (after o) ∧
    s = mk_ledger ∅ ∅ (baseline_regions (before o) ⊎ baseline_regions (after o)))
    no_holdings.
Proof.
  unfold observe. lwp_exec; (split; [done|]; split; [done|]).
  all: ledger_eq.
Qed.

(** Whatever the kernel answers, [main] uses only rights and memory it
    holds, gives back everything, and writes one result document. *)
Theorem absolute_time_main_safe {W} `{Kernel W} w :
  env_file_ok →
  let o := (run observe w).1 in
  well_behaved observe main (λ o, finish (report o (verdict_of o)) (verdict_of o)) w ∧
  emits_result true "macos_foundation_absolute_time" (verdict_of o) (cleanup_ok o)
    (report o (verdict_of o)).
Proof.
  intros Henv o. split; [|by apply absolute_time_written].
  eapply (lwp_two_parts _ _ _ _ absolute_time_observe_ledger). intros o' s (Hb1 & Hb2 & Hs).
  eapply lwp_tail; eauto.
Qed.

(** A kernel's clock: [mach_absolute_time] reads it, it is never zero, and it
    does not run backwards from one reading to the next. *)
Class MachClock (W : Type) `{Kernel W} := {
  clock : W → Z;
  clock_read : ∀ w, clock w ≤ (handle mach_absolute_time w).1 ∧
    0 < (handle mach_absolute_time w).1 ∧
    (handle mach_absolute_time w).1 ≤ clock (handle mach_absolute_time w).2;
}.

(** The two readings are consecutive calls. *)
Lemma readings {W} `{Kernel W} `{!MachClock W} w :
  APPLE = true →
  let o := (run observe w).1 in 0 < t1 o ∧ t1 o ≤ t2 o.
Proof.
  intros Ha. unfold observe, nx_baseline_capture. rewrite Ha.
  simpl. destruct (handle mach_port_names w) as [[[k ns] ts] w1]. simpl.
  pose proof (clock_read w1) as C1. destruct (handle mach_absolute_time w1) as [r1 w2].
  pose proof (clock_read w2) as C2. destruct (handle mach_absolute_time w2) as [r2 w3].
  simpl in *. destruct (handle mach_timebase_info w3) as [[k' [nu de]] w4]. simpl.
  destruct (handle mach_port_names w4) as [[[k'' ns'] ts'] w5]. simpl. lia.
Qed.

(** On a kernel that keeps the contract and whose clock does not run
    backwards the probe passes, and the name space is untouched. *)
Theorem absolute_time_conforms {W} `{Kernel W} `{MachSdk} `{!MachContract W} `{!MachClock W} w :
  APPLE = true → healthy w →
  conforming observe main (λ o, verdict_of o = pass ∧ cleanup_ok o = true) w.
Proof.
  intros Ha Hw. pose proof (readings w Ha) as [Hpos Hmono].
  assert (conforming observe main (λ o,
    (0 < t1 o → t1 o ≤ t2 o → verdict_of o = pass) ∧ cleanup_ok o = true) w) as [[Hv Hc] Hs].
  2: { split; [split; [by apply Hv|done]|done]. }
  unfold main. apply cwp_two_parts; [done| |intros; tail_tac].
  unfold observe. repeat cwp_step.
  conform_tac ltac:(unfold verdict_of, cleanup_ok, ladder_of, baseline_ok).
  split; [|done]. intros Hp Hm.
  rewrite !s32_small by (unfold is_s32; lia).
  destruct (Z.eqb_spec t 0); [lia|]. destruct (Z.ltb_spec t0 t); [lia|].
  destruct (Z.leb_spec numer0 0); [lia|]. destruct (Z.leb_spec denom0 0); [lia|done].
Qed.
End facts.

(** The theorems at the reference kernel, on a task that has just started. *)
Section witnesses.
Import OnMacos.

#[local] Instance reference_clock : MachClock machine.
Proof.
  refine {| clock := λ w, Z.min (2 ^ 64 - 1) (Z.max 0 (ticks w)) |}.
  intros [s t]. cbn -[Z.pow]. unfold next_tick. lia.
Defined.

Lemma absolute_time_main_safe_witness :
  env_file_ok ∧
  well_behaved observe main (λ o, finish (report o (verdict_of o)) (verdict_of o)) boot ∧
  emits_result true "macos_foundation_absolute_time" (verdict_of (run observe boot).1)
    (cleanup_ok (run observe boot).1)
    (report (run observe boot).1 (verdict_of (run observe boot).1)).
Proof. split; [exact no_env_file|]. exact (absolute_time_main_safe boot no_env_file). Defined.

Lemma absolute_time_conforms_witness :
  APPLE = true ∧ healthy boot ∧
  verdict_of (run observe boot).1 = pass ∧ cleanup_ok (run observe boot).1 = true ∧
  view (run main boot).2 = boot_space.
Proof.
  split; [done|]. split; [exact healthy_boot|].
  destruct (absolute_time_conforms boot on_macos healthy_boot)
    as [Hv Hs].
  split; [|split; [exact (proj2 Hv)|exact Hs]].
  exact (proj1 Hv).
Defined.
End witnesses.
End AbsoluteTime.
