(* ===== verification/HeaderMoveSend.v ===== *)
(** [macos-validation/probes/m1/header_move_send_accounting.c]: a message to the
    task's own port with [MACH_MSG_TYPE_MOVE_SEND] in its header takes the
    reference of the send right along; a right that comes back is used. *)

From S2P Require Import Prelude Json NxJson JsonText Builder MachApi NxMachUtils Ledger.
From S2P Require Import MachContract NxResult Probe RefKernel StatusPipe Exchange Header.

Local Open Scope oracle_scope.
Local Open Scope Z_scope.

Module HeaderMoveSend.
Import Header.

Definition OB15_MSG_ID : Z := 0x4f423135.
Definition OB15_USABILITY_MSG_ID : Z := 0x4f423136.

Definition type_has_send (type : mach_port_type_t) : bool :=
  Z.land type MACH_PORT_TYPE_SEND =? MACH_PORT_TYPE_SEND.

Section header_move_send.
Context `{Host} `{MachSdk}.

(** The check of a right that came back. *)
Record usability := mk_usability {
  usability_attempted : bool;
  usability_msgh_bits : Z;
  mr_usability_send : mach_msg_return_t;
  mr_usability_receive : mach_msg_return_t;
  kr_send_refs_after_usability : kern_return_t;
  send_refs_after_usability : mach_port_urefs_t;
}.
Definition no_usability : usability :=
  mk_usability false 0 MACH_SEND_INVALID_DEST MACH_RCV_INVALID_NAME KERN_FAILURE 0.

Record obs := mk_obs {
  before : nx_baseline_t;
  held_of : held;
  sent_msgh_bits : Z;
  mr_send : mach_msg_return_t;
  trip : round_trip;
  use_of : usability;
  kr_destroy_service : kern_return_t;
  after : nx_baseline_t;
}.

Definition no_held : held := mk_held KERN_FAILURE MACH_PORT_NULL KERN_FAILURE unseen.

Definition send_msg (port : mach_port_t) : mach_msg_buf :=
  header_msg MACH_MSG_TYPE_MOVE_SEND port OB15_MSG_ID.
Definition usability_msg (port : mach_port_t) : mach_msg_buf :=
  header_msg MACH_MSG_TYPE_COPY_SEND port OB15_USABILITY_MSG_ID.

(** There is a send right to use. *)
Definition has_right (x : seen) : bool :=
  (kr_refs x =? KERN_SUCCESS) && (0 <? refs x) && (kr_type x =? KERN_SUCCESS) &&
  type_has_send (type x).

Definition use_right (port : mach_port_t) : prog usability :=
  let msg := usability_msg port in
  '(mr_send, _) ← Exchange.send_msg 5000 msg;
  mr_receive ← guarded (mr_send =? MACH_MSG_SUCCESS) MACH_RCV_INVALID_NAME (
    '(mr, _) ← receive_msg 5000 sizeof_recv_msg port;
    mret mr);
  '(kr, refs) ← call (mach_port_get_refs port MACH_PORT_RIGHT_SEND);
  mret (mk_usability true (msgh_bits msg) mr_send mr_receive kr refs).

(** [if (mr_send == MACH_MSG_SUCCESS) { ... }] *)
Definition after_sent (port : mach_port_t) : prog (round_trip * usability) :=
  t ← receive_back port;
  u ← guarded (has_right (after_receive t)) no_usability (use_right port);
  mret (t, u).

Definition observe : prog obs :=
  before ← nx_baseline_capture;
  after ← nx_baseline_capture;
  guarded APPLE
    (mk_obs before no_held 0 MACH_SEND_INVALID_DEST no_round_trip no_usability KERN_FAILURE
       after) (
    h ← acquire;
    '(bits, mr_send) ←
      guarded ((kr_refs (before_send h) =? KERN_SUCCESS) &&
               (kr_type (before_send h) =? KERN_SUCCESS)) (0, MACH_SEND_INVALID_DEST) (
        let msg := send_msg (service_port h) in
        '(mr, _) ← Exchange.send_msg 5000 msg;
        mret (msgh_bits msg, mr));
    '(t, u) ← guarded (mr_send =? MACH_MSG_SUCCESS) (no_round_trip, no_usability)
      (after_sent (service_port h));
    kr_destroy ← guarded (kr_alloc_receive h =? KERN_SUCCESS) KERN_FAILURE
      (call (mach_port_destroy (service_port h)));
    _ ← nx_baseline_free after;
    after ← nx_baseline_capture;
    mret (mk_obs before h bits mr_send t u kr_destroy after)).

Definition baseline_ok (o : obs) : bool := (nx_baseline_compare (before o) (after o)).1.
Definition cleanup_delta (o : obs) : Z :=
  if APPLE then (nx_baseline_compare (before o) (after o)).2 else 0.

Definition send_refs_before_exact (o : obs) : bool :=
  let b := before_send (held_of o) in (kr_refs b =? KERN_SUCCESS) && (refs b =? 1).
Definition send_refs_consumed_at_send (o : obs) : bool :=
  let a := after_send (trip o) in (kr_refs a =? KERN_SUCCESS) && (refs a =? 0).
Definition type_before_exact (o : obs) : bool :=
  let b := before_send (held_of o) in
  (kr_type b =? KERN_SUCCESS) && (type b =? MACH_PORT_TYPE_SEND_RECEIVE).
Definition type_after_send_exact (o : obs) : bool :=
  let a := after_send (trip o) in
  (kr_type a =? KERN_SUCCESS) && (type a =? MACH_PORT_TYPE_RECEIVE).
Definition received_id_matches (o : obs) : bool :=
  (mr_receive (trip o) =? MACH_MSG_SUCCESS) &&
  (received_msgh_id (received (trip o)) =? OB15_MSG_ID).
Definition after_receive_state_observed (o : obs) : bool :=
  let a := after_receive (trip o) in
  (kr_refs a =? KERN_SUCCESS) && (kr_type a =? KERN_SUCCESS).
Definition after_receive_state_bounded (o : obs) : bool :=
  let a := after_receive (trip o) in (kr_refs a =? KERN_SUCCESS) && (refs a <=? 1).
Definition after_receive_type_consistent (o : obs) : bool :=
  let a := after_receive (trip o) in
  if (kr_type a =? KERN_SUCCESS) && (kr_refs a =? KERN_SUCCESS) then
    if refs a =? 0 then type a =? MACH_PORT_TYPE_RECEIVE
    else if refs a =? 1 then type a =? MACH_PORT_TYPE_SEND_RECEIVE
    else false
  else false.
Definition delivered_right_usable (o : obs) : bool :=
  let u := use_of o in
  (mr_usability_send u =? MACH_MSG_SUCCESS) && (mr_usability_receive u =? MACH_MSG_SUCCESS).
Definition usability_ok (o : obs) : bool :=
  negb (usability_attempted (use_of o)) || delivered_right_usable o.

Definition ladder_of (o : obs) : list (bool * verdict) :=
  let h := held_of o in
  [(nx_baseline_blocks_probe (before o), probe_failure "initial mach_port_names failed");
   (negb (kr_alloc_receive h =? KERN_SUCCESS),
     probe_failure "mach_port_allocate receive failed");
   (negb (kr_insert_send h =? KERN_SUCCESS),
     probe_failure "mach_port_insert_right MAKE_SEND failed");
   (negb (send_refs_before_exact o),
     fail_contract "send refs before MOVE_SEND were not exactly one");
   (negb (type_before_exact o),
     fail_contract "port type before MOVE_SEND was not SEND_RECEIVE");
   (negb (mr_send o =? MACH_MSG_SUCCESS), probe_failure "mach_msg SEND failed");
   (negb (send_refs_consumed_at_send o),
     fail_contract "MOVE_SEND did not consume sender send urefs at SEND return");
   (negb (type_after_send_exact o),
     fail_contract "port type after SEND was not RECEIVE");
   (negb (mr_receive (trip o) =? MACH_MSG_SUCCESS), probe_failure "mach_msg RECEIVE failed");
   (negb (received_id_matches o),
     fail_contract "received message id did not match sent message id");
   (negb (after_receive_state_observed o),
     probe_failure "post-RECEIVE refs/type observation failed");
   (negb (after_receive_state_bounded o),
     fail_contract "post-RECEIVE send urefs exceeded one");
   (negb (after_receive_type_consistent o),
     fail_contract "post-RECEIVE type did not match send urefs");
   (negb (usability_ok o), fail_contract "delivered send right usability check failed");
   (negb (kr_destroy_service o =? KERN_SUCCESS),
     fail_probe "mach_port_destroy service failed");
   (nx_baseline_blocks_probe (after o), probe_failure "final mach_port_names failed");
   (negb (baseline_ok o), fail_contract "port namespace did not return to baseline")].

Definition verdict_of (o : obs) : verdict :=
  if APPLE then ladder (ladder_of o)
  else skip "non-macOS host: Mach APIs unavailable".

Definition cleanup_ok (o : obs) : bool := if APPLE then baseline_ok o else true.
Definition cleanup_notes (o : obs) : string :=
  if APPLE then (if baseline_ok o then "" else "namespace delta detected")
  else "not applicable on non-macOS host".

Definition emit_message (o : obs) : op nx_json_t :=
  nx_json_key "message" ;;
  nx_json_begin_object ;;
  nx_json_key_string "msgh_bits" (hex32 (sent_msgh_bits o)) ;;
  nx_json_key "remote_port" ;;
  nx_json_begin_object ;;
  nx_json_key_string "name" "service_port" ;;
  nx_json_key_string "disposition" "MACH_MSG_TYPE_MOVE_SEND" ;;
  nx_json_key_string "right_type" "MACH_PORT_TYPE_SEND" ;;
  nx_json_end_object ;;
  nx_json_key "local_port" ;;
  nx_json_begin_object ;;
  nx_json_key_null "name" ;;
  nx_json_key_null "disposition" ;;
  nx_json_key_null "right_type" ;;
  nx_json_end_object ;;
  nx_json_key "header_rights" ;;
  nx_json_begin_array ;;
  nx_json_begin_object ;;
  nx_json_key_string "field" "msgh_remote_port" ;;
  nx_json_key_string "disposition" "MACH_MSG_TYPE_MOVE_SEND" ;;
  nx_json_key_string "right_type_before" "MACH_PORT_TYPE_SEND" ;;
  nx_json_key_string "right_type_after"
    (if type_after_send_exact o then "MACH_PORT_TYPE_RECEIVE" else "unknown") ;;
  nx_json_end_object ;;
  nx_json_end_array ;;
  nx_json_key_int "descriptor_count" 0 ;;
  nx_json_key "descriptors" ;;
  nx_json_begin_array ;;
  nx_json_end_array ;;
  nx_json_end_object.

Definition emit_returns (o : obs) : op nx_json_t :=
  let h := held_of o in
  let t := trip o in
  nx_json_key "returns" ;;
  nx_json_begin_array ;;
  nx_result_emit_return "mach_port_names_before" (nx_kern_return_str (kr (before o)))
    (kr (before o)) false 0 ;;
  nx_result_emit_return "mach_port_allocate_receive"
    (nx_kern_return_str (kr_alloc_receive h)) (kr_alloc_receive h) false 0 ;;
  nx_result_emit_return "mach_port_insert_right_make_send"
    (nx_kern_return_str (kr_insert_send h)) (kr_insert_send h) false 0 ;;
  nx_result_emit_return "mach_port_get_refs_send_before_send"
    (nx_kern_return_str (kr_refs (before_send h))) (kr_refs (before_send h)) false 0 ;;
  nx_result_emit_return "mach_port_type_before_send"
    (nx_kern_return_str (kr_type (before_send h))) (kr_type (before_send h)) false 0 ;;
  nx_result_emit_return "mach_msg_send_move_send" (nx_msg_return_str (mr_send o))
    (mr_send o) false 0 ;;
  nx_result_emit_return "mach_port_get_refs_send_after_send"
    (nx_kern_return_str (kr_refs (after_send t))) (kr_refs (after_send t)) false 0 ;;
  nx_result_emit_return "mach_port_type_after_send"
    (nx_kern_return_str (kr_type (after_send t))) (kr_type (after_send t)) false 0 ;;
  nx_result_emit_return "mach_msg_receive" (nx_msg_return_str (mr_receive t))
    (mr_receive t) false 0 ;;
  nx_result_emit_return "mach_port_get_refs_send_after_receive"
    (nx_kern_return_str (kr_refs (after_receive t))) (kr_refs (after_receive t)) false 0 ;;
  nx_result_emit_return "mach_port_type_after_receive"
    (nx_kern_return_str (kr_type (after_receive t))) (kr_type (after_receive t)) false 0 ;;
  (when usability_attempted (use_of o) do
     (nx_result_emit_return "mach_msg_usability_send_copy_send"
        (nx_msg_return_str (mr_usability_send (use_of o))) (mr_usability_send (use_of o))
        false 0 ;;
      nx_result_emit_return "mach_msg_usability_receive"
        (nx_msg_return_str (mr_usability_receive (use_of o)))
        (mr_usability_receive (use_of o)) false 0 ;;
      nx_result_emit_return "mach_port_get_refs_send_after_usability"
        (nx_kern_return_str (kr_send_refs_after_usability (use_of o)))
        (kr_send_refs_after_usability (use_of o)) false 0)) ;;
  nx_result_emit_return "mach_port_destroy_service"
    (nx_kern_return_str (kr_destroy_service o)) (kr_destroy_service o) false 0 ;;
  nx_result_emit_return "mach_port_names_after" (nx_kern_return_str (kr (after o)))
    (kr (after o)) false 0 ;;
  nx_json_end_array.

Definition emit_deltas (o : obs) : op nx_json_t :=
  let h := held_of o in
  let t := trip o in
  nx_json_key "right_deltas" ;;
  nx_json_begin_array ;;
  nx_result_emit_right_delta "header MOVE_SEND at SEND return" "service_port"
    "MACH_PORT_RIGHT_SEND"
    (refs_or_minus1_ll (kr_refs (before_send h)) (refs (before_send h)))
    (refs_or_minus1_ll (kr_refs (after_send t)) (refs (after_send t))) (-1) (-1)
    "consumed" ;;
  nx_result_emit_right_delta "header MOVE_SEND after RECEIVE" "service_port"
    "MACH_PORT_RIGHT_SEND"
    (refs_or_minus1_ll (kr_refs (after_send t)) (refs (after_send t)))
    (refs_or_minus1_ll (kr_refs (after_receive t)) (refs (after_receive t))) (-1) (-1)
    "recorded" ;;
  (when usability_attempted (use_of o) do
     (nx_result_emit_right_delta "delivered header right usability check" "service_port"
        "MACH_PORT_RIGHT_SEND"
        (refs_or_minus1_ll (kr_refs (after_receive t)) (refs (after_receive t)))
        (refs_or_minus1_ll (kr_send_refs_after_usability (use_of o)) (send_refs_after_usability (use_of o)))
        (-1) (-1) (if delivered_right_usable o then "usable" else "not usable"))) ;;
  nx_json_end_array.

Definition emit_observations (o : obs) : op nx_json_t :=
  let h := held_of o in
  let t := trip o in
  nx_json_key "observations" ;;
  nx_json_begin_object ;;
  nx_json_key_int "send_urefs_before_send"
    (refs_or_minus1_ll (kr_refs (before_send h)) (refs (before_send h))) ;;
  nx_json_key_int "send_urefs_after_send"
    (refs_or_minus1_ll (kr_refs (after_send t)) (refs (after_send t))) ;;
  nx_json_key_bool "send_urefs_consumed_at_send_return" (send_refs_consumed_at_send o) ;;
  nx_json_key_int "send_urefs_after_receive"
    (refs_or_minus1_ll (kr_refs (after_receive t)) (refs (after_receive t))) ;;
  nx_json_key_string "port_type_before_send" (nx_port_type_str (type (before_send h))) ;;
  nx_json_key_string "port_type_after_send" (nx_port_type_str (type (after_send t))) ;;
  nx_json_key_string "port_type_after_receive"
    (nx_port_type_str (type (after_receive t))) ;;
  nx_json_key_bool "delivered_right_usability_attempted" (usability_attempted (use_of o)) ;;
  nx_json_key_bool "delivered_right_usable" (delivered_right_usable o) ;;
  nx_json_key_int "send_urefs_after_usability"
    (refs_or_minus1_ll (kr_send_refs_after_usability (use_of o)) (send_refs_after_usability (use_of o))) ;;
  nx_json_key_string "sent_msgh_bits_raw_hex" (hex32 (sent_msgh_bits o)) ;;
  nx_json_key_string "sent_remote_disposition" "MACH_MSG_TYPE_MOVE_SEND" ;;
  nx_json_key_string "sent_local_disposition" "0" ;;
  nx_json_key_string "received_msgh_bits_raw_hex"
    (hex32 (received_msgh_bits (received t))) ;;
  nx_json_key_string "received_remote_disposition"
    (disposition_str (received_remote_disp (received t))) ;;
  nx_json_key_string "received_local_disposition"
    (disposition_str (received_local_disp (received t))) ;;
  nx_json_key_string "received_remote_port"
    (port_label (received_remote_port (received t)) (service_port h)) ;;
  nx_json_key_string "received_local_port"
    (port_label (received_local_port (received t)) (service_port h)) ;;
  nx_json_key_int "received_msgh_size" (received_msgh_size (received t)) ;;
  nx_json_key_int "received_msgh_id" (received_msgh_id (received t)) ;;
  nx_json_key_string "usability_msgh_bits_raw_hex"
    (hex32 (usability_msgh_bits (use_of o))) ;;
  nx_json_key_int "names_before" (count_or_minus1 (before o)) ;;
  nx_json_key_int "names_after" (count_or_minus1 (after o)) ;;
  nx_json_key_int "cleanup_delta" (cleanup_delta o) ;;
  nx_json_end_object.

Definition report (o : obs) (v : verdict) : op nx_json_t :=
  nx_json_begin_object ;;
  nx_result_emit_header agent_name "macos_m1_header_move_send_accounting" NULL NULL
    (status v) (sclass v) ;;
  nx_env_emit ;;
  emit_message o ;;
  emit_returns o ;;
  emit_deltas o ;;
  emit_observations o ;;
  nx_result_emit_cleanup (cleanup_ok o) (cleanup_notes o) ;;
  nx_json_key_string "notes" (notes v) ;;
  nx_json_end_object.

Definition main : prog (option outcome) :=
  o ← observe;
  let v := verdict_of o in
  let r := finish (report o v) v in
  _ ← nx_baseline_free (before o);
  _ ← nx_baseline_free (after o);
  mret r.
End header_move_send.

Section facts.
Context `{Host} `{MachSdk}.

Lemma header_move_send_written o :
  env_file_ok →
  emits_result true "macos_m1_header_move_send_accounting" (verdict_of o) (cleanup_ok o)
    (report o (verdict_of o)).
Proof.
  intros Henv. unfold report, emit_message, emit_returns, emit_deltas, emit_observations.
  report_tac.
Qed.

Lemma header_move_send_observe_ledger :
  lwp observe (λ o s, captured (before o) ∧ captured (after o) ∧
    s = mk_ledger ∅ ∅ (baseline_regions (before o) ⊎ baseline_regions (after o)))
    no_holdings.
Proof.
  unfold observe, acquire, after_sent, use_right, receive_back, look, receive_msg,
    Exchange.send_msg.
  lwp_exec; (split; [done|]; split; [done|]).
  all: ledger_eq.
Qed.

(** Whatever the kernel answers, [main] uses only rights and memory it
    holds, gives back everything, and writes one result document. *)
Theorem header_move_send_main_safe {W} `{Kernel W} w :
  env_file_ok →
  let o := (run observe w).1 in
  well_behaved observe main (λ o, finish (report o (verdict_of o)) (verdict_of o)) w ∧
  emits_result true "macos_m1_header_move_send_accounting" (verdict_of o) (cleanup_ok o)
    (report o (verdict_of o)).
Proof.
  intros Henv o. split; [|by apply header_move_send_written].
  eapply (lwp_two_parts _ _ _ _ header_move_send_observe_ledger). intros o' s (Hb1 & Hb2 & Hs).
  eapply lwp_tail; eauto.
Qed.

(** On a kernel that keeps the contract the probe passes, unless no port
    could be allocated: the send takes the one reference along, the message comes
    back and brings no right to use.  The name space is as it was. *)
Theorem header_move_send_conforms {W} `{Kernel W} `{!MachContract W} w :
  APPLE = true → healthy w →
  conforming observe main (λ o,
    verdict_of o =
      (if kr_alloc_receive (held_of o) =? KERN_SUCCESS then pass
       else probe_failure "mach_port_allocate receive failed") ∧
    cleanup_ok o = true ∧ usability_attempted (use_of o) = false) w.
Proof.
  intros Ha Hw. unfold main. apply cwp_two_parts; [done| |intros; tail_tac].
  unfold observe, after_sent, Exchange.send_msg. repeat cwp_step. apply cwp_acquire.
  - intros k n Hk. apply Z.eqb_neq in Hk as Ek. repeat cwp_step.
    conform_tac ltac:(unfold verdict_of, cleanup_ok, ladder_of, baseline_ok).
  - intros n Hn Hl Hm. cbn [service_port before_send kr_alloc_receive].
    repeat cwp_step. eapply cwp_send_moving; [space_side..|]. intros _.
    repeat cwp_step. eapply cwp_receive_back; [space_side..|]. intros fields Hid _.
    repeat cwp_step.
    conform_tac ltac:(unfold verdict_of, cleanup_ok, ladder_of, baseline_ok,
      send_refs_before_exact, received_id_matches, send_refs_consumed_at_send,
      type_before_exact, type_after_send_exact, after_receive_state_observed,
      after_receive_state_bounded, after_receive_type_consistent, usability_ok).
    rewrite Hid. by split.
Qed.
End facts.

(** The theorems at the reference kernel, on a task that has just started. *)
Section witnesses.
Import OnMacos.

Lemma header_move_send_main_safe_witness :
  env_file_ok ∧
  well_behaved observe main (λ o, finish (report o (verdict_of o)) (verdict_of o)) boot ∧
  emits_result true "macos_m1_header_move_send_accounting" (verdict_of (run observe boot).1)
    (cleanup_ok (run observe boot).1)
    (report (run observe boot).1 (verdict_of (run observe boot).1)).
Proof. split; [exact no_env_file|]. exact (header_move_send_main_safe boot no_env_file). Defined.

Lemma header_move_send_conforms_witness :
  APPLE = true ∧ healthy boot ∧
  verdict_of (run observe boot).1 = pass ∧ cleanup_ok (run observe boot).1 = true ∧
  view (run main boot).2 = boot_space.
Proof.
  split; [done|]. split; [exact healthy_boot|].
  destruct (header_move_send_conforms boot on_macos healthy_boot)
    as [Hv Hs].
  split; [|split; [exact (proj1 (proj2 Hv))|exact Hs]].
  etransitivity; [exact (proj1 Hv)|by vm_compute].
Defined.
End witnesses.
End HeaderMoveSend.
