(* ===== verification/Suite.v ===== *)
(** The probes that exchange no descriptors, together: what each of them is, as a
    record of its operations, and the law they all keep. *)

From stdpp Require Import gmultiset.
From S2P Require Import Prelude Json NxJson JsonText Builder MachApi NxMachUtils Ledger.
From S2P Require Import MachContract NxResult Probe RefKernel Smoke PortNames PortType.
From S2P Require Import PortGetRefs PortSet MsgRcvTimeout PortGetAttributes HostInfo.
From S2P Require Import TaskInfo AbsoluteTime Header HeaderCopySend HeaderMoveSend.

Local Open Scope oracle_scope.
Local Open Scope Z_scope.

Section suite.
Context `{Host} `{MachSdk}.

(** A probe program: its test id, whether its document has observations, what it
    observes, the verdict and the document for that, and the whole of [main]. *)
Record probe := mk_probe {
  test_id : string;
  with_observations : bool;
  observed : Type;
  observing : prog observed;
  judge : observed → verdict;
  clean : observed → bool;
  document : observed → op nx_json_t;
  entry_point : prog (option outcome);
}.

(** The law: whatever the kernel answers, the program makes only calls it is
    entitled to, ends with nothing held, and its output is the document with the
    verdict for what it observed. *)
Class SafeProbe (p : probe) : Prop :=
  safe_probe : ∀ W (K : Kernel W) w, env_file_ok →
    let o := (run (observing p) w).1 in
    well_behaved (observing p) (entry_point p) (λ o, finish (document p o) (judge p o)) w ∧
    emits_result (with_observations p) (test_id p) (judge p o) (clean p o) (document p o).

(** Reads the operations off a probe. *)
Ltac operations q :=
  unfold q; cbn [test_id with_observations observing judge clean document entry_point].

Definition smoke_probe : probe :=
  mk_probe "macos_foundation_smoke" false _ Smoke.Smoke.observe
    Smoke.Smoke.verdict_of Smoke.Smoke.cleanup_ok
    (λ o, Smoke.Smoke.report o (Smoke.Smoke.verdict_of o))
    Smoke.Smoke.main.
#[export] Instance smoke_safe : SafeProbe smoke_probe.
Proof.
  intros W K w Henv. operations smoke_probe. exact (Smoke.Smoke.smoke_main_safe w Henv).
Qed.

Definition port_names_probe : probe :=
  mk_probe "macos_foundation_port_names" true _ PortNames.PortNames.observe
    PortNames.PortNames.verdict_of PortNames.PortNames.cleanup_ok
    (λ o, PortNames.PortNames.report o (PortNames.PortNames.verdict_of o))
    PortNames.PortNames.main.
#[export] Instance port_names_safe : SafeProbe port_names_probe.
Proof.
  intros W K w Henv. operations port_names_probe. exact (PortNames.PortNames.port_names_main_safe w Henv).
Qed.

Definition port_type_probe : probe :=
  mk_probe "macos_foundation_port_type" true _ PortType.PortType.observe
    PortType.PortType.verdict_of PortType.PortType.cleanup_ok
    (λ o, PortType.PortType.report o (PortType.PortType.verdict_of o))
    PortType.PortType.main.
#[export] Instance port_type_safe : SafeProbe port_type_probe.
Proof.
  intros W K w Henv. operations port_type_probe. exact (PortType.PortType.port_type_main_safe w Henv).
Qed.

Definition port_get_refs_probe : probe :=
  mk_probe "macos_foundation_port_get_refs" true _ PortGetRefs.PortGetRefs.observe
    PortGetRefs.PortGetRefs.verdict_of PortGetRefs.PortGetRefs.cleanup_ok
    (λ o, PortGetRefs.PortGetRefs.report o (PortGetRefs.PortGetRefs.verdict_of o))
    PortGetRefs.PortGetRefs.main.
#[export] Instance port_get_refs_safe : SafeProbe port_get_refs_probe.
Proof.
  intros W K w Henv. operations port_get_refs_probe. exact (PortGetRefs.PortGetRefs.port_get_refs_main_safe w Henv).
Qed.

Definition port_set_probe : probe :=
  mk_probe "macos_foundation_port_set" true _ PortSet.PortSet.observe
    PortSet.PortSet.verdict_of PortSet.PortSet.cleanup_ok
    (λ o, PortSet.PortSet.report o (PortSet.PortSet.verdict_of o))
    PortSet.PortSet.main.
#[export] Instance port_set_safe : SafeProbe port_set_probe.
Proof.
  intros W K w Henv. operations port_set_probe. exact (PortSet.PortSet.port_set_main_safe w Henv).
Qed.

Definition msg_rcv_timeout_probe : probe :=
  mk_probe "macos_foundation_msg_rcv_timeout" true _ MsgRcvTimeout.MsgRcvTimeout.observe
    MsgRcvTimeout.MsgRcvTimeout.verdict_of MsgRcvTimeout.MsgRcvTimeout.cleanup_ok
    (λ o, MsgRcvTimeout.MsgRcvTimeout.report o (MsgRcvTimeout.MsgRcvTimeout.verdict_of o))
    MsgRcvTimeout.MsgRcvTimeout.main.
#[export] Instance msg_rcv_timeout_safe : SafeProbe msg_rcv_timeout_probe.
Proof.
  intros W K w Henv. operations msg_rcv_timeout_probe. exact (MsgRcvTimeout.MsgRcvTimeout.msg_rcv_timeout_main_safe w Henv).
Qed.

Definition port_get_attributes_probe : probe :=
  mk_probe "macos_foundation_port_get_attributes" true _ PortGetAttributes.PortGetAttributes.observe
    PortGetAttributes.PortGetAttributes.verdict_of PortGetAttributes.PortGetAttributes.cleanup_ok
    (λ o, PortGetAttributes.PortGetAttributes.report o (PortGetAttributes.PortGetAttributes.verdict_of o))
    PortGetAttributes.PortGetAttributes.main.
#[export] Instance port_get_attributes_safe : SafeProbe port_get_attributes_probe.
Proof.
  intros W K w Henv. operations port_get_attributes_probe. exact (PortGetAttributes.PortGetAttributes.port_get_attributes_main_safe w Henv).
Qed.

Definition host_info_probe : probe :=
  mk_probe "macos_foundation_host_info" true _ HostInfo.HostInfo.observe
    HostInfo.HostInfo.verdict_of HostInfo.HostInfo.cleanup_ok
    (λ o, HostInfo.HostInfo.report o (HostInfo.HostInfo.verdict_of o))
    HostInfo.HostInfo.main.
#[export] Instance host_info_safe : SafeProbe host_info_probe.
Proof.
  intros W K w Henv. operations host_info_probe. exact (HostInfo.HostInfo.host_info_main_safe w Henv).
Qed.

Definition task_info_probe : probe :=
  mk_probe "macos_foundation_task_info" true _ TaskInfo.TaskInfo.observe
    TaskInfo.TaskInfo.verdict_of TaskInfo.TaskInfo.cleanup_ok
    (λ o, TaskInfo.TaskInfo.report o (TaskInfo.TaskInfo.verdict_of o))
    TaskInfo.TaskInfo.main.
#[export] Instance task_info_safe : SafeProbe task_info_probe.
Proof.
  intros W K w Henv. operations task_info_probe. exact (TaskInfo.TaskInfo.task_info_main_safe w Henv).
Qed.

Definition absolute_time_probe : probe :=
  mk_probe "macos_foundation_absolute_time" true _ AbsoluteTime.AbsoluteTime.observe
    AbsoluteTime.AbsoluteTime.verdict_of AbsoluteTime.AbsoluteTime.cleanup_ok
    (λ o, AbsoluteTime.AbsoluteTime.report o (AbsoluteTime.AbsoluteTime.verdict_of o))
    AbsoluteTime.AbsoluteTime.main.
#[export] Instance absolute_time_safe : SafeProbe absolute_time_probe.
Proof.
  intros W K w Henv. operations absolute_time_probe. exact (AbsoluteTime.AbsoluteTime.absolute_time_main_safe w Henv).
Qed.

Definition header_copy_send_probe : probe :=
  mk_probe "macos_m1_header_copy_send_accounting" true _ HeaderCopySend.HeaderCopySend.observe
    HeaderCopySend.HeaderCopySend.verdict_of HeaderCopySend.HeaderCopySend.cleanup_ok
    (λ o, HeaderCopySend.HeaderCopySend.report o (HeaderCopySend.HeaderCopySend.verdict_of o))
    HeaderCopySend.HeaderCopySend.main.
#[export] Instance header_copy_send_safe : SafeProbe header_copy_send_probe.
Proof.
  intros W K w Henv. operations header_copy_send_probe. exact (HeaderCopySend.HeaderCopySend.header_copy_send_main_safe w Henv).
Qed.

Definition header_move_send_probe : probe :=
  mk_probe "macos_m1_header_move_send_accounting" true _ HeaderMoveSend.HeaderMoveSend.observe
    HeaderMoveSend.HeaderMoveSend.verdict_of HeaderMoveSend.HeaderMoveSend.cleanup_ok
    (λ o, HeaderMoveSend.HeaderMoveSend.report o (HeaderMoveSend.HeaderMoveSend.verdict_of o))
    HeaderMoveSend.HeaderMoveSend.main.
#[export] Instance header_move_send_safe : SafeProbe header_move_send_probe.
Proof.
  intros W K w Henv. operations header_move_send_probe. exact (HeaderMoveSend.HeaderMoveSend.header_move_send_main_safe w Henv).
Qed.

Definition suite : list probe :=
  [smoke_probe; port_names_probe; port_type_probe; port_get_refs_probe; port_set_probe;
   msg_rcv_timeout_probe; port_get_attributes_probe; host_info_probe; task_info_probe;
   absolute_time_probe; header_copy_send_probe; header_move_send_probe].

Lemma suite_safe_probes : Forall SafeProbe suite.
Proof. repeat (constructor; [apply _|]). constructor. Qed.

(** C1: whatever the kernel answers, every probe of the suite makes only calls on
    rights and memory it holds at that moment, and ends with nothing held; and,
    with an environment file that is JSON or none, its standard output is one JSON
    document with the members of the schema in their order, under its test id,
    with the verdict for what it observed, on which the exit code depends. *)
Theorem suite_safe {W} `{Kernel W} w p :
  p ∈ suite → env_file_ok →
  let o := (run (observing p) w).1 in
  well_behaved (observing p) (entry_point p) (λ o, finish (document p o) (judge p o)) w ∧
  emits_result (with_observations p) (test_id p) (judge p o) (clean p o) (document p o).
Proof.
  intros Hp Henv.
  exact (proj1 (Forall_forall _ _) suite_safe_probes p Hp W _ w Henv).
Qed.

(** C17: on a kernel that keeps the contract and whose clock does not run backwards,
    each of the ten foundation probes leaves the name space as it was, with a clean
    result, and passes, under the conditions that are its own: a port could be
    allocated; [mach_port_names] is supported; the name taken for an unused one is
    unused; [mach_host_self] returns a right; the task holds a right to itself, or has a
    name for its own port.  In particular the reference counts are the documented ones,
    the type bits are exact, and the message sent to the member comes out of the set.
    Where [mach_port_names] is not supported, port_names reports a violated contract
    and not a failure of the probe. *)
Theorem foundation_conforms {W} `{Kernel W} `{!MachContract W} `{!AbsoluteTime.MachClock W} w :
  APPLE = true → healthy w →
  (conforming Smoke.observe Smoke.main (λ o,
    Smoke.verdict_of o = (if Smoke.kr_alloc o =? KERN_SUCCESS then pass
                    else probe_failure "mach_port_allocate failed") ∧
    Smoke.cleanup_ok o = true) w) ∧
  (conforming PortNames.observe PortNames.main (λ o,
    PortNames.verdict_of o =
      (if negb (PortNames.kr_alloc o =? KERN_SUCCESS)
       then probe_failure "mach_port_allocate failed"
       else if names_supported kernel_platform then pass
       else fail_contract "mach_port_names did not report allocated probe port") ∧
    PortNames.cleanup_ok o = true) w) ∧
  (conforming MsgRcvTimeout.observe MsgRcvTimeout.main (λ o,
    MsgRcvTimeout.verdict_of o = (if MsgRcvTimeout.kr_alloc o =? KERN_SUCCESS then pass
                    else probe_failure "mach_port_allocate(RECEIVE) failed") ∧
    MsgRcvTimeout.cleanup_ok o = true) w) ∧
  (view w !! 0xdeadbeef = None → ¬ kernel_name kernel_platform 0xdeadbeef →
   (conforming PortGetAttributes.observe PortGetAttributes.main (λ o,
    PortGetAttributes.verdict_of o = (if PortGetAttributes.kr_alloc o =? KERN_SUCCESS then pass
                    else probe_failure "mach_port_allocate(RECEIVE) failed") ∧
    PortGetAttributes.cleanup_ok o = true) w)) ∧
  ((∀ n e, view w !! n = Some e → e_send e + 2 ≤ UREFS_MAX) →
   (conforming HostInfo.observe HostInfo.main (λ o,
    (HostInfo.host_self_a o ≠ MACH_PORT_NULL → HostInfo.host_self_b o ≠ MACH_PORT_NULL →
     HostInfo.verdict_of o = pass ∧ HostInfo.host_self_a o = HostInfo.host_self_b o) ∧
    HostInfo.cleanup_ok o = true) w)) ∧
  (mach_task_self ≠ MACH_PORT_NULL →
   (∃ e, view w !! mach_task_self = Some e ∧ e_obj e = TaskPort ∧ 0 < e_send e) →
   (conforming TaskInfo.observe TaskInfo.main (λ o,
     TaskInfo.verdict_of o = pass ∧ TaskInfo.cleanup_ok o = true) w)) ∧
  (conforming AbsoluteTime.observe AbsoluteTime.main (λ o,
    AbsoluteTime.verdict_of o = pass ∧ AbsoluteTime.cleanup_ok o = true) w) ∧
  (conforming PortGetRefs.observe PortGetRefs.main (λ o,
    PortGetRefs.verdict_of o =
      (if PortGetRefs.kr_alloc_receive o =? KERN_SUCCESS then pass
       else probe_failure "mach_port_allocate receive failed") ∧
    PortGetRefs.cleanup_ok o = true) w) ∧
  (conforming PortSet.observe PortSet.main (λ o,
    PortSet.verdict_of o =
      (if negb (PortSet.kr_alloc_set o =? KERN_SUCCESS)
       then probe_failure "mach_port_allocate(PORT_SET) failed"
       else if negb (PortSet.kr_alloc_mem o =? KERN_SUCCESS)
       then probe_failure "mach_port_allocate(RECEIVE) member failed"
       else pass) ∧
    PortSet.cleanup_ok o = true) w) ∧
  (is_Some (view w !! mach_task_self) →
   (conforming PortType.observe PortType.main (λ o,
    PortType.verdict_of o =
      (if negb (PortType.kr_alloc_receive o =? KERN_SUCCESS)
       then probe_failure "mach_port_allocate receive failed"
       else if negb (PortType.kr_alloc_port_set o =? KERN_SUCCESS)
       then probe_failure "mach_port_allocate port set failed"
       else pass) ∧
    PortType.cleanup_ok o = true) w)).
Proof.
  intros Ha Hw. split; [exact (Smoke.Smoke.smoke_conforms w Ha Hw)|].
  split; [exact (PortNames.PortNames.port_names_conforms w Ha Hw)|].
  split; [exact (MsgRcvTimeout.MsgRcvTimeout.msg_rcv_timeout_conforms w Ha Hw)|].
  split; [exact (PortGetAttributes.PortGetAttributes.port_get_attributes_conforms w Ha Hw)|].
  split; [exact (HostInfo.HostInfo.host_info_conforms w Ha Hw)|].
  split; [exact (TaskInfo.TaskInfo.task_info_conforms w Ha Hw)|].
  split; [exact (AbsoluteTime.AbsoluteTime.absolute_time_conforms w Ha Hw)|].
  split; [exact (PortGetRefs.PortGetRefs.port_get_refs_conforms w Ha Hw)|].
  split; [exact (PortSet.PortSet.port_set_conforms w Ha Hw)|].
  exact (PortType.PortType.port_type_conforms w Ha Hw).
Qed.

(** C23: on a kernel that keeps the contract both probes of the m1 directory pass, unless no
    port could be allocated: the message comes back, a reference that is copied is still
    there, before the receive and after it, and one that is moved is taken along and comes
    with no right to use.  The name space is as it was. *)
Theorem headers_conform {W} `{Kernel W} `{!MachContract W} w :
  APPLE = true → healthy w →
  conforming HeaderCopySend.observe HeaderCopySend.main (λ o,
    HeaderCopySend.verdict_of o =
      (if Header.kr_alloc_receive (HeaderCopySend.held_of o) =? KERN_SUCCESS then pass
       else probe_failure "mach_port_allocate receive failed") ∧
    HeaderCopySend.cleanup_ok o = true) w ∧
  conforming HeaderMoveSend.observe HeaderMoveSend.main (λ o,
    HeaderMoveSend.verdict_of o =
      (if Header.kr_alloc_receive (HeaderMoveSend.held_of o) =? KERN_SUCCESS then pass
       else probe_failure "mach_port_allocate receive failed") ∧
    HeaderMoveSend.cleanup_ok o = true ∧
    HeaderMoveSend.usability_attempted (HeaderMoveSend.use_of o) = false) w.
Proof.
  intros Ha Hw. split; [exact (HeaderCopySend.HeaderCopySend.header_copy_send_conforms w Ha Hw)|].
  exact (HeaderMoveSend.HeaderMoveSend.header_move_send_conforms w Ha Hw).
Qed.

(** No two probes of the suite have the same test id. *)
Lemma suite_ids : NoDup (map test_id suite).
Proof. apply (bool_decide_unpack _). by vm_compute. Qed.
End suite.

Section witnesses.
Import OnMacos.

Lemma suite_safe_witness :
  port_set_probe ∈ suite ∧ env_file_ok ∧
  well_behaved PortSet.PortSet.observe PortSet.PortSet.main
    (λ o, finish (PortSet.PortSet.report o (PortSet.PortSet.verdict_of o))
            (PortSet.PortSet.verdict_of o)) boot ∧
  emits_result true "macos_foundation_port_set" pass true
    (PortSet.PortSet.report (run PortSet.PortSet.observe boot).1 pass).
Proof.
  assert (port_set_probe ∈ suite) as Hp by (do 4 right; by left).
  split; [exact Hp|]. split; [exact no_env_file|].
  destruct (suite_safe boot port_set_probe Hp no_env_file) as [Hw He].
  split; [exact Hw|].
  assert (PortSet.PortSet.verdict_of (run PortSet.PortSet.observe boot).1 = pass) as Hv
    by by vm_compute.
  assert (PortSet.PortSet.cleanup_ok (run PortSet.PortSet.observe boot).1 = true) as Hc
    by by vm_compute.
  change (emits_result true "macos_foundation_port_set"
    (PortSet.PortSet.verdict_of (run PortSet.PortSet.observe boot).1)
    (PortSet.PortSet.cleanup_ok (run PortSet.PortSet.observe boot).1)
    (PortSet.PortSet.report (run PortSet.PortSet.observe boot).1
       (PortSet.PortSet.verdict_of (run PortSet.PortSet.observe boot).1))) in He.
  by rewrite Hv, Hc in He.
Defined.

#[local] Existing Instance AbsoluteTime.reference_clock.

Lemma foundation_conforms_witness :
  APPLE = true ∧ healthy boot ∧
  (Smoke.verdict_of (run Smoke.observe boot).1 = pass ∧ view (run Smoke.main boot).2 = boot_space) ∧
  (PortNames.verdict_of (run PortNames.observe boot).1 = pass) ∧
  (MsgRcvTimeout.verdict_of (run MsgRcvTimeout.observe boot).1 = pass) ∧
  (PortGetAttributes.verdict_of (run PortGetAttributes.observe boot).1 = pass) ∧
  (HostInfo.cleanup_ok (run HostInfo.observe boot).1 = true) ∧
  (TaskInfo.verdict_of (run TaskInfo.observe boot).1 = pass) ∧
  (AbsoluteTime.verdict_of (run AbsoluteTime.observe boot).1 = pass) ∧
  (PortGetRefs.verdict_of (run PortGetRefs.observe boot).1 = pass) ∧
  (PortSet.verdict_of (run PortSet.observe boot).1 = pass) ∧
  (PortType.verdict_of (run PortType.observe boot).1 = pass).
Proof.
  split; [done|]. split; [exact healthy_boot|].
  assert (mach_task_self ≠ MACH_PORT_NULL) as Hn by done.
  assert (¬ kernel_name kernel_platform 0xdeadbeef) as Hk
    by (intros [_ Hx]; by vm_compute in Hx).
  assert (∃ e, view boot !! mach_task_self = Some e ∧ e_obj e = TaskPort ∧ 0 < e_send e) as He
    by by eexists.
  destruct (foundation_conforms boot on_macos healthy_boot)
    as ([[H1 _] Hs] & [[H2 _] _] & [[H3 _] _] & H4 & H5 & H6 & [[H7 _] _] & [[H8 _] _] &
        [[H9 _] _] & H10).
  destruct (H4 eq_refl Hk) as [[H4' _] _]. destruct (H5 boot_urefs) as [[_ H5'] _].
  destruct (H6 Hn He) as [[H6' _] _]. destruct (H10 (ex_intro _ _ eq_refl)) as [[H10' _] _].
  split; [split; [exact H1|exact Hs]|]. split; [exact H2|]. split; [exact H3|].
  split; [exact H4'|]. split; [exact H5'|]. split; [exact H6'|].
  split; [exact H7|]. split; [exact H8|]. split; [exact H9|exact H10'].
Defined.

Lemma headers_conform_witness :
  APPLE = true ∧ healthy boot ∧
  HeaderCopySend.verdict_of (run HeaderCopySend.observe boot).1 = pass ∧
  HeaderMoveSend.verdict_of (run HeaderMoveSend.observe boot).1 = pass ∧
  view (run HeaderMoveSend.main boot).2 = boot_space.
Proof.
  destruct (headers_conform boot on_macos healthy_boot) as [[[H1 _] _] [[H2 _] H3]].
  split; [done|]. split; [exact healthy_boot|].
  split; [etransitivity; [exact H1|by vm_compute]|].
  split; [etransitivity; [exact H2|by vm_compute]|exact H3].
Defined.
End witnesses.
