(* ===== verification/InvalidDisposition.v ===== *)
(** [macos-validation/probes/m2/invalid_descriptor_disposition.c]: a message with
    a port descriptor whose disposition does not exist is refused, and changes no
    right. *)

From stdpp Require Import gmultiset.
From S2P Require Import Prelude Json NxJson JsonText Builder MachApi NxMachUtils Ledger.
From S2P Require Import MachContract NxResult Probe RefKernel StatusPipe Exchange Header.
From S2P Require Import ToSelf.

Local Open Scope oracle_scope.
Local Open Scope Z_scope.

Module InvalidDisposition.
Import ToSelf.

Definition OB24_INVALID_MSG_ID : Z := 0x4f423241.
Definition OB24_INVALID_DISPOSITION : Z := 0xff.

Section invalid_disposition.
Context `{Host} `{MachSdk}.

(** [sizeof] of the two message structures. *)
Definition sizeof_send_msg : Z :=
  sizeof_mach_msg_header + sizeof_mach_msg_body + sizeof_mach_msg_port_descriptor.
Definition sizeof_recv_msg : Z := sizeof_send_msg + sizeof_mach_msg_max_trailer.

(** What the calls on the two ports show. *)
Record looked := mk_looked {
  kr_service_refs : kern_return_t;
  service_refs : mach_port_urefs_t;
  kr_cargo_refs : kern_return_t;
  cargo_refs : mach_port_urefs_t;
  kr_cargo_type : kern_return_t;
  cargo_type : mach_port_type_t;
}.
Definition not_looked : looked := mk_looked KERN_FAILURE 0 KERN_FAILURE 0 KERN_FAILURE 0.

Definition look (p : ports) : prog looked :=
  '(k1, u1) ← call (mach_port_get_refs (service_port p) MACH_PORT_RIGHT_SEND);
  '(k2, u2) ← call (mach_port_get_refs (cargo_port p) MACH_PORT_RIGHT_SEND);
  '(k3, t) ← call (mach_port_type (cargo_port p));
  mret (mk_looked k1 u1 k2 u2 k3 t).

Definition invalid_msg (p : ports) : mach_msg_buf :=
  mk_msg (Z.lor (MACH_MSGH_BITS MACH_MSG_TYPE_COPY_SEND 0) MACH_MSGH_BITS_COMPLEX)
    sizeof_send_msg (service_port p) MACH_PORT_NULL OB24_INVALID_MSG_ID 1
    (mk_desc (cargo_port p) OB24_INVALID_DISPOSITION MACH_MSG_PORT_DESCRIPTOR) zero_desc.

(** The members of a message that arrived all the same. *)
Record received := mk_received {
  received_msgh_bits : Z;
  received_msgh_id : Z;
  received_descriptor_count : Z;
  delivered_port : mach_port_t;
  received_descriptor_type : Z;
  received_descriptor_disposition : Z;
}.
Definition nothing_received : received := mk_received 0 0 0 MACH_PORT_NULL 0 0.
Definition received_from (m : mach_msg_buf) : received :=
  mk_received (msgh_bits m) (msgh_id m) (msgh_descriptor_count m) (desc_name (msg_cargo m))
    (desc_type (msg_cargo m)) (desc_disposition (msg_cargo m)).

Record exchanged := mk_exchanged {
  ports_of : ports;
  looked_before : looked;
  sent_msgh_bits : Z;
  mr_send : mach_msg_return_t;
  looked_after : looked;
  mr_receive : mach_msg_return_t;
  received_of : received;
}.
Definition no_exchange : exchanged :=
  mk_exchanged no_ports not_looked 0 MACH_SEND_INVALID_DEST not_looked
    MACH_RCV_INVALID_NAME nothing_received.

Definition exchange : prog exchanged :=
  p ← acquire_ports;
  before ← guarded (kr_insert_cargo_send p =? KERN_SUCCESS) not_looked (look p);
  '(bits, mr_send) ←
    guarded ((kr_service_refs before =? KERN_SUCCESS) &&
             (kr_cargo_refs before =? KERN_SUCCESS) &&
             (kr_cargo_type before =? KERN_SUCCESS)) (0, MACH_SEND_INVALID_DEST) (
      '(mr, _) ← send_msg OB24_SEND_TIMEOUT_MS (invalid_msg p);
      mret (msgh_bits (invalid_msg p), mr));
  after ← look p;
  '(mr_receive, r) ←
    guarded (kr_alloc_service p =? KERN_SUCCESS) (MACH_RCV_INVALID_NAME, nothing_received) (
      '(mr, m) ← receive_msg OB24_RECV_TIMEOUT_MS sizeof_recv_msg (service_port p);
      mret (mr, if mr =? MACH_MSG_SUCCESS then received_from m else nothing_received));
  mret (mk_exchanged p before bits mr_send after mr_receive r).

Record release := mk_release {
  kr_deallocate_delivered : kern_return_t;
  kr_destroy_cargo : kern_return_t;
  kr_destroy_service : kern_return_t;
  after : nx_baseline_t;
}.

(** [after] is the snapshot that is replaced. *)
Definition settle (x : exchanged) (after : nx_baseline_t) : prog release :=
  kr_delivered ← guarded ((mr_receive x =? MACH_MSG_SUCCESS) &&
                          negb (delivered_port (received_of x) =? MACH_PORT_NULL)) KERN_FAILURE
    (call (mach_port_deallocate (delivered_port (received_of x))));
  '(kr_cargo, kr_service) ← destroy_ports (ports_of x);
  _ ← nx_baseline_free after;
  after ← nx_baseline_capture;
  mret (mk_release kr_delivered kr_cargo kr_service after).

Record obs := mk_obs {
  before : nx_baseline_t;
  exchanged_of : exchanged;
  release_of : release;
}.

Definition meet : prog (nx_baseline_t * nx_baseline_t * exchanged) :=
  before ← nx_baseline_capture;
  after ← nx_baseline_capture;
  x ← guarded APPLE no_exchange exchange;
  mret (before, after, x).

Definition observe : prog obs :=
  '(before, after, x) ← meet;
  r ← guarded APPLE (mk_release KERN_FAILURE KERN_FAILURE KERN_FAILURE after) (settle x after);
  mret (mk_obs before x r).

Definition compared (o : obs) : bool * Z :=
  nx_baseline_compare (before o) (after (release_of o)).
Definition baseline_ok (o : obs) : bool := (compared o).1.
Definition cleanup_delta (o : obs) : Z := if APPLE then (compared o).2 else 0.

Definition send_rejected (o : obs) : bool :=
  negb (mr_send (exchanged_of o) =? MACH_MSG_SUCCESS).
Definition no_delivery (o : obs) : bool :=
  mr_receive (exchanged_of o) =? MACH_RCV_TIMED_OUT.
Definition service_refs_unchanged (o : obs) : bool :=
  let b := looked_before (exchanged_of o) in
  let a := looked_after (exchanged_of o) in
  (kr_service_refs b =? KERN_SUCCESS) && (kr_service_refs a =? KERN_SUCCESS) &&
  (service_refs b =? service_refs a).
Definition cargo_refs_unchanged (o : obs) : bool :=
  let b := looked_before (exchanged_of o) in
  let a := looked_after (exchanged_of o) in
  (kr_cargo_refs b =? KERN_SUCCESS) && (kr_cargo_refs a =? KERN_SUCCESS) &&
  (cargo_refs b =? cargo_refs a).
Definition cargo_type_unchanged (o : obs) : bool :=
  let b := looked_before (exchanged_of o) in
  let a := looked_after (exchanged_of o) in
  (kr_cargo_type b =? KERN_SUCCESS) && (kr_cargo_type a =? KERN_SUCCESS) &&
  (cargo_type b =? cargo_type a).

Definition ladder_of (o : obs) : list (bool * verdict) :=
  let p := ports_of (exchanged_of o) in
  [(nx_baseline_blocks_probe (before o), probe_failure "initial mach_port_names failed");
   (negb (kr_alloc_service p =? KERN_SUCCESS) || negb (kr_insert_service_send p =? KERN_SUCCESS) ||
    negb (kr_alloc_cargo p =? KERN_SUCCESS) || negb (kr_insert_cargo_send p =? KERN_SUCCESS),
     probe_failure "setup failed");
   (negb (send_rejected o), fail_contract "invalid descriptor disposition was not rejected");
   (negb (no_delivery o),
     fail_contract "invalid descriptor disposition delivered a message");
   (negb (service_refs_unchanged o) || negb (cargo_refs_unchanged o) ||
    negb (cargo_type_unchanged o),
     fail_contract "invalid descriptor disposition mutated sender rights");
   (negb (kr_destroy_cargo (release_of o) =? KERN_SUCCESS) ||
    negb (kr_destroy_service (release_of o) =? KERN_SUCCESS),
     fail_probe "cleanup destroy failed");
   (nx_baseline_blocks_probe (after (release_of o)),
     probe_failure "final mach_port_names failed");
   (negb (baseline_ok o), fail_contract "port namespace did not return to baseline")].

Definition verdict_of (o : obs) : verdict :=
  if APPLE then ladder (ladder_of o)
  else skip "non-macOS host: Mach APIs unavailable".

Definition cleanup_ok (o : obs) : bool := if APPLE then baseline_ok o else true.
Definition cleanup_notes (o : obs) : string :=
  if APPLE then (if baseline_ok o then "" else "namespace delta detected")
  else "not applicable on non-macOS host".

Definition emit_message (o : obs) : op nx_json_t :=
  let x := exchanged_of o in
  let a := looked_after (exchanged_of o) in
  nx_json_key "message" ;;
  nx_json_begin_object ;;
  nx_json_key_string "msgh_bits" (hex32 (sent_msgh_bits x)) ;;
  nx_json_key "remote_port" ;;
  nx_json_begin_object ;;
  nx_json_key_string "name" "service_port" ;;
  nx_json_key_string "disposition" "MACH_MSG_TYPE_COPY_SEND" ;;
  nx_json_key_string "right_type" "MACH_PORT_TYPE_SEND" ;;
  nx_json_end_object ;;
  nx_json_key "local_port" ;;
  nx_json_begin_object ;;
  nx_json_key_null "name" ;;
  nx_json_key_null "disposition" ;;
  nx_json_key_null "right_type" ;;
  nx_json_end_object ;;
  nx_json_key "header_rights" ;;
  nx_json_begin_array ;;
  nx_json_begin_object ;;
  nx_json_key_string "field" "msgh_remote_port" ;;
  nx_json_key_string "disposition" "MACH_MSG_TYPE_COPY_SEND" ;;
  nx_json_key_string "right_type_before" "MACH_PORT_TYPE_SEND" ;;
  nx_json_key_string "right_type_after" "MACH_PORT_TYPE_SEND" ;;
  nx_json_end_object ;;
  nx_json_end_array ;;
  nx_json_key_int "descriptor_count" 1 ;;
  nx_json_key "descriptors" ;;
  nx_json_begin_array ;;
  nx_json_begin_object ;;
  nx_json_key_string "name" "cargo_send_descriptor" ;;
  nx_json_key_string "disposition" (hex32 OB24_INVALID_DISPOSITION) ;;
  nx_json_key_string "right_type_before" "MACH_PORT_TYPE_SEND" ;;
  nx_json_key_string "right_type_after" (nx_port_type_str (cargo_type a)) ;;
  nx_json_end_object ;;
  nx_json_end_array ;;
  nx_json_end_object.

Definition emit_returns (o : obs) : op nx_json_t :=
  let x := exchanged_of o in
  let p := ports_of (exchanged_of o) in
  let b := looked_before (exchanged_of o) in
  let a := looked_after (exchanged_of o) in
  nx_json_key "returns" ;;
  nx_json_begin_array ;;
  nx_result_emit_return "mach_port_names_before" (nx_kern_return_str (kr (before o)))
    (kr (before o)) false 0 ;;
  nx_result_emit_return "mach_port_allocate_service"
    (nx_kern_return_str (kr_alloc_service p)) (kr_alloc_service p) false 0 ;;
  nx_result_emit_return "mach_port_insert_right_service_make_send"
    (nx_kern_return_str (kr_insert_service_send p)) (kr_insert_service_send p) false 0 ;;
  nx_result_emit_return "mach_port_allocate_cargo"
    (nx_kern_return_str (kr_alloc_cargo p)) (kr_alloc_cargo p) false 0 ;;
  nx_result_emit_return "mach_port_insert_right_cargo_make_send"
    (nx_kern_return_str (kr_insert_cargo_send p)) (kr_insert_cargo_send p) false 0 ;;
  nx_result_emit_return "mach_port_get_refs_service_before_send"
    (nx_kern_return_str (kr_service_refs b)) (kr_service_refs b) false 0 ;;
  nx_result_emit_return "mach_port_get_refs_cargo_before_send"
    (nx_kern_return_str (kr_cargo_refs b)) (kr_cargo_refs b) false 0 ;;
  nx_result_emit_return "mach_port_type_cargo_before_send"
    (nx_kern_return_str (kr_cargo_type b)) (kr_cargo_type b) false 0 ;;
  nx_result_emit_return "mach_msg_send_invalid_descriptor_disposition"
    (nx_msg_return_str (mr_send x)) (mr_send x) false 0 ;;
  nx_result_emit_return "mach_port_get_refs_service_after_send"
    (nx_kern_return_str (kr_service_refs a)) (kr_service_refs a) false 0 ;;
  nx_result_emit_return "mach_port_get_refs_cargo_after_send"
    (nx_kern_return_str (kr_cargo_refs a)) (kr_cargo_refs a) false 0 ;;
  nx_result_emit_return "mach_port_type_cargo_after_send"
    (nx_kern_return_str (kr_cargo_type a)) (kr_cargo_type a) false 0 ;;
  nx_result_emit_return "mach_msg_receive_after_invalid_send"
    (nx_msg_return_str (mr_receive x)) (mr_receive x) false 0 ;;
  (when ((mr_receive x) =? MACH_MSG_SUCCESS) do
     (nx_result_emit_return "mach_port_deallocate_delivered_unexpected"
        (nx_kern_return_str (kr_deallocate_delivered (release_of o)))
        (kr_deallocate_delivered (release_of o)) false 0)) ;;
  nx_result_emit_return "mach_port_destroy_cargo"
    (nx_kern_return_str (kr_destroy_cargo (release_of o)))
    (kr_destroy_cargo (release_of o)) false 0 ;;
  nx_result_emit_return "mach_port_destroy_service"
    (nx_kern_return_str (kr_destroy_service (release_of o)))
    (kr_destroy_service (release_of o)) false 0 ;;
  nx_result_emit_return "mach_port_names_after"
    (nx_kern_return_str (kr (after (release_of o)))) (kr (after (release_of o))) false 0 ;;
  nx_json_end_array.

Definition emit_deltas (o : obs) : op nx_json_t :=
  let b := looked_before (exchanged_of o) in
  let a := looked_after (exchanged_of o) in
  nx_json_key "right_deltas" ;;
  nx_json_begin_array ;;
  nx_result_emit_right_delta "invalid descriptor disposition service header"
    "service_port" "MACH_PORT_RIGHT_SEND"
    (refs_or_minus1 (kr_service_refs b) (service_refs b))
    (refs_or_minus1 (kr_service_refs a) (service_refs a)) (-1) (-1) "unchanged" ;;
  nx_result_emit_right_delta "invalid descriptor disposition cargo descriptor"
    "cargo_port" "MACH_PORT_RIGHT_SEND" (refs_or_minus1 (kr_cargo_refs b) (cargo_refs b))
    (refs_or_minus1 (kr_cargo_refs a) (cargo_refs a)) (-1) (-1) "unchanged" ;;
  nx_json_end_array.

Definition emit_observations (o : obs) : op nx_json_t :=
  let x := exchanged_of o in
  let b := looked_before (exchanged_of o) in
  let a := looked_after (exchanged_of o) in
  let r := received_of (exchanged_of o) in
  nx_json_key "observations" ;;
  nx_json_begin_object ;;
  nx_json_key_string "invalid_descriptor_disposition" (hex32 OB24_INVALID_DISPOSITION) ;;
  nx_json_key_string "invalid_descriptor_disposition_label"
    (disposition_str OB24_INVALID_DISPOSITION) ;;
  nx_json_key_string "descriptor_type" (descriptor_type_str MACH_MSG_PORT_DESCRIPTOR) ;;
  nx_json_key_bool "send_rejected" (send_rejected o) ;;
  nx_json_key_string "send_return" (nx_msg_return_str (mr_send x)) ;;
  nx_json_key_bool "message_delivered" ((mr_receive x) =? MACH_MSG_SUCCESS) ;;
  nx_json_key_string "receive_after_send" (nx_msg_return_str (mr_receive x)) ;;
  nx_json_key_string "received_msgh_bits_raw_hex" (hex32 (received_msgh_bits r)) ;;
  nx_json_key_int "received_msgh_id" (received_msgh_id r) ;;
  nx_json_key_int "received_descriptor_count" (received_descriptor_count r) ;;
  nx_json_key_string "received_descriptor_type"
    (descriptor_type_str (received_descriptor_type r)) ;;
  nx_json_key_string "received_descriptor_disposition"
    (disposition_str (received_descriptor_disposition r)) ;;
  nx_json_key_bool "service_send_refs_unchanged" (service_refs_unchanged o) ;;
  nx_json_key_bool "cargo_send_refs_unchanged" (cargo_refs_unchanged o) ;;
  nx_json_key_bool "cargo_type_unchanged" (cargo_type_unchanged o) ;;
  nx_json_key_string "cargo_type_before" (nx_port_type_str (cargo_type b)) ;;
  nx_json_key_string "cargo_type_after" (nx_port_type_str (cargo_type a)) ;;
  nx_json_key_int "service_refs_before" (service_refs b) ;;
  nx_json_key_int "service_refs_after" (service_refs a) ;;
  nx_json_key_int "cargo_refs_before" (cargo_refs b) ;;
  nx_json_key_int "cargo_refs_after" (cargo_refs a) ;;
  nx_json_key_int "names_before" (count_or_minus1 (before o)) ;;
  nx_json_key_int "names_after" (count_or_minus1 (after (release_of o))) ;;
  nx_json_key_int "cleanup_delta" (cleanup_delta o) ;;
  nx_json_end_object.

Definition report (o : obs) (v : verdict) : op nx_json_t :=
  nx_json_begin_object ;;
  nx_result_emit_header agent_name "macos_m2_invalid_descriptor_disposition" NULL NULL
    (status v) (sclass v) ;;
  nx_env_emit ;;
  emit_message o ;;
  emit_returns o ;;
  emit_deltas o ;;
  emit_observations o ;;
  nx_result_emit_cleanup (cleanup_ok o) (cleanup_notes o) ;;
  nx_json_key_string "notes" (notes v) ;;
  nx_json_end_object.

Definition main : prog (option outcome) :=
  o ← observe;
  let v := verdict_of o in
  let r := finish (report o v) v in
  _ ← nx_baseline_free (before o);
  _ ← nx_baseline_free (after (release_of o));
  mret r.
End invalid_disposition.

Section facts.
Context `{Host} `{MachSdk}.

Lemma invalid_disposition_written o :
  env_file_ok →
  emits_result true "macos_m2_invalid_descriptor_disposition" (verdict_of o) (cleanup_ok o)
    (report o (verdict_of o)).
Proof.
  intros Henv. unfold report, emit_message, emit_returns, emit_deltas, emit_observations.
  report_tac.
Qed.

(** ** What is held *)

Context `{!SdkSizes}.

(** The right that came with a message. *)
Definition came (x : exchanged) : gmultiset Z :=
  named ((mr_receive x =? MACH_MSG_SUCCESS) &&
         (1 <=? received_descriptor_count (received_of x))) (delivered_port (received_of x)).

(** A name is delivered with a descriptor only, and with no more descriptors than
    there is room for. *)
Definition tidy (x : exchanged) : Prop :=
  (delivered_port (received_of x) ≠ MACH_PORT_NULL →
   mr_receive x = MACH_MSG_SUCCESS ∧ 1 ≤ received_descriptor_count (received_of x)) ∧
  received_descriptor_count (received_of x) ≤ 1.

Lemma came_with_received mr m (r := if mr =? MACH_MSG_SUCCESS then received_from m
                                    else nothing_received) :
  received_descriptor_count r ≤ 1 →
  came_with mr m =
    named ((mr =? MACH_MSG_SUCCESS) && (1 <=? received_descriptor_count r))
      (delivered_port r).
Proof. unfold came_with, r. destruct (mr =? MACH_MSG_SUCCESS); [apply one_carried|done]. Qed.

Lemma invalid_exchange_ledger B :
  rwp exchange (λ x l,
    received_descriptor_count (received_of x) ≤ 1 → l = ports_hold (ports_of x) (came x) B)
    (mk_ledger ∅ ∅ B).
Proof.
  unfold exchange, look. apply wp_bind.
  eapply wp_mono; [apply acquire_ports_ledger|]. intros p l ->. repeat rwp_step.
  all: try ledger_pre; try (unfold sizeof_recv_msg, sizeof_send_msg; size_tac).
  all: intros Hc; unfold ports_hold, add_sends; cbn [ports_of rights sends regions].
  all: rewrite ?came_with_received by exact Hc; f_equal; multiset_solver.
Qed.

Lemma invalid_settle_ledger (x : exchanged) (after : nx_baseline_t) (B : gmultiset (Z * Z)) :
  captured after → tidy x →
  rwp (settle x after)
    (λ r l, captured (InvalidDisposition.after r) ∧
       l = mk_ledger ∅ ∅ (B ⊎ baseline_regions (InvalidDisposition.after r)))
    (ports_hold (ports_of x) (came x) (B ⊎ baseline_regions after)).
Proof.
  intros Ha [Hd _]. unfold settle, came. apply wp_bind.
  replace (named _ _) with (named ((mr_receive x =? MACH_MSG_SUCCESS) &&
    (1 <=? received_descriptor_count (received_of x))) (delivered_port (received_of x)) ⊎ ∅)
    by multiset_solver.
  apply give_back_ledger.
  { intros [Hm Hc%Z.leb_le]%Hd. by rewrite Hm, Hc. }
  intros k. apply wp_bind, destroy_ports_ledger. intros [kc ks].
  repeat rwp_step. split; [done|]. ledger_eq.
Qed.

Lemma invalid_meet_ledger :
  rwp meet (λ '(b, a, x) l, captured b ∧ captured a ∧ (APPLE = false → x = no_exchange) ∧
      (received_descriptor_count (received_of x) ≤ 1 →
       l = ports_hold (ports_of x) (came x) (baseline_regions b ⊎ baseline_regions a)))
    no_holdings.
Proof.
  unfold meet. apply wp_bind, (lwp_capture _). intros b Hb.
  apply wp_bind, (lwp_capture _). intros a Ha. apply wp_bind.
  replace (add_regions _ _) with (mk_ledger ∅ ∅ (baseline_regions b ⊎ baseline_regions a))
    by (unfold add_regions; cbn [rights sends regions no_holdings]; f_equal;
        multiset_solver).
  apply wp_guarded; intros E.
  - eapply wp_mono; [apply invalid_exchange_ledger|]. intros x l Hl. apply wp_ret.
    split; [done|]. split; [done|]. by split; [congruence|].
  - apply wp_ret. split; [done|]. split; [done|]. split; [done|]. intros _.
    unfold ports_hold, own_right, own_send, came, named. cbn. f_equal; multiset_solver.
Qed.

(** Whatever the kernel answers, [main] uses only rights and memory it
    holds, gives back everything, also a right that was delivered although the
    message should have been refused, and writes one result document.  This needs
    that a name is delivered with a descriptor only, and at most one. *)
Theorem invalid_disposition_main_safe {W} `{Kernel W} w :
  env_file_ok → tidy (run meet w).1.2 →
  let o := (run observe w).1 in
  (∃ w', run_with (@account_carried) main w no_holdings =
     Some (finish (report o (verdict_of o)) (verdict_of o), w', no_holdings)) ∧
  emits_result true "macos_m2_invalid_descriptor_disposition" (verdict_of o) (cleanup_ok o)
    (report o (verdict_of o)).
Proof.
  intros Henv Ht o. split; [|by apply invalid_disposition_written].
  eapply (lwp_three_parts meet _ _ (λ o, finish (report o (verdict_of o)) (verdict_of o)) _
    (λ o l, captured (before o) ∧ captured (after (release_of o)) ∧
       l = mk_ledger ∅ ∅ (baseline_regions (before o) ⊎
                          baseline_regions (after (release_of o)))));
    [apply invalid_meet_ledger| |].
  - revert Ht. destruct (run meet w).1 as [[b a] x]. cbn [snd].
    intros Ht l (Hb & Ha & Hx & Hl). rewrite (Hl (proj2 Ht)). apply wp_bind, wp_guarded; intros E.
    + eapply wp_mono; [by apply invalid_settle_ledger|]. intros r l' [Hr ->]. by apply wp_ret.
    + rewrite (Hx E). apply wp_ret. split; [done|]. split; [done|].
      unfold ports_hold, own_right, own_send, came, named. cbn. f_equal; multiset_solver.
  - intros b s (Hb1 & Hb2 & Hs). eapply (lwp_tail _); eauto.
Qed.

(** ** On a kernel that keeps the contract *)

Lemma invalid_cwp_look_any pf p (Q : looked → space → Prop) s :
  (∀ l, Q l s) → cwp pf (look p) Q s.
Proof.
  intros HQ. unfold look.
  do 2 (apply wp_bind, wp_call; [done|]; intros [? ?] ? [-> _]).
  apply wp_bind, wp_call; [done|]. intros [? ?] ? [-> _]. by apply wp_ret.
Qed.

Lemma invalid_cwp_look pf p es ec (Q : looked → space → Prop) s :
  s !! service_port p = Some es → s !! cargo_port p = Some ec →
  Q (mk_looked KERN_SUCCESS (e_send es) KERN_SUCCESS (e_send ec) KERN_SUCCESS (type_bits ec)) s →
  cwp pf (look p) Q s.
Proof.
  intros Hs Hc HQ. unfold look.
  apply wp_bind. eapply cwp_get_refs; [exact Hs|].
  apply wp_bind. eapply cwp_get_refs; [exact Hc|].
  apply wp_bind. eapply cwp_type; [exact Hc|]. by apply wp_ret.
Qed.

(** Reads the members of what was observed so far. *)
Ltac members :=
  cbn [kr_alloc_service service_port kr_insert_service_send kr_alloc_cargo cargo_port
       kr_insert_cargo_send ports_of mr_receive received_of delivered_port].

(** The service port has no message. *)
Ltac receive_nothing :=
  eapply cwp_receive_empty;
    [space_side..|unfold sizeof_recv_msg, sizeof_send_msg; size_tac|intros ?];
  repeat (members; cwp_step).

(** On a kernel that keeps the contract, and for which the disposition the
    probe uses is none of the valid ones, the probe passes unless a port could not
    be allocated: the message is refused, nothing arrives, and the references and
    types are as before.  The name space is as it was. *)
Theorem invalid_disposition_conforms {W} `{Kernel W} `{!MachContract W} w :
  APPLE = true → healthy w → invalid_disposition OB24_INVALID_DISPOSITION →
  conforming observe main (λ o,
    let p := ports_of (exchanged_of o) in
    verdict_of o =
      (if (kr_alloc_service p =? KERN_SUCCESS) && (kr_alloc_cargo p =? KERN_SUCCESS) then pass
       else probe_failure "setup failed") ∧
    cleanup_ok o = true) w.
Proof.
  intros Ha Hw Hi. unfold main. apply cwp_two_parts; [done| |intros; tail_tac].
  unfold observe, meet, exchange, settle, give_back, destroy_ports, send_msg, receive_msg.
  repeat cwp_step. apply cwp_acquire_ports.
  - intros k n Hk. apply Z.eqb_neq in Hk as Ek. members. repeat cwp_step.
    apply invalid_cwp_look_any. intros l. members. repeat cwp_step.
    conform_tac ltac:(unfold verdict_of, cleanup_ok, ladder_of, baseline_ok, compared).
  - intros n k m Hk Hn Hl Hm. apply Z.eqb_neq in Hk as Ek. members. repeat cwp_step.
    apply invalid_cwp_look_any. intros l. members. repeat cwp_step. receive_nothing.
    conform_tac ltac:(unfold verdict_of, cleanup_ok, ladder_of, baseline_ok, compared).
  - intros n m Hnm Hn Hm Hin Him Hn0 Hm0. members. repeat cwp_step.
    eapply invalid_cwp_look; [members; space_side..|]. repeat cwp_step. members.
    apply cwp_send_invalid; [done..|]. intros mr _ Hmr. repeat cwp_step.
    eapply invalid_cwp_look; [members; space_side..|]. members. repeat cwp_step. receive_nothing.
    apply Z.eqb_neq in Hmr.
    conform_tac ltac:(unfold verdict_of, cleanup_ok, ladder_of, baseline_ok, compared,
      send_rejected, no_delivery, service_refs_unchanged, cargo_refs_unchanged,
      cargo_type_unchanged).
Qed.
End facts.

(** The theorems at the reference kernel, on a task that has just started. *)
Section witnesses.
Import OnMacos.

Lemma invalid_disposition_main_safe_witness :
  env_file_ok ∧ tidy (run meet boot).1.2 ∧
  (∃ w', run_with (@account_carried) main boot no_holdings =
     Some (finish (report (run observe boot).1 (verdict_of (run observe boot).1))
             (verdict_of (run observe boot).1), w', no_holdings)) ∧
  emits_result true "macos_m2_invalid_descriptor_disposition"
    (verdict_of (run observe boot).1) (cleanup_ok (run observe boot).1)
    (report (run observe boot).1 (verdict_of (run observe boot).1)).
Proof.
  assert (tidy (run meet boot).1.2) as Ht
    by (vm_compute; split; [intros E; by destruct E|discriminate]).
  split; [exact no_env_file|]. split; [exact Ht|].
  exact (invalid_disposition_main_safe boot no_env_file Ht).
Defined.

Lemma invalid_disposition_conforms_witness :
  APPLE = true ∧ healthy boot ∧ invalid_disposition OB24_INVALID_DISPOSITION ∧
  verdict_of (run observe boot).1 = pass ∧ cleanup_ok (run observe boot).1 = true ∧
  view (run main boot).2 = boot_space.
Proof.
  assert (invalid_disposition OB24_INVALID_DISPOSITION) as Hi
    by (apply (bool_decide_unpack _); by vm_compute).
  split; [done|]. split; [exact healthy_boot|]. split; [exact Hi|].
  destruct (invalid_disposition_conforms boot on_macos healthy_boot Hi) as [Hv Hs].
  split; [|split; [exact (proj2 Hv)|exact Hs]].
  etransitivity; [exact (proj1 Hv)|by vm_compute].
Defined.
End witnesses.
End InvalidDisposition.
