(* ===== verification/DoubleMoveSend.v ===== *)
(** [macos-validation/probes/m2/double_move_send_descriptor.c]: a message moves
    the one reference of a send right twice; the probe records what becomes of it,
    and checks that the send and the receive agree. *)

From stdpp Require Import gmap gmultiset.
From S2P Require Import Prelude Json NxJson JsonText Builder MachApi NxMachUtils Ledger.
From S2P Require Import MachContract NxResult Probe RefKernel StatusPipe Exchange Header.
From S2P Require Import ToSelf.

Local Open Scope oracle_scope.
Local Open Scope Z_scope.

Module DoubleMoveSend.
Import ToSelf.

Definition OB24_DOUBLE_MSG_ID : Z := 0x4f423244.

(** What became of the references of the sender. *)
Definition consumption_class (kr_after_send : kern_return_t)
    (refs_before refs_after_send : mach_port_urefs_t) : string :=
  if (kr_after_send =? KERN_INVALID_NAME) || (kr_after_send =? KERN_INVALID_RIGHT) then
    "fully_consumed_or_name_invalid"
  else if negb (kr_after_send =? KERN_SUCCESS) then "unobservable"
  else if refs_after_send =? refs_before then "not_consumed"
  else if refs_after_send =? 0 then "fully_consumed"
  else if refs_after_send <? refs_before then "partially_consumed"
  else "refs_increased_or_recreated".

Section double_move_send.
Context `{Host} `{MachSdk}.

(** [sizeof] of the two message structures. *)
Definition sizeof_send_msg : Z :=
  sizeof_mach_msg_header + sizeof_mach_msg_body + 2 * sizeof_mach_msg_port_descriptor.
Definition sizeof_recv_msg : Z := sizeof_send_msg + sizeof_mach_msg_max_trailer.

(** What the calls on the cargo port show. *)
Record looked := mk_looked {
  kr_cargo_type : kern_return_t;
  cargo_type : mach_port_type_t;
  kr_cargo_refs : kern_return_t;
  cargo_refs : mach_port_urefs_t;
}.
Definition not_looked : looked := mk_looked KERN_FAILURE 0 KERN_FAILURE 0.

Definition look (cargo_port : mach_port_t) : prog looked :=
  '(k1, t) ← call (mach_port_type cargo_port);
  '(k2, u) ← call (mach_port_get_refs cargo_port MACH_PORT_RIGHT_SEND);
  mret (mk_looked k1 t k2 u).

Definition moved (p : ports) : mach_msg_port_descriptor_t :=
  mk_desc (cargo_port p) MACH_MSG_TYPE_MOVE_SEND MACH_MSG_PORT_DESCRIPTOR.
Definition double_msg (p : ports) : mach_msg_buf :=
  mk_msg (Z.lor (MACH_MSGH_BITS MACH_MSG_TYPE_COPY_SEND 0) MACH_MSGH_BITS_COMPLEX)
    sizeof_send_msg (service_port p) MACH_PORT_NULL OB24_DOUBLE_MSG_ID 2 (moved p) (moved p).

(** The members of a message that arrived. *)
Record received := mk_received {
  received_msgh_bits : Z;
  received_msgh_id : Z;
  received_descriptor_count : Z;
  delivered_first : mach_port_t;
  delivered_second : mach_port_t;
  first_descriptor_type : Z;
  first_descriptor_disposition : Z;
  second_descriptor_type : Z;
  second_descriptor_disposition : Z;
}.
Definition nothing_received : received :=
  mk_received 0 0 0 MACH_PORT_NULL MACH_PORT_NULL 0 0 0 0.
Definition received_from (m : mach_msg_buf) : received :=
  mk_received (msgh_bits m) (msgh_id m) (msgh_descriptor_count m) (desc_name (msg_cargo m))
    (desc_name (msg_second m)) (desc_type (msg_cargo m)) (desc_disposition (msg_cargo m))
    (desc_type (msg_second m)) (desc_disposition (msg_second m)).

Record exchanged := mk_exchanged {
  ports_of : ports;
  cargo_before : looked;
  sent_msgh_bits : Z;
  mr_send : mach_msg_return_t;
  cargo_after_send : looked;
  mr_receive : mach_msg_return_t;
  received_of : received;
}.
Definition no_exchange : exchanged :=
  mk_exchanged no_ports not_looked 0 MACH_SEND_INVALID_DEST not_looked
    MACH_RCV_INVALID_NAME nothing_received.

Definition exchange : prog exchanged :=
  p ← acquire_ports;
  before ← guarded (kr_insert_cargo_send p =? KERN_SUCCESS) not_looked (look (cargo_port p));
  '(bits, mr_send) ←
    guarded ((kr_cargo_type before =? KERN_SUCCESS) && (kr_cargo_refs before =? KERN_SUCCESS))
      (0, MACH_SEND_INVALID_DEST) (
      '(mr, _) ← send_msg OB24_SEND_TIMEOUT_MS (double_msg p);
      mret (msgh_bits (double_msg p), mr));
  after ← look (cargo_port p);
  '(mr_receive, r) ←
    guarded (kr_alloc_service p =? KERN_SUCCESS) (MACH_RCV_INVALID_NAME, nothing_received) (
      '(mr, m) ← receive_msg OB24_RECV_TIMEOUT_MS sizeof_recv_msg (service_port p);
      mret (mr, if mr =? MACH_MSG_SUCCESS then received_from m else nothing_received));
  mret (mk_exchanged p before bits mr_send after mr_receive r).

Record release := mk_release {
  kr_deallocate_first : kern_return_t;
  kr_deallocate_second : kern_return_t;
  cargo_after_receive : looked;
  kr_destroy_cargo : kern_return_t;
  kr_destroy_service : kern_return_t;
  after : nx_baseline_t;
}.

(** [after] is the snapshot that is replaced. *)
Definition settle (x : exchanged) (after : nx_baseline_t) : prog release :=
  kr_first ← give_back (mr_receive x) (delivered_first (received_of x));
  kr_second ← give_back (mr_receive x) (delivered_second (received_of x));
  cargo ← look (cargo_port (ports_of x));
  '(kr_cargo, kr_service) ← destroy_ports (ports_of x);
  _ ← nx_baseline_free after;
  after ← nx_baseline_capture;
  mret (mk_release kr_first kr_second cargo kr_cargo kr_service after).

Record obs := mk_obs {
  before : nx_baseline_t;
  exchanged_of : exchanged;
  release_of : release;
}.

Definition meet : prog (nx_baseline_t * nx_baseline_t * exchanged) :=
  before ← nx_baseline_capture;
  after ← nx_baseline_capture;
  x ← guarded APPLE no_exchange exchange;
  mret (before, after, x).

Definition observe : prog obs :=
  '(before, after, x) ← meet;
  r ← guarded APPLE
        (mk_release KERN_FAILURE KERN_FAILURE not_looked KERN_FAILURE KERN_FAILURE after)
        (settle x after);
  mret (mk_obs before x r).

Definition compared (o : obs) : bool * Z :=
  nx_baseline_compare (before o) (after (release_of o)).
Definition baseline_ok (o : obs) : bool := (compared o).1.
Definition cleanup_delta (o : obs) : Z := if APPLE then (compared o).2 else 0.

Definition setup_ok (o : obs) : bool :=
  let p := ports_of (exchanged_of o) in
  let b := cargo_before (exchanged_of o) in
  (kr_alloc_service p =? KERN_SUCCESS) && (kr_insert_service_send p =? KERN_SUCCESS) &&
  (kr_alloc_cargo p =? KERN_SUCCESS) && (kr_insert_cargo_send p =? KERN_SUCCESS) &&
  (kr_cargo_type b =? KERN_SUCCESS) && (kr_cargo_refs b =? KERN_SUCCESS).
Definition send_succeeded (o : obs) : bool := mr_send (exchanged_of o) =? MACH_MSG_SUCCESS.
Definition delivery_observed (o : obs) : bool :=
  mr_receive (exchanged_of o) =? MACH_MSG_SUCCESS.
Definition coherent_path (o : obs) : bool :=
  negb (send_succeeded o) && (mr_receive (exchanged_of o) =? MACH_RCV_TIMED_OUT) ||
  send_succeeded o && delivery_observed o.

Definition ladder_of (o : obs) : list (bool * verdict) :=
  [(nx_baseline_blocks_probe (before o), probe_failure "initial mach_port_names failed");
   (negb (setup_ok o), probe_failure "setup failed");
   (negb (coherent_path o),
     fail_contract "double MOVE_SEND delivery did not match send result");
   (negb (kr_destroy_cargo (release_of o) =? KERN_SUCCESS) ||
    negb (kr_destroy_service (release_of o) =? KERN_SUCCESS),
     fail_probe "cleanup destroy failed");
   (nx_baseline_blocks_probe (after (release_of o)),
     probe_failure "final mach_port_names failed");
   (negb (baseline_ok o), fail_contract "port namespace did not return to baseline")].

Definition verdict_of (o : obs) : verdict :=
  if APPLE then ladder (ladder_of o)
  else skip "non-macOS host: Mach APIs unavailable".

Definition cleanup_ok (o : obs) : bool := if APPLE then baseline_ok o else true.
Definition cleanup_notes (o : obs) : string :=
  if APPLE then (if baseline_ok o then "" else "namespace delta detected")
  else "not applicable on non-macOS host".

Definition emit_message (o : obs) : op nx_json_t :=
  let x := exchanged_of o in
  let a := cargo_after_send (exchanged_of o) in
  nx_json_key "message" ;;
  nx_json_begin_object ;;
  nx_json_key_string "msgh_bits" (hex32 (sent_msgh_bits x)) ;;
  nx_json_key "remote_port" ;;
  nx_json_begin_object ;;
  nx_json_key_string "name" "service_port" ;;
  nx_json_key_string "disposition" "MACH_MSG_TYPE_COPY_SEND" ;;
  nx_json_key_string "right_type" "MACH_PORT_TYPE_SEND" ;;
  nx_json_end_object ;;
  nx_json_key "local_port" ;;
  nx_json_begin_object ;;
  nx_json_key_null "name" ;;
  nx_json_key_null "disposition" ;;
  nx_json_key_null "right_type" ;;
  nx_json_end_object ;;
  nx_json_key "header_rights" ;;
  nx_json_begin_array ;;
  nx_json_begin_object ;;
  nx_json_key_string "field" "msgh_remote_port" ;;
  nx_json_key_string "disposition" "MACH_MSG_TYPE_COPY_SEND" ;;
  nx_json_key_string "right_type_before" "MACH_PORT_TYPE_SEND" ;;
  nx_json_key_string "right_type_after" "MACH_PORT_TYPE_SEND" ;;
  nx_json_end_object ;;
  nx_json_end_array ;;
  nx_json_key_int "descriptor_count" 2 ;;
  nx_json_key "descriptors" ;;
  nx_json_begin_array ;;
  nx_json_begin_object ;;
  nx_json_key_string "name" "cargo_send_descriptor_1" ;;
  nx_json_key_string "disposition" "MACH_MSG_TYPE_MOVE_SEND" ;;
  nx_json_key_string "right_type_before" "MACH_PORT_TYPE_SEND" ;;
  nx_json_key_string "right_type_after" (nx_port_type_str (cargo_type a)) ;;
  nx_json_end_object ;;
  nx_json_begin_object ;;
  nx_json_key_string "name" "cargo_send_descriptor_2" ;;
  nx_json_key_string "disposition" "MACH_MSG_TYPE_MOVE_SEND" ;;
  nx_json_key_string "right_type_before" "MACH_PORT_TYPE_SEND" ;;
  nx_json_key_string "right_type_after" (nx_port_type_str (cargo_type a)) ;;
  nx_json_end_object ;;
  nx_json_end_array ;;
  nx_json_end_object.

Definition emit_returns (o : obs) : op nx_json_t :=
  let x := exchanged_of o in
  let p := ports_of (exchanged_of o) in
  let b := cargo_before (exchanged_of o) in
  let a := cargo_after_send (exchanged_of o) in
  nx_json_key "returns" ;;
  nx_json_begin_array ;;
  nx_result_emit_return "mach_port_names_before" (nx_kern_return_str (kr (before o)))
    (kr (before o)) false 0 ;;
  nx_result_emit_return "mach_port_allocate_service"
    (nx_kern_return_str (kr_alloc_service p)) (kr_alloc_service p) false 0 ;;
  nx_result_emit_return "mach_port_insert_right_service_make_send"
    (nx_kern_return_str (kr_insert_service_send p)) (kr_insert_service_send p) false 0 ;;
  nx_result_emit_return "mach_port_allocate_cargo"
    (nx_kern_return_str (kr_alloc_cargo p)) (kr_alloc_cargo p) false 0 ;;
  nx_result_emit_return "mach_port_insert_right_cargo_make_send"
    (nx_kern_return_str (kr_insert_cargo_send p)) (kr_insert_cargo_send p) false 0 ;;
  nx_result_emit_return "mach_port_type_cargo_before_send"
    (nx_kern_return_str (kr_cargo_type b)) (kr_cargo_type b) false 0 ;;
  nx_result_emit_return "mach_port_get_refs_cargo_before_send"
    (nx_kern_return_str (kr_cargo_refs b)) (kr_cargo_refs b) false 0 ;;
  nx_result_emit_return "mach_msg_send_double_move_send_descriptor"
    (nx_msg_return_str (mr_send x)) (mr_send x) false 0 ;;
  nx_result_emit_return "mach_port_type_cargo_after_send"
    (nx_kern_return_str (kr_cargo_type a)) (kr_cargo_type a) false 0 ;;
  nx_result_emit_return "mach_port_get_refs_cargo_after_send"
    (nx_kern_return_str (kr_cargo_refs a)) (kr_cargo_refs a) false 0 ;;
  nx_result_emit_return "mach_msg_receive_after_double_move_send"
    (nx_msg_return_str (mr_receive x)) (mr_receive x) false 0 ;;
  (when ((mr_receive x) =? MACH_MSG_SUCCESS) do
     (nx_result_emit_return "mach_port_deallocate_delivered_first"
        (nx_kern_return_str (kr_deallocate_first (release_of o)))
        (kr_deallocate_first (release_of o)) false 0 ;;
      nx_result_emit_return "mach_port_deallocate_delivered_second"
        (nx_kern_return_str (kr_deallocate_second (release_of o)))
        (kr_deallocate_second (release_of o)) false 0)) ;;
  nx_result_emit_return "mach_port_type_cargo_after_receive"
    (nx_kern_return_str (kr_cargo_type (cargo_after_receive (release_of o))))
    (kr_cargo_type (cargo_after_receive (release_of o))) false 0 ;;
  nx_result_emit_return "mach_port_get_refs_cargo_after_receive"
    (nx_kern_return_str (kr_cargo_refs (cargo_after_receive (release_of o))))
    (kr_cargo_refs (cargo_after_receive (release_of o))) false 0 ;;
  nx_result_emit_return "mach_port_destroy_cargo"
    (nx_kern_return_str (kr_destroy_cargo (release_of o)))
    (kr_destroy_cargo (release_of o)) false 0 ;;
  nx_result_emit_return "mach_port_destroy_service"
    (nx_kern_return_str (kr_destroy_service (release_of o)))
    (kr_destroy_service (release_of o)) false 0 ;;
  nx_result_emit_return "mach_port_names_after"
    (nx_kern_return_str (kr (after (release_of o)))) (kr (after (release_of o))) false 0 ;;
  nx_json_end_array.

Definition emit_deltas (o : obs) : op nx_json_t :=
  let b := cargo_before (exchanged_of o) in
  let a := cargo_after_send (exchanged_of o) in
  nx_json_key "right_deltas" ;;
  nx_json_begin_array ;;
  nx_result_emit_right_delta "double MOVE_SEND at send return" "cargo_port"
    "MACH_PORT_RIGHT_SEND" (refs_or_minus1 (kr_cargo_refs b) (cargo_refs b))
    (refs_or_minus1 (kr_cargo_refs a) (cargo_refs a)) (-1) (-1)
    (consumption_class (kr_cargo_refs a) (cargo_refs b) (cargo_refs a)) ;;
  nx_result_emit_right_delta "double MOVE_SEND after receive attempt" "cargo_port"
    "MACH_PORT_RIGHT_SEND" (refs_or_minus1 (kr_cargo_refs a) (cargo_refs a))
    (refs_or_minus1 (kr_cargo_refs (cargo_after_receive (release_of o))) (cargo_refs (cargo_after_receive (release_of o))))
    (-1) (-1) "recorded" ;;
  nx_json_end_array.

Definition emit_observations (o : obs) : op nx_json_t :=
  let x := exchanged_of o in
  let b := cargo_before (exchanged_of o) in
  let a := cargo_after_send (exchanged_of o) in
  let r := received_of (exchanged_of o) in
  nx_json_key "observations" ;;
  nx_json_begin_object ;;
  nx_json_key_bool "send_succeeded" (send_succeeded o) ;;
  nx_json_key_string "send_return" (nx_msg_return_str (mr_send x)) ;;
  nx_json_key_string "sent_msgh_bits_raw_hex" (hex32 (sent_msgh_bits x)) ;;
  nx_json_key_string "descriptor_1_disposition" "MACH_MSG_TYPE_MOVE_SEND" ;;
  nx_json_key_string "descriptor_2_disposition" "MACH_MSG_TYPE_MOVE_SEND" ;;
  nx_json_key_string "cargo_type_before" (nx_port_type_str (cargo_type b)) ;;
  nx_json_key_int "cargo_send_refs_before" (cargo_refs b) ;;
  nx_json_key_string "cargo_type_after_send" (nx_port_type_str (cargo_type a)) ;;
  nx_json_key_int "cargo_send_refs_after_send"
    (refs_or_minus1_ll (kr_cargo_refs a) (cargo_refs a)) ;;
  nx_json_key_string "sender_consumption_class"
    (consumption_class (kr_cargo_refs a) (cargo_refs b) (cargo_refs a)) ;;
  nx_json_key_bool "message_delivered" (delivery_observed o) ;;
  nx_json_key_string "receive_after_send" (nx_msg_return_str (mr_receive x)) ;;
  nx_json_key_string "received_msgh_bits_raw_hex" (hex32 (received_msgh_bits r)) ;;
  nx_json_key_int "received_msgh_id" (received_msgh_id r) ;;
  nx_json_key_int "received_descriptor_count" (received_descriptor_count r) ;;
  nx_json_key_string "received_first_descriptor_type"
    (descriptor_type_str (first_descriptor_type r)) ;;
  nx_json_key_string "received_first_descriptor_disposition"
    (disposition_str (first_descriptor_disposition r)) ;;
  nx_json_key_string "received_second_descriptor_type"
    (descriptor_type_str (second_descriptor_type r)) ;;
  nx_json_key_string "received_second_descriptor_disposition"
    (disposition_str (second_descriptor_disposition r)) ;;
  nx_json_key_bool "delivered_descriptor_names_equal"
    (negb (delivered_first r =? MACH_PORT_NULL) && (delivered_first r =? delivered_second r)) ;;
  nx_json_key_string "deallocate_first_delivered"
    (nx_kern_return_str (kr_deallocate_first (release_of o))) ;;
  nx_json_key_string "deallocate_second_delivered"
    (nx_kern_return_str (kr_deallocate_second (release_of o))) ;;
  nx_json_key_string "cargo_type_after_receive"
    (nx_port_type_str (cargo_type (cargo_after_receive (release_of o)))) ;;
  nx_json_key_int "cargo_send_refs_after_receive"
    (refs_or_minus1_ll (kr_cargo_refs (cargo_after_receive (release_of o))) (cargo_refs (cargo_after_receive (release_of o)))) ;;
  nx_json_key_bool "coherent_send_receive_path" (coherent_path o) ;;
  nx_json_key_int "names_before" (count_or_minus1 (before o)) ;;
  nx_json_key_int "names_after" (count_or_minus1 (after (release_of o))) ;;
  nx_json_key_int "cleanup_delta" (cleanup_delta o) ;;
  nx_json_end_object.

Definition report (o : obs) (v : verdict) : op nx_json_t :=
  nx_json_begin_object ;;
  nx_result_emit_header agent_name "macos_m2_double_move_send_descriptor" NULL NULL
    (status v) (sclass v) ;;
  nx_env_emit ;;
  emit_message o ;;
  emit_returns o ;;
  emit_deltas o ;;
  emit_observations o ;;
  nx_result_emit_cleanup (cleanup_ok o) (cleanup_notes o) ;;
  nx_json_key_string "notes" (notes v) ;;
  nx_json_end_object.

Definition main : prog (option outcome) :=
  o ← observe;
  let v := verdict_of o in
  let r := finish (report o v) v in
  _ ← nx_baseline_free (before o);
  _ ← nx_baseline_free (after (release_of o));
  mret r.
End double_move_send.

Section facts.
Context `{Host} `{MachSdk}.

Lemma double_move_send_written o :
  env_file_ok →
  emits_result true "macos_m2_double_move_send_descriptor" (verdict_of o) (cleanup_ok o)
    (report o (verdict_of o)).
Proof.
  intros Henv. unfold report, emit_message, emit_returns, emit_deltas, emit_observations.
  report_tac.
Qed.

(** ** What is held *)

Context `{!SdkSizes}.

(** The rights that came with a message. *)
Definition has (x : exchanged) (k : Z) : bool :=
  (mr_receive x =? MACH_MSG_SUCCESS) && (k <=? received_descriptor_count (received_of x)).
Definition came (x : exchanged) : gmultiset Z :=
  named (has x 1) (delivered_first (received_of x)) ⊎
  named (has x 2) (delivered_second (received_of x)).

(** A name is delivered with a descriptor only. *)
Definition tidy (x : exchanged) : Prop :=
  (delivered_first (received_of x) ≠ MACH_PORT_NULL → has x 1 = true) ∧
  (delivered_second (received_of x) ≠ MACH_PORT_NULL → has x 2 = true).

Lemma has_received x k : has x k = true → mr_receive x = MACH_MSG_SUCCESS ∧ has x k = true.
Proof. intros E. split; [|done]. by apply andb_prop in E as [?%Z.eqb_eq _]. Qed.

Lemma double_exchange_ledger B :
  rwp exchange (λ x l, l = ports_hold (ports_of x) (came x) B) (mk_ledger ∅ ∅ B).
Proof.
  unfold exchange, look. apply wp_bind.
  eapply wp_mono; [apply acquire_ports_ledger|]. intros p l ->. repeat rwp_step.
  all: try ledger_pre; try (unfold sizeof_recv_msg, sizeof_send_msg; size_tac).
  all: unfold ports_hold, add_sends; cbn [ports_of rights sends regions]; f_equal;
    unfold came, came_with, has, carried; cbn [mr_receive received_of].
  all: try case_match; cbn; multiset_solver.
Qed.

Lemma double_settle_ledger (x : exchanged) (after : nx_baseline_t) (B : gmultiset (Z * Z)) :
  captured after → tidy x →
  rwp (settle x after)
    (λ r l, captured (DoubleMoveSend.after r) ∧
       l = mk_ledger ∅ ∅ (B ⊎ baseline_regions (DoubleMoveSend.after r)))
    (ports_hold (ports_of x) (came x) (B ⊎ baseline_regions after)).
Proof.
  intros Ha [Hd1 Hd2]. unfold settle, came, look. apply wp_bind.
  apply give_back_ledger; [intros ?%Hd1; by apply has_received|]. intros k1. apply wp_bind.
  replace (named (has x 2) _) with
    (named (has x 2) (delivered_second (received_of x)) ⊎ ∅) by multiset_solver.
  apply give_back_ledger; [intros ?%Hd2; by apply has_received|]. intros k2.
  repeat lwp_step; try ledger_pre.
  apply destroy_ports_ledger. intros [kc ks]. repeat rwp_step. split; [done|]. ledger_eq.
Qed.

Lemma double_meet_ledger :
  rwp meet (λ '(b, a, x) l, captured b ∧ captured a ∧ (APPLE = false → x = no_exchange) ∧
      l = ports_hold (ports_of x) (came x) (baseline_regions b ⊎ baseline_regions a))
    no_holdings.
Proof.
  unfold meet. apply wp_bind, (lwp_capture _). intros b Hb.
  apply wp_bind, (lwp_capture _). intros a Ha. apply wp_bind.
  replace (add_regions _ _) with (mk_ledger ∅ ∅ (baseline_regions b ⊎ baseline_regions a))
    by (unfold add_regions; cbn [rights sends regions no_holdings]; f_equal;
        multiset_solver).
  apply wp_guarded; intros E.
  - eapply wp_mono; [apply double_exchange_ledger|]. intros x l ->. apply wp_ret.
    split; [done|]. split; [done|]. by split; [congruence|].
  - apply wp_ret. split; [done|]. split; [done|]. split; [done|].
    unfold ports_hold, own_right, own_send, came, has, named. cbn. f_equal; multiset_solver.
Qed.

(** Whatever the kernel answers, [main] uses only rights and memory it
    holds, gives back everything, also the rights that were delivered, and writes
    one result document.  This needs that a name is delivered with a descriptor
    only.  (Rights that a message takes along are not subtracted.) *)
Theorem double_move_send_main_safe {W} `{Kernel W} w :
  env_file_ok → tidy (run meet w).1.2 →
  let o := (run observe w).1 in
  (∃ w', run_with (@account_carried) main w no_holdings =
     Some (finish (report o (verdict_of o)) (verdict_of o), w', no_holdings)) ∧
  emits_result true "macos_m2_double_move_send_descriptor" (verdict_of o) (cleanup_ok o)
    (report o (verdict_of o)).
Proof.
  intros Henv Ht o. split; [|by apply double_move_send_written].
  eapply (lwp_three_parts meet _ _ (λ o, finish (report o (verdict_of o)) (verdict_of o)) _
    (λ o l, captured (before o) ∧ captured (after (release_of o)) ∧
       l = mk_ledger ∅ ∅ (baseline_regions (before o) ⊎
                          baseline_regions (after (release_of o)))));
    [apply double_meet_ledger| |].
  - revert Ht. destruct (run meet w).1 as [[b a] x]. cbn [snd].
    intros Ht l (Hb & Ha & Hx & ->). apply wp_bind, wp_guarded; intros E.
    + eapply wp_mono; [by apply double_settle_ledger|]. intros r l' [Hr ->]. by apply wp_ret.
    + rewrite (Hx E). apply wp_ret. split; [done|]. split; [done|].
      unfold ports_hold, own_right, own_send, came, has, named. cbn.
      f_equal; multiset_solver.
  - intros b s (Hb1 & Hb2 & Hs). eapply (lwp_tail _); eauto.
Qed.

(** ** On a kernel that keeps the contract *)

Lemma double_cwp_look_any pf n (Q : looked → space → Prop) s :
  (∀ l, Q l s) → cwp pf (look n) Q s.
Proof.
  intros HQ. unfold look. apply wp_bind, wp_call; [done|]. intros [? ?] ? [-> _].
  apply wp_bind, wp_call; [done|]. intros [? ?] ? [-> _]. by apply wp_ret.
Qed.

Lemma double_cwp_look pf n e (Q : looked → space → Prop) s :
  s !! n = Some e →
  Q (mk_looked KERN_SUCCESS (type_bits e) KERN_SUCCESS (e_send e)) s →
  cwp pf (look n) Q s.
Proof.
  intros Hn HQ. unfold look.
  apply wp_bind. eapply cwp_type; [exact Hn|].
  apply wp_bind. eapply cwp_get_refs; [exact Hn|]. by apply wp_ret.
Qed.

(** Reads the members of what was observed so far. *)
Ltac members :=
  cbn [kr_alloc_service service_port kr_insert_service_send kr_alloc_cargo cargo_port
       kr_insert_cargo_send ports_of mr_receive received_of delivered_first
       delivered_second].

(** The service port has no message. *)
Ltac receive_nothing :=
  eapply cwp_receive_empty;
    [space_side..|unfold sizeof_recv_msg, sizeof_send_msg; size_tac|intros ?];
  repeat (members; cwp_step).

(** On a kernel that keeps the contract the probe passes unless a port could
    not be allocated: the one reference cannot be moved twice, so the message is
    refused and nothing arrives; the class it records is that the reference is
    still there or that it is gone.  The name space is as it was. *)
Theorem double_move_send_conforms {W} `{Kernel W} `{!MachContract W} w :
  APPLE = true → healthy w →
  conforming observe main (λ o,
    let p := ports_of (exchanged_of o) in
    let b := cargo_before (exchanged_of o) in
    let a := cargo_after_send (exchanged_of o) in
    let ok := (kr_alloc_service p =? KERN_SUCCESS) && (kr_alloc_cargo p =? KERN_SUCCESS) in
    verdict_of o = (if ok then pass else probe_failure "setup failed") ∧
    cleanup_ok o = true ∧
    (ok = true →
     send_succeeded o = false ∧
     (consumption_class (kr_cargo_refs a) (cargo_refs b) (cargo_refs a) = "not_consumed" ∨
      consumption_class (kr_cargo_refs a) (cargo_refs b) (cargo_refs a) = "fully_consumed")%string)) w.
Proof.
  intros Ha Hw. unfold main. apply cwp_two_parts; [done| |intros; tail_tac].
  unfold observe, meet, exchange, settle, give_back, destroy_ports, send_msg, receive_msg.
  repeat cwp_step. apply cwp_acquire_ports.
  - intros k n Hk. apply Z.eqb_neq in Hk as Ek. members. repeat cwp_step.
    apply double_cwp_look_any. intros l. members. repeat cwp_step.
    apply double_cwp_look_any. intros l'. members. repeat cwp_step.
    conform_tac ltac:(unfold verdict_of, cleanup_ok, ladder_of, baseline_ok, compared,
      setup_ok).
  - intros n k m Hk Hn Hl Hm. apply Z.eqb_neq in Hk as Ek. members. repeat cwp_step.
    apply double_cwp_look_any. intros l. members. repeat cwp_step. receive_nothing.
    apply double_cwp_look_any. intros l'. repeat (members; cwp_step).
    conform_tac ltac:(unfold verdict_of, cleanup_ok, ladder_of, baseline_ok, compared,
      setup_ok).
  - intros n m Hnm Hn Hm Hin Him Hn0 Hm0. members. repeat cwp_step.
    eapply double_cwp_look; [space_side|]. repeat cwp_step. members.
    eapply (cwp_send_overdrawn _ _ _ _ _ _ _ m); [done..|space_side|done|done| |].
    + intros mr _ Hmr. apply Z.eqb_neq in Hmr as Emr. repeat cwp_step.
      eapply double_cwp_look; [space_side|]. members. repeat cwp_step. receive_nothing.
      eapply double_cwp_look; [space_side|]. repeat (members; cwp_step).
      conform_tac ltac:(unfold verdict_of, cleanup_ok, ladder_of, baseline_ok, compared,
        setup_ok, coherent_path, send_succeeded).
      split; [done|]. split; [done|]. intros _. split; [done|by left].
    + intros mr _ Hmr. apply Z.eqb_neq in Hmr as Emr. rewrite insert_insert_eq.
      repeat cwp_step.
      eapply double_cwp_look; [space_side|]. members. repeat cwp_step. receive_nothing.
      eapply double_cwp_look; [space_side|]. repeat (members; cwp_step).
      conform_tac ltac:(unfold verdict_of, cleanup_ok, ladder_of, baseline_ok, compared,
        setup_ok, coherent_path, send_succeeded).
      split; [done|]. split; [done|]. intros _. split; [done|by right].
Qed.
End facts.

(** The theorems at the reference kernel, on a task that has just started. *)
Section witnesses.
Import OnMacos.

Lemma double_move_send_main_safe_witness :
  env_file_ok ∧ tidy (run meet boot).1.2 ∧
  (∃ w', run_with (@account_carried) main boot no_holdings =
     Some (finish (report (run observe boot).1 (verdict_of (run observe boot).1))
             (verdict_of (run observe boot).1), w', no_holdings)) ∧
  emits_result true "macos_m2_double_move_send_descriptor"
    (verdict_of (run observe boot).1) (cleanup_ok (run observe boot).1)
    (report (run observe boot).1 (verdict_of (run observe boot).1)).
Proof.
  assert (tidy (run meet boot).1.2) as Ht
    by (vm_compute; split; intros E; by destruct E).
  split; [exact no_env_file|]. split; [exact Ht|].
  exact (double_move_send_main_safe boot no_env_file Ht).
Defined.

Lemma double_move_send_conforms_witness :
  APPLE = true ∧ healthy boot ∧
  verdict_of (run observe boot).1 = pass ∧ cleanup_ok (run observe boot).1 = true ∧
  send_succeeded (run observe boot).1 = false ∧ view (run main boot).2 = boot_space.
Proof.
  split; [done|]. split; [exact healthy_boot|].
  destruct (double_move_send_conforms boot on_macos healthy_boot) as [(Hv & Hc & Hk) Hs].
  split; [etransitivity; [exact Hv|by vm_compute]|]. split; [exact Hc|].
  split; [apply Hk; by vm_compute|exact Hs].
Defined.
End witnesses.
End DoubleMoveSend.
