(* ===== verification/DeadName.v ===== *)
(** [macos-validation/probes/m2/dead_name_descriptor_right.c]: a descriptor that
    moves a dead name, and one that moves a name that denotes nothing. *)

From stdpp Require Import gmap gmultiset.
From S2P Require Import Prelude Json NxJson JsonText Builder MachApi NxMachUtils Ledger.
From S2P Require Import MachContract NxResult Probe RefKernel StatusPipe Exchange Header.
From S2P Require Import ToSelf.

Local Open Scope oracle_scope.
Local Open Scope Z_scope.

Module DeadName.
Import Header(service_entry).
Import ToSelf(OB24_SEND_TIMEOUT_MS, OB24_RECV_TIMEOUT_MS, give_back).

Definition OB24_DEAD_MSG_ID : Z := 0x4f423242.
Definition OB24_NONEXIST_MSG_ID : Z := 0x4f423243.

(** What the calls on the name show. *)
Record looked := mk_looked {
  kr_source_type : kern_return_t;
  source_type : mach_port_type_t;
  kr_source_refs : kern_return_t;
  source_refs : mach_port_urefs_t;
}.

(** The members of the message that arrived. *)
Record received := mk_received {
  received_msgh_bits : Z;
  received_msgh_id : Z;
  received_descriptor_count : Z;
  delivered_port : mach_port_t;
  received_descriptor_type : Z;
  received_descriptor_disposition : Z;
}.

Record case_t := mk_case {
  name : string;
  use_dead_name : bool;
  before : nx_baseline_t;
  after : nx_baseline_t;
  service_port : mach_port_t;
  source_name : mach_port_t;
  kr_alloc_service : kern_return_t;
  kr_insert_service_send : kern_return_t;
  kr_alloc_dead_name : kern_return_t;
  source_before : looked;
  source_after : looked;
  kr_deallocate_source : kern_return_t;
  kr_deallocate_delivered : kern_return_t;
  kr_destroy_service : kern_return_t;
  mr_send : mach_msg_return_t;
  mr_receive : mach_msg_return_t;
  sent_msgh_bits : Z;
  received_of : received;
  cleanup_delta : Z;
  cleanup_ok : bool;
}.

Definition case_init (name : string) (use_dead_name : bool) : case_t :=
  mk_case name use_dead_name zero_baseline zero_baseline MACH_PORT_NULL MACH_PORT_NULL
    KERN_FAILURE KERN_FAILURE KERN_FAILURE (mk_looked KERN_FAILURE 0 KERN_FAILURE 0)
    (mk_looked KERN_FAILURE 0 KERN_FAILURE 0) KERN_FAILURE KERN_FAILURE KERN_FAILURE
    MACH_SEND_INVALID_DEST MACH_RCV_INVALID_NAME 0 (mk_received 0 0 0 MACH_PORT_NULL 0 0)
    0 false.

(** The loop of [find_nonexistent_name] with [n] candidates left. *)
Definition first_candidate : mach_port_t := 0x6f240003.

Fixpoint find_from (n : nat) (candidate : mach_port_t) : prog mach_port_t :=
  match n with
  | O => mret first_candidate
  | S n =>
      '(k, _) ← call (mach_port_type candidate);
      if negb (k =? KERN_SUCCESS) then mret candidate
      else find_from n (u32 (candidate + 0x100))
  end.

Definition find_nonexistent_name : prog mach_port_t := find_from 1024 first_candidate.

Section dead_name.
Context `{Host} `{MachSdk}.

(** [sizeof] of the two message structures. *)
Definition sizeof_send_msg : Z :=
  sizeof_mach_msg_header + sizeof_mach_msg_body + sizeof_mach_msg_port_descriptor.
Definition sizeof_recv_msg : Z := sizeof_send_msg + sizeof_mach_msg_max_trailer.

Definition source_right (c : case_t) : Z :=
  if use_dead_name c then MACH_PORT_RIGHT_DEAD_NAME else MACH_PORT_RIGHT_SEND.

Definition look (c : case_t) (source : mach_port_t) : prog looked :=
  '(k1, t) ← call (mach_port_type source);
  '(k2, u) ← call (mach_port_get_refs source (source_right c));
  mret (mk_looked k1 t k2 u).

Definition cargo_msg (service source : mach_port_t) (msg_id : Z) : mach_msg_buf :=
  mk_msg (Z.lor (MACH_MSGH_BITS MACH_MSG_TYPE_COPY_SEND 0) MACH_MSGH_BITS_COMPLEX)
    sizeof_send_msg service MACH_PORT_NULL msg_id 1
    (mk_desc source MACH_MSG_TYPE_MOVE_SEND MACH_MSG_PORT_DESCRIPTOR) zero_desc.

Definition received_from (m : mach_msg_buf) : received :=
  mk_received (msgh_bits m) (msgh_id m) (msgh_descriptor_count m) (desc_name (msg_cargo m))
    (desc_type (msg_cargo m)) (desc_disposition (msg_cargo m)).

(** The port the message goes to, and the name that is in it. *)
Record names_of := mk_names {
  n_alloc_service : kern_return_t;
  n_service : mach_port_t;
  n_insert : kern_return_t;
  n_alloc_dead : kern_return_t;
  n_source : mach_port_t;
}.

(** [c->source_name] stays null when [mach_port_allocate] fails. *)
Definition acquire (c : case_t) : prog names_of :=
  '(kr_alloc, service) ← call (mach_port_allocate MACH_PORT_RIGHT_RECEIVE);
  kr_insert ← guarded (kr_alloc =? KERN_SUCCESS) (kr_insert_service_send c)
    (call (mach_port_insert_right service service MACH_MSG_TYPE_MAKE_SEND));
  '(kr_dead, source) ←
    guarded (kr_insert =? KERN_SUCCESS) (kr_alloc_dead_name c, source_name c) (
      if use_dead_name c then
        '(k, n) ← call (mach_port_allocate MACH_PORT_RIGHT_DEAD_NAME);
        mret (k, out_port k n)
      else
        n ← find_nonexistent_name;
        mret (KERN_SUCCESS, n));
  mret (mk_names kr_alloc service kr_insert kr_dead source).

Record exchanged := mk_exchanged {
  x_names : names_of;
  x_before : looked;
  x_sent_bits : Z;
  x_send : mach_msg_return_t;
  x_after : looked;
  x_receive : mach_msg_return_t;
  x_received : received;
}.

Definition exchange (c : case_t) (msg_id : Z) : prog exchanged :=
  a ← acquire c;
  let source := n_source a in
  looked_before ← guarded (negb (source =? MACH_PORT_NULL)) (source_before c) (look c source);
  '(bits, send) ←
    guarded ((n_insert a =? KERN_SUCCESS) && negb (source =? MACH_PORT_NULL))
      (sent_msgh_bits c, mr_send c) (
      let msg := cargo_msg (n_service a) source msg_id in
      '(mr, _) ← send_msg OB24_SEND_TIMEOUT_MS msg;
      mret (msgh_bits msg, mr));
  looked_after ← guarded (negb (source =? MACH_PORT_NULL)) (source_after c) (look c source);
  '(receive, r) ←
    guarded (n_alloc_service a =? KERN_SUCCESS) (mr_receive c, received_of c) (
      '(mr, m) ← receive_msg OB24_RECV_TIMEOUT_MS sizeof_recv_msg (n_service a);
      mret (mr, if mr =? MACH_MSG_SUCCESS then received_from m else received_of c));
  mret (mk_exchanged a looked_before bits send looked_after receive r).

(** From the delivered name to the comparison; [b] and [a] are the snapshots,
    of which the second is replaced. *)
Definition settle (c : case_t) (b a : nx_baseline_t) (x : exchanged) : prog case_t :=
  let n := x_names x in
  kr_delivered ← give_back (x_receive x) (delivered_port (x_received x));
  kr_source ← guarded (use_dead_name c && negb (n_source n =? MACH_PORT_NULL))
    (kr_deallocate_source c) (call (mach_port_deallocate (n_source n)));
  kr_destroy ← guarded (n_alloc_service n =? KERN_SUCCESS) (kr_destroy_service c)
    (call (mach_port_destroy (n_service n)));
  _ ← nx_baseline_free a;
  a ← nx_baseline_capture;
  let compared := nx_baseline_compare b a in
  mret (mk_case (name c) (use_dead_name c) b a (n_service n) (n_source n)
          (n_alloc_service n) (n_insert n) (n_alloc_dead n) (x_before x) (x_after x)
          kr_source kr_delivered kr_destroy (x_send x) (x_receive x) (x_sent_bits x)
          (x_received x) compared.2 compared.1).

Definition run_case (c : case_t) (msg_id : Z) : prog case_t :=
  b ← nx_baseline_capture;
  a ← nx_baseline_capture;
  x ← exchange c msg_id;
  settle c b a x.

(** ** The verdict *)

Definition case_dead_name_consumed_and_delivered (c : case_t) : bool :=
  use_dead_name c &&
  (kr_source_type (source_before c) =? KERN_SUCCESS) &&
  (source_type (source_before c) =? MACH_PORT_TYPE_DEAD_NAME) &&
  (kr_source_refs (source_before c) =? KERN_SUCCESS) &&
  (source_refs (source_before c) =? 1) &&
  (mr_send c =? MACH_MSG_SUCCESS) &&
  (kr_source_type (source_after c) =? KERN_INVALID_NAME) &&
  (kr_source_refs (source_after c) =? KERN_INVALID_NAME) &&
  (mr_receive c =? MACH_MSG_SUCCESS) &&
  (received_descriptor_count (received_of c) =? 1) &&
  (kr_deallocate_delivered c =? KERN_SUCCESS) &&
  (kr_deallocate_source c =? KERN_INVALID_NAME).

Definition case_nonexistent_rejected (c : case_t) : bool :=
  (kr_source_type (source_before c) =? KERN_INVALID_NAME) &&
  (kr_source_refs (source_before c) =? KERN_INVALID_NAME) &&
  (mr_send c =? MACH_SEND_INVALID_RIGHT) &&
  (kr_source_type (source_after c) =? KERN_INVALID_NAME) &&
  (kr_source_refs (source_after c) =? KERN_INVALID_NAME) &&
  (mr_receive c =? MACH_RCV_TIMED_OUT).

Definition case_ok (c : case_t) : bool :=
  negb (nx_baseline_blocks_probe (before c)) &&
  (kr_alloc_service c =? KERN_SUCCESS) &&
  (kr_insert_service_send c =? KERN_SUCCESS) &&
  (kr_alloc_dead_name c =? KERN_SUCCESS) &&
  (if use_dead_name c then case_dead_name_consumed_and_delivered c
   else case_nonexistent_rejected c) &&
  (kr_destroy_service c =? KERN_SUCCESS) &&
  negb (nx_baseline_blocks_probe (after c)) &&
  cleanup_ok c.

Record obs := mk_obs { dead_case : case_t; nonexistent_case : case_t }.

Definition observe : prog obs :=
  let dead := case_init "dead_name" true in
  let nonexistent := case_init "nonexistent_name" false in
  guarded APPLE (mk_obs dead nonexistent) (
    dead ← run_case dead OB24_DEAD_MSG_ID;
    nonexistent ← run_case nonexistent OB24_NONEXIST_MSG_ID;
    mret (mk_obs dead nonexistent)).

Definition all_ok (o : obs) : bool := case_ok (dead_case o) && case_ok (nonexistent_case o).
Definition cleanup_ok_of (o : obs) : bool :=
  if APPLE then cleanup_ok (dead_case o) && cleanup_ok (nonexistent_case o) else true.
Definition cleanup_notes (o : obs) : string :=
  if APPLE then
    (if cleanup_ok (dead_case o) && cleanup_ok (nonexistent_case o) then ""
     else "namespace delta detected")
  else "not applicable on non-macOS host".

Definition accepted : verdict :=
  mk_verdict NX_STATUS_PASS NX_CLASS_EXACT_CONTRACT
    "accepted macOS behavior: dead-name descriptor sources are delivered and consumed; the old no-delivery/no-mutation expectation was wrong".
Definition violated : verdict :=
  fail_contract
    "dead or nonexistent descriptor source behavior violated accepted macOS contract".

Definition verdict_of (o : obs) : verdict :=
  if APPLE then (if negb (all_ok o) then violated else accepted)
  else skip "non-macOS host: Mach APIs unavailable".

(** ** The report *)

(** [snprintf(call, sizeof(call), "%s...", c->name)] *)
Definition case_call (c : case_t) (what : string) : string := snprintf 128 (name c +:+ what).

Definition emit_case_returns (c : case_t) : op nx_json_t :=
  nx_result_emit_return (case_call c "_mach_port_names_before")
    (nx_kern_return_str (kr (before c))) (kr (before c)) false 0 ;;
  nx_result_emit_return (case_call c "_mach_port_allocate_service")
    (nx_kern_return_str (kr_alloc_service c)) (kr_alloc_service c) false 0 ;;
  nx_result_emit_return (case_call c "_mach_port_insert_right_service_make_send")
    (nx_kern_return_str (kr_insert_service_send c)) (kr_insert_service_send c) false 0 ;;
  nx_result_emit_return (case_call c "_setup_source_name")
    (nx_kern_return_str (kr_alloc_dead_name c)) (kr_alloc_dead_name c) false 0 ;;
  nx_result_emit_return (case_call c "_mach_port_type_source_before_send")
    (nx_kern_return_str (kr_source_type (source_before c)))
    (kr_source_type (source_before c)) false 0 ;;
  nx_result_emit_return (case_call c "_mach_port_get_refs_source_before_send")
    (nx_kern_return_str (kr_source_refs (source_before c)))
    (kr_source_refs (source_before c)) false 0 ;;
  nx_result_emit_return (case_call c "_mach_msg_send_descriptor_move_send")
    (nx_msg_return_str (mr_send c)) (mr_send c) false 0 ;;
  nx_result_emit_return (case_call c "_mach_port_type_source_after_send")
    (nx_kern_return_str (kr_source_type (source_after c)))
    (kr_source_type (source_after c)) false 0 ;;
  nx_result_emit_return (case_call c "_mach_port_get_refs_source_after_send")
    (nx_kern_return_str (kr_source_refs (source_after c)))
    (kr_source_refs (source_after c)) false 0 ;;
  nx_result_emit_return (case_call c "_mach_msg_receive_after_send")
    (nx_msg_return_str (mr_receive c)) (mr_receive c) false 0 ;;
  (when (mr_receive c =? MACH_MSG_SUCCESS) do
     (nx_result_emit_return (case_call c "_mach_port_deallocate_delivered")
        (nx_kern_return_str (kr_deallocate_delivered c)) (kr_deallocate_delivered c)
        false 0)) ;;
  (when (use_dead_name c) do
     (nx_result_emit_return (case_call c "_mach_port_deallocate_source")
        (nx_kern_return_str (kr_deallocate_source c)) (kr_deallocate_source c) false 0)) ;;
  nx_result_emit_return (case_call c "_mach_port_destroy_service")
    (nx_kern_return_str (kr_destroy_service c)) (kr_destroy_service c) false 0 ;;
  nx_result_emit_return (case_call c "_mach_port_names_after")
    (nx_kern_return_str (kr (after c))) (kr (after c)) false 0.

Definition emit_case_observation (c : case_t) : op nx_json_t :=
  nx_json_begin_object ;;
  nx_json_key_string "case" (name c) ;;
  nx_json_key_string "source_kind"
    (if use_dead_name c then "dead_name" else "nonexistent_name") ;;
  nx_json_key_string "descriptor_disposition" "MACH_MSG_TYPE_MOVE_SEND" ;;
  nx_json_key_string "sent_msgh_bits_raw_hex" (hex32 (sent_msgh_bits c)) ;;
  nx_json_key_string "source_type_before"
    (nx_port_type_str (source_type (source_before c))) ;;
  nx_json_key_string "source_type_before_return"
    (nx_kern_return_str (kr_source_type (source_before c))) ;;
  nx_json_key_int "source_refs_before"
    (refs_or_minus1_ll (kr_source_refs (source_before c)) (source_refs (source_before c))) ;;
  nx_json_key_string "send_return" (nx_msg_return_str (mr_send c)) ;;
  nx_json_key_bool "send_rejected" (negb (mr_send c =? MACH_MSG_SUCCESS)) ;;
  nx_json_key_string "source_type_after"
    (nx_port_type_str (source_type (source_after c))) ;;
  nx_json_key_string "source_type_after_return"
    (nx_kern_return_str (kr_source_type (source_after c))) ;;
  nx_json_key_int "source_refs_after"
    (refs_or_minus1_ll (kr_source_refs (source_after c)) (source_refs (source_after c))) ;;
  nx_json_key_bool "source_unchanged"
    (if use_dead_name c then false else case_nonexistent_rejected c) ;;
  nx_json_key_bool "accepted_behavior_matched"
    (if use_dead_name c then case_dead_name_consumed_and_delivered c
     else case_nonexistent_rejected c) ;;
  nx_json_key_string "receive_after_send" (nx_msg_return_str (mr_receive c)) ;;
  nx_json_key_bool "message_delivered" (mr_receive c =? MACH_MSG_SUCCESS) ;;
  nx_json_key_string "received_msgh_bits_raw_hex"
    (hex32 (received_msgh_bits (received_of c))) ;;
  nx_json_key_int "received_msgh_id" (received_msgh_id (received_of c)) ;;
  nx_json_key_int "received_descriptor_count" (received_descriptor_count (received_of c)) ;;
  nx_json_key_string "received_descriptor_type"
    (descriptor_type_str (received_descriptor_type (received_of c))) ;;
  nx_json_key_string "received_descriptor_disposition"
    (disposition_str (received_descriptor_disposition (received_of c))) ;;
  nx_json_key_bool "cleanup_returned_to_baseline" (cleanup_ok c) ;;
  nx_json_key_int "cleanup_delta" (cleanup_delta c) ;;
  nx_json_end_object.

Definition emit_message (o : obs) : op nx_json_t :=
  nx_json_key "message" ;;
  nx_json_begin_object ;;
  nx_json_key_string "msgh_bits" "0x80000013" ;;
  nx_json_key "remote_port" ;;
  nx_json_begin_object ;;
  nx_json_key_string "name" "service_port" ;;
  nx_json_key_string "disposition" "MACH_MSG_TYPE_COPY_SEND" ;;
  nx_json_key_string "right_type" "MACH_PORT_TYPE_SEND" ;;
  nx_json_end_object ;;
  nx_json_key "local_port" ;;
  nx_json_begin_object ;;
  nx_json_key_null "name" ;;
  nx_json_key_null "disposition" ;;
  nx_json_key_null "right_type" ;;
  nx_json_end_object ;;
  nx_json_key "header_rights" ;;
  nx_json_begin_array ;;
  nx_json_begin_object ;;
  nx_json_key_string "field" "msgh_remote_port" ;;
  nx_json_key_string "disposition" "MACH_MSG_TYPE_COPY_SEND" ;;
  nx_json_key_string "right_type_before" "MACH_PORT_TYPE_SEND" ;;
  nx_json_key_string "right_type_after" "MACH_PORT_TYPE_SEND" ;;
  nx_json_end_object ;;
  nx_json_end_array ;;
  nx_json_key_int "descriptor_count" 2 ;;
  nx_json_key "descriptors" ;;
  nx_json_begin_array ;;
  nx_json_begin_object ;;
  nx_json_key_string "name" "dead_name_descriptor" ;;
  nx_json_key_string "disposition" "MACH_MSG_TYPE_MOVE_SEND" ;;
  nx_json_key_string "right_type_before" "MACH_PORT_TYPE_DEAD_NAME" ;;
  nx_json_key_string "right_type_after"
    (nx_port_type_str (source_type (source_after (dead_case o)))) ;;
  nx_json_end_object ;;
  nx_json_begin_object ;;
  nx_json_key_string "name" "nonexistent_name_descriptor" ;;
  nx_json_key_string "disposition" "MACH_MSG_TYPE_MOVE_SEND" ;;
  nx_json_key_string "right_type_before" "KERN_INVALID_NAME" ;;
  nx_json_key_string "right_type_after" "KERN_INVALID_NAME" ;;
  nx_json_end_object ;;
  nx_json_end_array ;;
  nx_json_end_object.

Definition emit_returns (o : obs) : op nx_json_t :=
  nx_json_key "returns" ;;
  nx_json_begin_array ;;
  emit_case_returns (dead_case o) ;;
  emit_case_returns (nonexistent_case o) ;;
  nx_json_end_array.

Definition emit_deltas (o : obs) : op nx_json_t :=
  nx_json_key "right_deltas" ;;
  nx_json_begin_array ;;
  nx_result_emit_right_delta "dead name descriptor source" "dead_name"
    "MACH_PORT_RIGHT_DEAD_NAME"
    (refs_or_minus1_ll (kr_source_refs (source_before (dead_case o)))
       (source_refs (source_before (dead_case o))))
    (refs_or_minus1_ll (kr_source_refs (source_after (dead_case o)))
       (source_refs (source_after (dead_case o))))
    (-1) (-1) "consumed and delivered" ;;
  nx_result_emit_right_delta "nonexistent descriptor source" "nonexistent_name"
    "MACH_PORT_RIGHT_SEND" (-1) (-1) (-1) (-1) "not present" ;;
  nx_json_end_array.

Definition emit_observations (o : obs) : op nx_json_t :=
  nx_json_key "observations" ;;
  nx_json_begin_object ;;
  nx_json_key "cases" ;;
  nx_json_begin_array ;;
  emit_case_observation (dead_case o) ;;
  emit_case_observation (nonexistent_case o) ;;
  nx_json_end_array ;;
  nx_json_key_bool "all_sends_rejected"
    (negb (mr_send (dead_case o) =? MACH_MSG_SUCCESS)
     && negb (mr_send (nonexistent_case o) =? MACH_MSG_SUCCESS)) ;;
  nx_json_key_bool "any_message_delivered"
    ((mr_receive (dead_case o) =? MACH_MSG_SUCCESS)
     || (mr_receive (nonexistent_case o) =? MACH_MSG_SUCCESS)) ;;
  nx_json_key_bool "all_sources_unchanged" false ;;
  nx_json_key_bool "dead_name_accepted_contract"
    (case_dead_name_consumed_and_delivered (dead_case o)) ;;
  nx_json_key_bool "nonexistent_name_accepted_contract"
    (case_nonexistent_rejected (nonexistent_case o)) ;;
  nx_json_key_string "old_expectation_note"
    "old expectation was no-delivery/no-mutation for dead names; native macOS delivers and consumes dead-name descriptor sources" ;;
  nx_json_key_bool "all_cleanup_returned_to_baseline" (cleanup_ok_of o) ;;
  nx_json_end_object.

Definition report (o : obs) (v : verdict) : op nx_json_t :=
  nx_json_begin_object ;;
  nx_result_emit_header agent_name "macos_m2_dead_name_descriptor_right" NULL NULL
    (status v) (sclass v) ;;
  nx_env_emit ;;
  emit_message o ;;
  emit_returns o ;;
  emit_deltas o ;;
  emit_observations o ;;
  nx_result_emit_cleanup (cleanup_ok_of o) (cleanup_notes o) ;;
  nx_json_key_string "notes" (notes v) ;;
  nx_json_end_object.

Definition main : prog (option outcome) :=
  o ← observe;
  let v := verdict_of o in
  let r := finish (report o v) v in
  _ ← nx_baseline_free (before (dead_case o));
  _ ← nx_baseline_free (after (dead_case o));
  _ ← nx_baseline_free (before (nonexistent_case o));
  _ ← nx_baseline_free (after (nonexistent_case o));
  mret r.
End dead_name.

Section facts.
Context `{Host} `{MachSdk}.

Lemma dead_name_written o :
  env_file_ok →
  emits_result true "macos_m2_dead_name_descriptor_right" (verdict_of o) (cleanup_ok_of o)
    (report o (verdict_of o)).
Proof.
  intros Henv. unfold report, emit_message, emit_returns, emit_deltas, emit_observations,
    emit_case_returns, emit_case_observation.
  report_tac.
Qed.

(** ** What is held *)

Context `{!SdkSizes} `{!SdkRights}.

(** A name is delivered with a descriptor only, and with no more descriptors than
    there is room for. *)
Definition tidy (c : case_t) : Prop :=
  (delivered_port (received_of c) ≠ MACH_PORT_NULL →
   mr_receive c = MACH_MSG_SUCCESS ∧ 1 ≤ received_descriptor_count (received_of c)) ∧
  received_descriptor_count (received_of c) ≤ 1.
Definition tidy_obs (o : obs) : Prop := tidy (dead_case o) ∧ tidy (nonexistent_case o).

(** The right that came with the message. *)
Definition has_descriptor (mr : mach_msg_return_t) (r : received) : bool :=
  (mr =? MACH_MSG_SUCCESS) && (1 <=? received_descriptor_count r).
Definition exchange_holds (c : case_t) (x : exchanged) (B : gmultiset (Z * Z)) : ledger :=
  let n := x_names x in
  mk_ledger (own_right (n_alloc_service n) (n_service n))
    (named (has_descriptor (x_receive x) (x_received x)) (delivered_port (x_received x)) ⊎
     (named (use_dead_name c) (n_source n) ⊎
      own_send (n_alloc_service n) (n_insert n) (n_service n))) B.

Lemma dead_came_with_received mr m c (r := if mr =? MACH_MSG_SUCCESS then received_from m
                                      else c) :
  received_descriptor_count r ≤ 1 →
  came_with mr m = named (has_descriptor mr r) (delivered_port r).
Proof.
  unfold came_with, r, has_descriptor.
  destruct (mr =? MACH_MSG_SUCCESS); [apply one_carried|done].
Qed.

Lemma rwp_find Q s : (∀ n, Q n s) → rwp find_nonexistent_name Q s.
Proof.
  intros HQ. assert (∀ n c, rwp (find_from n c) Q s) as Hf; [|apply Hf].
  induction n as [|n IH]; intros c; [apply HQ|].
  cbn [find_from]. apply wp_bind, wp_call; [done|]. intros [k t] s' ->.
  destruct (negb _); [apply HQ|apply IH].
Qed.

Lemma acquire_ledger name dead B :
  let c := case_init name dead in
  rwp (acquire c) (λ n l,
    l = mk_ledger (own_right (n_alloc_service n) (n_service n))
          (own_send (n_alloc_service n) (n_insert n) (n_service n) ⊎
           named dead (n_source n)) B) (mk_ledger ∅ ∅ B).
Proof.
  intros c. unfold acquire, c. cbn [use_dead_name case_init source_name].
  destruct dead; cbn beta iota; 
    repeat match goal with
           | |- wp _ _ find_nonexistent_name _ _ => apply rwp_find; intros ?
           | |- _ => lwp_step
           end; try ledger_pre.
  all: unfold own_right, own_send;
    cbn [account account_carried dead_right MACH_PORT_RIGHT_RECEIVE rights sends regions
         n_alloc_service n_service n_insert n_alloc_dead n_source];
    rewrite ?dead_right_dead_name, ?named_out_port; cbn [rights sends regions]; known_path.
Qed.

Lemma dead_exchange_ledger name dead id B :
  let c := case_init name dead in
  rwp (exchange c id) (λ x l,
    received_descriptor_count (x_received x) ≤ 1 → l = exchange_holds c x B)
    (mk_ledger ∅ ∅ B).
Proof.
  intros c. unfold exchange, look. apply wp_bind.
  eapply wp_mono; [apply acquire_ledger|]. intros n l ->. fold c. repeat rwp_step.
  all: try ledger_pre; try (unfold sizeof_recv_msg, sizeof_send_msg; size_tac).
  all: intros Hc; unfold exchange_holds, add_sends;
    cbn [x_names x_receive x_received rights sends regions use_dead_name c case_init] in *.
  all: rewrite ?(dead_came_with_received _ _ (received_of c)) by exact Hc;
    change (has_descriptor (mr_receive c) (received_of c)) with false;
    rewrite ?named_false; cbn [account_carried account andb rights sends regions];
    f_equal; try multiset_solver.
Qed.

Lemma dead_settle_ledger c b a x B :
  captured a →
  (delivered_port (x_received x) ≠ MACH_PORT_NULL →
   x_receive x = MACH_MSG_SUCCESS ∧ 1 ≤ received_descriptor_count (x_received x)) →
  rwp (settle c b a x)
    (λ c' l, before c' = b ∧ captured (after c') ∧
       l = mk_ledger ∅ ∅ (B ⊎ baseline_regions (after c')))
    (exchange_holds c x (B ⊎ baseline_regions a)).
Proof.
  intros Ha Hd. unfold settle, give_back, exchange_holds.
  apply wp_bind, rwp_give_named.
  { intros [-> Hc%Z.leb_le]%Hd. unfold has_descriptor. by rewrite Hc. }
  intros kd. apply wp_bind, rwp_give_named; [done|].
  intros ks. apply wp_bind, rwp_destroy_last. intros kr.
  repeat rwp_step. split; [done|]. split; [done|]. ledger_eq.
Qed.

Lemma settle_received {W} `{Kernel W} c b a x w :
  mr_receive (run (settle c b a x) w).1 = x_receive x ∧
  received_of (run (settle c b a x) w).1 = x_received x.
Proof. unfold settle. by repeat (rewrite run_bind; destruct (run _ _)). Qed.

Definition tidy_exchange (x : exchanged) : Prop :=
  (delivered_port (x_received x) ≠ MACH_PORT_NULL →
   x_receive x = MACH_MSG_SUCCESS ∧ 1 ≤ received_descriptor_count (x_received x)) ∧
  received_descriptor_count (x_received x) ≤ 1.

Lemma run_case_ledger name dead id B :
  let c := case_init name dead in
  safe_if (@account_carried) (run_case c id) tidy
    (λ c' l, captured (before c') ∧ captured (after c') ∧
       l = mk_ledger ∅ ∅ (B ⊎ baseline_regions (before c') ⊎ baseline_regions (after c')))
    (mk_ledger ∅ ∅ B).
Proof.
  intros c. unfold run_case.
  apply (safe_if_bind _ _ (λ _, True) _ (λ b l, captured b ∧ l =
    mk_ledger ∅ ∅ (B ⊎ baseline_regions b)));
    [apply safe_if_lwp, (lwp_capture _); by intros b|done|].
  intros b l _ [Hb ->].
  apply (safe_if_bind _ _ (λ _, True) _ (λ a l, captured a ∧ l =
    mk_ledger ∅ ∅ (B ⊎ baseline_regions b ⊎ baseline_regions a)));
    [apply safe_if_lwp, (lwp_capture _); by intros a|done|].
  intros a l _ [Ha ->].
  eapply (safe_if_bind _ _ tidy_exchange);
    [apply safe_if_lwp, dead_exchange_ledger| |].
  - intros x W K w. unfold tidy, tidy_exchange. by destruct (settle_received c b a x w) as [-> ->].
  - intros x l Hx Hl. rewrite Hl by apply Hx. apply safe_if_lwp.
    eapply wp_mono; [apply dead_settle_ledger; [done|apply Hx]|].
    intros c' l' (<- & Ha' & ->). done.
Qed.

Lemma dead_observe_ledger :
  APPLE = true →
  safe_if (@account_carried) observe tidy_obs (λ o l, l = mk_ledger ∅ ∅
      (baseline_regions (before (dead_case o)) ⊎ baseline_regions (after (dead_case o)) ⊎
       baseline_regions (before (nonexistent_case o)) ⊎
       baseline_regions (after (nonexistent_case o)))) no_holdings.
Proof.
  intros E. unfold observe, guarded. rewrite E.
  eapply (safe_if_bind _ _ tidy); [apply (run_case_ledger _ true _ ∅)| |].
  - intros d W K w. rewrite run_bind. destruct (run (run_case _ _) w). by intros [? _].
  - intros d l Hd (_ & _ & ->).
    eapply (safe_if_bind _ _ tidy); [apply (run_case_ledger _ false)| |].
    + by intros n W K w [_ ?].
    + intros n l Hn (_ & _ & ->). apply safe_if_lwp, wp_ret. cbn [dead_case nonexistent_case].
      f_equal. multiset_solver.
Qed.

(** Whatever the kernel answers, [main] uses only rights and memory it
    holds, gives back everything in both cases, also a name that was delivered, and
    writes one result document.  This needs that a name is delivered with a
    descriptor only.  (Rights that a message takes along are not subtracted, so
    the dead name may be given back after it was moved.) *)
Theorem dead_name_main_safe {W} `{Kernel W} w :
  env_file_ok → tidy_obs (run observe w).1 →
  let o := (run observe w).1 in
  (∃ w', run_with (@account_carried) main w no_holdings =
     Some (finish (report o (verdict_of o)) (verdict_of o), w', no_holdings)) ∧
  emits_result true "macos_m2_dead_name_descriptor_right" (verdict_of o) (cleanup_ok_of o)
    (report o (verdict_of o)).
Proof.
  intros Henv Ht o. split; [|by apply dead_name_written]. destruct APPLE eqn:E.
  - eapply (safe_if_two_parts observe _ (λ o, finish (report o (verdict_of o)) (verdict_of o)));
      [by apply dead_observe_ledger| |done].
    intros o' l ->. by eapply (lwp_tail4 _); try (unfold captured; congruence).
  - unfold o, main, observe, guarded, nx_baseline_free. rewrite E. by eexists.
Qed.

(** ** On a kernel that keeps the contract *)

(** The candidates of [find_nonexistent_name], and the one it should return. *)
Fixpoint candidates (n : nat) (c : mach_port_t) : list mach_port_t :=
  match n with O => [] | S n => c :: candidates n (u32 (c + 0x100)) end.
Definition all_candidates : list mach_port_t := candidates 1024 first_candidate.

Lemma first_in_candidates n c : c ∈ candidates (S n) c.
Proof. cbn [candidates]. by left. Qed.
Lemma first_candidate_in : first_candidate ∈ all_candidates.
Proof. exact (first_in_candidates 1023 first_candidate). Qed.

Definition first_free (s : space) (l : list mach_port_t) : option mach_port_t :=
  List.find (λ c, bool_decide (s !! c = None)) l.

Lemma all_candidates_valid : Forall valid_name all_candidates.
Proof.
  assert (Forall (λ c, 0 < c < MACH_PORT_DEAD) all_candidates) as Ha
    by (apply (bool_decide_unpack _); by vm_compute).
  eapply Forall_impl; [exact Ha|]. intros c [Hl Hu]. unfold valid_name, MACH_PORT_NULL. lia.
Qed.

Lemma cwp_find_from pf n c (Q : Z → space → Prop) s :
  Forall valid_name (candidates n c) →
  Q (default first_candidate (first_free s (candidates n c))) s →
  cwp pf (find_from n c) Q s.
Proof.
  revert c. induction n as [|n IH]; intros c; [done|].
  cbn [candidates find_from]. intros [Hc Hn]%Forall_cons HQ. apply wp_bind.
  unfold first_free in *. cbn [List.find] in HQ. case_bool_decide as E.
  - eapply cwp_type_none; [done|done|]. intros t. done.
  - destruct (s !! c) as [e|] eqn:Es; [|done]. eapply cwp_type; [exact Es|]. by apply IH.
Qed.

Lemma first_free_spec s l :
  match first_free s l with
  | Some c => c ∈ l ∧ s !! c = None
  | None => ∀ c, c ∈ l → is_Some (s !! c)
  end.
Proof.
  unfold first_free. destruct (List.find _ l) as [c|] eqn:E.
  - apply find_some in E as [Hc Hn]. split; [by apply list_elem_of_In|].
    by apply bool_decide_eq_true in Hn.
  - intros c Hc%list_elem_of_In. pose proof (find_none _ _ E _ Hc) as Hn.
    apply bool_decide_eq_false in Hn. by destruct (s !! c).
Qed.

(** C29: on a kernel that keeps the contract the search returns the first of its
    1024 candidates that is no name of the task, without changing anything; when
    all of them are names, it returns the first, which is one. *)
Theorem find_nonexistent_name_first {W} `{Kernel W} `{!MachContract W} w :
  healthy w →
  view (run find_nonexistent_name w).2 = view w ∧
  match first_free (view w) all_candidates with
  | Some c => (run find_nonexistent_name w).1 = c ∧ view w !! c = None
  | None => (run find_nonexistent_name w).1 = first_candidate ∧
            is_Some (view w !! first_candidate)
  end.
Proof.
  intros Hw.
  destruct (cwp_sound find_nonexistent_name (λ r s, s = view w ∧
    r = default first_candidate (first_free (view w) all_candidates)) w Hw) as [[Hs Hr] _].
  { apply cwp_find_from; [apply all_candidates_valid|done]. }
  split; [exact Hs|]. pose proof (first_free_spec (view w) all_candidates) as Hf.
  destruct (first_free _ _) as [c|]; [by destruct Hf|]. split; [exact Hr|].
  apply Hf, first_candidate_in.
Qed.

Lemma cwp_find_free pf (Q : Z → space → Prop) s :
  (∃ c, c ∈ all_candidates ∧ s !! c = None) →
  (∀ r, valid_name r → s !! r = None → Q r s) →
  cwp pf find_nonexistent_name Q s.
Proof.
  intros (c & Hc & Hn) HQ. apply cwp_find_from; [apply all_candidates_valid|].
  fold all_candidates. pose proof (first_free_spec s all_candidates) as Hf.
  destruct (first_free _ _) as [r|].
  - destruct Hf as [Hr Hs]. apply HQ; [|done].
    exact (proj1 (Forall_forall _ _) all_candidates_valid r Hr).
  - destruct (Hf c Hc) as [x Hx]. congruence.
Qed.

(** A new dead name. *)
Definition dead_entry : entry := mk_entry Port false false 0 MACH_PORT_NULL [] 0 1.

Lemma fresh_dead : fresh_entry MACH_PORT_RIGHT_DEAD_NAME = dead_entry.
Proof.
  pose proof dead_name_right as Hd. rewrite !not_elem_of_cons in Hd.
  destruct Hd as (_ & E1%Z.eqb_neq & E2%Z.eqb_neq & _).
  unfold fresh_entry, dead_entry. by rewrite E1, E2.
Qed.

Lemma dead_refs : right_refs MACH_PORT_RIGHT_DEAD_NAME dead_entry = 1.
Proof.
  pose proof dead_name_right as Hd. rewrite !not_elem_of_cons in Hd.
  destruct Hd as (E0%Z.eqb_neq & E1%Z.eqb_neq & E2%Z.eqb_neq & _).
  unfold right_refs. by rewrite E0, E1, E2, Z.eqb_refl.
Qed.

Lemma cwp_acquire_dead pf name (Q : names_of → space → Prop) s :
  (∀ k n, k ≠ KERN_SUCCESS →
     Q (mk_names k n KERN_FAILURE KERN_FAILURE MACH_PORT_NULL) s) →
  (∀ n k, k ≠ KERN_SUCCESS → n ≠ MACH_PORT_NULL → s !! n = None → no_members n s →
     Q (mk_names KERN_SUCCESS n KERN_SUCCESS k MACH_PORT_NULL)
       (<[n := service_entry]> s)) →
  (∀ n m, valid_name m → n ≠ MACH_PORT_NULL → n ≠ m → s !! n = None → s !! m = None → no_members n s →
     Q (mk_names KERN_SUCCESS n KERN_SUCCESS KERN_SUCCESS m)
       (<[m := dead_entry]> (<[n := service_entry]> s))) →
  cwp pf (acquire (case_init name true)) Q s.
Proof.
  intros Hf Hd Hs. unfold acquire. cbn [use_dead_name case_init]. apply wp_bind, cwp_allocate.
  { intros k n Hk. apply Z.eqb_neq in Hk as E. cbn beta iota. rewrite E. by apply Hf. }
  intros n Hn0 _ Hn Hin. apply wp_bind.
  eapply cwp_insert_make_send; [apply lookup_insert_eq|done|done|].
  rewrite insert_insert_eq. apply wp_bind, wp_bind, cwp_allocate_valid.
  { intros k m Hk. apply Z.eqb_neq in Hk as E. cbn beta iota. apply wp_ret.
    unfold out_port. rewrite E. by apply Hd. }
  intros m Hm _ [Hm' Hnm]%lookup_insert_None _. cbn beta iota. apply wp_ret.
  rewrite fresh_dead. by apply Hs.
Qed.

Lemma cwp_acquire_free pf name (Q : names_of → space → Prop) s :
  (∃ c, c ∈ all_candidates ∧ s !! c = None ∧ ¬ kernel_name pf c) →
  (∀ k n, k ≠ KERN_SUCCESS →
     Q (mk_names k n KERN_FAILURE KERN_FAILURE MACH_PORT_NULL) s) →
  (∀ n m, valid_name m → n ≠ MACH_PORT_NULL → n ≠ m → s !! n = None → s !! m = None → no_members n s →
     Q (mk_names KERN_SUCCESS n KERN_SUCCESS KERN_SUCCESS m) (<[n := service_entry]> s)) →
  cwp pf (acquire (case_init name false)) Q s.
Proof.
  intros (c & Hc & Hfree & Hk) Hf Hs. unfold acquire. cbn [use_dead_name case_init].
  apply wp_bind, cwp_allocate.
  { intros k n Hn. apply Z.eqb_neq in Hn as E. cbn beta iota. rewrite E. by apply Hf. }
  intros n Hn0 Hkn Hn Hin. apply wp_bind.
  eapply cwp_insert_make_send; [apply lookup_insert_eq|done|done|].
  rewrite insert_insert_eq. apply wp_bind, wp_bind, cwp_find_free.
  { exists c. split; [done|]. rewrite lookup_insert_ne; [done|]. intros ->. done. }
  intros m Hm [Hm' Hnm]%lookup_insert_None. apply wp_ret. by apply Hs.
Qed.

Lemma cargo_moves service source id : moves_one (cargo_msg service source id) source.
Proof. done. Qed.

(** Reads the members of what was observed so far. *)
Ltac members :=
  cbn [n_alloc_service n_service n_insert n_alloc_dead n_source x_names x_before x_after
       x_receive x_received use_dead_name case_init delivered_port received_from
       source_name kr_insert_service_send mr_receive received_of].
(** Nothing is in the queue of the service port. *)
Ltac receive_nothing :=
  eapply cwp_receive_empty;
    [space_side..|unfold sizeof_recv_msg, sizeof_send_msg; size_tac|intros ?];
  repeat (members; cwp_step).

Definition case_outcome (c : case_t) : Prop :=
  case_ok c = (kr_alloc_service c =? KERN_SUCCESS) && (kr_alloc_dead_name c =? KERN_SUCCESS) ∧
  cleanup_ok c = true.

Lemma cwp_dead_case pf s :
  APPLE = true →
  cwp pf (run_case (case_init "dead_name" true) OB24_DEAD_MSG_ID)
    (λ c s', case_outcome c ∧ s' = s) s.
Proof.
  intros Ha. unfold run_case, exchange, settle, look, give_back, send_msg, receive_msg.
  repeat cwp_step. apply cwp_acquire_dead.
  - intros k n Hk. apply Z.eqb_neq in Hk as Ek. repeat (members; cwp_step).
    conform_tac ltac:(unfold case_outcome, case_ok).
  - intros n k Hk Hn0 Hn Hin. apply Z.eqb_neq in Hk as Ek. repeat (members; cwp_step).
    receive_nothing.
    conform_tac ltac:(unfold case_outcome, case_ok).
  - intros n m [Hm0 Hm1] Hn0 Hnm Hn Hm Hin. repeat (members; cwp_step).
    eapply (cwp_send_dead _ _ _ _ _ _ _ m service_entry dead_entry);
      [apply cargo_moves|by apply not_eq_sym
      |cbn [msgh_remote_port cargo_msg]; space_side|space_side..|intros _].
    change (put m (add_dead (-1) dead_entry) ?x) with (delete m x).
    rewrite delete_insert_id by (by rewrite lookup_insert_ne). cbn [msgh_remote_port cargo_msg].
    rewrite insert_insert_eq. assert (∀ e, (<[n:=e]> s) !! m = None) as Hgone
      by (intros; by rewrite lookup_insert_ne).
    assert (valid_name m) as Hv by done. repeat cwp_step.
    eapply cwp_type_none; [done..|intros t]. repeat cwp_step.
    eapply cwp_get_refs_none; [done..|intros u]. repeat cwp_step.
    eapply (cwp_receive _ _ _ _ _ _ _ _ (without_port (cargo_msg n m OB24_DEAD_MSG_ID)) []);
      [space_side..|cbn; unfold sizeof_recv_msg; lia|].
    intros got _ _ Hgot. destruct Hgot as [Hc Hd]; [done..|].
    repeat lazymatch goal with
           | |- wp _ _ (guarded (_ && negb (delivered_port _ =? _)) _ _) _ _ => fail
           | |- _ => cwp_step
           end.
    change (MACH_MSG_SUCCESS =? MACH_MSG_SUCCESS) with true. members. rewrite Hd.
    apply cwp_deallocate_dead. repeat (members; cwp_step).
    eapply cwp_deallocate_none; [done|apply Hgone|]. repeat (members; cwp_step).
    conform_tac ltac:(unfold case_outcome, case_ok, case_dead_name_consumed_and_delivered,
      source_right).
    by rewrite dead_refs, Hc.
Qed.

Lemma cwp_nonexistent_case pf s :
  APPLE = true →
  (∃ c, c ∈ all_candidates ∧ s !! c = None ∧ ¬ kernel_name pf c) →
  cwp pf (run_case (case_init "nonexistent_name" false) OB24_NONEXIST_MSG_ID)
    (λ c s', case_outcome c ∧ s' = s) s.
Proof.
  intros Ha Hfree.
  unfold run_case, exchange, settle, look, give_back, send_msg, receive_msg.
  repeat cwp_step. apply cwp_acquire_free; [done|..].
  - intros k n Hk. apply Z.eqb_neq in Hk as Ek. repeat (members; cwp_step).
    conform_tac ltac:(unfold case_outcome, case_ok).
  - intros n m Hv Hn0 Hnm Hn Hm Hin. pose proof Hv as [Hm0 _].
    assert (∀ e, (<[n:=e]> s) !! m = None) as Hgone
      by (intros; by rewrite lookup_insert_ne).
    repeat (members; cwp_step).
    eapply cwp_type_none; [done..|intros t]. repeat cwp_step.
    eapply cwp_get_refs_none; [done..|intros u]. repeat (members; cwp_step).
    eapply cwp_send_nothing; [apply cargo_moves|done..|intros _]. repeat (members; cwp_step).
    eapply cwp_type_none; [done..|intros t']. repeat cwp_step.
    eapply cwp_get_refs_none; [done..|intros u']. repeat (members; cwp_step).
    receive_nothing.
    conform_tac ltac:(unfold case_outcome, case_ok, case_nonexistent_rejected).
Qed.

(** On a kernel that keeps the contract, for which one of the candidates is
    neither a name of the task nor one that it gives out, the probe passes unless
    a port or the dead name could not be allocated: the message that moves the
    dead name is sent, the name is gone, and what arrives is a dead right; the
    message that moves a name that denotes nothing is refused and nothing
    arrives.  The name space is as it was. *)
Theorem dead_name_conforms {W} `{Kernel W} `{!MachContract W} w :
  APPLE = true → healthy w →
  (∃ c, c ∈ all_candidates ∧ view w !! c = None ∧ ¬ kernel_name kernel_platform c) →
  conforming observe main (λ o,
    let ok c := (kr_alloc_service c =? KERN_SUCCESS) && (kr_alloc_dead_name c =? KERN_SUCCESS) in
    verdict_of o =
      (if ok (dead_case o) && ok (nonexistent_case o) then accepted else violated) ∧
    cleanup_ok_of o = true) w.
Proof.
  intros Ha Hw Hfree. unfold main. apply cwp_two_parts; [done| |intros; tail_tac].
  unfold observe, guarded. rewrite Ha. apply wp_bind.
  eapply wp_mono; [by apply cwp_dead_case|]. intros d s [[Hd1 Hd2] ->]. apply wp_bind.
  eapply wp_mono; [by apply cwp_nonexistent_case|]. intros n s [[Hn1 Hn2] ->].
  apply wp_ret. split; [|done].
  unfold verdict_of, cleanup_ok_of, all_ok. cbn [dead_case nonexistent_case].
  rewrite Ha, Hd1, Hd2, Hn1, Hn2. split; [|done].
  by match goal with |- (if negb ?c then _ else _) = _ => destruct c end.
Qed.
End facts.

(** The theorems at the reference kernel, on a task that has just started. *)
Section witnesses.
Import OnMacos.

Lemma dead_name_main_safe_witness :
  env_file_ok ∧ tidy_obs (run observe boot).1 ∧
  (∃ w', run_with (@account_carried) main boot no_holdings =
     Some (finish (report (run observe boot).1 (verdict_of (run observe boot).1))
             (verdict_of (run observe boot).1), w', no_holdings)) ∧
  emits_result true "macos_m2_dead_name_descriptor_right"
    (verdict_of (run observe boot).1) (cleanup_ok_of (run observe boot).1)
    (report (run observe boot).1 (verdict_of (run observe boot).1)).
Proof.
  assert (tidy_obs (run observe boot).1) as Ht.
  { split; (split; [|by apply (bool_decide_unpack _); vm_compute]);
      intros E; first [by destruct E | by apply (bool_decide_unpack _); vm_compute]. }
  split; [exact no_env_file|]. split; [exact Ht|].
  exact (dead_name_main_safe boot no_env_file Ht).
Defined.

Lemma find_nonexistent_name_first_witness :
  healthy boot ∧
  first_free boot_space all_candidates = Some first_candidate ∧
  (run find_nonexistent_name boot).1 = first_candidate.
Proof.
  assert (first_free boot_space all_candidates = Some first_candidate) as Hf by by vm_compute.
  split; [exact healthy_boot|]. split; [exact Hf|].
  destruct (find_nonexistent_name_first boot healthy_boot) as [_ Hr].
  change (view boot) with boot_space in Hr. rewrite Hf in Hr. exact (proj1 Hr).
Defined.

Lemma dead_name_conforms_witness :
  APPLE = true ∧ healthy boot ∧
  (∃ c, c ∈ all_candidates ∧ view boot !! c = None ∧ ¬ kernel_name kernel_platform c) ∧
  verdict_of (run observe boot).1 = accepted ∧
  cleanup_ok_of (run observe boot).1 = true ∧ view (run main boot).2 = boot_space.
Proof.
  assert (∃ c, c ∈ all_candidates ∧ view boot !! c = None ∧
    ¬ kernel_name kernel_platform c) as Hfree.
  { exists first_candidate. split; [exact first_candidate_in|]. split; [by vm_compute|].
    intros [_ Hc]. by vm_compute in Hc. }
  split; [done|]. split; [exact healthy_boot|]. split; [exact Hfree|].
  destruct (dead_name_conforms boot on_macos healthy_boot Hfree) as [(Hv & Hc) Hs].
  split; [etransitivity; [exact Hv|by vm_compute]|]. split; [exact Hc|exact Hs].
Defined.
End witnesses.
End DeadName.
