(* ===== verification/Refusals.v ===== *)
(** The three m2 probes of messages the kernel should refuse, together. *)

From stdpp Require Import gmultiset.
From S2P Require Import Prelude Json NxJson MachApi NxMachUtils Ledger MachContract NxResult.
From S2P Require Import Probe RefKernel Exchange ToSelf InvalidDisposition DoubleMoveSend DeadName.

Local Open Scope Z_scope.

Section refusals.
Context `{Host} `{MachSdk} `{!SdkSizes} `{!SdkRights}.

(** What a probe does in a world: it uses only rights and memory it holds, where those
    that a message takes along are not subtracted, and ends with nothing held; it writes
    the document with the verdict for what it observed. *)
Definition gives_back_all {W} `{Kernel W} {O} (observing : prog O) (entry : prog (option outcome))
    (id : string) (judge : O → verdict) (clean : O → bool)
    (document : O → verdict → op nx_json_t) (w : W) : Prop :=
  let o := (run observing w).1 in
  (∃ w', run_with (@account_carried) entry w no_holdings =
     Some (finish (document o (judge o)) (judge o), w', no_holdings)) ∧
  emits_result true id (judge o) (clean o) (document o (judge o)).

(** C18: whatever the kernel answers, each of the three probes gives back every right and
    all memory it got, also a right that was delivered although its message should have
    been refused, and writes one result document.  This needs that a name is delivered
    with a descriptor only, and at most as many as were asked for. *)
Theorem refusals_safe {W} `{Kernel W} w :
  env_file_ok →
  (DoubleMoveSend.tidy (run DoubleMoveSend.meet w).1.2 →
   gives_back_all DoubleMoveSend.observe DoubleMoveSend.main
     "macos_m2_double_move_send_descriptor" DoubleMoveSend.verdict_of
     DoubleMoveSend.cleanup_ok DoubleMoveSend.report w) ∧
  (InvalidDisposition.tidy (run InvalidDisposition.meet w).1.2 →
   gives_back_all InvalidDisposition.observe InvalidDisposition.main
     "macos_m2_invalid_descriptor_disposition" InvalidDisposition.verdict_of
     InvalidDisposition.cleanup_ok InvalidDisposition.report w) ∧
  (DeadName.tidy_obs (run DeadName.observe w).1 →
   gives_back_all DeadName.observe DeadName.main
     "macos_m2_dead_name_descriptor_right" DeadName.verdict_of
     DeadName.cleanup_ok_of DeadName.report w).
Proof.
  intros Henv. split; [exact (DoubleMoveSend.DoubleMoveSend.double_move_send_main_safe w Henv)|].
  split; [exact (InvalidDisposition.InvalidDisposition.invalid_disposition_main_safe w Henv)|].
  exact (DeadName.DeadName.dead_name_main_safe w Henv).
Qed.
(** C19: on a kernel that keeps the contract none of the three messages is taken for what it
    is not, unless a port could not be allocated: the one reference is not moved twice, and
    afterwards it is there or it is gone; a disposition that is none is refused and changes
    nothing; a dead name that is moved arrives as a dead right and is gone, and a name that
    denotes nothing is refused.  The name space is as it was. *)
Theorem refusals_conform {W} `{Kernel W} `{!MachContract W} w :
  APPLE = true → healthy w →
  conforming DoubleMoveSend.observe DoubleMoveSend.main (λ o,
    let p := DoubleMoveSend.ports_of (DoubleMoveSend.exchanged_of o) in
    let b := DoubleMoveSend.cargo_before (DoubleMoveSend.exchanged_of o) in
    let a := DoubleMoveSend.cargo_after_send (DoubleMoveSend.exchanged_of o) in
    let class := DoubleMoveSend.consumption_class (DoubleMoveSend.kr_cargo_refs a) (DoubleMoveSend.cargo_refs b)
                   (DoubleMoveSend.cargo_refs a) in
    let ok := (ToSelf.kr_alloc_service p =? KERN_SUCCESS) && (ToSelf.kr_alloc_cargo p =? KERN_SUCCESS) in
    DoubleMoveSend.verdict_of o = (if ok then pass else probe_failure "setup failed") ∧
    DoubleMoveSend.cleanup_ok o = true ∧
    (ok = true → DoubleMoveSend.send_succeeded o = false ∧
       (class = "not_consumed" ∨ class = "fully_consumed")%string)) w ∧
  (invalid_disposition InvalidDisposition.OB24_INVALID_DISPOSITION →
   conforming InvalidDisposition.observe InvalidDisposition.main (λ o,
    let p := InvalidDisposition.ports_of (InvalidDisposition.exchanged_of o) in
    InvalidDisposition.verdict_of o =
      (if (ToSelf.kr_alloc_service p =? KERN_SUCCESS) && (ToSelf.kr_alloc_cargo p =? KERN_SUCCESS) then pass
       else probe_failure "setup failed") ∧
    InvalidDisposition.cleanup_ok o = true) w) ∧
  ((∃ c, c ∈ DeadName.all_candidates ∧ view w !! c = None ∧ ¬ kernel_name kernel_platform c) →
   conforming DeadName.observe DeadName.main (λ o,
    let ok c := (DeadName.kr_alloc_service c =? KERN_SUCCESS) &&
                (DeadName.kr_alloc_dead_name c =? KERN_SUCCESS) in
    DeadName.verdict_of o =
      (if ok (DeadName.dead_case o) && ok (DeadName.nonexistent_case o)
       then DeadName.accepted else DeadName.violated) ∧
    DeadName.cleanup_ok_of o = true) w).
Proof.
  intros Ha Hw. split; [exact (DoubleMoveSend.DoubleMoveSend.double_move_send_conforms w Ha Hw)|].
  split; [exact (InvalidDisposition.InvalidDisposition.invalid_disposition_conforms w Ha Hw)|].
  exact (DeadName.DeadName.dead_name_conforms w Ha Hw).
Qed.
End refusals.

(** At the reference kernel. *)
Section witnesses.
Import OnMacos.

Lemma refusals_safe_witness :
  env_file_ok ∧ DoubleMoveSend.tidy (run DoubleMoveSend.meet boot).1.2 ∧
  InvalidDisposition.tidy (run InvalidDisposition.meet boot).1.2 ∧
  DeadName.tidy_obs (run DeadName.observe boot).1 ∧
  gives_back_all DoubleMoveSend.observe DoubleMoveSend.main
     "macos_m2_double_move_send_descriptor" DoubleMoveSend.verdict_of
     DoubleMoveSend.cleanup_ok DoubleMoveSend.report boot ∧
  gives_back_all InvalidDisposition.observe InvalidDisposition.main
     "macos_m2_invalid_descriptor_disposition" InvalidDisposition.verdict_of
     InvalidDisposition.cleanup_ok InvalidDisposition.report boot ∧
  gives_back_all DeadName.observe DeadName.main
     "macos_m2_dead_name_descriptor_right" DeadName.verdict_of
     DeadName.cleanup_ok_of DeadName.report boot.
Proof.
  assert (DoubleMoveSend.tidy (run DoubleMoveSend.meet boot).1.2) as H1
    by (vm_compute; split; intros E; by destruct E).
  assert (InvalidDisposition.tidy (run InvalidDisposition.meet boot).1.2) as H2
    by (vm_compute; split; [intros E; by destruct E|discriminate]).
  assert (DeadName.tidy_obs (run DeadName.observe boot).1) as H3.
  { split; (split; [|by apply (bool_decide_unpack _); vm_compute]);
      intros E; first [by destruct E | by apply (bool_decide_unpack _); vm_compute]. }
  destruct (refusals_safe boot no_env_file) as (G1 & G2 & G3).
  split; [exact no_env_file|]. split; [exact H1|]. split; [exact H2|]. split; [exact H3|].
  split; [exact (G1 H1)|]. split; [exact (G2 H2)|exact (G3 H3)].
Defined.
Lemma refusals_conform_witness :
  APPLE = true ∧ healthy boot ∧
  DoubleMoveSend.verdict_of (run DoubleMoveSend.observe boot).1 = pass ∧
  DoubleMoveSend.send_succeeded (run DoubleMoveSend.observe boot).1 = false ∧
  InvalidDisposition.verdict_of (run InvalidDisposition.observe boot).1 = pass ∧
  DeadName.verdict_of (run DeadName.observe boot).1 = DeadName.accepted ∧
  view (run DeadName.main boot).2 = boot_space.
Proof.
  assert (invalid_disposition InvalidDisposition.OB24_INVALID_DISPOSITION) as Hi
    by (apply (bool_decide_unpack _); by vm_compute).
  assert (∃ c, c ∈ DeadName.all_candidates ∧ view boot !! c = None ∧
    ¬ kernel_name kernel_platform c) as Hfree.
  { exists DeadName.first_candidate. split; [exact DeadName.DeadName.first_candidate_in|].
    split; [by vm_compute|]. intros [_ Hc]. by vm_compute in Hc. }
  destruct (refusals_conform boot on_macos healthy_boot) as ([(H1 & _ & H2) _] & H3 & H4).
  destruct (H3 Hi) as [[H5 _] _]. destruct (H4 Hfree) as [[H6 _] H7].
  split; [done|]. split; [exact healthy_boot|].
  split; [etransitivity; [exact H1|by vm_compute]|].
  split; [apply H2; by vm_compute|].
  split; [etransitivity; [exact H5|by vm_compute]|].
  split; [etransitivity; [exact H6|by vm_compute]|exact H7].
Defined.
End witnesses.
