(* ===== verification/Forked.v ===== *)
(** The skeleton of the probes of [macos-validation/probes/m2] that fork:
    [descriptor_copy_send.c], [descriptor_move_send.c] and
    [send_once_descriptor.c].

    The parent makes a service port the bootstrap port and forks; the child looks
    the service port up, allocates a cargo port and sends a right to it in a
    message; the parent uses the right it was given; the child reports over a
    pipe.  The three files do this in the same words, but for the right that is
    sent, what is done with it, the status structure, and the verdict.  These are
    the operations of a [forked_probe]; [SafeForked] states what the skeleton
    needs of them, and [forked_main_safe] is proved against it.

    [main] has two ends: the parent returns from it, the child leaves it in
    [_exit].  Either may be killed by its [alarm] while it loops on the pipe; see
    [StatusPipe]. *)

From S2P Require Import Prelude Json NxJson JsonText Builder MachApi NxMachUtils Typed.
From S2P Require Import Ledger.
From stdpp Require Import gmultiset.
From S2P Require Import MachContract NxResult Probe RefKernel TwoTasks StatusPipe Exchange.

Local Open Scope oracle_scope.
Local Open Scope Z_scope.

Module Forked.
Import StatusPipe.

(** What the child holds before the operations that are the probe's own. *)
Record held := mk_held {
  h_after : nx_baseline_t;
  h_before : nx_baseline_t;
  h_get_bootstrap : kern_return_t;
  h_service_port : mach_port_t;
  h_alloc_cargo : kern_return_t;
  h_cargo_port : mach_port_t;
}.

(** What the calls on the delivered right answered. *)
Record seen := mk_seen {
  s_kr_type : kern_return_t;
  s_type : mach_port_type_t;
  s_kr_refs : kern_return_t;
  s_refs : mach_port_urefs_t;
}.

(** The operations in which the probes differ: [T] is the status structure, [K]
    what the child's messages showed, [U] what came of using the delivered
    right. *)
Record forked_probe (T K U : Type) := mk_forked {
  initial_child : T;
  exit_code_of : T → Z;
  child_talk : held → prog K;
  child_status : held → K → kern_return_t → nx_baseline_t → T;
  cargo_right : Z;
  no_use : U;
  use_delivered : seen → mach_port_t → prog U;
}.
Arguments mk_forked {T K U}.
Arguments initial_child {T K U}.
Arguments exit_code_of {T K U}.
Arguments child_talk {T K U}.
Arguments child_status {T K U}.
Arguments cargo_right {T K U}.
Arguments no_use {T K U}.
Arguments use_delivered {T K U}.

Section sizes.
Context `{MachSdk}.

(** The sizes of the four message structures. *)
Definition sizeof_descriptor_send_msg : Z :=
  sizeof_mach_msg_header + sizeof_mach_msg_body + sizeof_mach_msg_port_descriptor.
Definition sizeof_descriptor_recv_msg : Z :=
  sizeof_descriptor_send_msg + sizeof_mach_msg_max_trailer.
Definition sizeof_simple_send_msg : Z := sizeof_mach_msg_header.
Definition sizeof_simple_recv_msg : Z :=
  sizeof_mach_msg_header + sizeof_mach_msg_max_trailer.

(** The message with the cargo. *)
Definition descriptor_msg (id : Z) (service_port cargo : mach_port_t) (disposition : Z) :
    mach_msg_buf :=
  mk_msg (Z.lor (MACH_MSGH_BITS MACH_MSG_TYPE_COPY_SEND 0) MACH_MSGH_BITS_COMPLEX)
    sizeof_descriptor_send_msg service_port MACH_PORT_NULL id 1
    (mk_desc cargo disposition MACH_MSG_PORT_DESCRIPTOR) zero_desc.

(** A message that is a header. *)
Definition simple_msg (disposition : Z) (port : mach_port_t) (id : Z) : mach_msg_buf :=
  mk_msg (MACH_MSGH_BITS disposition 0) sizeof_simple_send_msg port MACH_PORT_NULL id 0
    zero_desc zero_desc.
End sizes.

(** ** What the parent observes *)

Record setup := mk_setup {
  status_pipe_created : bool;
  status_pipe : Z * Z;
  kr_get_bootstrap : kern_return_t;
  original_bootstrap : mach_port_t;
  kr_alloc_service : kern_return_t;
  service_port : mach_port_t;
  kr_insert_service_send : kern_return_t;
  kr_set_bootstrap_service : kern_return_t;
}.

Definition no_setup : setup :=
  mk_setup false (-1, -1) KERN_FAILURE MACH_PORT_NULL KERN_FAILURE MACH_PORT_NULL
    KERN_FAILURE KERN_FAILURE.

(** What the message with the descriptor brought. *)
Record delivery (U : Type) := mk_delivery {
  mr_parent_receive_descriptor : mach_msg_return_t;
  parent_received_msgh_bits : Z;
  parent_received_remote_disp : Z;
  parent_received_local_disp : Z;
  parent_received_msgh_size : Z;
  parent_received_msgh_id : Z;
  parent_received_descriptor_count : Z;
  delivered_port : mach_port_t;
  delivered_descriptor_type : Z;
  delivered_descriptor_disposition : Z;
  delivered : seen;
  used : U;
}.
Arguments mk_delivery {U}.
Arguments mr_parent_receive_descriptor {U}.
Arguments parent_received_msgh_bits {U}.
Arguments parent_received_remote_disp {U}.
Arguments parent_received_local_disp {U}.
Arguments parent_received_msgh_size {U}.
Arguments parent_received_msgh_id {U}.
Arguments parent_received_descriptor_count {U}.
Arguments delivered_port {U}.
Arguments delivered_descriptor_type {U}.
Arguments delivered_descriptor_disposition {U}.
Arguments delivered {U}.
Arguments used {U}.

(** The child as the parent sees it. *)
Record joined_child (T : Type) := mk_joined {
  child_pid : Z;
  child : T;
  child_status_read : bool;
  child_waited : bool;
  child_wait_status : Z;
}.
Arguments mk_joined {T}.
Arguments child_pid {T}.
Arguments child {T}.
Arguments child_status_read {T}.
Arguments child_waited {T}.
Arguments child_wait_status {T}.

Record release := mk_release {
  kr_parent_deallocate_delivered : kern_return_t;
  kr_destroy_service : kern_return_t;
  kr_deallocate_original_bootstrap : kern_return_t;
  after : nx_baseline_t;
  compared : bool * Z;
}.

(** What the parent's report reads. *)
Record obs (T U : Type) := mk_obs {
  before : nx_baseline_t;
  setup_of : setup;
  kr_restore_bootstrap : kern_return_t;
  delivery_of : delivery U;
  joined : joined_child T;
  cleanup : release;
}.
Arguments mk_obs {T U}.
Arguments before {T U}.
Arguments setup_of {T U}.
Arguments kr_restore_bootstrap {T U}.
Arguments delivery_of {T U}.
Arguments joined {T U}.
Arguments cleanup {T U}.

(** Where a process is when the messages have been exchanged. *)
Inductive position (T K U : Type) :=
  | ParentAt (s : setup) (kr_restore : kern_return_t) (d : delivery U) (j : joined_child T)
  | ChildAt (status_fd : Z) (h : held) (t : K)
  | KilledAt.
Arguments ParentAt {T K U}.
Arguments ChildAt {T K U}.
Arguments KilledAt {T K U}.

Inductive process (T U : Type) :=
  | InParent (o : obs T U)
  | InChild (exit_code : Z)
  | IsKilled.
Arguments InParent {T U}.
Arguments InChild {T U}.
Arguments IsKilled {T U}.

(** How the process ends: [main] returns with an exit status and what it wrote,
    or [_exit] in the child, or a signal. *)
Inductive ending :=
  | Returned (r : option outcome)
  | Exited (code : Z)
  | Killed.

Section forked.
Context `{Host} `{MachSdk}.
Context {T K U : Type} `{!StatusStruct T} (F : forked_probe T K U).

(** ** The child *)

Definition child_start : prog held :=
  after ← nx_baseline_capture;
  '(kr_get_bootstrap, bootstrap) ← call (task_get_special_port TASK_BOOTSTRAP_PORT);
  before ← nx_baseline_capture;
  '(kr_alloc_cargo, cargo_port) ←
    guarded (kr_get_bootstrap =? KERN_SUCCESS) (KERN_FAILURE, MACH_PORT_NULL)
      (call (mach_port_allocate MACH_PORT_RIGHT_RECEIVE));
  mret (mk_held after before kr_get_bootstrap (out_port kr_get_bootstrap bootstrap)
          kr_alloc_cargo cargo_port).

(** The end of the ports; the status does not depend on it being written. *)
Definition child_close (h : held) : prog (kern_return_t * nx_baseline_t) :=
  kr_destroy ← guarded (h_alloc_cargo h =? KERN_SUCCESS) KERN_FAILURE
    (call (mach_port_destroy (h_cargo_port h)));
  _ ← nx_baseline_free (h_after h);
  after ← nx_baseline_capture;
  _ ← guarded ((h_get_bootstrap h =? KERN_SUCCESS) &&
               negb (h_service_port h =? MACH_PORT_NULL)) KERN_SUCCESS
    (call (mach_port_deallocate (h_service_port h)));
  mret (kr_destroy, after).

(** From the destruction of the cargo port to [_exit]; [None] when the child is
    killed while it writes. *)
Definition child_finish (fuel : nat) (status_fd : Z) (h : held) (t : K) :
    prog (option Z) :=
  '(kr_destroy, after) ← child_close h;
  let st := child_status F h t kr_destroy after in
  w ← write_full fuel status_fd (image st);
  match w with
  | None => mret None
  | Some _ =>
      _ ← call (sys_close status_fd);
      _ ← nx_baseline_free (h_before h);
      _ ← nx_baseline_free after;
      mret (Some (exit_code_of F st))
  end.

(** The child up to the status it is about to write. *)
Definition child_result : prog T :=
  h ← child_start;
  t ← child_talk F h;
  '(kr_destroy, after) ← child_close h;
  mret (child_status F h t kr_destroy after).

Definition child_run (fuel : nat) (status_fd : Z) : prog (option Z) :=
  h ← child_start;
  t ← child_talk F h;
  child_finish fuel status_fd h t.

(** ** The parent *)

Definition parent_setup : prog setup :=
  fds ← call sys_pipe;
  '(kr_get_bootstrap, bootstrap) ← call (task_get_special_port TASK_BOOTSTRAP_PORT);
  '(kr_alloc_service, service_port) ←
    guarded (kr_get_bootstrap =? KERN_SUCCESS) (KERN_FAILURE, MACH_PORT_NULL)
      (call (mach_port_allocate MACH_PORT_RIGHT_RECEIVE));
  kr_insert_service_send ← guarded (kr_alloc_service =? KERN_SUCCESS) KERN_FAILURE
    (call (mach_port_insert_right service_port service_port MACH_MSG_TYPE_MAKE_SEND));
  kr_set_bootstrap_service ← guarded (kr_insert_service_send =? KERN_SUCCESS) KERN_FAILURE
    (call (task_set_special_port TASK_BOOTSTRAP_PORT service_port));
  mret (mk_setup (match fds with Some _ => true | None => false end) (default (-1, -1) fds)
          kr_get_bootstrap (out_port kr_get_bootstrap bootstrap) kr_alloc_service
          service_port kr_insert_service_send kr_set_bootstrap_service).

Definition no_delivery (mr : mach_msg_return_t) : delivery U :=
  mk_delivery mr 0 0 0 0 0 0 MACH_PORT_NULL 0 0 (mk_seen KERN_FAILURE 0 KERN_FAILURE 0)
    (no_use F).

Definition parent_receive (service_port : mach_port_t) : prog (delivery U) :=
  '(mr, recv_msg) ← receive_msg 5000 sizeof_descriptor_recv_msg service_port;
  guarded (mr =? MACH_MSG_SUCCESS) (no_delivery mr) (
    let bits := msgh_bits recv_msg in
    let cargo := msg_cargo recv_msg in
    let port := desc_name cargo in
    '(kr_type, type) ← call (mach_port_type port);
    '(kr_refs, refs) ← call (mach_port_get_refs port (cargo_right F));
    let x := mk_seen kr_type type kr_refs refs in
    u ← use_delivered F x port;
    mret (mk_delivery mr bits (MACH_MSGH_BITS_REMOTE bits) (MACH_MSGH_BITS_LOCAL bits)
            (msgh_size recv_msg) (msgh_id recv_msg) (msgh_descriptor_count recv_msg) port
            (desc_type cargo) (desc_disposition cargo) x u)).

Definition not_joined (pid : Z) : joined_child T :=
  mk_joined pid (initial_child F) false false (-1).

(** [if (child_pid > 0) { ... }], after the message. *)
Definition parent_join (fuel : nat) (status_fd child_pid : Z) :
    prog (option (joined_child T)) :=
  r ← read_full fuel status_fd size_of_status [];
  match r with
  | None => mret None
  | Some (ok, bytes) =>
      _ ← call (sys_close status_fd);
      '(pid, wait_status) ← call (sys_waitpid child_pid);
      mret (Some (mk_joined child_pid (overwrite (initial_child F) bytes) ok
                    (pid =? child_pid) wait_status))
  end.

Definition parent_exchange (fuel : nat) (s : setup) (child_pid : Z) :
    prog (position T K U) :=
  kr_restore ← guarded (kr_set_bootstrap_service s =? KERN_SUCCESS) KERN_FAILURE
    (call (task_set_special_port TASK_BOOTSTRAP_PORT (original_bootstrap s)));
  if 0 <? child_pid then
    d ← parent_receive (service_port s);
    j ← parent_join fuel (status_pipe s).1 child_pid;
    match j with
    | None => mret KilledAt
    | Some j => mret (ParentAt s kr_restore d j)
    end
  else mret (ParentAt s kr_restore (no_delivery MACH_RCV_INVALID_NAME) (not_joined child_pid)).

(** From [pipe] to [waitpid]; in the child, to the end of its messages. *)
Definition exchange (fuel : nat) : prog (position T K U) :=
  s ← parent_setup;
  if (kr_set_bootstrap_service s =? KERN_SUCCESS) && (0 <=? (status_pipe s).1) then
    child_pid ← call sys_fork;
    if child_pid =? 0 then
      _ ← call (sys_close (status_pipe s).1);
      h ← child_start;
      t ← child_talk F h;
      mret (ChildAt (status_pipe s).2 h t)
    else
      _ ← call (sys_close (status_pipe s).2);
      parent_exchange fuel s child_pid
  else parent_exchange fuel s (-1).

Definition parent_release (before after : nx_baseline_t) (s : setup) (d : delivery U) :
    prog release :=
  kr_delivered ← guarded (negb (delivered_port d =? MACH_PORT_NULL)) KERN_FAILURE
    (call (mach_port_deallocate (delivered_port d)));
  kr_service ← guarded (kr_alloc_service s =? KERN_SUCCESS) KERN_FAILURE
    (call (mach_port_destroy (service_port s)));
  kr_original ← guarded (negb (original_bootstrap s =? MACH_PORT_NULL)) KERN_FAILURE
    (call (mach_port_deallocate (original_bootstrap s)));
  _ ← nx_baseline_free after;
  after ← nx_baseline_capture;
  mret (mk_release kr_delivered kr_service kr_original after
          (nx_baseline_compare before after)).

(** The snapshots and the exchange; off the platform there is no exchange. *)
Definition meet (fuel : nat) : prog (nx_baseline_t * nx_baseline_t * position T K U) :=
  before ← nx_baseline_capture;
  after ← nx_baseline_capture;
  x ← guarded APPLE
        (ParentAt no_setup KERN_FAILURE (no_delivery MACH_RCV_INVALID_NAME) (not_joined (-1)))
        (exchange fuel);
  mret (before, after, x).

Definition settle (fuel : nat) (before after : nx_baseline_t) (x : position T K U) :
    prog (process T U) :=
  match x with
  | ParentAt s kr_restore d j =>
      c ← guarded APPLE
            (mk_release KERN_FAILURE KERN_FAILURE KERN_FAILURE after (false, 0))
            (parent_release before after s d);
      mret (InParent (mk_obs before s kr_restore d j c))
  | ChildAt fd h t =>
      code ← child_finish fuel fd h t;
      mret (match code with Some c => InChild c | None => IsKilled end)
  | KilledAt => mret IsKilled
  end.

Definition observe (fuel : nat) : prog (process T U) :=
  '(before, after, x) ← meet fuel;
  settle fuel before after x.

(** The end of [main] in the parent, with the verdict and the document of the
    probe. *)
Variables (verdict_of : obs T U → verdict) (report : obs T U → verdict → op nx_json_t).

Definition conclude (p : process T U) : prog ending :=
  match p with
  | InParent o =>
      let v := verdict_of o in
      let r := finish (report o v) v in
      _ ← nx_baseline_free (before o);
      _ ← nx_baseline_free (after (cleanup o));
      mret (Returned r)
  | InChild code => mret (Exited code)
  | IsKilled => mret Killed
  end.

Definition main (fuel : nat) : prog ending :=
  x ← observe fuel;
  conclude x.
End forked.
Arguments child_start {_ _}.
Arguments child_close {_}.
Arguments parent_setup {_}.

(** ** Parts of the verdict and of the report *)

Section judged.
Context `{Host} {T U : Type} (o : obs T U).

Definition parent_received_descriptor : bool :=
  let d := delivery_of o in
  (mr_parent_receive_descriptor d =? MACH_MSG_SUCCESS) &&
  (parent_received_descriptor_count d =? 1) && negb (delivered_port d =? MACH_PORT_NULL).

Definition baseline_ok : bool := (compared (cleanup o)).1.
Definition cleanup_delta : Z := (compared (cleanup o)).2.
Definition cleanup_ok : bool := if APPLE then baseline_ok else true.
Definition cleanup_notes : string :=
  if APPLE then (if baseline_ok then "" else "namespace delta detected")
  else "not applicable on non-macOS host".

(** The branches of the verdict up to the message with the descriptor. *)
Definition setup_ladder : list (bool * verdict) :=
  let s := setup_of o in
  [(nx_baseline_blocks_probe (before o), probe_failure "initial mach_port_names failed");
   (negb (status_pipe_created s), probe_failure "pipe setup failed");
   (negb (kr_get_bootstrap s =? KERN_SUCCESS),
     probe_failure "task_get_special_port bootstrap failed");
   (negb (kr_alloc_service s =? KERN_SUCCESS),
     probe_failure "mach_port_allocate service failed");
   (negb (kr_insert_service_send s =? KERN_SUCCESS),
     probe_failure "mach_port_insert_right service failed");
   (negb (kr_set_bootstrap_service s =? KERN_SUCCESS),
     probe_failure "task_set_special_port service failed");
   (child_pid (joined o) <=? 0, probe_failure "fork failed");
   (negb (kr_restore_bootstrap o =? KERN_SUCCESS),
     probe_failure "task_set_special_port restore failed");
   (negb parent_received_descriptor, probe_failure "parent did not receive descriptor")].

(** The branches from the destruction of the service port on. *)
Definition cleanup_ladder : list (bool * verdict) :=
  [(negb (kr_destroy_service (cleanup o) =? KERN_SUCCESS),
     fail_probe "parent mach_port_destroy service failed");
   (nx_baseline_blocks_probe (after (cleanup o)),
     probe_failure "final mach_port_names failed");
   (negb baseline_ok,
     fail_contract "parent port namespace did not return to baseline")].

(** What the parent's setup returned. *)
Definition emit_setup_returns : op nx_json_t :=
  let s := setup_of o in
  nx_result_emit_return "parent_mach_port_names_before"
    (nx_kern_return_str (kr (before o))) (kr (before o)) false 0 ;;
  nx_result_emit_return "parent_task_get_special_port_bootstrap"
    (nx_kern_return_str (kr_get_bootstrap s)) (kr_get_bootstrap s) false 0 ;;
  nx_result_emit_return "parent_mach_port_allocate_service"
    (nx_kern_return_str (kr_alloc_service s)) (kr_alloc_service s) false 0 ;;
  nx_result_emit_return "parent_mach_port_insert_right_service_make_send"
    (nx_kern_return_str (kr_insert_service_send s)) (kr_insert_service_send s) false 0 ;;
  nx_result_emit_return "parent_task_set_special_port_service"
    (nx_kern_return_str (kr_set_bootstrap_service s)) (kr_set_bootstrap_service s)
    false 0 ;;
  nx_result_emit_return "parent_task_set_special_port_restore"
    (nx_kern_return_str (kr_restore_bootstrap o)) (kr_restore_bootstrap o) false 0.

(** What the end of both processes returned. *)
Definition emit_final_returns (kr_child_destroy_cargo kr_child_baseline_after : kern_return_t) :
    op nx_json_t :=
  nx_result_emit_return "child_mach_port_destroy_cargo"
    (nx_kern_return_str kr_child_destroy_cargo) kr_child_destroy_cargo false 0 ;;
  nx_result_emit_return "parent_mach_port_destroy_service"
    (nx_kern_return_str (kr_destroy_service (cleanup o)))
    (kr_destroy_service (cleanup o)) false 0 ;;
  nx_result_emit_return "parent_mach_port_deallocate_original_bootstrap"
    (nx_kern_return_str (kr_deallocate_original_bootstrap (cleanup o)))
    (kr_deallocate_original_bootstrap (cleanup o)) false 0 ;;
  nx_result_emit_return "child_mach_port_names_after"
    (nx_kern_return_str kr_child_baseline_after) kr_child_baseline_after false 0 ;;
  nx_result_emit_return "parent_mach_port_names_after"
    (nx_kern_return_str (kr (after (cleanup o)))) (kr (after (cleanup o))) false 0.

(** The [message] object; the descriptor has the right [cargo] of the type
    [right_type]. *)
Definition emit_message (bits : Z) (cargo disposition right_type : string) : op nx_json_t :=
  nx_json_key "message" ;;
  nx_json_begin_object ;;
  nx_json_key_string "msgh_bits" (hex32 bits) ;;
  nx_json_key "remote_port" ;;
  nx_json_begin_object ;;
  nx_json_key_string "name" "service_port" ;;
  nx_json_key_string "disposition" "MACH_MSG_TYPE_COPY_SEND" ;;
  nx_json_key_string "right_type" "MACH_PORT_TYPE_SEND" ;;
  nx_json_end_object ;;
  nx_json_key "local_port" ;;
  nx_json_begin_object ;;
  nx_json_key_null "name" ;;
  nx_json_key_null "disposition" ;;
  nx_json_key_null "right_type" ;;
  nx_json_end_object ;;
  nx_json_key "header_rights" ;;
  nx_json_begin_array ;;
  nx_json_begin_object ;;
  nx_json_key_string "field" "msgh_remote_port" ;;
  nx_json_key_string "disposition" "MACH_MSG_TYPE_COPY_SEND" ;;
  nx_json_key_string "right_type_before" "MACH_PORT_TYPE_SEND" ;;
  nx_json_key_string "right_type_after" "MACH_PORT_TYPE_SEND" ;;
  nx_json_end_object ;;
  nx_json_end_array ;;
  nx_json_key_int "descriptor_count" 1 ;;
  nx_json_key "descriptors" ;;
  nx_json_begin_array ;;
  nx_json_begin_object ;;
  nx_json_key_string "name" cargo ;;
  nx_json_key_string "disposition" disposition ;;
  nx_json_key_string "right_type_before" right_type ;;
  nx_json_key_string "right_type_after"
    (nx_port_type_str (s_type (delivered (delivery_of o)))) ;;
  nx_json_end_object ;;
  nx_json_end_array ;;
  nx_json_end_object.
End judged.

Section label.
Definition port_label (sent_right : string) (port service_port delivered : mach_port_t) :
    string :=
  if port =? MACH_PORT_NULL then "MACH_PORT_NULL"
  else if port =? service_port then "service_port"
  else if negb (delivered =? MACH_PORT_NULL) && (port =? delivered) then sent_right
  else "other_port".
End label.

Section judged_messages.
Context `{Host} `{MachSdk} {T U : Type} (o : obs T U).

(** The beginning of the observations. *)
Definition emit_transport : op nx_json_t :=
  nx_json_key_string "transport_setup"
    "bootstrap special-port inheritance plus status pipe" ;;
  nx_json_key_bool "child_status_read" (child_status_read (joined o)) ;;
  nx_json_key_bool "child_waited" (child_waited (joined o)) ;;
  nx_json_key_int "child_wait_status" (child_wait_status (joined o)).

(** The part of the observations on the received message; [label] names the
    delivered right. *)
Definition emit_received (label : string) : op nx_json_t :=
  let d := delivery_of o in
  nx_json_key_string "received_msgh_bits_raw_hex" (hex32 (parent_received_msgh_bits d)) ;;
  nx_json_key_string "received_remote_disposition"
    (disposition_str (parent_received_remote_disp d)) ;;
  nx_json_key_string "received_local_disposition"
    (disposition_str (parent_received_local_disp d)) ;;
  nx_json_key_int "received_msgh_size" (parent_received_msgh_size d) ;;
  nx_json_key_int "received_msgh_id" (parent_received_msgh_id d) ;;
  nx_json_key_int "received_descriptor_count" (parent_received_descriptor_count d) ;;
  nx_json_key_string "delivered_descriptor_name"
    (port_label label (delivered_port d) (service_port (setup_of o)) (delivered_port d)) ;;
  nx_json_key_string "delivered_descriptor_type"
    (descriptor_type_str (delivered_descriptor_type d)) ;;
  nx_json_key_string "delivered_descriptor_disposition"
    (disposition_str (delivered_descriptor_disposition d)) ;;
  nx_json_key_string "delivered_descriptor_disposition_raw_hex"
    (hex32 (delivered_descriptor_disposition d)) ;;
  nx_json_key_string "parent_delivered_port_type"
    (nx_port_type_str (s_type (delivered d))).

(** The end of the observations. *)
Definition emit_baselines : op nx_json_t :=
  nx_json_key_int "parent_names_before" (count_or_minus1 (before o)) ;;
  nx_json_key_int "parent_names_after" (count_or_minus1 (after (cleanup o))) ;;
  nx_json_key_int "parent_cleanup_delta" (cleanup_delta o).
End judged_messages.

(** A document with the four parts that are the probe's own. *)
Definition document `{Host} {T U : Type} (id : string)
    (emit_message emit_returns emit_deltas emit_observations : obs T U → op nx_json_t)
    (o : obs T U) (v : verdict) : op nx_json_t :=
  nx_json_begin_object ;;
  nx_result_emit_header agent_name id NULL NULL (status v) (sclass v) ;;
  nx_env_emit ;;
  emit_message o ;;
  emit_returns o ;;
  emit_deltas o ;;
  emit_observations o ;;
  nx_result_emit_cleanup (cleanup_ok o) (cleanup_notes o) ;;
  nx_json_key_string "notes" (notes v) ;;
  nx_json_end_object.

(** ** What the two processes hold *)

Definition child_holds (h : held) (kr_insert : Z) (B : gmultiset (Z * Z)) : ledger :=
  mk_ledger (own_right (h_alloc_cargo h) (h_cargo_port h))
    (named (h_get_bootstrap h =? KERN_SUCCESS) (h_service_port h) ⊎
     own_send (h_alloc_cargo h) kr_insert (h_cargo_port h))
    (B ⊎ baseline_regions (h_after h) ⊎ baseline_regions (h_before h)).

(** What the skeleton needs of the operations of a probe: after the child's
    messages there is at most a send right to the cargo port left, if no message
    brought rights the child does not expect; and using the delivered right
    acquires nothing and gives nothing back. *)
Class SafeForked `{Host} `{MachSdk} {T K U} (F : forked_probe T K U) := {
  own_insert : K → Z;
  quiet : K → Prop;
  talk_ledger h B :
    rwp (child_talk F h) (λ t l, quiet t → l = child_holds h (own_insert t) B)
      (child_holds h KERN_FAILURE B);
  use_ledger x port l : rwp (use_delivered F x port) (λ _ l', l' = l) l;
}.

(** Both sides of an equation of ledgers, from what is known of the path. *)
Ltac holdings :=
  unfold child_holds, own_right, own_send, came_with, add_sends, add_regions, out_port;
  cbn [account account_carried dead_right MACH_PORT_RIGHT_RECEIVE
         rights sends regions h_after h_before h_get_bootstrap h_service_port
         h_alloc_cargo h_cargo_port];
  known_path.

Section facts.
Context `{Host} `{MachSdk} `{!SdkSizes}.
Context {T K U : Type} `{!StatusStruct T} (F : forked_probe T K U) `{!SafeForked F}.

Lemma child_start_ledger B :
  rwp child_start (λ h s, captured (h_after h) ∧ captured (h_before h) ∧
    s = child_holds h KERN_FAILURE B) (mk_ledger ∅ ∅ B).
Proof.
  unfold child_start. repeat rwp_step.
  all: try ledger_pre.
  all: split; [done|]; split; [done|]; holdings.
Qed.

(** The names the kernel chose for new ports are not those of rights the task
    has. *)
Definition child_fresh (h : held) (t : K) : Prop :=
  (h_alloc_cargo h = KERN_SUCCESS → h_cargo_port h ≠ h_service_port h) ∧ quiet t.

Lemma child_finish_ledger fuel fd h t B :
  captured (h_after h) → captured (h_before h) → child_fresh h t →
  rwp (child_finish F fuel fd h t)
    (λ code s, match code with Some _ => s = mk_ledger ∅ ∅ B | None => True end)
    (child_holds h (own_insert t) B).
Proof.
  intros Ha Hb [Hf _]. unfold child_holds, child_finish, child_close. apply wp_bind.
  apply wp_bind, rwp_destroy_own; [done|]. intros kr_destroy.
  apply wp_bind, (lwp_free_held _); [done|cbn; multiset_solver|].
  apply wp_bind, (lwp_capture _). intros after Haf.
  apply wp_bind. unfold add_regions; cbn [rights sends regions].
  apply rwp_deallocate_named. intros _. apply wp_ret.
  apply wp_bind, rwp_write. intros [w|]; [|by apply wp_ret].
  repeat rwp_step; try ledger_pre. ledger_eq.
Qed.

Definition parent_holds (s : setup) (X : gmultiset Z) (B : gmultiset (Z * Z)) : ledger :=
  mk_ledger (own_right (kr_alloc_service s) (service_port s))
    (named (kr_get_bootstrap s =? KERN_SUCCESS) (original_bootstrap s) ⊎
     own_send (kr_alloc_service s) (kr_insert_service_send s) (service_port s) ⊎ X) B.

(** What the later stages know of the first one. *)
Definition setup_ok (s : setup) : Prop :=
  original_bootstrap s = out_port (kr_get_bootstrap s) (original_bootstrap s).

Lemma holds_bootstrap s X B :
  setup_ok s →
  l_pre _ (task_set_special_port TASK_BOOTSTRAP_PORT (original_bootstrap s))
    (parent_holds s X B).
Proof.
  unfold setup_ok, out_port, l_pre, holds, parent_holds, named. intros Hs. cbn [sends].
  destruct (Z.eqb_spec (original_bootstrap s) MACH_PORT_NULL) as [|Hn]; [done|].
  destruct (kr_get_bootstrap s =? KERN_SUCCESS); [|done]. cbn [andb negb orb].
  apply bool_decide_eq_true. multiset_solver.
Qed.

Lemma parent_setup_ledger B :
  rwp parent_setup (λ s l, setup_ok s ∧ l = parent_holds s ∅ B) (mk_ledger ∅ ∅ B).
Proof.
  unfold parent_setup. repeat rwp_step.
  all: try ledger_pre.
  all: try (unfold l_pre; ledger_norm; apply orb_true_iff; right;
            apply bool_decide_eq_true; multiset_solver).
  all: split; [unfold setup_ok, out_port; cbn; by destruct (_ =? _)|];
    unfold parent_holds, own_right, own_send, out_port;
    cbn [kr_get_bootstrap original_bootstrap kr_alloc_service service_port
         kr_insert_service_send account account_carried dead_right
         MACH_PORT_RIGHT_RECEIVE rights sends regions];
    known_path.
Qed.

(** The right that was delivered, when there was a descriptor for it. *)
Definition received (d : delivery U) : gmultiset Z :=
  named ((mr_parent_receive_descriptor d =? MACH_MSG_SUCCESS) &&
         (1 <=? parent_received_descriptor_count d)) (delivered_port d).

Lemma parent_receive_ledger port s :
  rwp (parent_receive F port) (λ d s',
    parent_received_descriptor_count d ≤ 1 → s' = add_sends (received d) s) s.
Proof.
  unfold parent_receive, received.
  repeat first [ eapply wp_mono; [apply use_ledger|intros ? ? ->] | rwp_step ].
  all: try ledger_pre.
  { unfold sizeof_descriptor_recv_msg, sizeof_descriptor_send_msg. size_tac. }
  all: cbn; intros Hc; unfold came_with; rewrite E; try done.
  all: by rewrite one_carried by done.
Qed.

Lemma parent_join_ledger fuel fd pid s :
  rwp (parent_join F fuel fd pid) (λ _ s', s' = s) s.
Proof. unfold parent_join. repeat rwp_step. destruct r as [[]|]; repeat rwp_step; done. Qed.

Definition position_holds (x : position T K U) (B : gmultiset (Z * Z)) (l : ledger) : Prop :=
  match x with
  | ParentAt s _ d _ => setup_ok s ∧
      (parent_received_descriptor_count d ≤ 1 → l = parent_holds s (received d) B)
  | ChildAt _ h t =>
      captured (h_after h) ∧ captured (h_before h) ∧
      (quiet t → l = child_holds h (own_insert t) B)
  | KilledAt => True
  end.

Lemma parent_exchange_ledger fuel s pid B :
  setup_ok s →
  rwp (parent_exchange F fuel s pid) (λ x l, position_holds x B l) (parent_holds s ∅ B).
Proof.
  intros Hs. unfold parent_exchange. apply wp_bind.
  eapply (wp_mono _ _ _ (λ _ l, l = parent_holds s ∅ B)).
  { apply wp_guarded; intros _; [|done].
    apply wp_call; [by apply holds_bootstrap|]. by intros k l ->. }
  intros kr_restore l ->. destruct (0 <? pid); [|by apply wp_ret].
  apply wp_bind. eapply wp_mono; [apply parent_receive_ledger|]. intros d l Hl.
  apply wp_bind. eapply wp_mono; [apply parent_join_ledger|].
  intros [j|] l' ->; apply wp_ret; [|done]. split; [done|]. intros Hc. rewrite Hl by done.
  unfold add_sends, parent_holds. cbn [rights sends regions]. f_equal. multiset_solver.
Qed.

Lemma child_at_ledger fd B :
  rwp (h ← child_start; t ← child_talk F h; mret (ChildAt fd h t))
    (λ x l, position_holds x B l) (mk_ledger ∅ ∅ B).
Proof.
  apply wp_bind. eapply wp_mono; [apply child_start_ledger|]. intros h l (Ha & Hb & ->).
  apply wp_bind. eapply wp_mono; [apply talk_ledger|]. intros t l Hl.
  by apply wp_ret.
Qed.

Lemma exchange_ledger fuel B :
  rwp (exchange F fuel) (λ x l, position_holds x B l) (mk_ledger ∅ ∅ B).
Proof.
  unfold exchange. apply wp_bind. eapply wp_mono; [apply parent_setup_ledger|].
  intros s l [Hs ->]. destruct (_ && _); [|by apply parent_exchange_ledger].
  apply wp_bind, wp_call; [done|]. intros pid l ->. cbn [account_carried account].
  destruct (pid =? 0); apply wp_bind, wp_call; try done; intros ? l ->.
  - apply child_at_ledger.
  - by apply parent_exchange_ledger.
Qed.

Definition parent_fresh (s : setup) (d : delivery U) : Prop :=
  (kr_alloc_service s = KERN_SUCCESS → service_port s ≠ original_bootstrap s) ∧
  (delivered_port d ≠ MACH_PORT_NULL →
   mr_parent_receive_descriptor d = MACH_MSG_SUCCESS ∧
   1 ≤ parent_received_descriptor_count d) ∧
  parent_received_descriptor_count d ≤ 1.

Lemma give_back_delivered d init R X B (Q : Z → ledger → Prop) :
  (delivered_port d ≠ MACH_PORT_NULL →
   mr_parent_receive_descriptor d = MACH_MSG_SUCCESS ∧
   1 ≤ parent_received_descriptor_count d) →
  (∀ k, Q k (mk_ledger R X B)) →
  rwp (guarded (negb (delivered_port d =? MACH_PORT_NULL)) init
         (call (mach_port_deallocate (delivered_port d)))) Q
    (mk_ledger R (received d ⊎ X) B).
Proof.
  intros Hd HQ.
  change (negb (delivered_port d =? MACH_PORT_NULL))
    with (true && negb (delivered_port d =? MACH_PORT_NULL)).
  apply rwp_give_named; [|done]. intros [-> Hc%Z.leb_le]%Hd. by rewrite Hc.
Qed.

Lemma parent_release_ledger before after s d (B := baseline_regions before) :
  captured after → setup_ok s → parent_fresh s d →
  rwp (parent_release before after s d)
    (λ c l, captured (Forked.after c) ∧
       l = mk_ledger ∅ ∅ (B ⊎ baseline_regions (Forked.after c)))
    (parent_holds s (received d) (B ⊎ baseline_regions after)).
Proof.
  intros Ha Hs (Hf & Hd & _). unfold parent_release, parent_holds.
  replace (_ ⊎ received d) with (received d ⊎
    (named (kr_get_bootstrap s =? KERN_SUCCESS) (original_bootstrap s) ⊎
     own_send (kr_alloc_service s) (kr_insert_service_send s) (service_port s)))
    by multiset_solver.
  apply wp_bind, give_back_delivered; [done|]. intros k.
  apply wp_bind, rwp_destroy_own; [done|]. intros k1. apply wp_bind.
  replace (negb (original_bootstrap s =? MACH_PORT_NULL))
    with ((kr_get_bootstrap s =? KERN_SUCCESS) &&
          negb (original_bootstrap s =? MACH_PORT_NULL)).
  2:{ unfold setup_ok, out_port in Hs. rewrite Hs. by destruct (_ =? KERN_SUCCESS). }
  apply rwp_deallocate_named. intros k2.
  repeat rwp_step. split; [done|]. ledger_eq.
Qed.

Definition fresh_position (x : position T K U) : Prop :=
  match x with
  | ParentAt s _ d _ => parent_fresh s d
  | ChildAt _ h t => child_fresh h t
  | KilledAt => True
  end.

(** Off the platform nothing happens. *)
Definition nowhere : position T K U :=
  ParentAt no_setup KERN_FAILURE (no_delivery F MACH_RCV_INVALID_NAME) (not_joined F (-1)).

Lemma nowhere_holds B : position_holds nowhere B (mk_ledger ∅ ∅ B).
Proof. split; [done|]. intros _. done. Qed.

Lemma meet_ledger fuel :
  rwp (meet F fuel) (λ '(b, a, x) l, captured b ∧ captured a ∧
    (APPLE = false → x = nowhere) ∧
    position_holds x (baseline_regions b ⊎ baseline_regions a) l) no_holdings.
Proof.
  unfold meet. apply wp_bind, (lwp_capture _). intros b Hb.
  apply wp_bind, (lwp_capture _). intros a Ha.
  replace (add_regions _ _)
    with (mk_ledger ∅ ∅ (baseline_regions b ⊎ baseline_regions a)).
  2:{ unfold add_regions, no_holdings. cbn [rights sends regions]. f_equal.
      multiset_solver. }
  apply wp_bind. apply wp_guarded; intros E.
  - eapply wp_mono; [apply exchange_ledger|]. intros x l Hx. cbn. by rewrite E.
  - apply wp_ret. split; [done|]. split; [done|]. split; [done|]. apply nowhere_holds.
Qed.

Definition process_holds (p : process T U) (l : ledger) : Prop :=
  match p with
  | InParent o =>
      captured (before o) ∧ captured (after (cleanup o)) ∧
      l = mk_ledger ∅ ∅ (baseline_regions (before o) ⊎ baseline_regions (after (cleanup o)))
  | InChild _ => rights l = ∅ ∧ sends l = ∅
  | IsKilled => True
  end.

Lemma settle_ledger fuel b a x l :
  captured b → captured a → (APPLE = false → x = nowhere) → fresh_position x →
  position_holds x (baseline_regions b ⊎ baseline_regions a) l →
  rwp (settle F fuel b a x) process_holds l.
Proof.
  intros Hb Ha Hx. destruct x as [s kr_restore d j|fd h t|]; cbn [fresh_position position_holds].
  - intros Hf [Hs Hl]. rewrite (Hl (proj2 (proj2 Hf))). unfold settle.
    apply wp_bind, wp_guarded; intros E.
    + eapply wp_mono; [by apply parent_release_ledger|]. intros c l' [Hc ->].
      by apply wp_ret.
    + specialize (Hx E) as [= -> -> -> ->]. apply wp_ret. split; [done|]. by split.
  - intros Hf (Hra & Hrb & Hl). rewrite (Hl (proj2 Hf)). unfold settle. apply wp_bind.
    eapply wp_mono; [by apply child_finish_ledger|]. intros [code|] l' Hl'; apply wp_ret; [|done].
    by subst.
  - intros _ _. by apply wp_ret.
Qed.

Variables (verdict_of : obs T U → verdict) (report : obs T U → verdict → op nx_json_t).

(** How the process ends, and what it wrote. *)
Definition ends_as (p : process T U) (e : ending) (l : ledger) : Prop :=
  match p with
  | InParent o =>
      e = Returned (finish (report o (verdict_of o)) (verdict_of o)) ∧ l = no_holdings
  | InChild code => e = Exited code ∧ rights l = ∅ ∧ sends l = ∅
  | IsKilled => e = Killed
  end.

Lemma conclude_ledger p l :
  process_holds p l → rwp (conclude verdict_of report p) (λ e l', ends_as p e l') l.
Proof.
  destruct p as [o|code|]; unfold conclude.
  - intros (Hb & Ha & Hl). eapply (lwp_tail _); eauto. done.
  - intros Hl. by apply wp_ret.
  - intros _. by apply wp_ret.
Qed.

(** The program uses what it holds and gives it back; the theorems of the three
    probes are instances. *)
Lemma forked_main_safe {W} `{Kernel W} fuel w :
  fresh_position (run (meet F fuel) w).1.2 →
  ∃ e w' l,
    run_with (@account_carried) (main F verdict_of report fuel) w no_holdings =
      Some (e, w', l) ∧ ends_as (run (observe F fuel) w).1 e l.
Proof.
  intros Hf.
  destruct (lwp_run _ _ w no_holdings (meet_ledger fuel))
    as ([[b a] x] & w1 & l1 & Hr1 & Hb & Ha & Hx & Hl).
  rewrite (run_ledger_run _ _ _ _ _ _ _ Hr1) in Hf. cbn in Hf.
  destruct (lwp_run _ _ w1 l1 (settle_ledger fuel b a x l1 Hb Ha Hx Hf Hl))
    as (q & w2 & l2 & Hr2 & Hq).
  destruct (lwp_run _ _ w2 l2 (conclude_ledger q l2 Hq)) as (e & w3 & l3 & Hr3 & He).
  assert (run_with (@account_carried) (observe F fuel) w no_holdings = Some (q, w2, l2)) as Ho.
  { unfold observe. by rewrite (run_ledger_bind _ _ _ _ _ _ _ Hr1). }
  rewrite (run_ledger_run _ _ _ _ _ _ _ Ho).
  exists e, w3, l3. split; [|done]. unfold main.
  by rewrite (run_ledger_bind _ _ _ _ _ _ _ Ho).
Qed.
End facts.

(** ** The types of what the child reports *)

Definition held_typed (h : held) : Prop :=
  baseline_typed (h_before h) ∧ is_s32 (h_get_bootstrap h) ∧ is_s32 (h_alloc_cargo h).

Section typed.
Context `{Host} `{MachSdk} {T K U : Type} `{!StatusStruct T} (F : forked_probe T K U).

Lemma twp_child_start : twp child_start held_typed.
Proof.
  unfold child_start. repeat twp_step; split; [done|by split|done|].
  split; [done|by vm_compute].
Qed.

Lemma twp_child_close h :
  twp (child_close h) (λ '(k, after), is_s32 k ∧ baseline_typed after).
Proof. unfold child_close. by repeat twp_step. Qed.

(** When what the child's messages showed is typed, the status is. *)
Lemma twp_child_result (talk_typed : K → Prop) :
  (∀ h, twp (child_talk F h) talk_typed) →
  (∀ h t k after, held_typed h → talk_typed t → is_s32 k → baseline_typed after →
     in_range (child_status F h t k after)) →
  twp (child_result F) in_range.
Proof.
  intros Ht Hs. unfold child_result. apply twp_bind.
  eapply twp_mono; [apply twp_child_start|]. intros h Hh. apply twp_bind.
  eapply twp_mono; [apply Ht|]. intros t Htt. apply twp_bind.
  eapply twp_mono; [apply twp_child_close|]. intros [k after] [Hk Ha].
  by apply twp_ret, Hs.
Qed.

(** A status in the ranges of its members is read as it was written. *)
Lemma result_arrives {W} `{Kernel W} w :
  twp (child_result F) in_range → replies_ok (child_result F) w →
  let t := (run (child_result F) w).1 in
  in_range t ∧ overwrite (initial_child F) (image t) = t.
Proof.
  intros Hp Hr t. pose proof (twp_sound _ _ w Hp Hr) as Ht.
  split; [exact Ht|]. by apply overwrite_image.
Qed.
End typed.

(** The program on the executable kernel: the code the child exits with. *)
Definition child_code {T U} (p : process T U) : Z :=
  match p with InChild code => code | _ => -1 end.
End Forked.
