(* ===== verification/ForkedTrace.v ===== *)
(** The calls of the probes that fork: what the parent observed is what its calls were
    answered, in the order in which it made them. *)

From stdpp Require Import list.
From S2P Require Import Prelude Json NxJson MachApi NxMachUtils NxResult Probe StatusPipe Trace Exchange.
From S2P Require Import Forked.

Local Open Scope oracle_scope.
Local Open Scope Z_scope.

Module ForkedTrace.
Import StatusPipe Trace Forked.

(** The use of the delivered right and the messages of the child, as the calls tell them. *)
Class TracedForked `{Host} `{MachSdk} {T K U} (F : forked_probe T K U) := {
  used_as : seen → mach_port_t → U → list event → Prop;
  used_traced x port : does (use_delivered F x port) (λ u t, plain t ∧ used_as x port u t);
  talked_as : held → K → list event → Prop;
  talk_traced h : does (child_talk F h) (λ k t, plain t ∧ talked_as h k t);
}.

Ltac does_step := lazymatch goal with
  | |- does (_ ≫= _) _ => apply does_bind
  | |- does (call _) _ => apply does_call; intros ?
  | |- does (guarded _ _ _) _ => apply does_guarded; intros ?
  | |- does (mret _) _ => apply does_ret
  | |- does (nx_baseline_free _) _ => apply does_free; intros ? ?
  | |- does (let '(_, _) := ?r in _) _ => destruct r
  end.

Lemma does_plain_call {R} c (init : R) (q : mach_call R) (Φ : R → list event → Prop) :
  (∀ r, plain [Ev q r]) → (∀ r t, plain t → Φ r t) → does (guarded c init (call q)) Φ.
Proof. intros Hq HΦ. does_step; [does_step|]; by apply HΦ. Qed.

(** The program returned 0. *)
Definition returned_zero (e : ending) : bool :=
  match e with Returned (Some out) => exit_status out =? 0 | _ => false end.

Lemma returned_zero_run {W} `{Kernel W} (p : prog ending) w :
  returned_zero (run p w).1 = true →
  ∃ out w', run p w = (Returned (Some out), w') ∧ exit_status out = 0.
Proof.
  destruct (run p w) as [[[out|]|code|] w']; try done. intros Hz%Z.eqb_eq. by exists out, w'.
Qed.

(** The calls of [send_msg] and [receive_msg]. *)
Definition sending `{MachSdk} (m : mach_msg_buf) (timeout : Z) : mach_call (mach_msg_return_t * mach_msg_buf) :=
  mach_msg m (Z.lor MACH_SEND_MSG MACH_SEND_TIMEOUT) (msgh_size m) 0 MACH_PORT_NULL timeout MACH_PORT_NULL.
Definition receiving `{MachSdk} (size : Z) (port : mach_port_t) (timeout : Z) :
    mach_call (mach_msg_return_t * mach_msg_buf) :=
  mach_msg zero_msg (Z.lor MACH_RCV_MSG MACH_RCV_TIMEOUT) 0 size port timeout MACH_PORT_NULL.

Section parent.
Context `{Host} `{MachSdk} {T K U : Type} `{!StatusStruct T} (F : forked_probe T K U) `{!TracedForked F}.

Definition received_by (s : setup) (d : delivery U) (m : mach_msg_buf) : event :=
  Ev (receiving sizeof_descriptor_recv_msg (service_port s) 5000) (mr_parent_receive_descriptor d, m).

(** The calls on the delivered right. *)
Definition delivery_log (s : setup) (d : delivery U) (t : list event) : Prop :=
  ∃ m tu, used_as (delivered d) (delivered_port d) (used d) tu ∧
    parent_received_descriptor_count d = msgh_descriptor_count m ∧
    delivered_port d = desc_name (msg_cargo m) ∧
    t = received_by s d m ::
        Ev (mach_port_type (delivered_port d)) (s_kr_type (delivered d), s_type (delivered d)) ::
        Ev (mach_port_get_refs (delivered_port d) (cargo_right F))
          (s_kr_refs (delivered d), s_refs (delivered d)) :: tu.

Lemma does_parent_receive s :
  does (parent_receive F (service_port s)) (λ d t, plain t ∧
    (mr_parent_receive_descriptor d = MACH_MSG_SUCCESS → delivery_log s d t)).
Proof.
  unfold parent_receive, receive_msg. does_step. does_step. does_step. does_step.
  - repeat does_step. eapply does_mono; [apply used_traced|]. intros u tu [Hq Hu]. does_step.
    rewrite app_nil_r. split.
    + by repeat (apply (plain_app [_]); [by apply plain_one|]).
    + intros _. by exists m, tu.
  - split; [by apply plain_one|]. intros Hm. simpl in Hm. by subst z.
Qed.

Definition allocated (s : setup) : event :=
  Ev (mach_port_allocate MACH_PORT_RIGHT_RECEIVE) (KERN_SUCCESS, service_port s).

Lemma does_parent_setup :
  does parent_setup (λ s t, plain t ∧ (kr_alloc_service s = KERN_SUCCESS → [allocated s] `sublist_of` t)).
Proof.
  unfold parent_setup. repeat does_step; cbn [app]; split;
    try (by repeat (apply (plain_app [_]); [by apply plain_one|])).
  all: cbn; try done; intros ->; repeat first [apply sublist_skip|apply sublist_cons]; apply sublist_nil_l.
Qed.

Definition waited_for (j : joined_child T) : event :=
  Ev (sys_waitpid (child_pid j)) (child_pid j, child_wait_status j).

(** What the parent has of its child is what it read. *)
Definition child_read (j : joined_child T) (t : list event) : Prop :=
  child j = overwrite (initial_child F) (bytes_read t) ∧
  (child_status_read j = true → (size_of_status ≤ length (bytes_read t))%nat).

Lemma does_parent_join fuel fd pid :
  does (parent_join F fuel fd pid) (λ r t, snapshots t = [] ∧
    match r with
    | Some j => child_read j t ∧ child_pid j = pid ∧
        (child_waited j = true → [waited_for j] `sublist_of` t)
    | None => True
    end).
Proof.
  unfold parent_join. does_step. eapply does_mono; [apply does_read_full|].
  intros [[ok bytes]|] t [Hs Hb]; repeat does_step.
  - destruct Hb as [Hb Hl]. simpl in Hb. split; [rewrite !snapshots_app, Hs; done|].
    unfold child_read. rewrite bytes_read_app. cbn. rewrite app_nil_r, <- Hb.
    split; [split; [done|exact Hl]|]. split; [done|]. intros ->%Z.eqb_eq.
    apply sublist_inserts_l. repeat first [apply sublist_skip|apply sublist_cons]; apply sublist_nil_l.
  - rewrite app_nil_r. done.
Qed.

Lemma child_read_after j t t' : bytes_read t = [] → child_read j t' → child_read j (t ++ t').
Proof. unfold child_read. rewrite bytes_read_app. by intros ->. Qed.
Lemma child_read_before j t t' : bytes_read t' = [] → child_read j t → child_read j (t ++ t').
Proof. unfold child_read. rewrite bytes_read_app. intros ->. by rewrite app_nil_r. Qed.

(** The parent up to the end of the child, if all went well so far. *)
Definition exchange_log (s : setup) (d : delivery U) (j : joined_child T) (t : list event) : Prop :=
  ∃ td, delivery_log s d td ∧
    [allocated s; Ev sys_fork (child_pid j)] ++ td ++ [waited_for j] `sublist_of` t.

Definition exchange_done (s : setup) (d : delivery U) (j : joined_child T) : Prop :=
  kr_alloc_service s = KERN_SUCCESS ∧ 0 < child_pid j ∧
  mr_parent_receive_descriptor d = MACH_MSG_SUCCESS ∧ child_waited j = true.

Definition position_log (x : position T K U) (t : list event) : Prop :=
  match x with
  | ParentAt s _ d j => snapshots t = [] ∧ child_read j t ∧
      (exchange_done s d j → exchange_log s d j t)
  | _ => True
  end.

(** The parent, from the message on. *)
Definition after_restore (s : setup) (x : position T K U) (t : list event) (pid : Z) : Prop :=
  match x with
  | ParentAt s' _ d j => s' = s ∧ child_pid j = pid ∧ snapshots t = [] ∧ child_read j t ∧
      (exchange_done s d j → ∃ td, delivery_log s d td ∧ td ++ [waited_for j] `sublist_of` t)
  | _ => True
  end.

Lemma does_parent_exchange fuel s pid :
  in_range (initial_child F) →
  does (parent_exchange F fuel s pid) (λ x t, after_restore s x t pid).
Proof.
  intros Hi. unfold parent_exchange. does_step. eapply (does_mono _ (λ _ t, plain t)).
  { does_step; [does_step; by apply plain_one|by split]. }
  intros kr t [Hs Hb]. destruct (0 <? pid) eqn:E.
  - does_step. eapply does_mono; [apply does_parent_receive|]. intros d td [[Hds Hdb] Hd].
    does_step. eapply does_mono; [apply does_parent_join|]. intros [j|] tj [Hjs Hj]; does_step; [|done].
    destruct Hj as (Hr & Hp & Hw). rewrite app_nil_r. split; [done|]. split; [done|].
    split; [by rewrite !snapshots_app, Hs, Hds, Hjs|].
    split; [by do 2 (apply child_read_after; [done|])|]. intros (_ & _ & Hm & Hwt).
    exists td. split; [by apply Hd|]. apply sublist_inserts_l, sublist_app; [done|by apply Hw].
  - does_step. rewrite app_nil_r. split; [done|]. split; [done|]. split; [done|]. split.
    + unfold child_read. cbn. rewrite Hb. by rewrite overwrite_nothing.
    + intros (_ & Hp & _). cbn in Hp. apply Z.ltb_ge in E. lia.
Qed.

Lemma does_exchange fuel :
  in_range (initial_child F) → does (exchange F fuel) position_log.
Proof.
  intros Hi. unfold exchange. does_step. eapply does_mono; [apply does_parent_setup|].
  intros s ts [[Hs Hb] Hl]. destruct (_ && _).
  - does_step. does_step. destruct (r =? 0).
    { does_step. does_step. does_step. eapply does_mono; [apply does_any|]. intros h th _.
      does_step. eapply does_mono; [apply does_any|]. intros k tk _. by does_step. }
    does_step. does_step. eapply does_mono; [by apply does_parent_exchange|].
    intros [s' kr d j|fd h k|] t Hx; [|done..]. destruct Hx as (-> & Hp & Hts & Hr & Hx).
    split; [by rewrite !snapshots_app, Hs, Hts|].
    split; [by do 3 (apply child_read_after; [done|])|]. intros Hd. destruct (Hx Hd) as (td & Htd & Hsub).
    exists td. split; [done|]. destruct Hd as (Ha & _ & _ & _).
    apply (sublist_app [_] _ _ _ (Hl Ha)), (sublist_app [_] [_]); [by rewrite Hp|].
    by apply sublist_inserts_l.
  - eapply does_mono; [by apply does_parent_exchange|].
    intros [s' kr d j|fd h k|] t Hx; [|done..]. destruct Hx as (-> & Hp & Hts & Hr & Hx).
    split; [by rewrite !snapshots_app, Hs, Hts|]. split; [by apply child_read_after|].
    intros (_ & Hn & _). lia.
Qed.

(** ** The whole parent *)

Definition deallocated (o : obs T U) : event :=
  Ev (mach_port_deallocate (delivered_port (delivery_of o))) (kr_parent_deallocate_delivered (cleanup o)).

(** The parent's part, in order. *)
Definition parent_log (o : obs T U) (t : list event) : Prop :=
  ∃ td, delivery_log (setup_of o) (delivery_of o) td ∧
    [listed (before o); allocated (setup_of o); Ev sys_fork (child_pid (joined o))] ++ td ++
    [waited_for (joined o); deallocated o; listed (after (cleanup o))] `sublist_of` t.

(** What the report says of the run. *)
Definition observed_in (o : obs T U) (t : list event) : Prop :=
  (∃ b, snapshots t = [before o; b; after (cleanup o)]) ∧
  compared (cleanup o) = nx_baseline_compare (before o) (after (cleanup o)) ∧
  child_read (joined o) t ∧
  (exchange_done (setup_of o) (delivery_of o) (joined o) →
   delivered_port (delivery_of o) ≠ MACH_PORT_NULL → parent_log o t).

Lemma observed_in_before o t t' : plain t' → observed_in o t → observed_in o (t ++ t').
Proof.
  intros [Hs Hb] ((b & Hsn) & Hc & Hr & Hl). split; [exists b; by rewrite snapshots_app, Hs, app_nil_r|].
  split; [done|]. split; [by apply child_read_before|]. intros Hd Hn.
  destruct (Hl Hd Hn) as (td & Htd & Hsub). exists td. split; [done|].
  by apply sublist_inserts_r.
Qed.

Lemma does_parent_release b a s (d : delivery U) :
  APPLE = true → does (parent_release b a s d) (λ c t,
    snapshots t = [after c] ∧ bytes_read t = [] ∧ compared c = nx_baseline_compare b (after c) ∧
    (delivered_port d ≠ MACH_PORT_NULL →
     [Ev (mach_port_deallocate (delivered_port d)) (kr_parent_deallocate_delivered c); listed (after c)]
       `sublist_of` t)).
Proof.
  intros Ha. unfold parent_release. does_step.
  eapply (does_mono _ (λ k t, plain t ∧ (delivered_port d ≠ MACH_PORT_NULL →
    t = [Ev (mach_port_deallocate (delivered_port d)) k]))).
  { does_step; [does_step; split; [by apply plain_one|done]|split; [by split|]].
    intros Hn. by apply negb_false_iff, Z.eqb_eq in H1. }
  intros k tk [[Hks Hkb] Hk].
  does_step. apply does_plain_call; [intros; by apply plain_one|]. intros ? t1 [Hs1 Hb1].
  does_step. apply does_plain_call; [intros; by apply plain_one|]. intros ? t2 [Hs2 Hb2].
  does_step. apply does_free. intros t3 [Hs3 Hb3].
  does_step. apply does_capture; [done|]. intros c Hc. does_step. rewrite app_nil_r. cbn [after compared
    kr_parent_deallocate_delivered].
  rewrite !snapshots_app, !bytes_read_app, Hks, Hs1, Hs2, Hs3, Hkb, Hb1, Hb2, Hb3, snapshots_listed by done.
  do 3 (split; [done|]). intros Hn. rewrite (Hk Hn). apply (sublist_app [_] _ [_]); [done|].
  by do 3 apply sublist_inserts_l.
Qed.

Lemma does_observe fuel :
  APPLE = true → in_range (initial_child F) →
  does (observe F fuel) (λ p t, match p with InParent o => observed_in o t | _ => True end).
Proof.
  intros Ha Hi. unfold observe, meet. does_step. does_step. apply does_capture; [done|]. intros b Hb.
  does_step. apply does_capture; [done|]. intros a Hav. does_step. rewrite Ha. cbn [guarded].
  eapply does_mono; [by apply does_exchange|]. intros x tx Hx. does_step.
  destruct x as [s kr d j|fd h k|]; unfold settle.
  - rewrite Ha. cbn [guarded]. does_step. eapply does_mono; [by apply does_parent_release|].
    intros c tc (Hsc & Hbc & Hcmp & Hd). does_step. destruct Hx as (Hsx & Hr & Hx).
    rewrite !app_nil_r. split.
    { exists a. rewrite !snapshots_app, Hsx, Hsc, (snapshots_listed b []), (snapshots_listed a []) by done.
      done. }
    split; [exact Hcmp|]. split.
    { apply child_read_before; [done|]. by do 2 (apply child_read_after; [done|]). }
    intros Hdone Hn. destruct (Hx Hdone) as (td & Htd & Hsub). exists td. split; [exact Htd|].
    rewrite <- !app_assoc. cbn [app]. apply sublist_skip, sublist_cons.
    replace (allocated s :: _) with
      (([allocated s; Ev sys_fork (child_pid j)] ++ td ++ [waited_for j]) ++
       [deallocated (mk_obs b s kr d j c); listed (after c)]) by (by rewrite <- !app_assoc).
    apply sublist_app; [done|by apply Hd].
  - does_step. eapply does_mono; [apply does_any|]. intros [code|] t _; by does_step.
  - by does_step.
Qed.

Section main.
Variables (verdict_of : obs T U → verdict) (report : obs T U → verdict → op nx_json_t).

(** A parent that returns judged what its calls were answered. *)
Lemma main_observed {W} `{Kernel W} fuel w r w' :
  APPLE = true → in_range (initial_child F) →
  run (main F verdict_of report fuel) w = (Returned r, w') →
  ∃ o, observed_in o (trace (main F verdict_of report fuel) w) ∧
    r = finish (report o (verdict_of o)) (verdict_of o).
Proof.
  intros Ha Hi Hr.
  assert (does (main F verdict_of report fuel) (λ e t, match e with
    | Returned r => ∃ o, observed_in o t ∧ r = finish (report o (verdict_of o)) (verdict_of o)
    | _ => True end)) as Hm.
  { unfold main. does_step. eapply does_mono; [by apply does_observe|].
    intros [o|code|] t Ho; unfold conclude; [|by does_step..].
    does_step. does_step. does_step. does_step. exists o. split; [|done].
    rewrite app_nil_r. apply observed_in_before; [by apply plain_app|done]. }
  pose proof (does_run _ _ w Hm) as Hm'. by rewrite Hr in Hm'.
Qed.

(** The run of a program that judges with a ladder and returns 0: no condition held. *)
Lemma main_passed {W} `{Kernel W} (ladder_of : obs T U → list (bool * verdict)) fuel w out w' :
  APPLE = true → in_range (initial_child F) → (∀ o, verdict_of o = ladder (ladder_of o)) →
  (∀ o, no_pass (ladder_of o) = true) → (∀ o, no_skip (ladder_of o) = true) →
  run (main F verdict_of report fuel) w = (Returned (Some out), w') → exit_status out = 0 →
  ∃ o, observed_in o (trace (main F verdict_of report fuel) w) ∧ Forall (λ e, e.1 = false) (ladder_of o).
Proof.
  intros Ha Hi Hv Hp Hs Hr He. destruct (main_observed _ _ _ _ Ha Hi Hr) as (o & Ho & Hf).
  exists o. split; [exact Ho|]. symmetry in Hf. rewrite Hv in Hf. by eapply finish_zero.
Qed.
End main.

(** ** The child *)

(** What the child reports of its run. *)
Definition child_observed_in (c : T) (t : list event) : Prop :=
  ∃ h k kr_destroy after tk, c = child_status F h k kr_destroy after ∧ talked_as h k tk ∧
    snapshots t = [h_after h; h_before h; after] ∧
    (h_get_bootstrap h = KERN_SUCCESS → h_alloc_cargo h = KERN_SUCCESS →
     [listed (h_before h); Ev (mach_port_allocate MACH_PORT_RIGHT_RECEIVE) (KERN_SUCCESS, h_cargo_port h)] ++
     tk ++ [Ev (mach_port_destroy (h_cargo_port h)) kr_destroy; listed after] `sublist_of` t).

Lemma does_child_start :
  APPLE = true →
  does child_start (λ h t, snapshots t = [h_after h; h_before h] ∧
    (h_get_bootstrap h = KERN_SUCCESS → h_alloc_cargo h = KERN_SUCCESS →
     [listed (h_before h); Ev (mach_port_allocate MACH_PORT_RIGHT_RECEIVE) (KERN_SUCCESS, h_cargo_port h)]
       `sublist_of` t)).
Proof.
  intros Ha. unfold child_start. does_step. apply does_capture; [done|]. intros a Hav.
  does_step. does_step. does_step. does_step. apply does_capture; [done|]. intros b Hb.
  repeat does_step; cbn [app h_get_bootstrap h_alloc_cargo h_cargo_port h_before h_after].
  - split; [destruct a, b; cbn in *; by subst|]. intros _ ->. by do 2 apply sublist_cons.
  - split; [destruct a, b; cbn in *; by subst|]. done.
Qed.

Lemma does_child_close h :
  APPLE = true → does (child_close h) (λ '(kr_destroy, after) t, snapshots t = [after] ∧
    (h_alloc_cargo h = KERN_SUCCESS →
     [Ev (mach_port_destroy (h_cargo_port h)) kr_destroy; listed after] `sublist_of` t)).
Proof.
  intros Ha. unfold child_close. does_step.
  eapply (does_mono _ (λ k t, plain t ∧ (h_alloc_cargo h = KERN_SUCCESS →
    t = [Ev (mach_port_destroy (h_cargo_port h)) k]))).
  { does_step; [does_step; split; [by apply plain_one|done]|split; [by split|]].
    intros Hn. by apply Z.eqb_eq in Hn; congruence. }
  intros k tk [[Hks _] Hk]. does_step. apply does_free. intros t1 [Hs1 _].
  does_step. apply does_capture; [done|]. intros c Hc.
  does_step. apply does_plain_call; [intros; by apply plain_one|]. intros ? t2 [Hs2 _]. does_step.
  rewrite !snapshots_app, Hks, Hs1, Hs2, (snapshots_listed c []) by done. split; [done|].
  intros Hal. rewrite (Hk Hal). apply sublist_skip. apply sublist_inserts_l.
  apply (sublist_app [_] [_] [] _ ltac:(done)). apply sublist_nil_l.
Qed.

Lemma does_child_result :
  APPLE = true → does (child_result F) child_observed_in.
Proof.
  intros Ha. unfold child_result. does_step. eapply does_mono; [by apply does_child_start|].
  intros h th [Hsh Hh]. does_step. eapply does_mono; [apply talk_traced|]. intros k tk [[Hsk _] Hk].
  does_step. eapply does_mono; [by apply does_child_close|]. intros [kr_destroy after] tc [Hsc Hc].
  does_step. exists h, k, kr_destroy, after, tk. rewrite app_nil_r. do 2 (split; [done|]).
  split; [by rewrite !snapshots_app, Hsh, Hsk, Hsc|]. intros Hb Hal.
  apply sublist_app; [by apply Hh|]. apply sublist_app; [done|by apply Hc].
Qed.
End parent.
End ForkedTrace.
