(* ===== verification/SendRight.v ===== *)
(** What [descriptor_copy_send.c] and [descriptor_move_send.c] of
    [macos-validation/probes/m2] share beyond the skeleton of [Forked]: the right
    that is sent is a send right to the cargo port, the status structure has the
    same members, and the parent uses the right to send one message. *)

From S2P Require Import Prelude Json NxJson JsonText Builder MachApi NxMachUtils Typed.
From S2P Require Import Ledger.
From stdpp Require Import gmultiset.
From S2P Require Import MachContract NxResult Probe RefKernel TwoTasks StatusPipe Exchange.
From S2P Require Import Forked Trace ForkedTrace.

Local Open Scope oracle_scope.
Local Open Scope Z_scope.

Module SendRight.
Import StatusPipe.
Import Forked Trace ForkedTrace.

(** What the child reports. *)
Record child_status_t := mk_child_status {
  version : Z;
  child_cleanup_ok : Z;
  child_cleanup_delta : Z;
  child_exit_code : Z;
  kr_child_baseline_before : kern_return_t;
  kr_child_get_bootstrap : kern_return_t;
  kr_child_alloc_cargo : kern_return_t;
  kr_child_insert_send : kern_return_t;
  kr_child_type_before_send : kern_return_t;
  kr_child_refs_before_send : kern_return_t;
  mr_child_send_descriptor : mach_msg_return_t;
  kr_child_type_after_send : kern_return_t;
  kr_child_refs_after_send : kern_return_t;
  mr_child_receive_verify : mach_msg_return_t;
  kr_child_type_after_verify : kern_return_t;
  kr_child_refs_after_verify : kern_return_t;
  kr_child_destroy_cargo : kern_return_t;
  kr_child_baseline_after : kern_return_t;
  child_type_before_send : mach_port_type_t;
  child_type_after_send : mach_port_type_t;
  child_type_after_verify : mach_port_type_t;
  child_refs_before_send : mach_port_urefs_t;
  child_refs_after_send : mach_port_urefs_t;
  child_refs_after_verify : mach_port_urefs_t;
  child_sent_msgh_bits : Z;
  child_verify_received_msgh_bits : Z;
  child_verify_received_remote_disp : Z;
  child_verify_received_local_disp : Z;
  child_verify_received_msgh_id : Z;
  child_verify_received_msgh_size : Z;
}.

Definition status_words (t : child_status_t) : list Z :=
  [version t; child_cleanup_ok t; child_cleanup_delta t; child_exit_code t;
   kr_child_baseline_before t; kr_child_get_bootstrap t; kr_child_alloc_cargo t;
   kr_child_insert_send t; kr_child_type_before_send t; kr_child_refs_before_send t;
   mr_child_send_descriptor t; kr_child_type_after_send t; kr_child_refs_after_send t;
   mr_child_receive_verify t; kr_child_type_after_verify t;
   kr_child_refs_after_verify t; kr_child_destroy_cargo t; kr_child_baseline_after t;
   child_type_before_send t; child_type_after_send t; child_type_after_verify t;
   child_refs_before_send t; child_refs_after_send t; child_refs_after_verify t;
   child_sent_msgh_bits t; child_verify_received_msgh_bits t;
   child_verify_received_remote_disp t; child_verify_received_local_disp t;
   child_verify_received_msgh_id t; child_verify_received_msgh_size t].

(** The [int] members are signed, the others are not. *)
Definition status_of_words (ws : list Z) : child_status_t :=
  let i := int_at ws in
  let u := uint_at ws in
  mk_child_status (i 0%nat) (i 1%nat) (i 2%nat) (i 3%nat) (i 4%nat) (i 5%nat)
    (i 6%nat) (i 7%nat) (i 8%nat) (i 9%nat) (i 10%nat) (i 11%nat) (i 12%nat)
    (i 13%nat) (i 14%nat) (i 15%nat) (i 16%nat) (i 17%nat) (u 18%nat) (u 19%nat)
    (u 20%nat) (u 21%nat) (u 22%nat) (u 23%nat) (u 24%nat) (u 25%nat) (u 26%nat)
    (u 27%nat) (i 28%nat) (u 29%nat).

Definition signed_word (n : nat) : bool := (n <? 18)%nat || (n =? 28)%nat.

Definition status_in_range (t : child_status_t) : Prop :=
  words_in_range signed_word (status_words t).

Lemma status_of_status_words t :
  status_in_range t → status_of_words (map u32 (status_words t)) = t.
Proof.
  intros Ht. unfold status_of_words, status_words, int_at, uint_at.
  destruct t. read_words Ht.
Qed.

#[export] Instance child_status_struct : StatusStruct child_status_t := {|
  to_words := status_words;
  of_words := status_of_words;
  n_words := 30;
  in_range := status_in_range;
  to_words_length t := eq_refl;
  of_to_words := status_of_status_words;
|}.

(** Where the two programs differ up to the verdict: the message ids, the
    disposition of the cargo, and whether the child's send right is expected to
    stay. *)
Record variant := mk_variant {
  descriptor_id : Z;
  verify_id : Z;
  cargo_disposition : Z;
  right_stays : bool;
}.

Definition STATUS_VERSION : Z := 1.

(** What the child has to send. *)
Record child_rights := mk_child_rights {
  cr_insert_send : kern_return_t;
  cr_kr_type : kern_return_t;
  cr_type : mach_port_type_t;
  cr_kr_refs : kern_return_t;
  cr_refs : mach_port_urefs_t;
}.

(** What the child's calls and messages showed. *)
Record talk := mk_talk {
  ct_rights : child_rights;
  ct_sent_bits : Z;
  ct_send : mach_msg_return_t;
  ct_kr_type_sent : kern_return_t;
  ct_type_sent : mach_port_type_t;
  ct_kr_refs_sent : kern_return_t;
  ct_refs_sent : mach_port_urefs_t;
  ct_receive : mach_msg_return_t;
  ct_verify_msg : mach_msg_buf;
  ct_kr_type_verified : kern_return_t;
  ct_type_verified : mach_port_type_t;
  ct_kr_refs_verified : kern_return_t;
  ct_refs_verified : mach_port_urefs_t;
}.

(** What came of the use of the delivered right. *)
Record use := mk_use {
  verify_sent_msgh_bits : Z;
  mr_parent_send_verify : mach_msg_return_t;
}.

(** [memset(&child, 0, sizeof(child))] and the two assignments. *)
Definition initial_status : child_status_t :=
  mk_child_status STATUS_VERSION 0 0 (-1) 0 0 0 0 0 0 0 0 0 0 0 0 0 0 0 0 0 0 0 0 0 0
    0 0 0 0.

Lemma initial_status_in_range : in_range initial_status.
Proof. range_tac ltac:(idtac). Qed.

(** The members of the status that the received verification message sets. *)
Definition verify_field (t : talk) (x : mach_msg_buf → Z) : Z :=
  if ct_receive t =? MACH_MSG_SUCCESS then x (ct_verify_msg t) else 0.

Section send_right.
Context `{Host} `{MachSdk} (v : variant).

Definition acquire_send (h : held) : prog child_rights :=
  let cargo_port := h_cargo_port h in
  kr_insert_send ← guarded (h_alloc_cargo h =? KERN_SUCCESS) KERN_FAILURE
    (call (mach_port_insert_right cargo_port cargo_port MACH_MSG_TYPE_MAKE_SEND));
  '(kr_type, type, (kr_refs, refs)) ←
    guarded (kr_insert_send =? KERN_SUCCESS) (KERN_FAILURE, 0, (KERN_FAILURE, 0)) (
      t ← call (mach_port_type cargo_port);
      r ← call (mach_port_get_refs cargo_port MACH_PORT_RIGHT_SEND);
      mret (t, r));
  mret (mk_child_rights kr_insert_send kr_type type kr_refs refs).

Definition no_talk (r : child_rights) (bits : Z) (mr : mach_msg_return_t) : talk :=
  mk_talk r bits mr KERN_FAILURE 0 KERN_FAILURE 0 MACH_RCV_INVALID_NAME zero_msg
    KERN_FAILURE 0 KERN_FAILURE 0.

Definition send_exchange (h : held) (r : child_rights) : prog talk :=
  let cargo_port := h_cargo_port h in
  let msg := descriptor_msg (descriptor_id v) (h_service_port h) cargo_port
               (cargo_disposition v) in
  '(bits, mr_send) ←
    guarded ((cr_kr_type r =? KERN_SUCCESS) && (cr_kr_refs r =? KERN_SUCCESS))
      (0, MACH_SEND_INVALID_DEST) (
      '(mr, _) ← send_msg 5000 msg;
      mret (msgh_bits msg, mr));
  guarded (mr_send =? MACH_MSG_SUCCESS) (no_talk r bits mr_send) (
    '(kr_type_sent, type_sent) ← call (mach_port_type cargo_port);
    '(kr_refs_sent, refs_sent) ← call (mach_port_get_refs cargo_port MACH_PORT_RIGHT_SEND);
    '(mr_receive, verify_msg) ← receive_msg 5000 sizeof_simple_recv_msg cargo_port;
    '(kr_type, type) ← call (mach_port_type cargo_port);
    '(kr_refs, refs) ← call (mach_port_get_refs cargo_port MACH_PORT_RIGHT_SEND);
    mret (mk_talk r bits mr_send kr_type_sent type_sent kr_refs_sent refs_sent
            mr_receive verify_msg kr_type type kr_refs refs)).

Definition send_talk (h : held) : prog talk :=
  r ← acquire_send h;
  send_exchange h r.

(** Everything went as it should: the exit code is 0. *)
Definition child_succeeded (h : held) (t : talk) (kr_destroy : kern_return_t)
    (after : nx_baseline_t) : bool :=
  let r := ct_rights t in
  negb (nx_baseline_blocks_probe (h_before h)) &&
  (h_get_bootstrap h =? KERN_SUCCESS) && (h_alloc_cargo h =? KERN_SUCCESS) &&
  (cr_insert_send r =? KERN_SUCCESS) && (cr_kr_type r =? KERN_SUCCESS) &&
  (cr_kr_refs r =? KERN_SUCCESS) && (ct_send t =? MACH_MSG_SUCCESS) &&
  (ct_kr_type_sent t =? KERN_SUCCESS) &&
  (negb (right_stays v) || (ct_kr_refs_sent t =? KERN_SUCCESS)) &&
  (ct_receive t =? MACH_MSG_SUCCESS) && (ct_kr_type_verified t =? KERN_SUCCESS) &&
  (negb (right_stays v) || (ct_kr_refs_verified t =? KERN_SUCCESS)) &&
  (kr_destroy =? KERN_SUCCESS) &&
  negb (nx_baseline_blocks_probe after) && (nx_baseline_compare (h_before h) after).1.

Definition send_status (h : held) (t : talk) (kr_destroy : kern_return_t)
    (after : nx_baseline_t) : child_status_t :=
  let r := ct_rights t in
  let compared := nx_baseline_compare (h_before h) after in
  mk_child_status STATUS_VERSION (if compared.1 then 1 else 0) compared.2
    (if child_succeeded h t kr_destroy after then 0 else 1)
    (kr (h_before h)) (h_get_bootstrap h) (h_alloc_cargo h) (cr_insert_send r)
    (cr_kr_type r) (cr_kr_refs r) (ct_send t) (ct_kr_type_sent t) (ct_kr_refs_sent t)
    (ct_receive t) (ct_kr_type_verified t) (ct_kr_refs_verified t) kr_destroy (kr after)
    (cr_type r) (ct_type_sent t) (ct_type_verified t) (cr_refs r) (ct_refs_sent t)
    (ct_refs_verified t) (ct_sent_bits t) (verify_field t msgh_bits)
    (verify_field t (λ m, MACH_MSGH_BITS_REMOTE (msgh_bits m)))
    (verify_field t (λ m, MACH_MSGH_BITS_LOCAL (msgh_bits m)))
    (verify_field t msgh_id) (verify_field t msgh_size).

Definition no_send_use : use := mk_use 0 MACH_SEND_INVALID_DEST.

Definition use_send (x : seen) (port : mach_port_t) : prog use :=
  guarded ((s_kr_refs x =? KERN_SUCCESS) && (0 <? s_refs x)) no_send_use (
    let verify_msg := simple_msg MACH_MSG_TYPE_COPY_SEND port (verify_id v) in
    '(mr, _) ← send_msg 5000 verify_msg;
    mret (mk_use (msgh_bits verify_msg) mr)).

Definition send_right : forked_probe child_status_t talk use := {|
  initial_child := initial_status;
  exit_code_of := child_exit_code;
  child_talk := send_talk;
  child_status := send_status;
  cargo_right := MACH_PORT_RIGHT_SEND;
  no_use := no_send_use;
  use_delivered := use_send;
|}.
End send_right.

(** ** Parts of the verdict and of the report *)

Abbreviation obs := (Forked.obs child_status_t use).

Definition parent_delivered_send_right (o : obs) : bool :=
  let x := delivered (delivery_of o) in
  (s_kr_type x =? KERN_SUCCESS) &&
  (Z.land (s_type x) MACH_PORT_TYPE_SEND =? MACH_PORT_TYPE_SEND) &&
  (s_kr_refs x =? KERN_SUCCESS) && (1 <=? s_refs x).

Definition delivered_right_usable (v : variant) (o : obs) : bool :=
  let c := child (joined o) in
  (mr_parent_send_verify (used (delivery_of o)) =? MACH_MSG_SUCCESS) &&
  (mr_child_receive_verify c =? MACH_MSG_SUCCESS) &&
  (child_verify_received_msgh_id c =? verify_id v).

Definition child_clean (o : obs) : bool :=
  let c := child (joined o) in
  child_status_read (joined o) && (child_exit_code c =? 0) && negb (child_cleanup_ok c =? 0).

Lemma send_bit t :
  (Z.land t MACH_PORT_TYPE_SEND =? MACH_PORT_TYPE_SEND) = Z.testbit t 16.
Proof. exact (land_bit t 16 ltac:(done)). Qed.

(** The branches on the delivered right, and those between the child's rights
    and the destruction of the service port. *)
Definition delivered_ladder (v : variant) (o : obs) : list (bool * verdict) :=
  [(negb (parent_delivered_send_right o),
     fail_contract "parent delivered descriptor was not an observable send right");
   (negb (delivered_right_usable v o),
     fail_contract "parent delivered send right usability failed")].

Definition joined_ladder (o : obs) : list (bool * verdict) :=
  [(negb (child_status_read (joined o)) || negb (child_waited (joined o)),
     probe_failure "child status or waitpid failed");
   (negb (child_clean o), fail_contract "child cleanup did not return to baseline");
   (negb (kr_parent_deallocate_delivered (cleanup o) =? KERN_SUCCESS),
     fail_probe "parent mach_port_deallocate delivered failed")].

Section report.
Context `{Host} `{MachSdk}.

(** [send_call] names the call that sent the descriptor. *)
Definition emit_send_returns (send_call : string) (o : obs) : op nx_json_t :=
  let d := delivery_of o in
  let c := child (joined o) in
  nx_json_key "returns" ;;
  nx_json_begin_array ;;
  emit_setup_returns o ;;
  nx_result_emit_return "child_task_get_special_port_bootstrap"
    (nx_kern_return_str (kr_child_get_bootstrap c)) (kr_child_get_bootstrap c) false 0 ;;
  nx_result_emit_return "child_mach_port_allocate_cargo"
    (nx_kern_return_str (kr_child_alloc_cargo c)) (kr_child_alloc_cargo c) false 0 ;;
  nx_result_emit_return "child_mach_port_insert_right_cargo_make_send"
    (nx_kern_return_str (kr_child_insert_send c)) (kr_child_insert_send c) false 0 ;;
  nx_result_emit_return "child_mach_port_type_cargo_before_send"
    (nx_kern_return_str (kr_child_type_before_send c)) (kr_child_type_before_send c)
    false 0 ;;
  nx_result_emit_return "child_mach_port_get_refs_send_before_send"
    (nx_kern_return_str (kr_child_refs_before_send c)) (kr_child_refs_before_send c)
    false 0 ;;
  nx_result_emit_return send_call
    (nx_msg_return_str (mr_child_send_descriptor c)) (mr_child_send_descriptor c) false
    0 ;;
  nx_result_emit_return "child_mach_port_type_cargo_after_send"
    (nx_kern_return_str (kr_child_type_after_send c)) (kr_child_type_after_send c)
    false 0 ;;
  nx_result_emit_return "child_mach_port_get_refs_send_after_send"
    (nx_kern_return_str (kr_child_refs_after_send c)) (kr_child_refs_after_send c)
    false 0 ;;
  nx_result_emit_return "parent_mach_msg_receive_descriptor"
    (nx_msg_return_str (mr_parent_receive_descriptor d))
    (mr_parent_receive_descriptor d) false 0 ;;
  nx_result_emit_return "parent_mach_port_type_delivered"
    (nx_kern_return_str (s_kr_type (delivered d))) (s_kr_type (delivered d))
    false 0 ;;
  nx_result_emit_return "parent_mach_port_get_refs_delivered_send"
    (nx_kern_return_str (s_kr_refs (delivered d))) (s_kr_refs (delivered d))
    false 0 ;;
  nx_result_emit_return "parent_mach_msg_send_verify_copy_send"
    (nx_msg_return_str (mr_parent_send_verify (used d))) (mr_parent_send_verify (used d)) false 0 ;;
  nx_result_emit_return "child_mach_msg_receive_verify"
    (nx_msg_return_str (mr_child_receive_verify c)) (mr_child_receive_verify c) false 0 ;;
  nx_result_emit_return "child_mach_port_type_cargo_after_verify"
    (nx_kern_return_str (kr_child_type_after_verify c)) (kr_child_type_after_verify c)
    false 0 ;;
  nx_result_emit_return "child_mach_port_get_refs_send_after_verify"
    (nx_kern_return_str (kr_child_refs_after_verify c)) (kr_child_refs_after_verify c)
    false 0 ;;
  nx_result_emit_return "parent_mach_port_deallocate_delivered"
    (nx_kern_return_str (kr_parent_deallocate_delivered (cleanup o)))
    (kr_parent_deallocate_delivered (cleanup o)) false 0 ;;
  emit_final_returns o (kr_child_destroy_cargo c) (kr_child_baseline_after c) ;;
  nx_json_end_array.

(** [descriptor] names the kind of descriptor; [outcome] what becomes of the
    child's references. *)
Definition emit_send_deltas (descriptor outcome : string) (o : obs) : op nx_json_t :=
  let d := delivery_of o in
  let c := child (joined o) in
  nx_json_key "right_deltas" ;;
  nx_json_begin_array ;;
  nx_result_emit_right_delta (descriptor +:+ " child sender") "cargo_port"
    "MACH_PORT_RIGHT_SEND"
    (refs_or_minus1_ll (kr_child_refs_before_send c) (child_refs_before_send c))
    (refs_or_minus1_ll (kr_child_refs_after_send c) (child_refs_after_send c)) (-1)
    (-1) outcome ;;
  nx_result_emit_right_delta (descriptor +:+ " parent delivered")
    "delivered_cargo_send" (nx_port_type_str (s_type (delivered d))) (-1)
    (refs_or_minus1_ll (s_kr_refs (delivered d)) (s_refs (delivered d))) (-1)
    (-1) "usable send right" ;;
  nx_result_emit_right_delta (descriptor +:+ " child after verification")
    "cargo_port" "MACH_PORT_RIGHT_SEND"
    (refs_or_minus1_ll (kr_child_refs_after_send c) (child_refs_after_send c))
    (refs_or_minus1_ll (kr_child_refs_after_verify c) (child_refs_after_verify c)) (-1)
    (-1) outcome ;;
  nx_json_end_array.

(** The observations on the verification message and on the child's end. *)
Definition emit_verification (o : obs) : op nx_json_t :=
  let d := delivery_of o in
  let c := child (joined o) in
  nx_json_key_string "verify_sent_msgh_bits_raw_hex" (hex32 (verify_sent_msgh_bits (used d))) ;;
  nx_json_key_string "child_verify_received_msgh_bits_raw_hex"
    (hex32 (child_verify_received_msgh_bits c)) ;;
  nx_json_key_string "child_verify_received_remote_disposition"
    (disposition_str (child_verify_received_remote_disp c)) ;;
  nx_json_key_string "child_verify_received_local_disposition"
    (disposition_str (child_verify_received_local_disp c)) ;;
  nx_json_key_int "child_verify_received_msgh_size" (child_verify_received_msgh_size c) ;;
  nx_json_key_int "child_verify_received_msgh_id" (child_verify_received_msgh_id c) ;;
  nx_json_key_bool "child_cleanup_returned_to_baseline"
    (negb (child_cleanup_ok c =? 0)) ;;
  nx_json_key_int "child_cleanup_delta" (child_cleanup_delta c).
End report.

(** ** What the operations of the skeleton need *)

Section facts.
Context `{Host} `{MachSdk} `{!SdkSizes} (v : variant).

Lemma acquire_send_ledger h B :
  rwp (acquire_send h) (λ r l, l = child_holds h (cr_insert_send r) B)
    (child_holds h KERN_FAILURE B).
Proof.
  unfold acquire_send. repeat rwp_step.
  all: try (unfold child_holds, own_right; ledger_pre).
  all: holdings.
Qed.

Lemma send_exchange_ledger h r l :
  rwp (send_exchange v h r)
    (λ t l', ct_rights t = r ∧ l' = add_sends (came_with (ct_receive t) (ct_verify_msg t)) l) l.
Proof.
  unfold send_exchange. repeat rwp_step.
  all: try ledger_pre.
  { unfold sizeof_simple_recv_msg. size_tac. }
  all: split; [done|]; try done; symmetry; apply add_no_sends.
Qed.

(** The verification message brought no rights. *)
Definition no_rights_came (t : talk) : Prop :=
  ct_receive t = MACH_MSG_SUCCESS → msgh_descriptor_count (ct_verify_msg t) = 0.

#[export, program] Instance send_right_safe : SafeForked (send_right v) := {|
  own_insert t := cr_insert_send (ct_rights t);
  quiet := no_rights_came;
|}.
Next Obligation.
  intros h B. cbn [child_talk send_right]. unfold send_talk. apply wp_bind.
  eapply wp_mono; [apply acquire_send_ledger|]. intros r l ->.
  eapply wp_mono; [apply send_exchange_ledger|]. intros t l [Hr ->] Ht.
  by rewrite nothing_came, add_no_sends, Hr.
Qed.
Next Obligation.
  intros x port l. cbn [use_delivered send_right]. unfold use_send. by repeat rwp_step.
Qed.
End facts.

(** ** The calls of the two operations *)

Section calls.
Context `{Host} `{MachSdk} (v : variant).

(** The verification message, if it was sent. *)
Definition send_used_as (x : seen) (port : mach_port_t) (u : use) (t : list event) : Prop :=
  mr_parent_send_verify u = MACH_MSG_SUCCESS →
  ∃ m, t = [Ev (sending (simple_msg MACH_MSG_TYPE_COPY_SEND port (verify_id v)) 5000) (MACH_MSG_SUCCESS, m)].

(** The child whose message was sent. *)
Definition send_talked_as (h : held) (k : talk) (t : list event) : Prop :=
  let r := ct_rights k in
  let cargo := h_cargo_port h in
  let type_of p := Ev (mach_port_type cargo) p in
  let refs_of p := Ev (mach_port_get_refs cargo MACH_PORT_RIGHT_SEND) p in
  ct_send k = MACH_MSG_SUCCESS →
  ∃ m, t =
    [Ev (mach_port_insert_right cargo cargo MACH_MSG_TYPE_MAKE_SEND) (cr_insert_send r);
     type_of (cr_kr_type r, cr_type r); refs_of (cr_kr_refs r, cr_refs r);
     Ev (sending (descriptor_msg (descriptor_id v) (h_service_port h) cargo (cargo_disposition v)) 5000)
       (MACH_MSG_SUCCESS, m);
     type_of (ct_kr_type_sent k, ct_type_sent k); refs_of (ct_kr_refs_sent k, ct_refs_sent k);
     Ev (receiving sizeof_simple_recv_msg cargo 5000) (ct_receive k, ct_verify_msg k);
     type_of (ct_kr_type_verified k, ct_type_verified k);
     refs_of (ct_kr_refs_verified k, ct_refs_verified k)].

Ltac plain_tac := repeat (apply (plain_app [_]); [by apply plain_one|]); by split.

#[export, program] Instance send_right_traced : TracedForked (send_right v) := {|
  used_as := send_used_as;
  talked_as := send_talked_as;
|}.
Next Obligation.
  intros x port. cbn [use_delivered send_right]. unfold use_send, send_msg.
  repeat does_step; split; try plain_tac; unfold send_used_as; cbn; [|done].
  intros ->. by eexists.
Qed.
Next Obligation.
  intros h. cbn [child_talk send_right]. unfold send_talk, acquire_send, send_exchange, send_msg, receive_msg.
  repeat does_step; split; try plain_tac; unfold send_talked_as; cbn; try done.
  - intros ->. by eexists.
  - by intros ->.
Qed.

(** The parent of a probe that passed: what its calls were answered, in order. *)
Definition parent_calls (before after : nx_baseline_t) (service pid status : Z)
    (m reply : mach_msg_buf) (type refs : Z) : list event :=
  let port := desc_name (msg_cargo m) in
  [listed before; Ev (mach_port_allocate MACH_PORT_RIGHT_RECEIVE) (KERN_SUCCESS, service);
   Ev sys_fork pid; Ev (receiving sizeof_descriptor_recv_msg service 5000) (MACH_MSG_SUCCESS, m);
   Ev (mach_port_type port) (KERN_SUCCESS, type);
   Ev (mach_port_get_refs port MACH_PORT_RIGHT_SEND) (KERN_SUCCESS, refs);
   Ev (sending (simple_msg MACH_MSG_TYPE_COPY_SEND port (verify_id v)) 5000) (MACH_MSG_SUCCESS, reply);
   Ev (sys_waitpid pid) (pid, status); Ev (mach_port_deallocate port) KERN_SUCCESS; listed after].

(** What the calls of the parent say when it passes. *)
Definition parent_passed (t : list event) : Prop :=
  ∃ before middle after service pid status m reply type refs,
    snapshots t = [before; middle; after] ∧ (nx_baseline_compare before after).1 = true ∧
    parent_calls before after service pid status m reply type refs `sublist_of` t ∧
    0 < pid ∧ msgh_descriptor_count m = 1 ∧ desc_name (msg_cargo m) ≠ MACH_PORT_NULL ∧
    Z.testbit type 16 = true ∧ 1 ≤ refs.

Lemma parent_passed_log o t :
  observed_in (send_right v) o t →
  kr_alloc_service (setup_of o) = KERN_SUCCESS → 0 < child_pid (joined o) →
  parent_received_descriptor o = true → child_waited (joined o) = true →
  parent_delivered_send_right o = true →
  mr_parent_send_verify (used (delivery_of o)) = MACH_MSG_SUCCESS →
  kr_parent_deallocate_delivered (cleanup o) = KERN_SUCCESS → baseline_ok o = true →
  parent_passed t.
Proof.
  intros ((b & Hs) & Hc & _ & Hl) Ha Hp Hr Hw Hd Hv Hk Hb.
  unfold parent_received_descriptor, parent_delivered_send_right, baseline_ok in *.
  rewrite send_bit in Hd. bool_facts.
  destruct Hl as (td & (m & tu & Hu & Hn & Hport & ->) & Hsub); [done|done|].
  destruct (Hu Hv) as [reply ->].
  exists (before o), b, (after (cleanup o)), (service_port (setup_of o)), (child_pid (joined o)),
    (child_wait_status (joined o)), m, reply, (s_type (delivered (delivery_of o))),
    (s_refs (delivered (delivery_of o))).
  split; [exact Hs|]. split; [by rewrite <- Hc|]. split; [|by rewrite <- Hport, <- Hn].
  unfold allocated, received_by, waited_for, deallocated in Hsub.
  rewrite H5, H1, H3, Hk, Hport in Hsub. exact Hsub.
Qed.

(** A child that exits with 0, and what it reports. *)
Definition child_calls (before after : nx_baseline_t) (service cargo : mach_port_t)
    (m mv : mach_msg_buf) (c : child_status_t) : list event :=
  let type_of x := Ev (mach_port_type cargo) (KERN_SUCCESS, x) in
  let refs_of p := Ev (mach_port_get_refs cargo MACH_PORT_RIGHT_SEND) p in
  [listed before; Ev (mach_port_allocate MACH_PORT_RIGHT_RECEIVE) (KERN_SUCCESS, cargo);
   Ev (mach_port_insert_right cargo cargo MACH_MSG_TYPE_MAKE_SEND) KERN_SUCCESS;
   type_of (child_type_before_send c); refs_of (KERN_SUCCESS, child_refs_before_send c);
   Ev (sending (descriptor_msg (descriptor_id v) service cargo (cargo_disposition v)) 5000)
     (MACH_MSG_SUCCESS, m);
   type_of (child_type_after_send c); refs_of (kr_child_refs_after_send c, child_refs_after_send c);
   Ev (receiving sizeof_simple_recv_msg cargo 5000) (MACH_MSG_SUCCESS, mv);
   type_of (child_type_after_verify c); refs_of (kr_child_refs_after_verify c, child_refs_after_verify c);
   Ev (mach_port_destroy cargo) KERN_SUCCESS; listed after].
Definition child_passed (c : child_status_t) (t : list event) : Prop :=
  ∃ first before after service cargo m mv,
    snapshots t = [first; before; after] ∧ (nx_baseline_compare before after).1 = true ∧
    child_calls before after service cargo m mv c `sublist_of` t ∧
    child_verify_received_msgh_id c = msgh_id mv.

Lemma child_passed_log c t :
  child_observed_in (send_right v) c t → child_exit_code c = 0 → child_passed c t.
Proof.
  intros (h & k & kr_destroy & after & tk & -> & Hk & Hs & Hl) He.
  cbn [child_status send_right send_status child_exit_code] in He.
  unfold send_status in He. cbn [child_exit_code] in He.
  destruct (child_succeeded v h k kr_destroy after) eqn:E; [|done]. unfold child_succeeded in E.
  destruct (right_stays v) eqn:Ev; cbn [negb orb] in E; bool_facts.
  all: destruct (Hk ltac:(done)) as [m ->].
  all: exists (h_after h), (h_before h), after, (h_service_port h), (h_cargo_port h), m, (ct_verify_msg k).
  all: split; [exact Hs|]; split; [done|].
  all: unfold child_calls, send_status; cbn -[KERN_SUCCESS MACH_MSG_SUCCESS sizeof_simple_recv_msg nx_baseline_compare].
  all: specialize (Hl ltac:(done) ltac:(done)).
  all: unfold verify_field; rewrite (proj2 (Z.eqb_eq (ct_receive k) MACH_MSG_SUCCESS)) by done.
  all: split; [|done]; cbn [app] in Hl.
  all: repeat match goal with E : ?x = KERN_SUCCESS |- _ => try rewrite E in Hl; try rewrite E; clear E end.
  all: match goal with E : ct_receive _ = _ |- _ => rewrite E in Hl; exact Hl end.
Qed.
(** What a status of [size_of_status] bytes must say for a pass, the verdicts on the child's
    own right apart. *)
Definition good_report (t : list event) (c : child_status_t) : Prop :=
  c = overwrite initial_status (bytes_read t) ∧
  (size_of_status ≤ length (bytes_read t))%nat ∧ child_exit_code c = 0 ∧ child_cleanup_ok c ≠ 0 ∧
  mr_child_receive_verify c = MACH_MSG_SUCCESS ∧ child_verify_received_msgh_id c = verify_id v.

Lemma run_passed o t :
  observed_in (send_right v) o t →
  Forall (λ e, e.1 = false) (setup_ladder o ++ delivered_ladder v o ++ joined_ladder o ++ cleanup_ladder o) →
  parent_passed t ∧ good_report t (child (joined o)).
Proof.
  intros Ho Hs. unfold setup_ladder, delivered_ladder, joined_ladder, cleanup_ladder in Hs.
  cbn [app] in Hs. rewrite !Forall_cons_iff in Hs. cbn [fst] in Hs.
  destruct_and! Hs. pose proof Ho as (_ & _ & (Hc & Hl) & _).
  unfold delivered_right_usable, child_clean in *. bool_facts.
  split; [by eapply parent_passed_log|]. by repeat split; auto.
Qed.
End calls.

(** The child that reports an exit code of 0. *)
Lemma child_run_passed `{Host} `{MachSdk} v {W} `{Kernel W} w :
  APPLE = true → let c := (run (child_result (send_right v)) w).1 in
  child_exit_code c = 0 → child_passed v c (trace (child_result (send_right v)) w).
Proof.
  intros Ha c. apply child_passed_log. exact (does_run _ _ w (does_child_result (send_right v) Ha)).
Qed.

(** ** The types of what the child reports *)

Definition rights_typed (r : child_rights) : Prop :=
  is_s32 (cr_insert_send r) ∧ is_s32 (cr_kr_type r) ∧ is_u32 (cr_type r) ∧
  is_s32 (cr_kr_refs r) ∧ is_u32 (cr_refs r).

Record talk_typed (t : talk) : Prop := {
  typed_rights : rights_typed (ct_rights t);
  typed_bits : is_u32 (ct_sent_bits t);
  typed_send : is_s32 (ct_send t);
  typed_sent : is_s32 (ct_kr_type_sent t) ∧ is_u32 (ct_type_sent t) ∧
    is_s32 (ct_kr_refs_sent t) ∧ is_u32 (ct_refs_sent t);
  typed_receive : is_s32 (ct_receive t) ∧ message_typed (ct_verify_msg t);
  typed_verified : is_s32 (ct_kr_type_verified t) ∧ is_u32 (ct_type_verified t) ∧
    is_s32 (ct_kr_refs_verified t) ∧ is_u32 (ct_refs_verified t);
}.

Section types.
Context `{Host} `{MachSdk} `{!SdkBits} (v : variant).

Lemma twp_acquire_send h : twp (acquire_send h) rights_typed.
Proof. unfold acquire_send. repeat twp_step; unfold rights_typed; typed_tac. Qed.

Lemma twp_send_exchange h r : rights_typed r → twp (send_exchange v h r) talk_typed.
Proof.
  intros Hr. assert (is_u32 (Z.lor (MACH_MSGH_BITS MACH_MSG_TYPE_COPY_SEND 0)
    MACH_MSGH_BITS_COMPLEX)) as Hb by (apply bits_u32; left).
  unfold send_exchange, send_msg, receive_msg.
  repeat twp_step; split; unfold message_typed; typed_tac.
Qed.

Lemma twp_send_talk h : twp (send_talk v h) talk_typed.
Proof.
  unfold send_talk. apply twp_bind.
  eapply twp_mono; [apply twp_acquire_send|]. intros r Hr. by apply twp_send_exchange.
Qed.

Lemma verify_field_range (P : Z → Prop) t x :
  P 0 → P (x (ct_verify_msg t)) → P (verify_field t x).
Proof. intros Hz Hx. unfold verify_field. by destruct (_ =? _). Qed.

Lemma send_status_typed h t k after :
  held_typed h → talk_typed t → is_s32 k → baseline_typed after →
  status_in_range (send_status v h t k after).
Proof.
  intros (Hb & ? & ?) [(? & ? & ? & ? & ?) ? ? (? & ? & ? & ?) (? & Hm) (? & ? & ? & ?)] ? Ha.
  pose proof (delta_range _ _ Hb Ha). destruct Hb, Ha. destruct Hm as (? & ? & ?).
  range_tac ltac:(try (apply verify_field_range; [by vm_compute|])).
  all: first [by apply remote_u32 | by apply local_u32].
Qed.

(** When the answers of the kernel are of their C types and the task has fewer
    than 2^31 names, every member of the status the child of the two probes reports
    is in the range of its type, so that the parent that reads all its bytes has
    the status the child had. *)
Theorem send_status_in_range {W} `{Kernel W} w :
  replies_ok (child_result (send_right v)) w →
  let t := (run (child_result (send_right v)) w).1 in
  in_range t ∧ overwrite initial_status (image t) = t.
Proof.
  apply (result_arrives (send_right v)).
  apply (twp_child_result (send_right v) talk_typed); [apply twp_send_talk|].
  intros. by apply send_status_typed.
Qed.
End types.

(** ** A status that was lost *)

Lemma words_of_bytes_nth l n :
  (4 * n + 3 < length l)%nat →
  nth n (words_of_bytes l) 0 =
    nth (4 * n) l 0 + 256 * nth (4 * n + 1) l 0 + 65536 * nth (4 * n + 2) l 0 +
    16777216 * nth (4 * n + 3) l 0.
Proof.
  revert n. induction l as [l IH] using (induction_ltof1 _ (@length Z)). intros n Hn.
  destruct l as [|a [|b [|c [|d l]]]]; simpl in Hn; try lia.
  destruct n as [|n]; [cbn; ring|]. cbn [words_of_bytes nth].
  rewrite IH by (unfold ltof; simpl in *; lia).
  replace (4 * S n)%nat with (S (S (S (S (4 * n))))) by lia. done.
Qed.

(** A status that was cut short before the type of the cargo. *)
Lemma type_before_send_cut bytes :
  (length bytes ≤ 74)%nat → Forall (λ b, 0 ≤ b < 256) bytes →
  child_type_before_send (overwrite initial_status bytes) ≠ MACH_PORT_TYPE_SEND_RECEIVE.
Proof.
  intros Hl Hb. unfold overwrite. cbn [of_words child_status_struct].
  unfold status_of_words. cbn [child_type_before_send]. unfold uint_at.
  set (l := bytes ++ drop (length bytes) (image initial_status)).
  assert (length l = 120%nat) as Hll.
  { unfold l. rewrite length_app, length_drop.
    assert (length (image initial_status) = 120%nat) by exact (image_length initial_status). lia. }
  rewrite words_of_bytes_nth by lia.
  assert (∀ i, (74 ≤ i)%nat → nth i l 0 = nth i (image initial_status) 0) as Hhi.
  { intros i Hi. unfold l. rewrite app_nth2 by lia.
    rewrite !nth_lookup, lookup_drop. do 2 f_equal. lia. }
  assert (∀ i, 0 ≤ nth i l 0 < 256) as Hlo.
  { assert (Forall (λ b, 0 ≤ b < 256) l) as Hf.
    { unfold l. apply Forall_app_2; [done|]. apply Forall_drop.
      apply (bool_decide_unpack _). by vm_compute. }
    intros i. rewrite nth_lookup. destruct (l !! i) eqn:E; [|by simpl].
    by eapply Forall_lookup in Hf. }
  rewrite (Hhi (4 * 18 + 2)%nat), (Hhi (4 * 18 + 3)%nat) by lia.
  pose proof (Hlo (4 * 18)%nat). pose proof (Hlo (4 * 18 + 1)%nat).
  change (nth (4 * 18 + 2) (image initial_status) 0) with 0.
  change (nth (4 * 18 + 3) (image initial_status) 0) with 0.
  change MACH_PORT_TYPE_SEND_RECEIVE with 196608. lia.
Qed.
(** Reads a verdict whose ladder was descended to its end. *)
Ltac open_ladders Hs :=
  unfold setup_ladder, delivered_ladder, joined_ladder, cleanup_ladder in Hs;
  cbn [app] in Hs; rewrite !Forall_cons_iff in Hs; cbn [fst] in Hs;
  unfold parent_received_descriptor, parent_delivered_send_right, delivered_right_usable,
    child_clean, baseline_ok in Hs; rewrite ?send_bit in Hs.

(** The child alone on the executable kernel: nobody answers its message. *)
Section witnesses.
#[local] Existing Instance macos.
#[local] Existing Instance macos_sdk.
#[local] Instance two_kernel : Kernel (world (process child_status_t use)) :=
  two_handle child_code.

Definition moving : variant := mk_variant 0x4f423232 0x4f423233 MACH_MSG_TYPE_MOVE_SEND false.
Definition lone_world : world (process child_status_t use) :=
  first_world (Forked.observe (send_right moving) 2).

Lemma send_status_in_range_witness :
  replies_ok (child_result (send_right moving)) lone_world ∧
  overwrite initial_status (image (run (child_result (send_right moving)) lone_world).1) =
    (run (child_result (send_right moving)) lone_world).1.
Proof.
  assert (replies_ok (child_result (send_right moving)) lone_world) as Hr.
  { vm_compute. repeat split; discriminate. }
  split; [exact Hr|].
  exact (proj2 (@send_status_in_range _ _ macos_bits moving _ _ lone_world Hr)).
Defined.
End witnesses.
End SendRight.
