(* ===== verification/DescriptorMoveSend.v ===== *)
(** [macos-validation/probes/m2/descriptor_move_send.c]: a child sends its parent
    a port descriptor with [MACH_MSG_TYPE_MOVE_SEND]; the parent uses the right
    it was given to send a message back, and the child's own right is gone. *)

From S2P Require Import Prelude Json NxJson JsonText Builder MachApi NxMachUtils Ledger.
From stdpp Require Import gmultiset.
From S2P Require Import MachContract NxResult Probe RefKernel TwoTasks StatusPipe Exchange.
From S2P Require Import Forked Trace ForkedTrace SendRight.

Local Open Scope oracle_scope.
Local Open Scope Z_scope.

Module DescriptorMoveSend.
Import StatusPipe Forked Trace ForkedTrace SendRight.

Definition OB22_DESCRIPTOR_MSG_ID : Z := 0x4f423232.
Definition OB22_VERIFY_MSG_ID : Z := 0x4f423233.
Definition OB22_STATUS_VERSION : Z := STATUS_VERSION.
Definition ob22_child_status_t : Type := child_status_t.

Section descriptor_move_send.
Context `{Host} `{MachSdk}.

(** The program up to the verdict. *)
Definition this : variant :=
  mk_variant OB22_DESCRIPTOR_MSG_ID OB22_VERIFY_MSG_ID MACH_MSG_TYPE_MOVE_SEND false.

Definition child_run : nat → Z → prog (option Z) := Forked.child_run (send_right this).
Definition exchange : nat → prog (position child_status_t talk use) :=
  Forked.exchange (send_right this).
Definition observe : nat → prog (process child_status_t use) :=
  Forked.observe (send_right this).

(** ** The verdict *)

Definition send_refs_are_zero_or_absent (kr : kern_return_t) (refs : mach_port_urefs_t) :
    bool :=
  (kr =? KERN_SUCCESS) && (refs =? 0) || (kr =? KERN_INVALID_RIGHT) ||
  (kr =? KERN_INVALID_NAME).

Definition port_type_has_send (type : mach_port_type_t) : bool :=
  Z.land type MACH_PORT_TYPE_SEND =? MACH_PORT_TYPE_SEND.

Definition child_send_refs_before_exact (o : obs) : bool :=
  let c := child (joined o) in
  (kr_child_refs_before_send c =? KERN_SUCCESS) && (child_refs_before_send c =? 1).

Definition child_send_refs_consumed_after_send (o : obs) : bool :=
  let c := child (joined o) in
  child_send_refs_before_exact o &&
  send_refs_are_zero_or_absent (kr_child_refs_after_send c) (child_refs_after_send c).

Definition child_send_refs_consumed_after_verify (o : obs) : bool :=
  let c := child (joined o) in
  child_send_refs_before_exact o &&
  send_refs_are_zero_or_absent (kr_child_refs_after_verify c) (child_refs_after_verify c).

Definition child_type_lost_send_after_send (o : obs) : bool :=
  let c := child (joined o) in
  (kr_child_type_before_send c =? KERN_SUCCESS) &&
  (kr_child_type_after_send c =? KERN_SUCCESS) &&
  (child_type_before_send c =? MACH_PORT_TYPE_SEND_RECEIVE) &&
  negb (port_type_has_send (child_type_after_send c)).

Definition child_type_lost_send_after_verify (o : obs) : bool :=
  let c := child (joined o) in
  (kr_child_type_before_send c =? KERN_SUCCESS) &&
  (kr_child_type_after_verify c =? KERN_SUCCESS) &&
  negb (port_type_has_send (child_type_after_verify c)).

Definition ladder_of (o : obs) : list (bool * verdict) :=
  let c := child (joined o) in
  setup_ladder o ++
  [(negb (kr_child_type_before_send c =? KERN_SUCCESS) ||
    negb (child_type_before_send c =? MACH_PORT_TYPE_SEND_RECEIVE),
     fail_contract "child cargo type before send was not SEND_RECEIVE");
   (negb (child_send_refs_before_exact o),
     fail_contract "child cargo send refs before MOVE_SEND were not exactly one");
   (negb (child_type_lost_send_after_send o),
     fail_contract "descriptor MOVE_SEND did not remove the child cargo send type");
   (negb (child_send_refs_consumed_after_send o),
     fail_contract "descriptor MOVE_SEND did not consume child cargo send urefs")] ++
  delivered_ladder this o ++
  [(negb (child_type_lost_send_after_verify o),
     fail_contract "child cargo type regained a send right after verification");
   (negb (child_send_refs_consumed_after_verify o),
     fail_contract "child cargo send refs were not consumed after verification")] ++
  joined_ladder o ++ cleanup_ladder o.

Definition verdict_of (o : obs) : verdict :=
  if APPLE then ladder (ladder_of o)
  else skip "non-macOS host: Mach APIs unavailable".

(** ** The report *)

Definition emit_message (o : obs) : op nx_json_t :=
  Forked.emit_message o (child_sent_msgh_bits (child (joined o))) "cargo_send_descriptor"
    "MACH_MSG_TYPE_MOVE_SEND" "MACH_PORT_TYPE_SEND".

Definition emit_returns (o : obs) : op nx_json_t :=
  emit_send_returns "child_mach_msg_send_descriptor_move_send" o.

Definition emit_deltas (o : obs) : op nx_json_t :=
  emit_send_deltas "descriptor MOVE_SEND" "consumed" o.

Definition emit_observations (o : obs) : op nx_json_t :=
  let d := delivery_of o in
  let c := child (joined o) in
  nx_json_key "observations" ;;
  nx_json_begin_object ;;
  emit_transport o ;;
  nx_json_key_string "child_cargo_type_before_send"
    (nx_port_type_str (child_type_before_send c)) ;;
  nx_json_key_string "child_cargo_type_after_send"
    (nx_port_type_str (child_type_after_send c)) ;;
  nx_json_key_bool "child_cargo_type_lost_send_after_send"
    (child_type_lost_send_after_send o) ;;
  nx_json_key_int "child_cargo_send_urefs_before_send"
    (refs_or_minus1_ll (kr_child_refs_before_send c) (child_refs_before_send c)) ;;
  nx_json_key_int "child_cargo_send_urefs_after_send"
    (refs_or_minus1_ll (kr_child_refs_after_send c) (child_refs_after_send c)) ;;
  nx_json_key_bool "child_cargo_send_urefs_consumed_after_send"
    (child_send_refs_consumed_after_send o) ;;
  nx_json_key_int "child_cargo_send_urefs_after_verify"
    (refs_or_minus1_ll (kr_child_refs_after_verify c) (child_refs_after_verify c)) ;;
  nx_json_key_string "child_cargo_type_after_verify"
    (nx_port_type_str (child_type_after_verify c)) ;;
  nx_json_key_bool "child_cargo_type_lost_send_after_verify"
    (child_type_lost_send_after_verify o) ;;
  nx_json_key_bool "child_cargo_send_urefs_consumed_after_verify"
    (child_send_refs_consumed_after_verify o) ;;
  nx_json_key_string "sent_descriptor_disposition" "MACH_MSG_TYPE_MOVE_SEND" ;;
  nx_json_key_string "sent_msgh_bits_raw_hex" (hex32 (child_sent_msgh_bits c)) ;;
  emit_received o "delivered_cargo_send" ;;
  nx_json_key_int "parent_delivered_send_refs"
    (refs_or_minus1_ll (s_kr_refs (delivered d)) (s_refs (delivered d))) ;;
  nx_json_key_bool "delivered_right_usable" (delivered_right_usable this o) ;;
  nx_json_key_int "parent_delivered_deallocate_count"
    (if negb (delivered_port d =? MACH_PORT_NULL) then 1 else 0) ;;
  nx_json_key_bool "parent_delivered_one_deallocate_sufficient"
    ((kr_parent_deallocate_delivered (cleanup o) =? KERN_SUCCESS) && cleanup_ok o) ;;
  emit_verification o ;;
  emit_baselines o ;;
  nx_json_end_object.

Definition report : obs → verdict → op nx_json_t :=
  document "macos_m2_descriptor_move_send" emit_message emit_returns emit_deltas emit_observations.

Definition main : nat → prog ending := Forked.main (send_right this) verdict_of report.
End descriptor_move_send.

Section facts.
Context `{Host} `{MachSdk}.

Lemma descriptor_move_send_written o :
  env_file_ok →
  emits_result true "macos_m2_descriptor_move_send" (verdict_of o) (cleanup_ok o)
    (report o (verdict_of o)).
Proof.
  intros Henv. unfold report, document, emit_message, emit_returns, emit_deltas,
    emit_observations, Forked.emit_message, emit_send_returns, emit_setup_returns,
    emit_final_returns, emit_send_deltas, emit_transport, emit_received, emit_verification,
    emit_baselines.
  report_tac.
Qed.

Context `{!SdkSizes}.

(** C6: with every kernel whose answers meet the condition below, also one that refuses or
    breaks its documentation otherwise, the parent and the child use only memory they hold
    and names they were given and have not given back by a call (the reference that the
    message takes along is not subtracted); the parent gives back everything and writes one
    result document, whose verdict is the one for what it observed; the child leaves no
    right behind.  The condition [fresh_position] on the answers: new ports get names the
    process does not already have, a name is delivered with a descriptor only, the message
    with the cargo has no more than the one descriptor there is room for, and the
    verification message has none. *)
Theorem descriptor_move_send_main_safe {W} `{Kernel W} fuel w :
  env_file_ok → fresh_position (send_right this) (run (meet (send_right this) fuel) w).1.2 →
  let p := (run (observe fuel) w).1 in
  (∃ e w' l, run_with (@account_carried) (main fuel) w no_holdings = Some (e, w', l) ∧
     ends_as verdict_of report p e l) ∧
  ∀ o, p = InParent o →
    emits_result true "macos_m2_descriptor_move_send" (verdict_of o) (cleanup_ok o)
      (report o (verdict_of o)).
Proof.
  intros Henv Hf p. split; [|intros o _; by apply descriptor_move_send_written].
  exact (forked_main_safe (send_right this) verdict_of report fuel w Hf).
Qed.

(** ** What the verdict says *)

Lemma has_send_bit t : port_type_has_send t = Z.testbit t 16.
Proof. apply send_bit. Qed.

(** The references are gone: there are none, or there is no such right or name. *)
Definition gone (kr : kern_return_t) (refs : mach_port_urefs_t) : Prop :=
  (kr = KERN_SUCCESS ∧ refs = 0) ∨ kr = KERN_INVALID_RIGHT ∨ kr = KERN_INVALID_NAME.

Lemma zero_or_absent_gone kr refs :
  send_refs_are_zero_or_absent kr refs = true ↔ gone kr refs.
Proof.
  unfold send_refs_are_zero_or_absent, gone.
  rewrite !orb_true_iff, andb_true_iff, !Z.eqb_eq. tauto.
Qed.

(** C7: the exit status 0 means what it says, in terms of what the calls of the run were
    answered.  The parent listed its names before and after, and the two lists of names and
    types agree; in between, in this order, it made a service port, forked a child, received
    on that port a message with one descriptor, saw a send right under the name in it, sent
    a message through that name, saw the child end, and released the name with one call.
    What it read from the pipe is a whole status, which says that the child's calls
    succeeded, that the child received the message, that its port had one send reference
    before the send and none after it and after the verification, nor a send right in the
    type.  And a child whose status has the exit code 0 made these calls in its own run: the
    types and references in the status are the answers to its calls before the send, after
    it and after the reception, and its two lists of names agree. *)
Theorem descriptor_move_send_pass_sound {W} `{Kernel W} fuel w out w' :
  APPLE = true → run (main fuel) w = (Returned (Some out), w') → exit_status out = 0 →
  let t := trace (main fuel) w in
  let c := overwrite initial_status (bytes_read t) in
  parent_passed this t ∧ good_report this t c ∧
  child_type_before_send c = MACH_PORT_TYPE_SEND_RECEIVE ∧ child_refs_before_send c = 1 ∧
  gone (kr_child_refs_after_send c) (child_refs_after_send c) ∧
  gone (kr_child_refs_after_verify c) (child_refs_after_verify c) ∧
  Z.testbit (child_type_after_send c) 16 = false ∧ Z.testbit (child_type_after_verify c) 16 = false ∧
  ∀ V (kernel : Kernel V) v, let c' := (run (child_result (send_right this)) v).1 in
    child_exit_code c' = 0 → child_passed this c' (trace (child_result (send_right this)) v).
Proof.
  intros Ha Hr He t c.
  destruct (main_passed (send_right this) verdict_of report ladder_of fuel w out w')
    as (o & Ho & Hl); try done; [exact initial_status_in_range|by intros o; unfold verdict_of; rewrite Ha|].
  unfold ladder_of in Hl. fold t in Ho.
  rewrite !Forall_app, !Forall_cons_iff in Hl. cbn [fst] in Hl.
  unfold child_type_lost_send_after_send, child_send_refs_consumed_after_send,
    child_type_lost_send_after_verify, child_send_refs_consumed_after_verify,
    child_send_refs_before_exact in Hl.
  rewrite !has_send_bit in Hl. destruct_and! Hl.
  destruct (run_passed this o t Ho) as [Hp Hg]; [by rewrite !Forall_app|].
  pose proof (proj1 Hg) as Hc. fold c in Hc. rewrite Hc in *. bool_facts.
  rewrite <- !zero_or_absent_gone.
  do 8 (split; [by auto|]). intros V kernel v c'. by apply child_run_passed.
Qed.
End facts.

(** The two processes on the executable kernel. *)
Section witnesses.
#[local] Existing Instance macos.
#[local] Existing Instance macos_sdk.
#[local] Instance two_kernel : Kernel (world (process child_status_t use)) :=
  two_handle child_code.

Definition start_world : world (process child_status_t use) := first_world (observe 2).

Lemma descriptor_move_send_main_safe_witness :
  env_file_ok ∧ fresh_position (send_right this) (run (meet (send_right this) 2) start_world).1.2 ∧
  (∃ e w' l, run_with (@account_carried) (main 2) start_world no_holdings = Some (e, w', l) ∧
     ends_as verdict_of report (run (observe 2) start_world).1 e l) ∧
  ∀ o, (run (observe 2) start_world).1 = InParent o →
    emits_result true "macos_m2_descriptor_move_send" (verdict_of o) (cleanup_ok o)
      (report o (verdict_of o)).
Proof.
  assert (fresh_position (send_right this)
    (run (meet (send_right this) 2) start_world).1.2) as Hf.
  { vm_compute. split; [discriminate|].
    split; [intros _; split; [reflexivity|discriminate]|discriminate]. }
  split; [exact no_env_file|]. split; [exact Hf|].
  exact (@descriptor_move_send_main_safe _ _ macos_sizes _ _ 2 start_world no_env_file Hf).
Defined.

(** What the parent observed of a child that reported [c], if it did. *)
Definition snapshot : nx_baseline_t :=
  mk_baseline (mk_array 0x10000 [task_self_name]) (mk_array 0x20000 [MACH_PORT_TYPE_SEND])
    true KERN_SUCCESS.
Definition observed (c : child_status_t) (ok : bool) : obs :=
  mk_obs snapshot (mk_setup true (3, 4) 0 11 0 12 0 0) 0
    (mk_delivery 0 0x80001100 0 17 40 OB22_DESCRIPTOR_MSG_ID 1 13 0 17
       (mk_seen 0 MACH_PORT_TYPE_SEND 0 1) (mk_use 19 0))
    (mk_joined 77 c ok true 0) (mk_release 0 0 0 snapshot (true, 0)).

Definition good_status : child_status_t :=
  mk_child_status OB22_STATUS_VERSION 1 0 0 0 0 0 0 0 0 0 0 0 0 0 0 0 0
    MACH_PORT_TYPE_SEND_RECEIVE MACH_PORT_TYPE_RECEIVE MACH_PORT_TYPE_RECEIVE
    1 0 0 0x80000013 0x1100 0 17 OB22_VERIFY_MSG_ID 24.

(** On the executable kernel with two tasks the probe returns 0. *)
Lemma descriptor_move_send_pass_sound_witness :
  ∃ out w', run (main 2) start_world = (Returned (Some out), w') ∧ exit_status out = 0 ∧
    parent_passed this (trace (main 2) start_world).
Proof.
  destruct (returned_zero_run (main 2) start_world) as (out & w' & E & He); [by vm_compute|].
  exists out, w'. split; [exact E|]. split; [exact He|].
  exact (proj1 (descriptor_move_send_pass_sound 2 start_world out w' on_macos E He)).
Defined.
End witnesses.
End DescriptorMoveSend.
