(* ===== verification/SendOnce.v ===== *)
(** [macos-validation/probes/m2/send_once_descriptor.c]: a child sends its parent
    a send-once right to a port of its own; the parent uses it once, and tries a
    second time. *)

From S2P Require Import Prelude Json NxJson JsonText Builder MachApi NxMachUtils Typed.
From S2P Require Import Ledger.
From stdpp Require Import gmultiset.
From S2P Require Import MachContract NxResult Probe RefKernel TwoTasks StatusPipe Exchange.
From S2P Require Import Forked Trace ForkedTrace.

Local Open Scope oracle_scope.
Local Open Scope Z_scope.

Module SendOnce.
Import StatusPipe Forked Trace ForkedTrace.

Definition OB23_DESCRIPTOR_MSG_ID : Z := 0x4f423233.
Definition OB23_VERIFY_MSG_ID : Z := 0x4f423234.
Definition OB23_STATUS_VERSION : Z := 1.

(** What the child reports. *)
Record ob23_child_status_t := mk_child_status {
  version : Z;
  child_cleanup_ok : Z;
  child_cleanup_delta : Z;
  child_exit_code : Z;
  kr_child_baseline_before : kern_return_t;
  kr_child_get_bootstrap : kern_return_t;
  kr_child_alloc_cargo : kern_return_t;
  kr_child_cargo_type_before_create : kern_return_t;
  kr_child_extract_send_once : kern_return_t;
  kr_child_send_once_type_before_send : kern_return_t;
  kr_child_send_once_refs_before_send : kern_return_t;
  mr_child_send_descriptor : mach_msg_return_t;
  kr_child_send_once_type_after_send : kern_return_t;
  kr_child_send_once_refs_after_send : kern_return_t;
  mr_child_receive_verify_first : mach_msg_return_t;
  mr_child_receive_verify_second : mach_msg_return_t;
  kr_child_cargo_type_after_verify : kern_return_t;
  kr_child_deallocate_send_once_after_send : kern_return_t;
  kr_child_destroy_cargo : kern_return_t;
  kr_child_baseline_after : kern_return_t;
  child_cargo_type_before_create : mach_port_type_t;
  child_send_once_type_before_send : mach_port_type_t;
  child_send_once_type_after_send : mach_port_type_t;
  child_cargo_type_after_verify : mach_port_type_t;
  child_send_once_refs_before_send : mach_port_urefs_t;
  child_send_once_refs_after_send : mach_port_urefs_t;
  child_extract_acquired_type : Z;
  child_sent_msgh_bits : Z;
  child_verify_first_msgh_bits : Z;
  child_verify_first_remote_disp : Z;
  child_verify_first_local_disp : Z;
  child_verify_first_msgh_id : Z;
  child_verify_first_msgh_size : Z;
  child_verify_second_msgh_bits : Z;
  child_verify_second_msgh_id : Z;
}.

Definition status_words (t : ob23_child_status_t) : list Z :=
  [version t; child_cleanup_ok t; child_cleanup_delta t; child_exit_code t;
   kr_child_baseline_before t; kr_child_get_bootstrap t; kr_child_alloc_cargo t;
   kr_child_cargo_type_before_create t; kr_child_extract_send_once t;
   kr_child_send_once_type_before_send t; kr_child_send_once_refs_before_send t;
   mr_child_send_descriptor t; kr_child_send_once_type_after_send t;
   kr_child_send_once_refs_after_send t; mr_child_receive_verify_first t;
   mr_child_receive_verify_second t; kr_child_cargo_type_after_verify t;
   kr_child_deallocate_send_once_after_send t; kr_child_destroy_cargo t;
   kr_child_baseline_after t; child_cargo_type_before_create t;
   child_send_once_type_before_send t; child_send_once_type_after_send t;
   child_cargo_type_after_verify t; child_send_once_refs_before_send t;
   child_send_once_refs_after_send t; child_extract_acquired_type t;
   child_sent_msgh_bits t; child_verify_first_msgh_bits t;
   child_verify_first_remote_disp t; child_verify_first_local_disp t;
   child_verify_first_msgh_id t; child_verify_first_msgh_size t;
   child_verify_second_msgh_bits t; child_verify_second_msgh_id t].

(** The [int] members are signed, the others are not. *)
Definition status_of_words (ws : list Z) : ob23_child_status_t :=
  let i := int_at ws in
  let u := uint_at ws in
  mk_child_status
    (i 0%nat) (i 1%nat) (i 2%nat) (i 3%nat) (i 4%nat) (i 5%nat) (i 6%nat) (i 7%nat)
    (i 8%nat) (i 9%nat) (i 10%nat) (i 11%nat) (i 12%nat) (i 13%nat) (i 14%nat) (i 15%nat)
    (i 16%nat) (i 17%nat) (i 18%nat) (i 19%nat) (u 20%nat) (u 21%nat) (u 22%nat)
    (u 23%nat) (u 24%nat) (u 25%nat) (u 26%nat) (u 27%nat) (u 28%nat) (u 29%nat)
    (u 30%nat) (i 31%nat) (u 32%nat) (u 33%nat) (i 34%nat).

Definition signed_word (n : nat) : bool := (n <? 20)%nat || (n =? 31)%nat || (n =? 34)%nat.

Definition status_in_range (t : ob23_child_status_t) : Prop :=
  words_in_range signed_word (status_words t).

Lemma once_of_status_words t :
  status_in_range t → status_of_words (map u32 (status_words t)) = t.
Proof.
  intros Ht. unfold status_of_words, status_words, int_at, uint_at.
  destruct t. read_words Ht.
Qed.

#[export] Instance once_status_struct : StatusStruct ob23_child_status_t := {|
  to_words := status_words;
  of_words := status_of_words;
  n_words := 35;
  in_range := status_in_range;
  to_words_length t := eq_refl;
  of_to_words := once_of_status_words;
|}.

(** [memset(&child, 0, sizeof(child))] and the two assignments. *)
Definition initial_status : ob23_child_status_t :=
  mk_child_status OB23_STATUS_VERSION 0 0 (-1) 0 0 0 0 0 0 0 0 0 0 0 0 0 0 0 0 0 0 0 0 0
    0 0 0 0 0 0 0 0 0 0.

(** What the child has to send. *)
Record once_right := mk_once_right {
  or_kr_cargo_type : kern_return_t;
  or_cargo_type : mach_port_type_t;
  or_kr_extract : kern_return_t;
  or_port : mach_port_t;
  or_acquired : Z;
  or_kr_type : kern_return_t;
  or_type : mach_port_type_t;
  or_kr_refs : kern_return_t;
  or_refs : mach_port_urefs_t;
}.

(** What the child's calls and messages showed. *)
Record talk := mk_talk {
  ct_right : once_right;
  ct_sent_bits : Z;
  ct_send : mach_msg_return_t;
  ct_kr_type_sent : kern_return_t;
  ct_type_sent : mach_port_type_t;
  ct_kr_refs_sent : kern_return_t;
  ct_refs_sent : mach_port_urefs_t;
  ct_first : mach_msg_return_t;
  ct_first_msg : mach_msg_buf;
  ct_second : mach_msg_return_t;
  ct_second_msg : mach_msg_buf;
  ct_kr_cargo_type : kern_return_t;
  ct_cargo_type : mach_port_type_t;
  ct_deallocate : kern_return_t;
}.

(** What came of the two uses of the delivered right. *)
Record use := mk_use {
  verify_first_sent_msgh_bits : Z;
  mr_parent_send_verify_first : mach_msg_return_t;
  kr_parent_delivered_type_after_first : kern_return_t;
  parent_delivered_type_after_first : mach_port_type_t;
  kr_parent_delivered_refs_after_first : kern_return_t;
  parent_delivered_refs_after_first : mach_port_urefs_t;
  verify_second_sent_msgh_bits : Z;
  mr_parent_send_verify_second : mach_msg_return_t;
}.

Abbreviation obs := (Forked.obs ob23_child_status_t use).

Definition send_once_refs_are_zero_or_absent (kr : kern_return_t)
    (refs : mach_port_urefs_t) : bool :=
  (kr =? KERN_SUCCESS) && (refs =? 0) || (kr =? KERN_INVALID_RIGHT) ||
  (kr =? KERN_INVALID_NAME).

Definition port_type_has_send_once (type : mach_port_type_t) : bool :=
  Z.land type MACH_PORT_TYPE_SEND_ONCE =? MACH_PORT_TYPE_SEND_ONCE.

Lemma once_initial_in_range : in_range initial_status.
Proof. range_tac ltac:(idtac). Qed.

(** A member of the status that a received message sets. *)
Definition message_field (mr : mach_msg_return_t) (m : mach_msg_buf)
    (x : mach_msg_buf → Z) : Z :=
  if mr =? MACH_MSG_SUCCESS then x m else 0.

Section send_once.
Context `{Host} `{MachSdk}.

Definition msg_type_name_str (type : Z) : string := disposition_str type.

(** ** The child *)

Definition acquire_once (h : held) : prog once_right :=
  let cargo_port := h_cargo_port h in
  '(kr_cargo_type, cargo_type) ←
    guarded (h_alloc_cargo h =? KERN_SUCCESS) (KERN_FAILURE, 0)
      (call (mach_port_type cargo_port));
  '(kr_extract, extracted, acquired_type) ←
    guarded (kr_cargo_type =? KERN_SUCCESS) (KERN_FAILURE, MACH_PORT_NULL, 0)
      (call (mach_port_extract_right cargo_port MACH_MSG_TYPE_MAKE_SEND_ONCE));
  let send_once_port := out_port kr_extract extracted in
  '(kr_type, type, (kr_refs, refs)) ←
    guarded (kr_extract =? KERN_SUCCESS) (KERN_FAILURE, 0, (KERN_FAILURE, 0)) (
      t ← call (mach_port_type send_once_port);
      r ← call (mach_port_get_refs send_once_port MACH_PORT_RIGHT_SEND_ONCE);
      mret (t, r));
  mret (mk_once_right kr_cargo_type cargo_type kr_extract send_once_port acquired_type
          kr_type type kr_refs refs).

Definition no_talk (r : once_right) (bits : Z) (mr : mach_msg_return_t) : talk :=
  mk_talk r bits mr KERN_FAILURE 0 KERN_FAILURE 0 MACH_RCV_INVALID_NAME zero_msg
    MACH_RCV_INVALID_NAME zero_msg KERN_FAILURE 0 KERN_FAILURE.

(** The messages, up to the deallocation of the send-once right. *)
Definition once_exchange (h : held) (r : once_right) : prog talk :=
  let cargo_port := h_cargo_port h in
  let port := or_port r in
  let msg := descriptor_msg OB23_DESCRIPTOR_MSG_ID (h_service_port h) port
               MACH_MSG_TYPE_MOVE_SEND_ONCE in
  '(bits, mr_send) ←
    guarded (or_kr_type r =? KERN_SUCCESS) (0, MACH_SEND_INVALID_DEST) (
      '(mr, _) ← send_msg 5000 msg;
      mret (msgh_bits msg, mr));
  guarded (mr_send =? MACH_MSG_SUCCESS) (no_talk r bits mr_send) (
    '(kr_type, type) ← call (mach_port_type port);
    '(kr_refs, refs) ← call (mach_port_get_refs port MACH_PORT_RIGHT_SEND_ONCE);
    '(mr_first, first_msg) ← receive_msg 5000 sizeof_simple_recv_msg cargo_port;
    '(mr_second, second_msg) ← receive_msg 500 sizeof_simple_recv_msg cargo_port;
    '(kr_cargo, cargo) ← call (mach_port_type cargo_port);
    mret (mk_talk r bits mr_send kr_type type kr_refs refs mr_first first_msg
            mr_second second_msg kr_cargo cargo KERN_FAILURE)).

Definition with_deallocate (t : talk) (kr : kern_return_t) : talk :=
  mk_talk (ct_right t) (ct_sent_bits t) (ct_send t) (ct_kr_type_sent t) (ct_type_sent t)
    (ct_kr_refs_sent t) (ct_refs_sent t) (ct_first t) (ct_first_msg t) (ct_second t)
    (ct_second_msg t) (ct_kr_cargo_type t) (ct_cargo_type t) kr.

Definition once_talk (h : held) : prog talk :=
  r ← acquire_once h;
  t ← once_exchange h r;
  kr ← guarded (negb (or_port r =? MACH_PORT_NULL)) KERN_FAILURE
    (call (mach_port_deallocate (or_port r)));
  mret (with_deallocate t kr).

(** Everything went as it should: the exit code is 0. *)
Definition child_succeeded (h : held) (t : talk) (kr_destroy : kern_return_t)
    (after : nx_baseline_t) : bool :=
  let r := ct_right t in
  negb (nx_baseline_blocks_probe (h_before h)) &&
  (h_get_bootstrap h =? KERN_SUCCESS) && (h_alloc_cargo h =? KERN_SUCCESS) &&
  (or_kr_cargo_type r =? KERN_SUCCESS) && (or_kr_extract r =? KERN_SUCCESS) &&
  (or_kr_type r =? KERN_SUCCESS) && (ct_send t =? MACH_MSG_SUCCESS) &&
  (ct_first t =? MACH_MSG_SUCCESS) && (ct_second t =? MACH_RCV_TIMED_OUT) &&
  (ct_kr_cargo_type t =? KERN_SUCCESS) && (kr_destroy =? KERN_SUCCESS) &&
  negb (nx_baseline_blocks_probe after) && (nx_baseline_compare (h_before h) after).1.

Definition once_status (h : held) (t : talk) (kr_destroy : kern_return_t)
    (after : nx_baseline_t) : ob23_child_status_t :=
  let r := ct_right t in
  let compared := nx_baseline_compare (h_before h) after in
  let first := message_field (ct_first t) (ct_first_msg t) in
  let second := message_field (ct_second t) (ct_second_msg t) in
  mk_child_status OB23_STATUS_VERSION (if compared.1 then 1 else 0) compared.2
    (if child_succeeded h t kr_destroy after then 0 else 1)
    (kr (h_before h)) (h_get_bootstrap h) (h_alloc_cargo h) (or_kr_cargo_type r)
    (or_kr_extract r) (or_kr_type r) (or_kr_refs r) (ct_send t) (ct_kr_type_sent t)
    (ct_kr_refs_sent t) (ct_first t) (ct_second t) (ct_kr_cargo_type t) (ct_deallocate t)
    kr_destroy (kr after) (or_cargo_type r) (or_type r) (ct_type_sent t)
    (ct_cargo_type t) (or_refs r) (ct_refs_sent t) (or_acquired r) (ct_sent_bits t)
    (first msgh_bits) (first (λ m, MACH_MSGH_BITS_REMOTE (msgh_bits m)))
    (first (λ m, MACH_MSGH_BITS_LOCAL (msgh_bits m))) (first msgh_id) (first msgh_size)
    (second msgh_bits) (second msgh_id).

(** ** The parent *)

Definition no_once_use : use :=
  mk_use 0 MACH_SEND_INVALID_DEST KERN_FAILURE 0 KERN_FAILURE 0 0 MACH_SEND_INVALID_DEST.

Definition use_once (x : seen) (port : mach_port_t) : prog use :=
  guarded ((s_kr_type x =? KERN_SUCCESS) && port_type_has_send_once (s_type x))
    no_once_use (
    let verify_msg := simple_msg MACH_MSG_TYPE_MOVE_SEND_ONCE port OB23_VERIFY_MSG_ID in
    '(mr_first, _) ← send_msg 5000 verify_msg;
    '(kr_type, type) ← call (mach_port_type port);
    '(kr_refs, refs) ← call (mach_port_get_refs port MACH_PORT_RIGHT_SEND_ONCE);
    let second_msg :=
      simple_msg MACH_MSG_TYPE_MOVE_SEND_ONCE port (OB23_VERIFY_MSG_ID + 1) in
    '(mr_second, _) ← send_msg 500 second_msg;
    mret (mk_use (msgh_bits verify_msg) mr_first kr_type type kr_refs refs
            (msgh_bits second_msg) mr_second)).

Definition this : forked_probe ob23_child_status_t talk use := {|
  initial_child := initial_status;
  exit_code_of := child_exit_code;
  child_talk := once_talk;
  child_status := once_status;
  cargo_right := MACH_PORT_RIGHT_SEND_ONCE;
  no_use := no_once_use;
  use_delivered := use_once;
|}.

Definition child_run : nat → Z → prog (option Z) := Forked.child_run this.
Definition exchange : nat → prog (position ob23_child_status_t talk use) :=
  Forked.exchange this.
Definition observe : nat → prog (process ob23_child_status_t use) := Forked.observe this.

(** ** The verdict *)

Definition child_cargo_receive_before_create (o : obs) : bool :=
  let c := child (joined o) in
  (kr_child_cargo_type_before_create c =? KERN_SUCCESS) &&
  (child_cargo_type_before_create c =? MACH_PORT_TYPE_RECEIVE).

(** [child_send_once_type_before_send] of [main], like the member. *)
Definition send_once_type_before_send (o : obs) : bool :=
  let c := child (joined o) in
  (kr_child_send_once_type_before_send c =? KERN_SUCCESS) &&
  (child_send_once_type_before_send c =? MACH_PORT_TYPE_SEND_ONCE).

Definition child_send_once_refs_before_ok (o : obs) : bool :=
  let c := child (joined o) in
  negb (kr_child_send_once_refs_before_send c =? KERN_SUCCESS) ||
  (child_send_once_refs_before_send c =? 1).

Definition child_send_once_type_consumed_after_send (o : obs) : bool :=
  let c := child (joined o) in
  negb (kr_child_send_once_type_after_send c =? KERN_SUCCESS) ||
  negb (port_type_has_send_once (child_send_once_type_after_send c)).

Definition child_send_once_refs_consumed_after_send (o : obs) : bool :=
  let c := child (joined o) in
  send_once_refs_are_zero_or_absent (kr_child_send_once_refs_after_send c)
    (child_send_once_refs_after_send c).

Definition child_send_once_consumed_after_send (o : obs) : bool :=
  child_send_once_type_consumed_after_send o && child_send_once_refs_consumed_after_send o.

Definition parent_delivered_send_once_right (o : obs) : bool :=
  let x := delivered (delivery_of o) in
  (s_kr_type x =? KERN_SUCCESS) && port_type_has_send_once (s_type x).

Definition parent_delivered_send_once_refs_ok (o : obs) : bool :=
  let x := delivered (delivery_of o) in
  negb (s_kr_refs x =? KERN_SUCCESS) || (s_refs x =? 1).

Definition parent_delivered_type_consumed_after_first (o : obs) : bool :=
  let u := used (delivery_of o) in
  negb (kr_parent_delivered_type_after_first u =? KERN_SUCCESS) ||
  negb (port_type_has_send_once (parent_delivered_type_after_first u)).

Definition parent_delivered_refs_consumed_after_first (o : obs) : bool :=
  let u := used (delivery_of o) in
  send_once_refs_are_zero_or_absent (kr_parent_delivered_refs_after_first u)
    (parent_delivered_refs_after_first u).

Definition parent_delivered_consumed_after_first (o : obs) : bool :=
  parent_delivered_type_consumed_after_first o &&
  parent_delivered_refs_consumed_after_first o.

Definition delivered_right_usable_once (o : obs) : bool :=
  let c := child (joined o) in
  (mr_parent_send_verify_first (used (delivery_of o)) =? MACH_MSG_SUCCESS) &&
  (mr_child_receive_verify_first c =? MACH_MSG_SUCCESS) &&
  (child_verify_first_msgh_id c =? OB23_VERIFY_MSG_ID).

Definition second_use_blocked (o : obs) : bool :=
  negb (mr_parent_send_verify_second (used (delivery_of o)) =? MACH_MSG_SUCCESS).

Definition child_second_receive_timed_out (o : obs) : bool :=
  mr_child_receive_verify_second (child (joined o)) =? MACH_RCV_TIMED_OUT.

Definition child_clean (o : obs) : bool :=
  let c := child (joined o) in
  child_status_read (joined o) && (child_exit_code c =? 0) && negb (child_cleanup_ok c =? 0).

Definition once_ladder (o : obs) : list (bool * verdict) :=
  let c := child (joined o) in
  [(negb (child_cargo_receive_before_create o),
     fail_contract "child cargo type before send-once creation was not RECEIVE");
   (negb (kr_child_extract_send_once c =? KERN_SUCCESS),
     probe_failure "mach_port_extract_right MAKE_SEND_ONCE failed");
   (negb (send_once_type_before_send o),
     fail_contract "child send-once type before send was not SEND_ONCE");
   (negb (child_send_once_refs_before_ok o),
     fail_contract "child send-once refs before send were not one when observable");
   (negb (mr_child_send_descriptor c =? MACH_MSG_SUCCESS),
     probe_failure "child descriptor mach_msg SEND failed");
   (negb (child_send_once_consumed_after_send o),
     fail_contract "descriptor MOVE_SEND_ONCE did not consume child send-once right");
   (negb (parent_delivered_send_once_right o),
     fail_contract "parent delivered descriptor was not a send-once right");
   (negb (parent_delivered_send_once_refs_ok o),
     fail_contract "parent delivered send-once refs were not one when observable");
   (negb (delivered_right_usable_once o),
     fail_contract "parent delivered send-once right usability failed");
   (negb (parent_delivered_consumed_after_first o),
     fail_contract "parent delivered send-once right was not consumed after first use");
   (negb (second_use_blocked o),
     fail_contract "parent delivered send-once right was reusable");
   (negb (child_second_receive_timed_out o),
     fail_contract "child received more than one verification message");
   (negb (child_status_read (joined o)) || negb (child_waited (joined o)),
     probe_failure "child status or waitpid failed");
   (negb (child_clean o), fail_contract "child cleanup did not return to baseline")].

Definition ladder_of (o : obs) : list (bool * verdict) :=
  setup_ladder o ++ once_ladder o ++ cleanup_ladder o.

Definition verdict_of (o : obs) : verdict :=
  if APPLE then ladder (ladder_of o)
  else skip "non-macOS host: Mach APIs unavailable".

(** ** The report *)

Definition emit_message (o : obs) : op nx_json_t :=
  Forked.emit_message o (child_sent_msgh_bits (child (joined o)))
    "cargo_send_once_descriptor" "MACH_MSG_TYPE_MOVE_SEND_ONCE" "MACH_PORT_TYPE_SEND_ONCE".

Definition emit_returns (o : obs) : op nx_json_t :=
  let d := delivery_of o in
  let u := used d in
  let c := child (joined o) in
  nx_json_key "returns" ;;
  nx_json_begin_array ;;
  emit_setup_returns o ;;
  nx_result_emit_return "child_task_get_special_port_bootstrap"
    (nx_kern_return_str (kr_child_get_bootstrap c)) (kr_child_get_bootstrap c) false 0 ;;
  nx_result_emit_return "child_mach_port_allocate_cargo"
    (nx_kern_return_str (kr_child_alloc_cargo c)) (kr_child_alloc_cargo c) false 0 ;;
  nx_result_emit_return "child_mach_port_type_cargo_before_create"
    (nx_kern_return_str (kr_child_cargo_type_before_create c))
    (kr_child_cargo_type_before_create c) false 0 ;;
  nx_result_emit_return "child_mach_port_extract_right_make_send_once"
    (nx_kern_return_str (kr_child_extract_send_once c)) (kr_child_extract_send_once c)
    false 0 ;;
  nx_result_emit_return "child_mach_port_type_send_once_before_send"
    (nx_kern_return_str (kr_child_send_once_type_before_send c))
    (kr_child_send_once_type_before_send c) false 0 ;;
  nx_result_emit_return "child_mach_port_get_refs_send_once_before_send"
    (nx_kern_return_str (kr_child_send_once_refs_before_send c))
    (kr_child_send_once_refs_before_send c) false 0 ;;
  nx_result_emit_return "child_mach_msg_send_send_once_descriptor"
    (nx_msg_return_str (mr_child_send_descriptor c)) (mr_child_send_descriptor c) false 0 ;;
  nx_result_emit_return "child_mach_port_type_send_once_after_send"
    (nx_kern_return_str (kr_child_send_once_type_after_send c))
    (kr_child_send_once_type_after_send c) false 0 ;;
  nx_result_emit_return "child_mach_port_get_refs_send_once_after_send"
    (nx_kern_return_str (kr_child_send_once_refs_after_send c))
    (kr_child_send_once_refs_after_send c) false 0 ;;
  nx_result_emit_return "parent_mach_msg_receive_descriptor"
    (nx_msg_return_str (mr_parent_receive_descriptor d)) (mr_parent_receive_descriptor d)
    false 0 ;;
  nx_result_emit_return "parent_mach_port_type_delivered"
    (nx_kern_return_str (s_kr_type (delivered d))) (s_kr_type (delivered d)) false 0 ;;
  nx_result_emit_return "parent_mach_port_get_refs_delivered_send_once"
    (nx_kern_return_str (s_kr_refs (delivered d))) (s_kr_refs (delivered d)) false 0 ;;
  nx_result_emit_return "parent_mach_msg_send_verify_first_move_send_once"
    (nx_msg_return_str (mr_parent_send_verify_first u)) (mr_parent_send_verify_first u)
    false 0 ;;
  nx_result_emit_return "parent_mach_port_type_delivered_after_first"
    (nx_kern_return_str (kr_parent_delivered_type_after_first u))
    (kr_parent_delivered_type_after_first u) false 0 ;;
  nx_result_emit_return "parent_mach_port_get_refs_delivered_after_first"
    (nx_kern_return_str (kr_parent_delivered_refs_after_first u))
    (kr_parent_delivered_refs_after_first u) false 0 ;;
  nx_result_emit_return "parent_mach_msg_send_verify_second_move_send_once"
    (nx_msg_return_str (mr_parent_send_verify_second u)) (mr_parent_send_verify_second u)
    false 0 ;;
  nx_result_emit_return "child_mach_msg_receive_verify_first"
    (nx_msg_return_str (mr_child_receive_verify_first c))
    (mr_child_receive_verify_first c) false 0 ;;
  nx_result_emit_return "child_mach_msg_receive_verify_second"
    (nx_msg_return_str (mr_child_receive_verify_second c))
    (mr_child_receive_verify_second c) false 0 ;;
  nx_result_emit_return "child_mach_port_type_cargo_after_verify"
    (nx_kern_return_str (kr_child_cargo_type_after_verify c))
    (kr_child_cargo_type_after_verify c) false 0 ;;
  nx_result_emit_return "child_mach_port_deallocate_send_once_after_send"
    (nx_kern_return_str (kr_child_deallocate_send_once_after_send c))
    (kr_child_deallocate_send_once_after_send c) false 0 ;;
  nx_result_emit_return "parent_mach_port_deallocate_delivered_after_use"
    (nx_kern_return_str (kr_parent_deallocate_delivered (cleanup o)))
    (kr_parent_deallocate_delivered (cleanup o)) false 0 ;;
  emit_final_returns o (kr_child_destroy_cargo c) (kr_child_baseline_after c) ;;
  nx_json_end_array.

Definition emit_deltas (o : obs) : op nx_json_t :=
  let d := delivery_of o in
  let u := used d in
  let c := child (joined o) in
  nx_json_key "right_deltas" ;;
  nx_json_begin_array ;;
  nx_result_emit_right_delta "send-once descriptor child sender" "send_once_port"
    "MACH_PORT_RIGHT_SEND_ONCE"
    (refs_or_minus1_ll (kr_child_send_once_refs_before_send c)
       (child_send_once_refs_before_send c))
    (refs_or_minus1_ll (kr_child_send_once_refs_after_send c)
       (child_send_once_refs_after_send c))
    (-1) (-1) "consumed" ;;
  nx_result_emit_right_delta "send-once descriptor parent delivered"
    "delivered_send_once" (nx_port_type_str (s_type (delivered d))) (-1)
    (refs_or_minus1_ll (s_kr_refs (delivered d)) (s_refs (delivered d))) (-1) (-1)
    "usable send right" ;;
  nx_result_emit_right_delta "send-once descriptor parent after first use"
    "delivered_send_once" "MACH_PORT_RIGHT_SEND_ONCE"
    (refs_or_minus1_ll (s_kr_refs (delivered d)) (s_refs (delivered d)))
    (refs_or_minus1_ll (kr_parent_delivered_refs_after_first u)
       (parent_delivered_refs_after_first u))
    (-1) (-1) "consumed" ;;
  nx_json_end_array.

Definition emit_observations (o : obs) : op nx_json_t :=
  let d := delivery_of o in
  let u := used d in
  let c := child (joined o) in
  nx_json_key "observations" ;;
  nx_json_begin_object ;;
  emit_transport o ;;
  nx_json_key_string "send_once_create_api"
    "mach_port_extract_right(MACH_MSG_TYPE_MAKE_SEND_ONCE)" ;;
  nx_json_key_string "child_cargo_type_before_send_once_create"
    (nx_port_type_str (child_cargo_type_before_create c)) ;;
  nx_json_key_string "child_extract_acquired_type"
    (msg_type_name_str (child_extract_acquired_type c)) ;;
  nx_json_key_string "child_send_once_type_before_send"
    (nx_port_type_str (child_send_once_type_before_send c)) ;;
  nx_json_key_int "child_send_once_refs_before_send"
    (refs_or_minus1_ll (kr_child_send_once_refs_before_send c)
       (child_send_once_refs_before_send c)) ;;
  nx_json_key_string "child_send_once_type_after_send"
    (nx_port_type_str (child_send_once_type_after_send c)) ;;
  nx_json_key_int "child_send_once_refs_after_send"
    (refs_or_minus1_ll (kr_child_send_once_refs_after_send c)
       (child_send_once_refs_after_send c)) ;;
  nx_json_key_bool "child_send_once_right_consumed_after_send"
    (child_send_once_consumed_after_send o) ;;
  nx_json_key_string "sent_descriptor_disposition" "MACH_MSG_TYPE_MOVE_SEND_ONCE" ;;
  nx_json_key_string "sent_msgh_bits_raw_hex" (hex32 (child_sent_msgh_bits c)) ;;
  emit_received o "delivered_send_once" ;;
  nx_json_key_int "parent_delivered_send_once_refs"
    (refs_or_minus1_ll (s_kr_refs (delivered d)) (s_refs (delivered d))) ;;
  nx_json_key_bool "delivered_right_usable_once" (delivered_right_usable_once o) ;;
  nx_json_key_string "parent_delivered_type_after_first_use"
    (nx_port_type_str (parent_delivered_type_after_first u)) ;;
  nx_json_key_int "parent_delivered_send_once_refs_after_first_use"
    (refs_or_minus1_ll (kr_parent_delivered_refs_after_first u)
       (parent_delivered_refs_after_first u)) ;;
  nx_json_key_bool "parent_delivered_consumed_after_first_use"
    (parent_delivered_consumed_after_first o) ;;
  nx_json_key_string "verify_first_sent_msgh_bits_raw_hex"
    (hex32 (verify_first_sent_msgh_bits u)) ;;
  nx_json_key_string "verify_second_sent_msgh_bits_raw_hex"
    (hex32 (verify_second_sent_msgh_bits u)) ;;
  nx_json_key_string "parent_second_use_result"
    (nx_msg_return_str (mr_parent_send_verify_second u)) ;;
  nx_json_key_bool "parent_second_use_blocked" (second_use_blocked o) ;;
  nx_json_key_string "child_verify_first_receive_result"
    (nx_msg_return_str (mr_child_receive_verify_first c)) ;;
  nx_json_key_string "child_verify_first_msgh_bits_raw_hex"
    (hex32 (child_verify_first_msgh_bits c)) ;;
  nx_json_key_string "child_verify_first_remote_disposition"
    (disposition_str (child_verify_first_remote_disp c)) ;;
  nx_json_key_string "child_verify_first_local_disposition"
    (disposition_str (child_verify_first_local_disp c)) ;;
  nx_json_key_int "child_verify_first_msgh_size" (child_verify_first_msgh_size c) ;;
  nx_json_key_int "child_verify_first_msgh_id" (child_verify_first_msgh_id c) ;;
  nx_json_key_string "child_verify_second_receive_result"
    (nx_msg_return_str (mr_child_receive_verify_second c)) ;;
  nx_json_key_bool "child_received_second_verification"
    (mr_child_receive_verify_second c =? MACH_MSG_SUCCESS) ;;
  nx_json_key_string "child_verify_second_msgh_bits_raw_hex"
    (hex32 (child_verify_second_msgh_bits c)) ;;
  nx_json_key_int "child_verify_second_msgh_id" (child_verify_second_msgh_id c) ;;
  nx_json_key_string "child_cargo_type_after_verify"
    (nx_port_type_str (child_cargo_type_after_verify c)) ;;
  nx_json_key_string "child_deallocate_send_once_after_send"
    (nx_kern_return_str (kr_child_deallocate_send_once_after_send c)) ;;
  nx_json_key_string "parent_deallocate_delivered_after_use"
    (nx_kern_return_str (kr_parent_deallocate_delivered (cleanup o))) ;;
  nx_json_key_bool "child_cleanup_returned_to_baseline"
    (negb (child_cleanup_ok c =? 0)) ;;
  nx_json_key_int "child_cleanup_delta" (child_cleanup_delta c) ;;
  emit_baselines o ;;
  nx_json_end_object.

Definition report : obs → verdict → op nx_json_t :=
  document "macos_m2_send_once_descriptor" emit_message emit_returns emit_deltas
    emit_observations.

Definition main : nat → prog ending := Forked.main this verdict_of report.
End send_once.

Section facts.
Context `{Host} `{MachSdk}.

Lemma send_once_written o :
  env_file_ok →
  emits_result true "macos_m2_send_once_descriptor" (verdict_of o) (cleanup_ok o)
    (report o (verdict_of o)).
Proof.
  intros Henv. unfold report, document, emit_message, emit_returns, emit_deltas,
    emit_observations, Forked.emit_message, emit_setup_returns, emit_final_returns,
    emit_transport, emit_received, emit_baselines.
  report_tac.
Qed.

(** ** What the operations of the skeleton need *)

Context `{!SdkSizes}.

Lemma acquire_once_ledger h B :
  rwp (acquire_once h)
    (λ r l, l = add_sends (named true (or_port r)) (child_holds h KERN_FAILURE B))
    (child_holds h KERN_FAILURE B).
Proof.
  unfold acquire_once. repeat rwp_step.
  all: try (unfold child_holds, own_right; ledger_pre).
  all: cbn [or_port]; rewrite named_out_port; holdings.
Qed.

Lemma once_exchange_ledger h r l :
  rwp (once_exchange h r)
    (λ t l', l' = add_sends (came_with (ct_first t) (ct_first_msg t) ⊎
                             came_with (ct_second t) (ct_second_msg t)) l) l.
Proof.
  unfold once_exchange. repeat rwp_step.
  all: try ledger_pre.
  1,2: unfold sizeof_simple_recv_msg; size_tac.
  all: destruct l as [R X B]; unfold add_sends; cbn [rights sends regions ct_first
    ct_first_msg ct_second ct_second_msg no_talk]; try change (came_with MACH_RCV_INVALID_NAME
    zero_msg) with (∅ : gmultiset Z); cbn [account_carried account rights sends regions];
    f_equal; multiset_solver.
Qed.

(** The verification messages brought no rights. *)
Definition no_rights_came (t : talk) : Prop :=
  (ct_first t = MACH_MSG_SUCCESS → msgh_descriptor_count (ct_first_msg t) = 0) ∧
  (ct_second t = MACH_MSG_SUCCESS → msgh_descriptor_count (ct_second_msg t) = 0).

#[export, program] Instance send_once_safe : SafeForked this := {|
  own_insert _ := KERN_FAILURE;
  quiet := no_rights_came;
|}.
Next Obligation.
  intros h B. cbn [child_talk this]. unfold once_talk. apply wp_bind.
  eapply wp_mono; [apply acquire_once_ledger|]. intros r l ->. apply wp_bind.
  eapply wp_mono; [apply once_exchange_ledger|]. intros t l ->. apply wp_bind.
  change (negb (or_port r =? MACH_PORT_NULL))
    with (true && negb (or_port r =? MACH_PORT_NULL)).
  match goal with |- wp _ _ _ _ ?l =>
    replace l with (mk_ledger (rights (child_holds h KERN_FAILURE B))
      (named true (or_port r) ⊎ (sends (child_holds h KERN_FAILURE B) ⊎
        (came_with (ct_first t) (ct_first_msg t) ⊎
         came_with (ct_second t) (ct_second_msg t))))
      (regions (child_holds h KERN_FAILURE B)))
      by (unfold add_sends; cbn [rights sends regions]; f_equal; multiset_solver) end.
  apply rwp_give_named; [done|]. intros k. apply wp_ret. intros [Hq1 Hq2].
  cbn [ct_first ct_first_msg ct_second ct_second_msg with_deallocate] in Hq1, Hq2.
  rewrite !nothing_came by done. unfold child_holds. cbn [rights sends regions].
  f_equal. multiset_solver.
Qed.
Next Obligation.
  intros x port l. cbn [use_delivered this]. unfold use_once. by repeat rwp_step.
Qed.

(** C8: with every kernel whose answers meet the condition below, also one that refuses or
    breaks its documentation otherwise, the parent and the child use only memory they hold
    and names they were given and have not given back by a call: a right that a message took
    along is not subtracted, so the name of a send-once right may be used again after the
    right is spent, and is.  The parent gives back everything and writes one result
    document, whose verdict is the one for what it observed; the child gives back every
    name, that of the send-once right it extracted too.  The condition [fresh_position] on
    the answers: new ports get names the process does not already have, a name is delivered
    with a descriptor only, the message with the cargo has no more than the one descriptor
    there is room for, and the verification messages have none. *)
Theorem send_once_main_safe {W} `{Kernel W} fuel w :
  env_file_ok → fresh_position this (run (meet this fuel) w).1.2 →
  let p := (run (observe fuel) w).1 in
  (∃ e w' l, run_with (@account_carried) (main fuel) w no_holdings = Some (e, w', l) ∧
     ends_as verdict_of report p e l) ∧
  ∀ o, p = InParent o →
    emits_result true "macos_m2_send_once_descriptor" (verdict_of o) (cleanup_ok o)
      (report o (verdict_of o)).
Proof.
  intros Henv Hf p. split; [|intros o _; by apply send_once_written].
  exact (forked_main_safe this verdict_of report fuel w Hf).
Qed.

(** ** What the verdict says *)

Lemma send_once_bit t : port_type_has_send_once t = Z.testbit t 18.
Proof. exact (land_bit t 18 ltac:(done)). Qed.

(** There is no send-once right behind the name any more, as far as the two calls
    on it tell. *)
Definition spent (kr_type : kern_return_t) (type : mach_port_type_t)
    (kr_refs : kern_return_t) (refs : mach_port_urefs_t) : Prop :=
  (kr_type = KERN_SUCCESS → Z.testbit type 18 = false) ∧
  ((kr_refs = KERN_SUCCESS ∧ refs = 0) ∨ kr_refs = KERN_INVALID_RIGHT ∨
   kr_refs = KERN_INVALID_NAME).

Lemma consumed_spent kr_type type kr_refs refs :
  (negb (kr_type =? KERN_SUCCESS) || negb (port_type_has_send_once type)) &&
  send_once_refs_are_zero_or_absent kr_refs refs = true ↔
  spent kr_type type kr_refs refs.
Proof.
  unfold send_once_refs_are_zero_or_absent, spent. rewrite send_once_bit.
  rewrite andb_true_iff, !orb_true_iff, andb_true_iff, !negb_true_iff, Z.eqb_neq, !Z.eqb_eq.
  destruct (Z.testbit type 18); intuition congruence.
Qed.

(** ** The calls of a run that passed *)

(** The first message through the right, what the name denotes after it, the second message. *)
Definition once_used_as (x : seen) (port : mach_port_t) (u : use) (t : list event) : Prop :=
  mr_parent_send_verify_first u = MACH_MSG_SUCCESS →
  ∃ m m', t =
    [Ev (sending (simple_msg MACH_MSG_TYPE_MOVE_SEND_ONCE port OB23_VERIFY_MSG_ID) 5000)
       (MACH_MSG_SUCCESS, m);
     Ev (mach_port_type port) (kr_parent_delivered_type_after_first u, parent_delivered_type_after_first u);
     Ev (mach_port_get_refs port MACH_PORT_RIGHT_SEND_ONCE)
       (kr_parent_delivered_refs_after_first u, parent_delivered_refs_after_first u);
     Ev (sending (simple_msg MACH_MSG_TYPE_MOVE_SEND_ONCE port (OB23_VERIFY_MSG_ID + 1)) 500)
       (mr_parent_send_verify_second u, m')].

(** The name of the extracted right is given up, whatever it denotes by now. *)
Definition given_up (port : mach_port_t) (kr : kern_return_t) : list event :=
  if port =? MACH_PORT_NULL then [] else [Ev (mach_port_deallocate port) kr].

(** The child whose message was sent. *)
Definition once_talked_as (h : held) (k : talk) (t : list event) : Prop :=
  let r := ct_right k in
  let cargo := h_cargo_port h in
  ct_send k = MACH_MSG_SUCCESS →
  ∃ m extracted, or_port r = out_port (or_kr_extract r) extracted ∧ t =
    [Ev (mach_port_type cargo) (or_kr_cargo_type r, or_cargo_type r);
     Ev (mach_port_extract_right cargo MACH_MSG_TYPE_MAKE_SEND_ONCE)
       (or_kr_extract r, extracted, or_acquired r);
     Ev (mach_port_type (or_port r)) (or_kr_type r, or_type r);
     Ev (mach_port_get_refs (or_port r) MACH_PORT_RIGHT_SEND_ONCE) (or_kr_refs r, or_refs r);
     Ev (sending (descriptor_msg OB23_DESCRIPTOR_MSG_ID (h_service_port h) (or_port r)
                  MACH_MSG_TYPE_MOVE_SEND_ONCE) 5000) (MACH_MSG_SUCCESS, m);
     Ev (mach_port_type (or_port r)) (ct_kr_type_sent k, ct_type_sent k);
     Ev (mach_port_get_refs (or_port r) MACH_PORT_RIGHT_SEND_ONCE) (ct_kr_refs_sent k, ct_refs_sent k);
     Ev (receiving sizeof_simple_recv_msg cargo 5000) (ct_first k, ct_first_msg k);
     Ev (receiving sizeof_simple_recv_msg cargo 500) (ct_second k, ct_second_msg k);
     Ev (mach_port_type cargo) (ct_kr_cargo_type k, ct_cargo_type k)] ++
    given_up (or_port r) (ct_deallocate k).

Ltac plain_tac := repeat (apply (plain_app [_]); [by apply plain_one|]); by split.

#[export, program] Instance send_once_traced : TracedForked this := {|
  used_as := once_used_as;
  talked_as := once_talked_as;
|}.
Next Obligation.
  intros x port. cbn [use_delivered this]. unfold use_once, send_msg.
  repeat does_step; split; try plain_tac; unfold once_used_as; cbn; [|done].
  intros ->. by do 2 eexists.
Qed.
Next Obligation.
  intros h. cbn [child_talk this]. unfold once_talk, acquire_once, once_exchange, send_msg, receive_msg.
  repeat does_step; split; try plain_tac; unfold once_talked_as, given_up; cbn; try done.
  all: bool_facts; intros ->; try done; (do 2 eexists; split; [done|]).
  - by rewrite (proj2 (Z.eqb_neq _ _)).
  - by rewrite (proj2 (Z.eqb_eq _ _)).
Qed.

(** The parent of a probe that passed: what its calls were answered, in order. *)
Definition parent_calls (before after : nx_baseline_t) (service pid status : Z) (m : mach_msg_buf)
    (x : seen) (u : use) (kr_deallocate : kern_return_t) (t : list event) : Prop :=
  let port := desc_name (msg_cargo m) in
  ∃ tu, once_used_as x port u tu ∧
    [listed before; Ev (mach_port_allocate MACH_PORT_RIGHT_RECEIVE) (KERN_SUCCESS, service);
     Ev sys_fork pid; Ev (receiving sizeof_descriptor_recv_msg service 5000) (MACH_MSG_SUCCESS, m);
     Ev (mach_port_type port) (KERN_SUCCESS, s_type x);
     Ev (mach_port_get_refs port MACH_PORT_RIGHT_SEND_ONCE) (s_kr_refs x, s_refs x)] ++ tu ++
    [Ev (sys_waitpid pid) (pid, status); Ev (mach_port_deallocate port) kr_deallocate; listed after]
      `sublist_of` t.

Definition parent_passed (t : list event) : Prop :=
  ∃ before middle after service pid status m x u kr_deallocate,
    snapshots t = [before; middle; after] ∧ (nx_baseline_compare before after).1 = true ∧
    parent_calls before after service pid status m x u kr_deallocate t ∧
    0 < pid ∧ msgh_descriptor_count m = 1 ∧ desc_name (msg_cargo m) ≠ MACH_PORT_NULL ∧
    Z.testbit (s_type x) 18 = true ∧ (s_kr_refs x = KERN_SUCCESS → s_refs x = 1) ∧
    mr_parent_send_verify_first u = MACH_MSG_SUCCESS ∧
    spent (kr_parent_delivered_type_after_first u) (parent_delivered_type_after_first u)
      (kr_parent_delivered_refs_after_first u) (parent_delivered_refs_after_first u) ∧
    mr_parent_send_verify_second u ≠ MACH_MSG_SUCCESS.

(** What a status must say for a pass. *)
Definition good_report (t : list event) (c : ob23_child_status_t) : Prop :=
  c = overwrite initial_status (bytes_read t) ∧
  (size_of_status ≤ length (bytes_read t))%nat ∧ child_exit_code c = 0 ∧ child_cleanup_ok c ≠ 0 ∧
  child_cargo_type_before_create c = MACH_PORT_TYPE_RECEIVE ∧
  child_send_once_type_before_send c = MACH_PORT_TYPE_SEND_ONCE ∧
  spent (kr_child_send_once_type_after_send c) (child_send_once_type_after_send c)
    (kr_child_send_once_refs_after_send c) (child_send_once_refs_after_send c) ∧
  mr_child_receive_verify_first c = MACH_MSG_SUCCESS ∧
  child_verify_first_msgh_id c = OB23_VERIFY_MSG_ID ∧
  mr_child_receive_verify_second c = MACH_RCV_TIMED_OUT.

(** What follows for the report from the verdict's conditions. *)
Lemma ladder_facts o :
  Forall (λ e, e.1 = false) (ladder_of o) →
  let c := child (joined o) in
  let d := delivery_of o in
  exchange_done (setup_of o) d (joined o) ∧ child_status_read (joined o) = true ∧
  (parent_received_descriptor_count d = 1 ∧ delivered_port d ≠ MACH_PORT_NULL ∧
   s_kr_type (delivered d) = KERN_SUCCESS ∧ Z.testbit (s_type (delivered d)) 18 = true ∧
   (s_kr_refs (delivered d) = KERN_SUCCESS → s_refs (delivered d) = 1) ∧
   mr_parent_send_verify_first (used d) = MACH_MSG_SUCCESS ∧
   spent (kr_parent_delivered_type_after_first (used d)) (parent_delivered_type_after_first (used d))
     (kr_parent_delivered_refs_after_first (used d)) (parent_delivered_refs_after_first (used d)) ∧
   mr_parent_send_verify_second (used d) ≠ MACH_MSG_SUCCESS) ∧
  (compared (cleanup o)).1 = true ∧
  child_exit_code c = 0 ∧ child_cleanup_ok c ≠ 0 ∧
  child_cargo_type_before_create c = MACH_PORT_TYPE_RECEIVE ∧
  child_send_once_type_before_send c = MACH_PORT_TYPE_SEND_ONCE ∧
  spent (kr_child_send_once_type_after_send c) (child_send_once_type_after_send c)
    (kr_child_send_once_refs_after_send c) (child_send_once_refs_after_send c) ∧
  mr_child_receive_verify_first c = MACH_MSG_SUCCESS ∧
  child_verify_first_msgh_id c = OB23_VERIFY_MSG_ID ∧
  mr_child_receive_verify_second c = MACH_RCV_TIMED_OUT.
Proof.
  intros Hs c d. unfold ladder_of, setup_ladder, once_ladder, cleanup_ladder in Hs.
  cbn [app] in Hs. rewrite !Forall_cons_iff in Hs. cbn [fst] in Hs.
  unfold parent_received_descriptor, child_send_once_consumed_after_send,
    parent_delivered_consumed_after_first, child_cargo_receive_before_create,
    send_once_type_before_send, parent_delivered_send_once_right, parent_delivered_send_once_refs_ok,
    delivered_right_usable_once, second_use_blocked, child_second_receive_timed_out, child_clean,
    baseline_ok in Hs.
  rewrite !send_once_bit, !negb_false_iff, orb_true_iff, negb_true_iff, Z.eqb_neq, Z.eqb_eq in Hs.
  destruct_and! Hs. rewrite <- !consumed_spent. unfold exchange_done, c, d. bool_facts.
  repeat split; try congruence; try tauto; try by apply andb_true_intro.
  intros Hk. match goal with Hd : _ ∨ _ |- _ => destruct Hd as [Hd|Hd%Z.eqb_eq] end; tauto.
Qed.

Lemma once_run_passed o t :
  observed_in this o t → Forall (λ e, e.1 = false) (ladder_of o) →
  parent_passed t ∧ good_report t (child (joined o)).
Proof.
  intros ((b & Hsn) & Hcmp & (Hc & Hr) & Hl) (Hd & Hread & Hp & Hb & Hg)%ladder_facts.
  specialize (Hr Hread). split; [|exact (conj Hc (conj Hr Hg))].
  destruct Hp as (Hn & Hnull & Htype & Hp). destruct (Hl Hd Hnull) as (td & (m & tu & Hu & Hm & Hport & ->) & Hsub).
  destruct Hd as (Ha & Hpid & Hrecv & Hw).
  exists (before o), b, (after (cleanup o)), (service_port (setup_of o)), (child_pid (joined o)),
    (child_wait_status (joined o)), m, (delivered (delivery_of o)), (used (delivery_of o)),
    (kr_parent_deallocate_delivered (cleanup o)).
  split; [exact Hsn|]. split; [by rewrite <- Hcmp|].
  rewrite <- Hm, <- Hport. split; [|tauto].
  exists tu. rewrite <- Hport. split; [exact Hu|].
  unfold allocated, received_by, waited_for, deallocated in Hsub. by rewrite Hrecv, Htype in Hsub.
Qed.

(** A child that exits with 0, and what it reports. *)
Definition child_calls (before after : nx_baseline_t) (service cargo port : mach_port_t)
    (m mv m' : mach_msg_buf) (c : ob23_child_status_t) : list event :=
  [listed before; Ev (mach_port_allocate MACH_PORT_RIGHT_RECEIVE) (KERN_SUCCESS, cargo);
   Ev (mach_port_type cargo) (KERN_SUCCESS, child_cargo_type_before_create c);
   Ev (mach_port_extract_right cargo MACH_MSG_TYPE_MAKE_SEND_ONCE)
     (KERN_SUCCESS, port, child_extract_acquired_type c);
   Ev (mach_port_type port) (KERN_SUCCESS, child_send_once_type_before_send c);
   Ev (mach_port_get_refs port MACH_PORT_RIGHT_SEND_ONCE)
     (kr_child_send_once_refs_before_send c, child_send_once_refs_before_send c);
   Ev (sending (descriptor_msg OB23_DESCRIPTOR_MSG_ID service port MACH_MSG_TYPE_MOVE_SEND_ONCE) 5000)
     (MACH_MSG_SUCCESS, m);
   Ev (mach_port_type port) (kr_child_send_once_type_after_send c, child_send_once_type_after_send c);
   Ev (mach_port_get_refs port MACH_PORT_RIGHT_SEND_ONCE)
     (kr_child_send_once_refs_after_send c, child_send_once_refs_after_send c);
   Ev (receiving sizeof_simple_recv_msg cargo 5000) (MACH_MSG_SUCCESS, mv);
   Ev (receiving sizeof_simple_recv_msg cargo 500) (MACH_RCV_TIMED_OUT, m');
   Ev (mach_port_type cargo) (KERN_SUCCESS, child_cargo_type_after_verify c)] ++
  given_up port (kr_child_deallocate_send_once_after_send c) ++
  [Ev (mach_port_destroy cargo) KERN_SUCCESS; listed after].
Definition child_passed (c : ob23_child_status_t) (t : list event) : Prop :=
  ∃ first before after service cargo port m mv m',
    snapshots t = [first; before; after] ∧ (nx_baseline_compare before after).1 = true ∧
    child_calls before after service cargo port m mv m' c `sublist_of` t ∧
    child_verify_first_msgh_id c = msgh_id mv.

Lemma once_child_passed_log c t :
  child_observed_in this c t → child_exit_code c = 0 → child_passed c t.
Proof.
  intros (h & k & kr_destroy & after & tk & -> & Hk & Hs & Hl) He.
  cbn [child_status this] in He. unfold once_status in He. cbn [child_exit_code] in He.
  destruct (child_succeeded h k kr_destroy after) eqn:E; [|done]. unfold child_succeeded in E.
  bool_facts. destruct (Hk ltac:(done)) as (m & extracted & Hport & ->).
  exists (h_after h), (h_before h), after, (h_service_port h), (h_cargo_port h), (or_port (ct_right k)),
    m, (ct_first_msg k), (ct_second_msg k).
  split; [exact Hs|]; split; [done|]. specialize (Hl ltac:(done) ltac:(done)).
  unfold child_calls, once_status.
  cbn -[KERN_SUCCESS MACH_MSG_SUCCESS sizeof_simple_recv_msg nx_baseline_compare given_up app].
  unfold message_field. rewrite (proj2 (Z.eqb_eq (ct_first k) MACH_MSG_SUCCESS)) by done.
  split; [|done]. assert (extracted = or_port (ct_right k)) as -> 
    by (rewrite Hport; unfold out_port; by rewrite (proj2 (Z.eqb_eq (or_kr_extract _) KERN_SUCCESS))).
  cbn [app] in Hl |- *.
  repeat match goal with E : ?x = _ |- _ => try rewrite E in Hl; try rewrite E; clear E end.
  exact Hl.
Qed.

(** C9: the exit status 0 means what it says, in terms of what the calls of the run
    were answered.  The parent listed its names before and after, and the two lists of
    names and types agree; in between, in this order, it made a service port, forked a
    child, received on that port a message with one descriptor, saw one send-once
    right under the name in it, sent a message through that name, saw the right
    spent, failed to send a second message, saw the child end, and released the
    name.  What it read from the pipe is a whole status, which says that the child's
    calls succeeded, that the right it extracted was a send-once right that the send
    spent, and that it received the first message and no second one.  And a child whose
    status has the exit code 0 made these calls in its own run: the members of the status
    are the answers to its calls before and after the send, it received once and timed
    out once, and its two lists of names agree. *)
Theorem send_once_pass_sound {W} `{Kernel W} fuel w out w' :
  APPLE = true → run (main fuel) w = (Returned (Some out), w') → exit_status out = 0 →
  let t := trace (main fuel) w in
  parent_passed t ∧ good_report t (overwrite initial_status (bytes_read t)) ∧
  ∀ V (kernel : Kernel V) v, let c := (run (child_result this) v).1 in
    child_exit_code c = 0 → child_passed c (trace (child_result this) v).
Proof.
  intros Ha Hr He t.
  destruct (main_passed this verdict_of report ladder_of fuel w out w')
    as (o & Ho & Hl); try done; [exact once_initial_in_range|by intros o; unfold verdict_of; rewrite Ha|].
  destruct (once_run_passed o t Ho Hl) as [Hp Hg].
  pose proof (proj1 Hg) as Hc. rewrite <- Hc. do 2 (split; [assumption|]).
  intros V kernel v c. apply once_child_passed_log. exact (does_run _ _ v (does_child_result this Ha)).
Qed.
End facts.

(** ** The types of what the child reports *)

Definition right_typed (r : once_right) : Prop :=
  is_s32 (or_kr_cargo_type r) ∧ is_u32 (or_cargo_type r) ∧ is_s32 (or_kr_extract r) ∧
  is_u32 (or_acquired r) ∧ is_s32 (or_kr_type r) ∧ is_u32 (or_type r) ∧
  is_s32 (or_kr_refs r) ∧ is_u32 (or_refs r).

Record talk_typed (t : talk) : Prop := {
  typed_right : right_typed (ct_right t);
  typed_bits : is_u32 (ct_sent_bits t);
  typed_send : is_s32 (ct_send t);
  typed_sent : is_s32 (ct_kr_type_sent t) ∧ is_u32 (ct_type_sent t) ∧
    is_s32 (ct_kr_refs_sent t) ∧ is_u32 (ct_refs_sent t);
  typed_first : is_s32 (ct_first t) ∧ message_typed (ct_first_msg t);
  typed_second : is_s32 (ct_second t) ∧ message_typed (ct_second_msg t);
  typed_cargo : is_s32 (ct_kr_cargo_type t) ∧ is_u32 (ct_cargo_type t);
  typed_deallocate : is_s32 (ct_deallocate t);
}.

Section types.
Context `{Host} `{MachSdk} `{!SdkBits}.

Lemma twp_acquire_once h : twp (acquire_once h) right_typed.
Proof. unfold acquire_once. repeat twp_step; unfold right_typed; typed_tac. Qed.

Lemma twp_once_exchange h r : right_typed r → twp (once_exchange h r) talk_typed.
Proof.
  intros Hr. assert (is_u32 (Z.lor (MACH_MSGH_BITS MACH_MSG_TYPE_COPY_SEND 0)
    MACH_MSGH_BITS_COMPLEX)) as Hb by (apply bits_u32; left).
  unfold once_exchange, send_msg, receive_msg.
  repeat twp_step; split; unfold message_typed; typed_tac.
Qed.

Lemma twp_once_talk h : twp (once_talk h) talk_typed.
Proof.
  unfold once_talk. apply twp_bind.
  eapply twp_mono; [apply twp_acquire_once|]. intros r Hr. apply twp_bind.
  eapply twp_mono; [by apply twp_once_exchange|]. intros t []. repeat twp_step; split; try done.
Qed.

Lemma message_field_range (P : Z → Prop) mr m x :
  P 0 → P (x m) → P (message_field mr m x).
Proof. intros Hz Hx. unfold message_field. by destruct (_ =? _). Qed.

Lemma once_status_typed h t k after :
  held_typed h → talk_typed t → is_s32 k → baseline_typed after →
  status_in_range (once_status h t k after).
Proof.
  intros (Hb & ? & ?) [(? & ? & ? & ? & ? & ? & ? & ?) ? ? (? & ? & ? & ?) (? & Hm)
    (? & Hm') (? & ?) ?] ? Ha.
  pose proof (delta_range _ _ Hb Ha). destruct Hb, Ha.
  destruct Hm as (? & ? & ?), Hm' as (? & ? & ?).
  range_tac ltac:(try (apply message_field_range; [by vm_compute|])).
  all: first [by apply remote_u32 | by apply local_u32].
Qed.

(** When the answers of the kernel are of their C types and the task has fewer
    than 2^31 names, every member of the status the child reports is in the range
    of its type, so that the parent that reads all its bytes has the status the
    child had. *)
Theorem once_status_in_range {W} `{Kernel W} w :
  replies_ok (child_result this) w →
  let t := (run (child_result this) w).1 in
  in_range t ∧ overwrite initial_status (image t) = t.
Proof.
  apply (result_arrives this).
  apply (twp_child_result this talk_typed); [apply twp_once_talk|].
  intros. by apply once_status_typed.
Qed.
End types.

(** The two processes on the executable kernel. *)
Section witnesses.
#[local] Existing Instance macos.
#[local] Existing Instance macos_sdk.
#[local] Instance two_kernel : Kernel (world (process ob23_child_status_t use)) :=
  two_handle child_code.

Definition start_world : world (process ob23_child_status_t use) := first_world (observe 2).

Lemma send_once_main_safe_witness :
  env_file_ok ∧ fresh_position this (run (meet this 2) start_world).1.2 ∧
  (∃ e w' l, run_with (@account_carried) (main 2) start_world no_holdings = Some (e, w', l) ∧
     ends_as verdict_of report (run (observe 2) start_world).1 e l) ∧
  ∀ o, (run (observe 2) start_world).1 = InParent o →
    emits_result true "macos_m2_send_once_descriptor" (verdict_of o) (cleanup_ok o)
      (report o (verdict_of o)).
Proof.
  assert (fresh_position this
    (run (meet this 2) start_world).1.2) as Hf.
  { vm_compute. split; [discriminate|].
    split; [intros _; split; [reflexivity|discriminate]|discriminate]. }
  split; [exact no_env_file|]. split; [exact Hf|].
  exact (@send_once_main_safe _ _ macos_sizes _ _ 2 start_world no_env_file Hf).
Defined.

(** The child alone, whose messages nobody answers. *)
Lemma once_status_in_range_witness :
  replies_ok (child_result this) start_world ∧
  overwrite initial_status (image (run (child_result this) start_world).1) =
    (run (child_result this) start_world).1.
Proof.
  assert (replies_ok (child_result this) start_world) as Hr.
  { vm_compute. repeat split; discriminate. }
  split; [exact Hr|].
  exact (proj2 (@once_status_in_range _ _ macos_bits _ _ start_world Hr)).
Defined.

(** On the executable kernel with two tasks the probe returns 0. *)
Lemma send_once_pass_sound_witness :
  ∃ out w', run (main 2) start_world = (Returned (Some out), w') ∧ exit_status out = 0 ∧
    parent_passed (trace (main 2) start_world).
Proof.
  destruct (returned_zero_run (main 2) start_world) as (out & w' & E & He); [by vm_compute|].
  exists out, w'. split; [exact E|]. split; [exact He|].
  exact (proj1 (send_once_pass_sound 2 start_world out w' on_macos E He)).
Defined.
End witnesses.
End SendOnce.
