(* ===== verification/Dispatch.v ===== *)
(** Programs over libdispatch: threads that share memory, a library that runs
    functions on threads of its own, and a logic for the main thread.

    The library is not part of the repository.  A theorem holds for every library
    [L] that keeps the documented behaviour ([DispatchContract]): the documentation
    is a transition relation on [objects], and a library is related to it by a view
    of its states.  Nothing is assumed of the order in which functions are started
    or of how long anything takes. *)

From stdpp Require Import gmap gmultiset relations.
From S2P Require Import Prelude MachApi NxMachUtils Ledger.

Local Open Scope Z_scope.

Module Dispatch.

(** The headers that are there when a probe is compiled. *)
Class Headers := {
  has_dispatch_h : bool;
  has_mach_h : bool;
}.

(** ** Calls and threads *)

(** A point in time: never, or [dispatch_time(DISPATCH_TIME_NOW, ns)]. *)
Inductive dispatch_time_t := DISPATCH_TIME_FOREVER | from_now (ns : Z).

(** [F] are the functions of a program that it hands to the library, [X] the
    objects it passes to them as contexts, [M] the memory its threads share.
    Objects of the library are numbers; 0 is [NULL]. *)
Section calls.
Context (F X M : Type).

Inductive lib_call : Type → Type :=
  | pthread_create (x : X) (f : F) : lib_call (Z * Z)
  | pthread_join (t : Z) : lib_call Z
  | dispatch_queue_create (label : string) : lib_call Z
  | dispatch_get_global_queue : lib_call Z
  | dispatch_group_create : lib_call Z
  | dispatch_semaphore_create (value : Z) : lib_call Z
  | dispatch_async_f (q : Z) (x : X) (f : F) : lib_call unit
  | dispatch_group_async_f (g q : Z) (x : X) (f : F) : lib_call unit
  | dispatch_after_f (t : dispatch_time_t) (q : Z) (x : X) (f : F) : lib_call unit
  | dispatch_group_enter (g : Z) : lib_call unit
  | dispatch_group_leave (g : Z) : lib_call unit
  | dispatch_group_wait (g : Z) (t : dispatch_time_t) : lib_call Z
  | dispatch_semaphore_signal (s : Z) : lib_call unit
  | dispatch_semaphore_wait (s : Z) (t : dispatch_time_t) : lib_call Z
  | dispatch_source_create (port q : Z) : lib_call Z
  | dispatch_set_context (o : Z) (x : X) : lib_call unit
  | dispatch_source_set_event_handler_f (o : Z) (f : F) : lib_call unit
  | dispatch_source_set_event_handler (o : Z) (x : X) (f : F) : lib_call unit
  | dispatch_source_set_cancel_handler (o : Z) (x : X) (f : F) : lib_call unit
  | dispatch_cancel (o : Z) : lib_call unit
  | dispatch_resume (o : Z) : lib_call unit
  | dispatch_release (o : Z) : lib_call unit.

(** Other functions that are not in the repository. *)
Inductive extern : Type → Type :=
  | sysctlbyname (name : string) : extern (Z * Z)
  | task_threads : extern (kern_return_t * vm_array)
  | launch_data_new_string (s : string) : extern Z
  | launch_data_free (d : Z) : extern unit
  | launch_data_dict_lookup (d : Z) (key : string) : extern Z
  | launch_data_get_machport (d : Z) : extern mach_port_t
  | launch_msg (d : Z) : extern Z
  | asl_core_get_service_port (reset : Z) : extern mach_port_t
  | asl_server_message (port : mach_port_t) (a n : Z) : extern kern_return_t
  | asl_msg_release (msg : Z) : extern unit
  | usleep (us : Z) : extern Z
  | memcpy (dst : Z) (data : string) : extern unit.

(** What a thread does: a Mach call, an access to memory, which is undefined
    ([None]) for an object whose lifetime is over, a call of the library that has the
    threads, or another one. *)
Inductive action : Type → Type :=
  | Mach {R} (c : mach_call R) : action R
  | Mem {R} (f : M → option (R * M)) : action R
  | Lib {R} (c : lib_call R) : action R
  | Extern {R} (c : extern R) : action R.

Inductive thread (A : Type) : Type :=
  | Done (a : A)
  | Do {R : Type} (c : action R) (k : R → thread A).

(** A function the library is to run, and the group it belongs to. *)
Record job := mk_job { fn : F; ctx : X; member_of : option Z }.

(** What the documentation speaks of: the members of a group that are not done,
    the value of a semaphore, whether a thread has ended, the handler of a source, and
    whether it was resumed and what is to run when it is cancelled;
    and the jobs that were submitted and not yet started. *)
Inductive object :=
  | Queue
  | Group (n : nat)
  | Semaphore (v : nat)
  | Pthread (ended : bool)
  | Source (f : option F) (x : option X) (b : bool * option (F * X)).

Record objects := mk_objects { objs : gmap Z object; ready : list job }.
End calls.
Arguments pthread_create {F X} x f.
Arguments pthread_join {F X} t.
Arguments dispatch_queue_create {F X} label.
Arguments dispatch_get_global_queue {F X}.
Arguments dispatch_group_create {F X}.
Arguments dispatch_semaphore_create {F X} value.
Arguments dispatch_async_f {F X} q x f.
Arguments dispatch_group_async_f {F X} g q x f.
Arguments dispatch_after_f {F X} t q x f.
Arguments dispatch_group_enter {F X} g.
Arguments dispatch_group_leave {F X} g.
Arguments dispatch_group_wait {F X} g t.
Arguments dispatch_semaphore_signal {F X} s.
Arguments dispatch_semaphore_wait {F X} s t.
Arguments dispatch_source_create {F X} port q.
Arguments dispatch_set_context {F X} o x.
Arguments dispatch_source_set_event_handler_f {F X} o f.
Arguments dispatch_source_set_event_handler {F X} o x f.
Arguments dispatch_source_set_cancel_handler {F X} o x f.
Arguments dispatch_cancel {F X} o.
Arguments dispatch_resume {F X} o.
Arguments dispatch_release {F X} o.
Arguments Mach {F X M R} c.
Arguments Mem {F X M R} f.
Arguments Lib {F X M R} c.
Arguments Extern {F X M R} c.
Arguments Done {F X M A} a.
Arguments Do {F X M A R} c k.
Arguments mk_job {F X} fn ctx member_of.
Arguments fn {F X} _.
Arguments ctx {F X} _.
Arguments member_of {F X} _.
Arguments Queue {F X}.
Arguments Group {F X} n.
Arguments Semaphore {F X} v.
Arguments Pthread {F X} ended.
Arguments Source {F X} f x b.
Arguments mk_objects {F X} objs ready.
Arguments objs {F X} _.
Arguments ready {F X} _.

(** All of them fail. *)
Definition refuse {R} (c : extern R) : R :=
  match c in extern R return R with
  | sysctlbyname _ => (-1, 0)
  | task_threads => (KERN_FAILURE, null_array)
  | launch_data_new_string _ | launch_data_dict_lookup _ _ | launch_data_get_machport _
  | launch_msg _ | asl_core_get_service_port _ => 0
  | asl_server_message _ _ _ => KERN_FAILURE
  | usleep _ => -1
  | launch_data_free _ | asl_msg_release _ | memcpy _ _ => tt
  end.

#[export] Instance thread_ret F X M : MRet (thread F X M) := λ A, Done.
#[export] Instance thread_bind F X M : MBind (thread F X M) := λ A B f,
  fix go p := match p with Done a => f a | Do c k => Do c (λ r, go (k r)) end.

Definition act {F X M R} (c : action F X M R) : thread F X M R := Do c Done.
Definition lib {F X M R} (c : lib_call F X R) : thread F X M R := act (Lib c).
Definition mem {F X M R} (f : M → option (R * M)) : thread F X M R := act (Mem f).

(** A program that only makes Mach calls, as part of a thread. *)
Fixpoint lift {F X M A} (p : prog A) : thread F X M A :=
  match p with Ret a => Done a | Call c k => Do (Mach c) (λ r, lift (k r)) end.

(** [if (c) { ... }], as for programs. *)
Definition guarded {F X M A} (c : bool) (init : A) (p : thread F X M A) : thread F X M A :=
  if c then p else mret init.

(** Between the end of their observations and the comparison the probes call
    [nx_baseline_free] on the snapshot they are about to take: [garbage] is what the
    uninitialized variable holds. *)
Definition second_capture `{Host} (garbage : nx_baseline_t) : prog nx_baseline_t :=
  _ ← nx_baseline_free garbage;
  nx_baseline_capture.

(** The last statements of [main], after the result was written. *)
Definition closing `{Host} {F X M A} (before after : nx_baseline_t) (r : A) : thread F X M A :=
  _ ← lift (nx_baseline_free before);
  _ ← lift (nx_baseline_free after);
  mret r.

(** ** The documented behaviour *)

(** What may not be there to be had: a creation that may fail may return [NULL]. *)
Inductive creation := a_queue | a_group | a_semaphore | a_source.
Class Failures := may_fail : creation → bool.

Section documented.
Context {F X : Type} `{Failures}.
Abbreviation objects := (objects F X).
Abbreviation job := (job F X).

Definition set_obj (o : Z) (x : object F X) (s : objects) : objects :=
  mk_objects (<[o := x]> (objs s)) (ready s).
Definition submit (j : job) (s : objects) : objects :=
  mk_objects (objs s) (ready s ++ [j]).

(** A source that is cancelled starts nothing but its cancellation handler. *)
Definition at_cancel (c : option (F * X)) (s : objects) : objects :=
  match c with Some (f, x) => submit (mk_job f x None) s | None => s end.

(** A new object is one that was not there. *)
Definition creates (x : object F X) (s : objects) (o : Z) (s' : objects) : Prop :=
  o ≠ 0 ∧ objs s !! o = None ∧ s' = set_obj o x s.

Definition creates_or_null (k : creation) (x : object F X) (s : objects) (o : Z) (s' : objects) : Prop :=
  creates x s o s' ∨ may_fail k = true ∧ o = 0 ∧ s' = s.

Lemma creates_only k x s o s' :
  may_fail k = false → creates_or_null k x s o s' ↔ creates x s o s'.
Proof. intros Hk. unfold creates_or_null. rewrite Hk. intuition congruence. Qed.

(** What a caller must ensure. *)
Definition doc_pre {R} (c : lib_call F X R) (s : objects) : Prop :=
  match c with
  | pthread_create _ _ => True
  | pthread_join t => ∃ b, objs s !! t = Some (Pthread b)
  | dispatch_queue_create _ | dispatch_get_global_queue | dispatch_group_create => True
  | dispatch_semaphore_create v => 0 ≤ v
  | dispatch_async_f q _ _ | dispatch_after_f _ q _ _ => objs s !! q = Some Queue
  | dispatch_group_async_f g q _ _ =>
      objs s !! q = Some Queue ∧ ∃ n, objs s !! g = Some (Group n)
  | dispatch_group_enter g => ∃ n, objs s !! g = Some (Group n)
  | dispatch_group_leave g => ∃ n, objs s !! g = Some (Group (S n))
  | dispatch_group_wait g _ => ∃ n, objs s !! g = Some (Group n)
  | dispatch_semaphore_signal o | dispatch_semaphore_wait o _ =>
      ∃ v, objs s !! o = Some (Semaphore v)
  | dispatch_source_create _ q => q = 0 ∨ objs s !! q = Some Queue
  | dispatch_set_context o _ | dispatch_source_set_event_handler_f o _
  | dispatch_source_set_event_handler o _ _ | dispatch_source_set_cancel_handler o _ _
  | dispatch_cancel o | dispatch_resume o => ∃ f x b, objs s !! o = Some (Source f x b)
  | dispatch_release o => is_Some (objs s !! o)
  end.

Definition doc_call {R} (c : lib_call F X R) (s : objects) : R → objects → Prop :=
  match c in lib_call _ _ R return R → objects → Prop with
  | pthread_create x f => λ r s',
      r.1 ≠ 0 ∧ s' = s ∨
      r.1 = 0 ∧ ∃ s1, creates (Pthread false) s r.2 s1 ∧ s' = submit (mk_job f x (Some r.2)) s1
  | pthread_join t => λ error s', error = 0 ∧ objs s !! t = Some (Pthread true) ∧
      s' = mk_objects (delete t (objs s)) (ready s)
  | dispatch_queue_create _ => creates_or_null a_queue Queue s
  | dispatch_get_global_queue => λ q s', q ≠ 0 ∧ s' = set_obj q Queue s ∧
      (objs s !! q = None ∨ objs s !! q = Some Queue)
  | dispatch_group_create => creates_or_null a_group (Group 0) s
  | dispatch_semaphore_create v => creates_or_null a_semaphore (Semaphore (Z.to_nat v)) s
  | dispatch_async_f _ x f | dispatch_after_f _ _ x f => λ _ s',
      s' = submit (mk_job f x None) s
  | dispatch_group_async_f g _ x f => λ _ s', ∃ n,
      objs s !! g = Some (Group n) ∧
      s' = submit (mk_job f x (Some g)) (set_obj g (Group (S n)) s)
  | dispatch_group_enter g => λ _ s', ∃ n,
      objs s !! g = Some (Group n) ∧ s' = set_obj g (Group (S n)) s
  | dispatch_group_leave g => λ _ s', ∃ n,
      objs s !! g = Some (Group (S n)) ∧ s' = set_obj g (Group n) s
  | dispatch_group_wait g t => λ r s', s' = s ∧
      (r = 0 ∧ objs s !! g = Some (Group 0) ∨ r ≠ 0 ∧ t ≠ DISPATCH_TIME_FOREVER)
  | dispatch_semaphore_signal o => λ _ s', ∃ v,
      objs s !! o = Some (Semaphore v) ∧ s' = set_obj o (Semaphore (S v)) s
  | dispatch_semaphore_wait o t => λ r s',
      r = 0 ∧ (∃ v, objs s !! o = Some (Semaphore (S v)) ∧ s' = set_obj o (Semaphore v) s) ∨
      r ≠ 0 ∧ objs s !! o = Some (Semaphore 0) ∧ t ≠ DISPATCH_TIME_FOREVER ∧ s' = s
  | dispatch_source_create _ _ => creates_or_null a_source (Source None None (false, None)) s
  | dispatch_set_context o x => λ _ s', ∃ f y b,
      objs s !! o = Some (Source f y b) ∧ s' = set_obj o (Source f (Some x) b) s
  | dispatch_source_set_event_handler_f o f => λ _ s', ∃ g x b,
      objs s !! o = Some (Source g x b) ∧ s' = set_obj o (Source (Some f) x b) s
  | dispatch_source_set_event_handler o x f => λ _ s', ∃ g y b,
      objs s !! o = Some (Source g y b) ∧ s' = set_obj o (Source (Some f) (Some x) b) s
  | dispatch_source_set_cancel_handler o x f => λ _ s', ∃ g y b,
      objs s !! o = Some (Source g y b) ∧ s' = set_obj o (Source g y (b.1, Some (f, x))) s
  | dispatch_cancel o => λ _ s', ∃ f x b,
      objs s !! o = Some (Source f x b) ∧
      s' = at_cancel b.2 (set_obj o (Source f x (false, None)) s)
  | dispatch_resume o => λ _ s', ∃ f x b,
      objs s !! o = Some (Source f x b) ∧ s' = set_obj o (Source f x (true, b.2)) s
  | dispatch_release o => λ _ s', s' = mk_objects (delete o (objs s)) (ready s)
  end.

(** The library starts a submitted job, or the handler of a source that was
    resumed. *)
Definition doc_start (s : objects) (j : job) (s' : objects) : Prop :=
  (∃ l1 l2, ready s = l1 ++ j :: l2 ∧ s' = mk_objects (objs s) (l1 ++ l2)) ∨
  (∃ o f x c, objs s !! o = Some (Source (Some f) (Some x) (true, c)) ∧
     j = mk_job f x None ∧ s' = s).

(** A job of a group that has returned leaves the group, that of a thread ends it. *)
Definition after_job (j : job) (s : objects) : objects :=
  match member_of j with
  | Some g => match objs s !! g with
              | Some (Group n) => set_obj g (Group (pred n)) s
              | Some (Pthread _) => set_obj g (Pthread true) s
              | _ => s
              end
  | None => s
  end.
End documented.

(** ** Libraries *)

(** A library: what a call within its preconditions may answer, which jobs it
    starts, and what it does when one has returned. *)
Class Library (F X L : Type) := {
  lib_step : ∀ {R}, lib_call F X R → L → R → L → Prop;
  lib_start : L → job F X → L → Prop;
  lib_finish : L → job F X → L → Prop;
}.

(** The documentation, taken as a library. *)
#[export] Instance documented `{Failures} F X : Library F X (objects F X) := {|
  lib_step R c s r s' := doc_pre c s ∧ doc_call c s r s';
  lib_start := doc_start;
  lib_finish s j s' := s' = after_job j s;
|}.

(** The interface: a library that keeps the documented behaviour, and in which
    what the documentation says will happen can happen. *)
Class DispatchContract (F X L : Type) `{Library F X L} `{Failures} := {
  objects_of : L → objects F X;
  lib_healthy : L → Prop;
  contract_call : ∀ R (c : lib_call F X R) l r l', lib_healthy l →
    lib_step c l r l' →
    lib_step c (objects_of l) r (objects_of l') ∧ lib_healthy l';
  contract_start : ∀ l j l', lib_healthy l → lib_start l j l' →
    doc_start (objects_of l) j (objects_of l') ∧ lib_healthy l';
  contract_finish : ∀ l j l', lib_healthy l → lib_finish l j l' →
    objects_of l' = after_job j (objects_of l) ∧ lib_healthy l';
  live_call : ∀ R (c : lib_call F X R) l r s', lib_healthy l →
    lib_step c (objects_of l) r s' → ∃ r' l', lib_step c l r' l';
  live_start : ∀ l, lib_healthy l → ready (objects_of l) ≠ [] → ∃ j l', lib_start l j l';
  live_finish : ∀ l j, lib_healthy l → ∃ l', lib_finish l j l';
}.

(** ** Running *)

Section machine.
Context {F X M W : Type} `{Kernel W} `{Failures}.
(** The functions of the program. *)
Variable body : F → X → thread F X M unit.

(** Everything but the main thread: the jobs that run, the shared memory, the
    library and the kernel. *)
Record world (L : Type) := mk_world {
  running : list (job F X * thread F X M unit);
  memory : M;
  library : L;
  kernel : W;
}.
Arguments mk_world {L} running memory library kernel.
Arguments running {L} _.
Arguments memory {L} _.
Arguments library {L} _.
Arguments kernel {L} _.

Section steps.
Context {L : Type} `{Library F X L}.
Implicit Types w : world L.

Definition with_running (l : list (job F X * thread F X M unit)) w : world L :=
  mk_world l (memory w) (library w) (kernel w).

(** One action of a thread.  An undefined access to memory and a call of the
    library outside its preconditions have no step. *)
Definition acts {R} (c : action F X M R) (w : world L) : R → world L → Prop :=
  match c in action _ _ _ R return R → world L → Prop with
  | Mach c => λ r w', r = (handle c (kernel w)).1 ∧
      w' = mk_world (running w) (memory w) (library w) (handle c (kernel w)).2
  | Mem f => λ r w', ∃ m, f (memory w) = Some (r, m) ∧
      w' = mk_world (running w) m (library w) (kernel w)
  | Lib c => λ r w', ∃ l, lib_step c (library w) r l ∧
      w' = mk_world (running w) (memory w) l (kernel w)
  | Extern c => λ _ w', ∃ k, w' = mk_world (running w) (memory w) (library w) k
  end.

(** One step of a thread. *)
Definition moves {A} (p : thread F X M A) (w : world L) (p' : thread F X M A) (w' : world L) : Prop :=
  match p with
  | Done _ => False
  | Do c k => ∃ r, acts c w r w' ∧ p' = k r
  end.

Definition returned {A} (p : thread F X M A) : bool :=
  match p with Done _ => true | Do _ _ => false end.

(** What the jobs and the library do beside the main thread. *)
Inductive env_step w : world L → Prop :=
  | env_start j l' :
      lib_start (library w) j l' →
      env_step w (mk_world (running w ++ [(j, body (fn j) (ctx j))]) (memory w) l' (kernel w))
  | env_run l1 j p l2 p' w1 :
      running w = l1 ++ (j, p) :: l2 →
      moves p w p' w1 →
      env_step w (with_running (l1 ++ (j, p') :: l2) w1)
  | env_finish l1 j l2 l' :
      running w = l1 ++ (j, Done tt) :: l2 →
      lib_finish (library w) j l' →
      env_step w (mk_world (l1 ++ l2) (memory w) l' (kernel w)).

(** The process ends when the main thread returns. *)
Inductive step {A} : thread F X M A * world L → thread F X M A * world L → Prop :=
  | step_main p w p' w' : moves p w p' w' → step (p, w) (p', w')
  | step_env p w w' : returned p = false → env_step w w' → step (p, w) (p, w').
End steps.

(** ** What can go wrong *)

(** An action is defined: memory is alive, the preconditions hold. *)
Definition defined {R} (c : action F X M R) (w : world (objects F X)) : Prop :=
  match c with
  | Mem f => is_Some (f (memory w))
  | Lib c => doc_pre c (library w)
  | _ => True
  end.

Definition jobs_defined (w : world (objects F X)) : Prop :=
  Forall (λ x, match x.2 with Done _ => True | Do c _ => defined c w end) (running w).

(** Something beside the main thread can happen. *)
Definition env_ready (w : world (objects F X)) : Prop :=
  ready (library w) ≠ [] ∨
  Exists (λ x, match x.2 with
               | Done _ => True
               | Do c _ => ∃ r w', acts c w r w'
               end) (running w).

(** ** A logic for the main thread

    [cwp p Q w]: whatever the jobs do between the actions of [p], every action of
    [p] is defined, it is never blocked for ever, the other threads satisfy [ok]
    meanwhile, and [Q] holds when [p] returns. *)
Section logic.
Abbreviation state := (world (objects F X)).
Variable ok : state → Prop.

Fixpoint cwp {A} (p : thread F X M A) (Q : A → state → Prop) (w : state) : Prop :=
  match p with
  | Done a => Q a w
  | Do c k => ∀ w1, rtc env_step w w1 →
      ok w1 ∧ defined c w1 ∧ ((∃ r w2, acts c w1 r w2) ∨ env_ready w1) ∧
      ∀ r w2, acts c w1 r w2 → cwp (k r) Q w2
  end.

(** An assertion that the other threads preserve. *)
Definition stable (P : state → Prop) : Prop := ∀ w w', P w → env_step w w' → P w'.

Lemma stable_rtc (P : state → Prop) w w' : stable P → P w → rtc env_step w w' → P w'.
Proof. intros Hs Hp Hr. induction Hr; eauto. Qed.

Lemma cwp_env {A} (p : thread F X M A) (Q : A → state → Prop) w w' :
  returned p = false → cwp p Q w → env_step w w' → cwp p Q w'.
Proof. destruct p as [|R c k]; [done|]. intros _ Hp Hs w1 Hr. apply Hp. by econstructor. Qed.

Lemma cwp_moves {A} (p p' : thread F X M A) (Q : A → state → Prop) w w' :
  cwp p Q w → moves p w p' w' → cwp p' Q w'.
Proof.
  destruct p as [|R c k]; [done|]. intros Hp (r & Ha & ->).
  destruct (Hp w (rtc_refl _ _)) as (_ & _ & _ & Hk). exact (Hk r w' Ha).
Qed.

Lemma cwp_bind {A B} (f : A → thread F X M B) (p : thread F X M A) Q w :
  cwp p (λ a, cwp (f a) Q) w → cwp (p ≫= f) Q w.
Proof.
  revert w. induction p as [a|R c k IH]; intros w; [done|].
  intros Hp w1 Hr. destruct (Hp w1 Hr) as (Hok & Hd & Hl & Hk).
  split; [done|]. split; [done|]. split; [done|]. intros r w2 Ha. by apply IH, Hk.
Qed.

Lemma cwp_mono {A} (p : thread F X M A) (Q Q' : A → state → Prop) w :
  cwp p Q w → (∀ a w', Q a w' → Q' a w') → cwp p Q' w.
Proof.
  revert w. induction p as [a|R c k IH]; intros w Hp HQ; [by apply HQ|].
  intros w1 Hr. destruct (Hp w1 Hr) as (Hok & Hd & Hl & Hk).
  split; [done|]. split; [done|]. split; [done|]. intros r w2 Ha.
  exact (IH r w2 (Hk r w2 Ha) HQ).
Qed.

Lemma cwp_ret {A} (a : A) (Q : A → state → Prop) w : Q a w → cwp (mret a) Q w.
Proof. done. Qed.

Lemma cwp_guarded {A} (b : bool) (a : A) p (Q : A → state → Prop) w :
  (b = true → cwp p Q w) → (b = false → Q a w) → cwp (guarded b a p) Q w.
Proof. destruct b; simpl; auto. Qed.

(** The rule for an action: a stable assertion before it. *)
Lemma cwp_act {R} (c : action F X M R) (P : state → Prop) (Q : R → state → Prop) w :
  stable P → P w →
  (∀ w', P w' → ok w' ∧ defined c w' ∧ ((∃ r w2, acts c w' r w2) ∨ env_ready w') ∧
     ∀ r w2, acts c w' r w2 → Q r w2) →
  cwp (act c) Q w.
Proof. intros Hs Hp Hc w1 Hr. apply Hc. by eapply stable_rtc. Qed.

(** Mach calls and the system calls answer at once and do not concern the other
    threads, if the assertion is not about the kernel. *)
Definition unaware (P : state → Prop) : Prop :=
  ∀ w k, P w → P (mk_world (running w) (memory w) (library w) k).

Lemma cwp_lift {A} (p : prog A) (P : state → Prop) (Q : A → state → Prop) w :
  stable P → unaware P → (∀ w', P w' → ok w') → P w →
  (∀ a w', P w' → Q a w') → cwp (lift p) Q w.
Proof.
  intros Hs Hu Hok Hp HQ. revert w Hp. induction p as [a|R c k IH]; intros w Hp; simpl; [auto|].
  intros w1 Hr. assert (P w1) as Hp1 by by eapply stable_rtc. split; [auto|].
  split; [done|]. split; [left; eauto|]. intros r w2 [-> ->]. by apply IH, Hu.
Qed.

Definition no_sources (s : objects F X) : Prop :=
  ∀ o f x b, objs s !! o ≠ Some (Source f x b).
Lemma no_sources_set o x s :
  no_sources s → (∀ f y b, x ≠ Source f y b) → no_sources (set_obj o x s).
Proof.
  intros Hs Hx o' f y b. simpl. destruct (decide (o = o')) as [->|].
  - rewrite lookup_insert_eq. intros [= ->]. by eapply Hx.
  - rewrite lookup_insert_ne by done. apply Hs.
Qed.

Lemma no_sources_delete o s :
  no_sources s → no_sources (mk_objects (delete o (objs s)) (ready s)).
Proof.
  intros Hs o' f x b. simpl. intros [_ Hl]%lookup_delete_Some. by eapply Hs.
Qed.

(** The main thread runs alone: nothing is submitted, and what was started has
    returned.  The memory is [m], the library is in [s]. *)
Definition lone (s : objects F X) : Prop := ready s = [] ∧ no_sources s.
Definition idle (l : list (job F X * thread F X M unit)) : Prop :=
  Forall (λ x, x.2 = Done tt ∧ member_of x.1 = None) l.
Definition alone (m : M) (s : objects F X) (w : state) : Prop :=
  idle (running w) ∧ memory w = m ∧ library w = s.

Lemma no_start s j s' : lone s → ¬ doc_start s j s'.
Proof.
  intros [Hr Hs] [(l1 & l2 & E & _)|(o & f & x & c & Ho & _)]; [|by eapply Hs].
  rewrite Hr in E. by destruct l1.
Qed.

Lemma idle_moves l1 j p l2 w p' w' : idle (l1 ++ (j, p) :: l2) → ¬ moves p w p' w'.
Proof. intros [_ [[Hp _] _]%Forall_cons]%Forall_app. simpl in Hp. subst p. by intros []. Qed.

Lemma idle_finish l1 j p l2 :
  idle (l1 ++ (j, p) :: l2) → idle (l1 ++ l2) ∧ ∀ s : objects F X, after_job j s = s.
Proof.
  intros [G1 [[_ Hj] G2]%Forall_cons]%Forall_app. split; [by apply Forall_app|].
  intros s. unfold after_job. simpl in Hj. by rewrite Hj.
Qed.

Lemma alone_stable m s : lone s → stable (alone m s).
Proof.
  intros Hs w w' (Hi & Hm & Hl) Hst. subst s.
  destruct Hst as [j l' Hst|l1 j p l2 p' w1 E Hp|l1 j l2 l' E Hf].
  - by apply no_start in Hst.
  - rewrite E in Hi. by apply (idle_moves _ _ _ _ _ _ _ Hi) in Hp.
  - rewrite E in Hi. destruct (idle_finish _ _ _ _ Hi) as [Hi' Hj]. simpl in Hf. subst l'.
    split; [done|]. split; [done|]. apply Hj.
Qed.

(** One job runs, the others have returned. *)
Definition one (j : job F X) (t : thread F X M unit) (w : state) : Prop :=
  ∃ l1 l2, running w = l1 ++ (j, t) :: l2 ∧ idle (l1 ++ l2).

Lemma one_done j w : one j (Done tt) w → member_of j = None → idle (running w).
Proof.
  intros (l1 & l2 & -> & [G1 G2]%Forall_app) Hj. apply Forall_app. split; [done|].
  by constructor.
Qed.

(** Two ways to split a list at an element, of which one is not among the others. *)
Lemma split_idle l1 l2 l1' l2' j t x :
  l1 ++ (j, t) :: l2 = l1' ++ x :: l2' → idle (l1 ++ l2) →
  l1 = l1' ∧ (j, t) = x ∧ l2 = l2' ∨
  x.2 = Done tt ∧ member_of x.1 = None ∧
    ∃ k1 k2, l1' ++ l2' = k1 ++ (j, t) :: k2 ∧ idle (k1 ++ k2).
Proof.
  revert l1'. induction l1 as [|y l1 IH]; intros [|y' l1'] E Hi; simpl in *; simplify_eq.
  - by left.
  - right. apply Forall_app in Hi as [G1 [[G2 G3] G4]%Forall_cons].
    split; [done|]. split; [done|]. exists [], (l1' ++ l2'). split; [done|].
    change (idle (l1' ++ l2')). by apply Forall_app.
  - right. apply Forall_cons in Hi as [[G1 G2] G3]. split; [done|]. split; [done|].
    by exists l1, l2.
  - apply Forall_cons in Hi as [G1 G2]. destruct (IH l1' ltac:(congruence) G2)
      as [(-> & -> & ->)|(E1 & E2 & k1 & k2 & E3 & G3)]; [by left|].
    right. split; [done|]. split; [done|]. exists (y' :: k1), k2.
    split; [simpl; congruence|by constructor].
Qed.

(** What the other threads can do when none of them runs, *)
Lemma env_idle w w' :
  idle (running w) → no_sources (library w) → env_step w w' →
  idle (running w') ∧ memory w' = memory w ∧ library w' = library w ∨
  ∃ l1 j l2, ready (library w) = l1 ++ j :: l2 ∧ one j (body (fn j) (ctx j)) w' ∧
    memory w' = memory w ∧ library w' = mk_objects (objs (library w)) (l1 ++ l2).
Proof.
  intros Hi Hs [j l' Hst|l1 j p l2 p' w1 E Hp|l1 j l2 l' E Hf].
  - destruct Hst as [(l1 & l2 & E & E')|(o & f & x & c & Ho & _)]; [|by destruct (Hs _ _ _ _ Ho)].
    right. exists l1, j, l2. split; [done|]. split; [|done].
    exists (running w), []. by rewrite app_nil_r.
  - rewrite E in Hi. by apply (idle_moves _ _ _ _ _ _ _ Hi) in Hp.
  - rewrite E in Hi. destruct (idle_finish _ _ _ _ Hi) as [Hi' Hj]. simpl in Hf. subst l'.
    left. split; [done|]. split; [done|]. apply Hj.
Qed.

(** and when one of them does. *)
Lemma env_one j t w w' :
  one j t w → returned t = false → lone (library w) → env_step w w' →
  one j t w' ∧ memory w' = memory w ∧ library w' = library w ∨
  ∃ t' w1, moves t w t' w1 ∧ one j t' w' ∧ memory w' = memory w1 ∧ library w' = library w1.
Proof.
  intros (l1 & l2 & E & Hi) Ht Hs [j' l' Hst|l1' j' p l2' p' w1 E' Hp|l1' j' l2' l' E' Hf].
  - by apply no_start in Hst.
  - rewrite E in E'. destruct (split_idle _ _ _ _ _ _ _ E' Hi) as [(-> & [= -> ->] & ->)|(Hd & _)].
    + right. exists p', w1. split; [done|]. split; [|done]. by exists l1', l2'.
    + simpl in Hd. by subst p.
  - rewrite E in E'. destruct (split_idle _ _ _ _ _ _ _ E' Hi)
      as [(-> & [= -> ->] & ->)|(_ & Hm & k1 & k2 & E2 & Hi')]; [done|].
    left. split; [by exists k1, k2|]. split; [done|]. simpl in Hf, Hm |- *. subst l'.
    unfold after_job. by rewrite Hm.
Qed.

Section alone.
Hypothesis ok_alone : ∀ w, idle (running w) → ok w.

Lemma cwp_alone {R} (c : action F X M R) (Q : R → state → Prop) m s w :
  lone s → alone m s w → (∀ w', alone m s w' → defined c w' ∧ ∃ r w2, acts c w' r w2) →
  (∀ r w' w2, alone m s w' → acts c w' r w2 → Q r w2) → cwp (act c) Q w.
Proof.
  intros Hs Hw Hd HQ. apply (cwp_act _ (alone m s)); [by apply alone_stable|done|].
  intros w' Hw'. destruct (Hd w' Hw') as [Hd' Ha]. split; [by apply ok_alone, Hw'|].
  split; [done|]. split; [by left|]. intros r w2. by apply HQ.
Qed.

Lemma cwp_lift_alone {A} (p : prog A) (Q : A → state → Prop) m s w :
  lone s → alone m s w → (∀ a w', alone m s w' → Q a w') → cwp (lift p) Q w.
Proof.
  intros Hs Hw HQ. revert w Hw. induction p as [a|R c k IH]; intros w Hw; simpl; [auto|].
  apply (cwp_bind (λ r, lift (k r)) (act (Mach c))).
  apply (cwp_alone _ _ m s); [done|done|intros w' _; split; [done|eexists _, _; by split]|].
  intros r w1 w2 Hw1 [-> ->]. by apply IH.
Qed.

Lemma cwp_mem_alone {R} (f : M → option (R * M)) (Q : R → state → Prop) m s w r m' :
  lone s → alone m s w → f m = Some (r, m') → (∀ w', alone m' s w' → Q r w') →
  cwp (mem f) Q w.
Proof.
  intros Hs Hw Hf HQ. apply (cwp_alone _ _ m s); [done|done| |].
  - intros w1 (_ & Hm & _). simpl. rewrite Hm. split; [by exists (r, m')|]. by eexists r, _, m'.
  - intros r' w1 w2 (Hr & Hm & Hl) (m2 & Hf' & ->). rewrite Hm, Hf in Hf'.
    injection Hf' as <- <-. by apply HQ.
Qed.

Lemma cwp_lib_alone {R} (c : lib_call F X R) (Q : R → state → Prop) m s w :
  lone s → alone m s w → doc_pre c s → (∃ r s', doc_call c s r s') →
  (∀ r s' w', doc_call c s r s' → alone m s' w' → Q r w') → cwp (lib c) Q w.
Proof.
  intros Hs Hw Hp (r & s' & Hd) HQ. apply (cwp_alone _ _ m s); [done|done| |].
  - intros w1 (_ & _ & Hl). simpl. rewrite Hl. split; [done|]. by eexists r, _, s'.
  - intros r' w1 w2 (Hr & Hm & Hl) (s2 & [_ Hd'] & ->). rewrite Hl in Hd'.
    by apply (HQ _ _ _ Hd').
Qed.

(** Other functions answer anything. *)
Lemma cwp_extern_alone {R} (c : extern R) (Q : R → state → Prop) m s w (r0 : R) :
  lone s → alone m s w → (∀ r w', alone m s w' → Q r w') → cwp (act (Extern c)) Q w.
Proof.
  intros Hs Hw HQ. apply (cwp_alone _ _ m s); [done|done| |].
  - intros w1 _. split; [done|]. by eexists r0, _, (kernel w1).
  - intros r w1 w2 (H1 & H2 & H3) (k & ->). by apply HQ.
Qed.

Lemma cwp_closing `{Host} {A} (b1 b2 : nx_baseline_t) (r : A) (Q : A → state → Prop) m s w :
  lone s → alone m s w → (∀ w', Q r w') → cwp (closing b1 b2 r) Q w.
Proof.
  intros Hs Hw HQ. apply cwp_bind, (cwp_lift_alone _ _ m s); [done..|]. intros _ w1 Hw1.
  apply cwp_bind, (cwp_lift_alone _ _ m s); [done..|]. intros _ w2 Hw2. apply HQ.
Qed.
End alone.

(** An object that is not there yet. *)
Lemma some_fresh (s : objects F X) : ∃ o, o ≠ 0 ∧ objs s !! o = None.
Proof.
  pose proof (is_fresh ({[0]} ∪ dom (objs s))) as Hf.
  exists (fresh ({[0]} ∪ dom (objs s))). split; [set_solver|].
  apply not_elem_of_dom. set_solver.
Qed.

(** A creation can always go well. *)
Lemma some_created k x (s : objects F X) : ∃ o s', creates_or_null k x s o s'.
Proof. destruct (some_fresh s) as (o & Ho & Hn). exists o, (set_obj o x s). by left. Qed.
End logic.

(** ** From the documentation to a library *)

Section adequacy.
Context {L : Type} `{Library F X L} `{!DispatchContract F X L}.
Implicit Types w : world L.

Definition seen w : world (objects F X) :=
  mk_world (running w) (memory w) (objects_of (library w)) (kernel w).
Definition well w : Prop := lib_healthy (library w).

Lemma acts_seen {R} (c : action F X M R) w r w' :
  well w → acts c w r w' → acts c (seen w) r (seen w') ∧ well w'.
Proof.
  intros Hw Ha. destruct c; simpl in *.
  - by destruct Ha as [-> ->].
  - destruct Ha as (m & Hm & ->). split; [by exists m|done].
  - destruct Ha as (l & Hl & ->). destruct (contract_call _ _ _ _ _ Hw Hl) as [Hd Hh].
    split; [|done]. by exists (objects_of l).
  - destruct Ha as (k & ->). split; [by exists k|done].
Qed.

Lemma moves_seen {A} (p p' : thread F X M A) w w' :
  well w → moves p w p' w' → moves p (seen w) p' (seen w') ∧ well w'.
Proof.
  intros Hw. destruct p as [|R c k]; [done|]. intros (r & Ha & ->).
  destruct (acts_seen _ _ _ _ Hw Ha). split; [by exists r|done].
Qed.

Lemma env_seen w w' : well w → env_step w w' → env_step (seen w) (seen w') ∧ well w'.
Proof.
  intros Hw [j l' Hl|l1 j p l2 p' w1 Hr Ha|l1 j l2 l' Hr Hl].
  - destruct (contract_start _ _ _ Hw Hl) as [Hd Hh]. split; [|done].
    exact (env_start (seen w) j _ Hd).
  - destruct (moves_seen _ _ _ _ Hw Ha) as [Hd Hh]. split; [|done].
    exact (env_run (seen w) l1 j p l2 p' _ Hr Hd).
  - destruct (contract_finish _ _ _ Hw Hl) as [Hd Hh]. split; [|done].
    exact (env_finish (seen w) l1 j l2 _ Hr Hd).
Qed.

(** What can happen according to the documentation can happen. *)
Lemma acts_live {R} (c : action F X M R) w r (v : world (objects F X)) :
  well w → acts c (seen w) r v → ∃ r' w', acts c w r' w'.
Proof.
  intros Hw Ha. destruct c; simpl in *.
  - eexists _, _. by split.
  - destruct Ha as (m & Hm & _). exists r. eexists. by exists m.
  - destruct Ha as (l & Hl & _). destruct (live_call _ _ _ _ _ Hw Hl) as (r' & l' & Hl').
    exists r'. eexists. by exists l'.
  - exists r. eexists. by exists (kernel w).
Qed.

Lemma env_live w : well w → env_ready (seen w) → ∃ w', env_step w w'.
Proof.
  intros Hw [Hr|Hx].
  - destruct (live_start _ Hw Hr) as (j & l' & Hl). eexists. exact (env_start w j l' Hl).
  - apply Exists_exists in Hx as ([j p] & Hin & Hp).
    apply list_elem_of_split in Hin as (l1 & l2 & E). simpl in Hp, E. destruct p as [[]|R c k].
    + destruct (live_finish _ j Hw) as (l' & Hl). eexists. exact (env_finish w l1 j l2 l' E Hl).
    + destruct Hp as (r & w2 & Ha). destruct (acts_live _ _ _ _ Hw Ha) as (r' & w' & Ha').
      eexists. apply (env_run w l1 j _ l2 (k r') w' E). by exists r'.
Qed.

(** What the logic says holds in every run with the library. *)
Lemma cwp_run {A} ok (p p' : thread F X M A) Q w w' :
  well w → cwp ok p Q (seen w) → rtc step (p, w) (p', w') → cwp ok p' Q (seen w') ∧ well w'.
Proof.
  intros Hw Hp Hr. remember (p, w) as c eqn:E. remember (p', w') as c' eqn:E'.
  revert p w E E' Hw Hp. induction Hr as [c|c c1 c' Hs Hr IH]; intros p w -> E' Hw Hp.
  { by injection E' as -> ->. }
  inversion Hs as [q w0 q' w1 Ha E1|q w0 w1 He Hs' E1]; subst.
  - destruct (moves_seen _ _ _ _ Hw Ha) as [Ha' Hw'].
    by eapply IH; [..|eapply cwp_moves].
  - destruct (env_seen _ _ Hw Hs') as [He' Hw']. by eapply IH; [..|eapply cwp_env].
Qed.

(** The main thread is never stuck, and [ok] and the postcondition hold where
    they should. *)
Lemma cwp_adequate {A} ok (p p' : thread F X M A) Q w w' :
  well w → cwp ok p Q (seen w) → rtc step (p, w) (p', w') →
  match p' with
  | Done a => Q a (seen w')
  | Do c _ => ok (seen w') ∧ defined c (seen w') ∧ ∃ c', step (p', w') c'
  end.
Proof.
  intros Hw Hp Hr. destruct (cwp_run _ _ _ _ _ _ Hw Hp Hr) as [Hp' Hw'].
  destruct p' as [a|R c k]; [done|].
  destruct (Hp' _ (rtc_refl _ _)) as (Hok & Hd & Hl & _). split; [done|]. split; [done|].
  destruct Hl as [(r & w2 & Ha)|He].
  - destruct (acts_live _ _ _ _ Hw' Ha) as (r' & w3 & Ha'). eexists. apply step_main. by exists r'.
  - destruct (env_live _ Hw' He) as (w3 & He'). eexists. by apply step_env.
Qed.
End adequacy.

(** ** Runs end *)

Section bounds.
Context {L : Type} `{Library F X L} `{!DispatchContract F X L}.
Implicit Types w : world L.

(** Calls that submit a job, and the call after which handlers may run any number
    of times. *)
Definition spawns {R} (c : action F X M R) : bool :=
  match c with
  | Lib (pthread_create _ _) | Lib (dispatch_async_f _ _ _) | Lib (dispatch_group_async_f _ _ _ _)
  | Lib (dispatch_after_f _ _ _ _) | Lib (dispatch_cancel _) => true
  | _ => false
  end.
Definition sourceless {R} (c : action F X M R) : bool :=
  match c with Lib (dispatch_source_create _ _) => false | _ => true end.

(** At most [n] actions on every path, without sources, and with submissions only
    if [sub]. *)
Fixpoint bounded {A} (sub : bool) (n : nat) (p : thread F X M A) : Prop :=
  match p, n with
  | Done _, _ => True
  | Do _ _, O => False
  | Do c k, S n => sourceless c = true ∧ (spawns c = true → sub = true) ∧
                   ∀ r, bounded sub n (k r)
  end.

Lemma bounded_mono {A} sub n m (p : thread F X M A) :
  bounded sub n p → (n ≤ m)%nat → bounded sub m p.
Proof.
  revert n m. induction p as [a|R c k IH]; intros n m; [by destruct m|].
  destruct n as [|n]; [done|]. intros (G1 & G2 & G3) Hm. destruct m as [|m]; [lia|].
  split; [done|]. split; [done|]. intros r. apply (IH r n); [done|lia].
Qed.

Lemma bounded_bind {A B} sub n m (f : A → thread F X M B) (p : thread F X M A) :
  bounded sub n p → (∀ a, bounded sub m (f a)) → bounded sub (n + m) (p ≫= f).
Proof.
  revert n. induction p as [a|R c k IH]; intros n Hp Hf.
  - eapply bounded_mono; [apply Hf|lia].
  - destruct n as [|n]; [done|]. destruct Hp as (G1 & G2 & G3).
    split; [done|]. split; [done|]. intros r. by apply IH.
Qed.

Lemma bounded_act {R} (c : action F X M R) :
  sourceless c = true → bounded true 1 (act c).
Proof. intros. split; [done|]. by split. Qed.

(** A call submits at most one job. *)
Lemma call_submits {R} (c : lib_call F X R) (s : objects F X) r s' :
  sourceless (Lib c) = true → no_sources s → lib_step c s r s' →
  no_sources s' ∧
  (length (ready s') ≤ length (ready s) + if spawns (Lib c) then 1 else 0)%nat.
Proof.
  intros Hc Hs [_ Hd]. destruct c; try done; simpl in Hd; unfold creates_or_null, creates in Hd;
    repeat match goal with
    | H : _ ∧ _ |- _ => destruct H
    | H : ∃ _, _ |- _ => destruct H
    | H : _ ∨ _ |- _ => destruct H
    end; subst; try (exfalso; eapply Hs; eassumption); simpl; rewrite ?length_app; simpl;
    (split; [|lia]); repeat (apply no_sources_set; [|done]); try done;
    by apply no_sources_delete.
Qed.

Lemma acts_submits {R} (c : action F X M R) w r w' :
  well w → sourceless c = true → no_sources (objects_of (library w)) → acts c w r w' →
  well w' ∧ no_sources (objects_of (library w')) ∧ running w' = running w ∧
  (length (ready (objects_of (library w'))) ≤
   length (ready (objects_of (library w))) + if spawns c then 1 else 0)%nat.
Proof.
  intros Hw Hc Hs Ha. destruct c as [R c|R f|R c|R c]; simpl in Ha.
  - destruct Ha as [_ ->]. repeat split; try done. simpl. lia.
  - destruct Ha as (m & _ & ->). repeat split; try done. simpl. lia.
  - destruct Ha as (l & Hl & ->). destruct (contract_call _ _ _ _ _ Hw Hl) as [Hd Hh].
    destruct (call_submits c _ _ _ Hc Hs Hd). by repeat split.
  - destruct Ha as (k & ->). repeat split; try done. simpl. lia.
Qed.

(** What is left to do: the actions of the main thread, each of which may submit a
    job; the jobs, each of which is started, does [b] things and is finished; and
    what the running ones have left. *)
Definition potential {A} (b : nat) (p : thread F X M A) w (n : nat) : Prop :=
  ∃ m ts, bounded true m p ∧
    Forall2 (λ x t, bounded false t x.2) (running w) ts ∧
    no_sources (objects_of (library w)) ∧
    n = ((b + 3) * m + (b + 2) * length (ready (objects_of (library w))) +
         sum_list_with S ts)%nat.

Lemma after_job_ready (j : job F X) s :
  no_sources s → no_sources (after_job j s) ∧ ready (after_job j s) = ready s.
Proof.
  intros Hs. unfold after_job.
  repeat case_match; try done; (split; [|done]); by apply no_sources_set.
Qed.

Lemma env_potential {A} b (p : thread F X M A) w w' n :
  (∀ f x, bounded false b (body f x)) → well w → potential b p w n → env_step w w' →
  well w' ∧ ∃ n', (n' < n)%nat ∧ potential b p w' n'.
Proof.
  intros Hb Hw (m & ts & Hm & Hts & Hs & ->) [j l' Hl|l1 j p0 l2 p' w1 Hr Ha|l1 j l2 l' Hr Hl].
  - destruct (contract_start _ _ _ Hw Hl) as [Hd Hh]. split; [done|].
    destruct Hd as [(l1 & l2 & E & E')|(o & f & x & c & Ho & _)]; [|exfalso; exact (Hs _ _ _ _ Ho)].
    eexists. split.
    2: { exists m, (ts ++ [b]). split; [done|]. split; [apply Forall2_app; [done|constructor; [apply Hb|constructor]]|].
         split; [|reflexivity]. simpl. rewrite E'. apply Hs. }
    simpl. rewrite E, E', sum_list_with_app. simpl. rewrite !length_app. simpl. lia.
  - rewrite Hr in Hts. apply Forall2_app_inv_l in Hts as (t1 & t2 & G1 & G2 & ->).
    apply Forall2_cons_inv_l in G2 as (t & t2' & Ht & G2 & ->). simpl in Ht.
    destruct p0 as [|R c k]; [done|]. destruct Ha as (r & Ha & ->).
    destruct t as [|t]; [done|]. destruct Ht as (Hsl & Hsp & Hk).
    destruct (acts_submits _ _ _ _ Hw Hsl Hs Ha) as (Hw' & Hs' & _ & Hlen).
    rewrite (not_true_is_false (spawns c)) in Hlen by (intros E; discriminate (Hsp E)).
    split; [done|]. eexists. split.
    2: { exists m, (t1 ++ t :: t2'). split; [done|].
         split; [apply Forall2_app; [done|constructor; [apply Hk|done]]|]. by split. }
    rewrite !sum_list_with_app. simpl. nia.
  - rewrite Hr in Hts. apply Forall2_app_inv_l in Hts as (t1 & t2 & G1 & G2 & ->).
    apply Forall2_cons_inv_l in G2 as (t & t2' & Ht & G2 & ->).
    destruct (contract_finish _ _ _ Hw Hl) as [Hd Hh]. split; [done|].
    destruct (after_job_ready j _ Hs) as [Hs' Hrd]. eexists. split.
    2: { exists m, (t1 ++ t2'). split; [done|]. split; [by apply Forall2_app|].
         simpl. rewrite Hd. by split. }
    rewrite !sum_list_with_app, Hrd. simpl. lia.
Qed.

Lemma step_potential {A} b (p p' : thread F X M A) w w' n :
  (∀ f x, bounded false b (body f x)) → well w → potential b p w n → step (p, w) (p', w') →
  well w' ∧ ∃ n', (n' < n)%nat ∧ potential b p' w' n'.
Proof.
  intros Hb Hw Hp Hst. inversion Hst as [q w0 q' w1 Ha E1|q w0 w1 He Hs' E1]; subst.
  - destruct Hp as (m & ts & Hm & Hts & Hs & ->).
    destruct p as [|R c k]; [done|]. destruct Ha as (r & Ha & ->). destruct m as [|m]; [done|].
    destruct Hm as (Hsl & _ & Hk).
    destruct (acts_submits _ _ _ _ Hw Hsl Hs Ha) as (Hw' & Hs' & Hr & Hlen).
    split; [done|]. eexists. split.
    2: { exists m, ts. split; [done|]. split; [by rewrite Hr|]. by split. }
    revert Hlen. destruct (spawns c); intros; nia.
  - by eapply env_potential.
Qed.

Lemma potential_bounds {A} b (p : thread F X M A) w n c' k :
  (∀ f x, bounded false b (body f x)) → well w → potential b p w n →
  nsteps step k (p, w) c' → (k ≤ n)%nat.
Proof.
  intros Hb Hw Hp Hk. remember (p, w) as c eqn:E. revert p w n E Hw Hp.
  induction Hk as [c|k c [p1 w1] c' Hs Hk IH]; intros p w n -> Hw Hp; [lia|].
  destruct (step_potential _ _ _ _ _ _ Hb Hw Hp Hs) as (Hw' & n' & Hn & Hp').
  specialize (IH _ _ _ eq_refl Hw' Hp'). lia.
Qed.

(** A run from a state in which nothing runs yet. *)
Lemma run_length {A} b m (p : thread F X M A) w c' k :
  (∀ f x, bounded false b (body f x)) → bounded true m p → well w →
  running w = [] → objs (objects_of (library w)) = ∅ → ready (objects_of (library w)) = [] →
  nsteps step k (p, w) c' → (k ≤ (b + 3) * m)%nat.
Proof.
  intros Hb Hm Hw Hr Ho Hrd. apply potential_bounds with b; [done..|].
  exists m, []. split; [done|]. rewrite Hr, Hrd. split; [by constructor|].
  split; [intros o f x bb; by rewrite Ho|]. simpl. lia.
Qed.
End bounds.

(** ** Concrete runs *)

(** A library that can be executed: it starts jobs in the order in which they were
    submitted, or handlers, when it is told to. *)
Section reference.

Record ref_lib := mk_ref { ref_objects : objects F X }.

Definition next_object (s : objects F X) : Z :=
  1 + foldr Z.max 0 (map fst (map_to_list (objs s))).

Definition ref_create (x : object F X) (s : objects F X) : option (Z * objects F X) :=
  Some (next_object s, set_obj (next_object s) x s).

Definition ref_call {R} (c : lib_call F X R) (s : objects F X) : option (R * objects F X) :=
  match c in lib_call _ _ R return option (R * objects F X) with
  | pthread_create x f =>
      let t := next_object s in
      Some ((0, t), submit (mk_job f x (Some t)) (set_obj t (Pthread false) s))
  | pthread_join t =>
      match objs s !! t with
      | Some (Pthread true) => Some (0, mk_objects (delete t (objs s)) (ready s))
      | _ => None
      end
  | dispatch_queue_create _ | dispatch_get_global_queue => ref_create Queue s
  | dispatch_group_create => ref_create (Group 0) s
  | dispatch_semaphore_create v =>
      if 0 <=? v then ref_create (Semaphore (Z.to_nat v)) s else None
  | dispatch_async_f q x f | dispatch_after_f _ q x f =>
      match objs s !! q with
      | Some Queue => Some (tt, submit (mk_job f x None) s)
      | _ => None
      end
  | dispatch_group_async_f g q x f =>
      match objs s !! q, objs s !! g with
      | Some Queue, Some (Group n) =>
          Some (tt, submit (mk_job f x (Some g)) (set_obj g (Group (S n)) s))
      | _, _ => None
      end
  | dispatch_group_enter g =>
      match objs s !! g with Some (Group n) => Some (tt, set_obj g (Group (S n)) s) | _ => None end
  | dispatch_group_leave g =>
      match objs s !! g with Some (Group (S n)) => Some (tt, set_obj g (Group n) s) | _ => None end
  | dispatch_group_wait g t =>
      match objs s !! g, t with
      | Some (Group O), _ => Some (0, s)
      | Some (Group (S _)), from_now _ => Some (1, s)
      | _, _ => None
      end
  | dispatch_semaphore_signal o =>
      match objs s !! o with
      | Some (Semaphore v) => Some (tt, set_obj o (Semaphore (S v)) s)
      | _ => None
      end
  | dispatch_semaphore_wait o t =>
      match objs s !! o, t with
      | Some (Semaphore (S v)), _ => Some (0, set_obj o (Semaphore v) s)
      | Some (Semaphore O), from_now _ => Some (1, s)
      | _, _ => None
      end
  | dispatch_source_create _ q =>
      if q =? 0 then ref_create (Source None None (false, None)) s
      else match objs s !! q with
           | Some Queue => ref_create (Source None None (false, None)) s
           | _ => None
           end
  | dispatch_set_context o x =>
      match objs s !! o with
      | Some (Source f _ b) => Some (tt, set_obj o (Source f (Some x) b) s)
      | _ => None
      end
  | dispatch_source_set_event_handler_f o f =>
      match objs s !! o with
      | Some (Source _ x b) => Some (tt, set_obj o (Source (Some f) x b) s)
      | _ => None
      end
  | dispatch_resume o =>
      match objs s !! o with
      | Some (Source f x b) => Some (tt, set_obj o (Source f x (true, b.2)) s)
      | _ => None
      end
  | dispatch_source_set_event_handler o x f =>
      match objs s !! o with
      | Some (Source _ _ b) => Some (tt, set_obj o (Source (Some f) (Some x) b) s)
      | _ => None
      end
  | dispatch_source_set_cancel_handler o x f =>
      match objs s !! o with
      | Some (Source g y b) => Some (tt, set_obj o (Source g y (b.1, Some (f, x))) s)
      | _ => None
      end
  | dispatch_cancel o =>
      match objs s !! o with
      | Some (Source f x b) => Some (tt, at_cancel b.2 (set_obj o (Source f x (false, None)) s))
      | _ => None
      end
  | dispatch_release o =>
      match objs s !! o with
      | Some _ => Some (tt, mk_objects (delete o (objs s)) (ready s))
      | None => None
      end
  end.

Lemma next_object_above s o x : objs s !! o = Some x → o < next_object s.
Proof.
  intros Ho%elem_of_map_to_list. unfold next_object.
  enough (o ≤ foldr Z.max 0 (map fst (map_to_list (objs s)))) by lia.
  apply (list_elem_of_fmap_2 fst) in Ho. simpl in Ho. change (fst <$> ?l) with (map fst l) in Ho.
  induction (map fst (map_to_list (objs s))) as [|y l IH]; [by apply not_elem_of_nil in Ho|].
  simpl. apply elem_of_cons in Ho as [->|Ho]; [lia|]. specialize (IH Ho). lia.
Qed.

Lemma next_object_fresh s : next_object s ≠ 0 ∧ objs s !! next_object s = None.
Proof.
  split.
  - unfold next_object. enough (0 ≤ foldr Z.max 0 (map fst (map_to_list (objs s)))) by lia.
    induction (map fst (map_to_list (objs s))); simpl; lia.
  - apply eq_None_not_Some. intros [x Hx%next_object_above]. lia.
Qed.

#[export] Instance ref_library : Library F X ref_lib := {|
  lib_step R c l r l' := ref_call c (ref_objects l) = Some (r, ref_objects l');
  lib_start l j l' :=
    (∃ rest, ready (ref_objects l) = j :: rest ∧
       l' = mk_ref (mk_objects (objs (ref_objects l)) rest)) ∨
    (∃ o f x c, objs (ref_objects l) !! o = Some (Source (Some f) (Some x) (true, c)) ∧
       j = mk_job f x None ∧ l' = l);
  lib_finish l j l' := l' = mk_ref (after_job j (ref_objects l));
|}.

Lemma next_created k x s : creates_or_null k x s (next_object s) (set_obj (next_object s) x s).
Proof. left. by destruct (next_object_fresh s). Qed.

(** It does what the documentation says, and answers whenever it should. *)
Lemma ref_call_documented {R} (c : lib_call F X R) s r s' :
  ref_call c s = Some (r, s') → doc_pre c s ∧ doc_call c s r s'.
Proof.
  destruct (next_object_fresh s) as [Hn Hf].
  intros Hc. destruct c; unfold ref_call, ref_create in Hc; repeat case_match; simplify_eq;
    simpl; unfold is_Some; try (split; [eauto|first [by apply next_created|unfold creates; by eauto 10]]).
  all: first [lia | left; lia].
Qed.

Lemma ref_call_live {R} (c : lib_call F X R) s r s' :
  doc_pre c s → doc_call c s r s' → ∃ r' s2, ref_call c s = Some (r', s2).
Proof.
  intros Hp Hd. destruct c; simpl in Hp, Hd; unfold ref_call, ref_create;
    repeat match goal with
    | H : _ ∧ _ |- _ => destruct H
    | H : ∃ _, _ |- _ => destruct H
    | H : _ ∨ _ |- _ => destruct H
    | H : is_Some _ |- _ => destruct H
    end; simplify_eq;
    repeat match goal with
    | E : objs ?s !! ?o = _ |- context [objs ?s !! ?o] => rewrite E
    end; try by eauto.
  - replace (0 <=? value) with true by lia. eauto.
  - destruct x, t; try done; eauto.
  - destruct t; try done; eauto.
  - destruct (q =? 0); eauto.
Qed.

#[export] Instance ref_dispatch : DispatchContract F X ref_lib.
Proof.
  refine {| objects_of := ref_objects; lib_healthy _ := True |}.
  - intros R c l r l' _ Hc. split; [|done]. by apply ref_call_documented.
  - intros l j l' _ [(rest & Hr & ->)|(o & f & x & c & Ho & -> & ->)]; (split; [|done]).
    + left. exists [], rest. by rewrite Hr.
    + right. by exists o, f, x, c.
  - intros l j l' _ ->. done.
  - intros R c l r s' _ [Hp Hd]. destruct (ref_call_live c _ _ _ Hp Hd) as (r' & s2 & E).
    by exists r', (mk_ref s2).
  - intros l _ Hr. destruct (ready (ref_objects l)) as [|j rest] eqn:E; [done|].
    exists j. eexists. left. by exists rest.
  - intros l j _. by eexists.
Defined.

Lemma ref_healthy (l : ref_lib) : lib_healthy l.
Proof. exact I. Qed.

(** ** Schedules *)

Variable answers : ∀ R, extern R → R.

Inductive choice := Main | Start | Fire (o : Z) | Work (i : nat).

(** What the other functions answer is given. *)
Definition do_act {R} (c : action F X M R) (w : world ref_lib) : option (R * world ref_lib) :=
  match c in action _ _ _ R return option (R * world ref_lib) with
  | Mach c => let '(r, k) := handle c (kernel w) in
      Some (r, mk_world (running w) (memory w) (library w) k)
  | Mem f => '(r, m) ← f (memory w);
      Some (r, mk_world (running w) m (library w) (kernel w))
  | Lib c => '(r, s) ← ref_call c (ref_objects (library w));
      Some (r, mk_world (running w) (memory w) (mk_ref s) (kernel w))
  | Extern c => Some (answers _ c, w)
  end.

Definition start_job (j : job F X) (l : ref_lib) (w : world ref_lib) : world ref_lib :=
  mk_world (running w ++ [(j, body (fn j) (ctx j))]) (memory w) l (kernel w).

Definition choose_env (ch : choice) (w : world ref_lib) : option (world ref_lib) :=
  let s := ref_objects (library w) in
  match ch with
  | Main => None
  | Start =>
      match ready s with
      | j :: rest => Some (start_job j (mk_ref (mk_objects (objs s) rest)) w)
      | [] => None
      end
  | Fire o =>
      match objs s !! o with
      | Some (Source (Some f) (Some x) (true, _)) => Some (start_job (mk_job f x None) (library w) w)
      | _ => None
      end
  | Work i =>
      match running w !! i with
      | Some (j, Done _) =>
          Some (mk_world (take i (running w) ++ drop (S i) (running w)) (memory w)
                  (mk_ref (after_job j s)) (kernel w))
      | Some (j, Do c k) =>
          '(r, w1) ← do_act c w;
          Some (with_running (take i (running w) ++ (j, k r) :: drop (S i) (running w)) w1)
      | None => None
      end
  end.

Definition choose {A} (ch : choice) (c : thread F X M A * world ref_lib) :
    option (thread F X M A * world ref_lib) :=
  let '(p, w) := c in
  match p with
  | Done _ => None
  | Do a k =>
      match ch with
      | Main => '(r, w') ← do_act a w; Some (k r, w')
      | _ => w' ← choose_env ch w; Some (p, w')
      end
  end.

Fixpoint schedule {A} (chs : list choice) (c : thread F X M A * world ref_lib) :
    option (thread F X M A * world ref_lib) :=
  match chs with
  | [] => Some c
  | ch :: chs => c' ← choose ch c; schedule chs c'
  end.

Lemma do_act_acts {R} (c : action F X M R) w r w' :
  do_act c w = Some (r, w') → acts c w r w'.
Proof.
  destruct c as [R c|R f|R c|R c]; simpl; intros Hc.
  - destruct (handle c (kernel w)) as [r' k] eqn:E. by simplify_eq.
  - destruct (f (memory w)) as [[r' m]|] eqn:E; [|done]. simplify_eq/=. by exists m.
  - destruct (ref_call c _) as [[r' s]|] eqn:E; [|done]. simplify_eq/=. by exists (mk_ref s).
  - simplify_eq. exists (kernel w'). by destruct w'.
Qed.

Lemma choose_env_step ch w w' : choose_env ch w = Some w' → env_step w w'.
Proof.
  destruct ch as [| |o|i]; simpl; [done|..].
  - destruct (ready _) as [|j rest] eqn:E; [done|]. intros [= <-].
    apply (env_start w j). left. by exists rest.
  - destruct (_ !! o) as [[| | | |[f|] [x|] [[] c]]|] eqn:E; try done. intros [= <-].
    apply (env_start w (mk_job f x None)). right. by exists o, f, x, c.
  - destruct (running w !! i) as [[j p]|] eqn:E; [|done].
    pose proof (take_drop_middle _ _ _ E) as Hs. symmetry in Hs. destruct p as [[]|R c k].
    + intros [= <-]. by eapply (env_finish w _ j).
    + destruct (do_act c w) as [[r w1]|] eqn:Ea; [|done]. intros [= <-].
      eapply (env_run w); [exact Hs|]. exists r. split; [by apply do_act_acts|done].
Qed.

Lemma schedule_steps {A} chs (c c' : thread F X M A * world ref_lib) :
  schedule chs c = Some c' → rtc step c c'.
Proof.
  revert c. induction chs as [|ch chs IH]; intros [p w]; simpl; [by intros [= <-]|].
  destruct p as [a|R a k]; [done|]. destruct ch as [| |o|i].
  { destruct (do_act a w) as [[r w1]|] eqn:Ea; [|done]. simpl. intros Hs.
    eapply rtc_l; [|by apply IH]. apply step_main. exists r. split; [by apply do_act_acts|done]. }
  all: match goal with |- context [choose_env ?ch ?v] => destruct (choose_env ch v) as [w1|] eqn:Ea end;
    [|done]; simpl; intros Hs; (eapply rtc_l; [|by apply IH]);
    apply step_env; [done|by eapply choose_env_step].
Qed.

(** A job is about to access memory that is gone, or to signal a semaphore that is. *)
Definition undefined_now (w : world ref_lib) : bool :=
  existsb (λ x, match x.2 with
    | Do (Mem f) _ => match f (memory w) with Some _ => false | None => true end
    | Do (Lib (dispatch_semaphore_signal o)) _ =>
        match objs (ref_objects (library w)) !! o with Some (Semaphore _) => false | _ => true end
    | _ => false
    end) (running w).

Lemma undefined_now_sound w : undefined_now w = true → ¬ jobs_defined (seen w).
Proof.
  intros (x & Hx & Hu)%existsb_exists Hj. apply list_elem_of_In in Hx.
  eapply Forall_forall in Hj; [|exact Hx]. destruct (x.2) as [|R c k]; [done|].
  destruct c as [R c|R f|R c|R c]; simpl in *; try done.
  - destruct Hj as [y Hy]. by rewrite Hy in Hu.
  - destruct c; try done. destruct Hj as [v Hv]. by rewrite Hv in Hu.
Qed.

(** A schedule leads to such a state while the main thread goes on. *)
Definition reaches {A} (P : world ref_lib → bool) (c : option (thread F X M A * world ref_lib)) :
    bool :=
  match c with Some (p, w) => negb (returned p) && P w | None => false end.

Lemma reaches_steps {A} P chs (c : thread F X M A * world ref_lib) :
  reaches P (schedule chs c) = true →
  ∃ p w, rtc step c (p, w) ∧ returned p = false ∧ P w = true.
Proof.
  destruct (schedule chs c) as [[p w]|] eqn:E; simpl; [|done].
  intros [Hp%negb_true_iff Hu]%andb_prop. exists p, w. by split; [apply (schedule_steps chs)|].
Qed.

(** What is left of the main thread after a schedule. *)
Definition result_of {A} (c : option (thread F X M A * world ref_lib)) : option A :=
  match c with Some (Done a, _) => Some a | _ => None end.

Lemma result_steps {A} chs (c : thread F X M A * world ref_lib) a :
  result_of (schedule chs c) = Some a → ∃ w, rtc step c (Done a, w).
Proof.
  destruct (schedule chs c) as [[[b|] w]|] eqn:E; simpl; try done. intros [= <-].
  exists w. by apply (schedule_steps chs).
Qed.
End reference.
End machine.
Arguments mk_world {F X M W L} running memory library kernel.
Arguments running {F X M W L} _.
Arguments memory {F X M W L} _.
Arguments library {F X M W L} _.
Arguments kernel {F X M W L} _.
Arguments mk_ref {F X} ref_objects.
Arguments ref_objects {F X} _.
Arguments cwp_act {F X M W _ _ body ok R} c P Q w _ _ _.
Arguments cwp_bind {F X M W _ _ body ok A B} f p Q w _.
Arguments cwp_alone {F X M W _ _ body ok} ok_alone {R} c Q m s w _ _ _ _.
Arguments cwp_closing {F X M W _ _ body ok} ok_alone {_ A} b1 b2 r Q m s w _ _ _.
Arguments cwp_lift_alone {F X M W _ _ body ok} ok_alone {A} p Q m s w _ _ _.
Arguments cwp_mem_alone {F X M W _ _ body ok} ok_alone {R} f Q m s w r m' _ _ _ _.
Arguments cwp_lib_alone {F X M W _ _ body ok} ok_alone {R} c Q m s w _ _ _ _ _.
Arguments cwp_extern_alone {F X M W _ _ body ok} ok_alone {R} c Q m s w r0 _ _ _.
Arguments cwp_guarded {F X M W _ _ body ok A} b a p Q w _ _.

(** ** Bounds of the parts the probes share *)
Section parts.
Context {F X M : Type} `{Host}.

Lemma bounded_guarded {A} sub n (b : bool) (a : A) (p : thread F X M A) :
  bounded sub n p → bounded sub n (guarded b a p).
Proof. by destruct b; [|destruct n]. Qed.

Lemma bounded_capture : bounded true 1 (lift nx_baseline_capture : thread F X M _).
Proof.
  unfold nx_baseline_capture. destruct APPLE; [|done]. repeat split. by intros [[k ns] ts].
Qed.

Lemma bounded_free b : bounded true 2 (lift (nx_baseline_free b) : thread F X M _).
Proof.
  unfold nx_baseline_free. destruct APPLE; [|done].
  destruct (array_mapped (names b)), (array_mapped (types b)); by repeat split.
Qed.

Lemma bounded_second_capture garbage :
  bounded true 3 (lift (second_capture garbage) : thread F X M _).
Proof.
  unfold second_capture, nx_baseline_free, nx_baseline_capture. destruct APPLE; [|done].
  destruct (array_mapped (names garbage)), (array_mapped (types garbage)); repeat split;
    by intros [[k ns] ts].
Qed.

Lemma bounded_closing {A} b1 b2 (r : A) : bounded true 4 (closing b1 b2 r : thread F X M A).
Proof.
  apply (bounded_bind _ 2 2); [apply bounded_free|]. intros _.
  by apply (bounded_bind _ 2 0); [apply bounded_free|].
Qed.
End parts.

(** ** What the main thread holds

    The ledger of the Mach calls on a path of the main thread, whatever the kernel
    and the library answer.  [task_threads] hands out the array and a send right for
    every thread in it. *)
Section holdings.
Context {F X M : Type}.

Definition action_holds {R} (c : action F X M R) (s : ledger) : bool :=
  match c with Mach c => holds c s | _ => true end.

Definition action_account {R} (c : action F X M R) : R → ledger → ledger :=
  match c in action _ _ _ R return R → ledger → ledger with
  | Mach c => account c
  | Extern e =>
      match e in extern R return R → ledger → ledger with
      | task_threads => λ '(k, threads) s,
          if k =? KERN_SUCCESS then
            mk_ledger (rights s) (sends s ⊎ list_to_set_disj (elems threads))
              (regions s ⊎ region threads)
          else s
      | _ => λ _ s, s
      end
  | _ => λ _ s, s
  end.

Fixpoint holding {A} (p : thread F X M A) (Q : A → ledger → Prop) (s : ledger) : Prop :=
  match p with
  | Done a => Q a s
  | Do c k => action_holds c s = true ∧ ∀ r, holding (k r) Q (action_account c r s)
  end.

Lemma holding_bind_iff {A B} (f : A → thread F X M B) (p : thread F X M A) Q s :
  holding (p ≫= f) Q s ↔ holding p (λ a, holding (f a) Q) s.
Proof.
  revert s. induction p as [a|R c k IH]; intros s; [done|].
  split; intros [Hc Hk]; (split; [done|]); intros r; by apply IH, Hk.
Qed.

Lemma holding_bind {A B} (f : A → thread F X M B) (p : thread F X M A) Q s :
  holding p (λ a, holding (f a) Q) s → holding (p ≫= f) Q s.
Proof. apply holding_bind_iff. Qed.

Lemma holding_bind_inv {A B} (f : A → thread F X M B) (p : thread F X M A) Q s :
  holding (p ≫= f) Q s → holding p (λ a, holding (f a) Q) s.
Proof. apply holding_bind_iff. Qed.

Lemma holding_act {R} (c : action F X M R) (Q : R → ledger → Prop) s :
  action_holds c s = true → (∀ r, Q r (action_account c r s)) → holding (act c) Q s.
Proof. by split. Qed.

Lemma holding_act_inv {R} (c : action F X M R) (Q : R → ledger → Prop) s r :
  holding (act c) Q s → Q r (action_account c r s).
Proof. intros [_ Hk]. exact (Hk r). Qed.

Lemma holding_mono {A} (p : thread F X M A) (Q Q' : A → ledger → Prop) s :
  holding p Q s → (∀ a s', Q a s' → Q' a s') → holding p Q' s.
Proof.
  revert s. induction p as [a|R c k IH]; intros s Hp HQ; [by apply HQ|].
  destruct Hp as [Hc Hk]. split; [done|]. intros r. by eapply IH.
Qed.

Lemma holding_lift {A} (p : prog A) (Q : A → ledger → Prop) s :
  holding (lift p) Q s ↔ lwp p Q s.
Proof.
  revert s. induction p as [a|R c k IH]; intros s; [done|]. split; intros [Hc Hk]; (split; [done|]).
  - intros r s' ->. by apply IH, Hk.
  - intros r. by apply IH, Hk.
Qed.

Lemma holding_guarded {A} (b : bool) (a : A) (p : thread F X M A) Q s :
  (b = true → holding p Q s) → (b = false → Q a s) → holding (guarded b a p) Q s.
Proof. destruct b; simpl; auto. Qed.

(** [if (o != NULL) dispatch_release(o);] *)
Lemma holding_release (b : bool) o (Q : unit → ledger → Prop) s :
  Q tt s → holding (guarded b tt (lib (dispatch_release o) : thread F X M unit)) Q s.
Proof. intros HQ. apply holding_guarded; intros _; [|done]. split; [done|]. by intros []. Qed.

Lemma release_path (b : bool) o (Q : unit → ledger → Prop) s :
  holding (guarded b tt (lib (dispatch_release o) : thread F X M unit)) Q s → Q tt s.
Proof. destruct b; [|done]. intros [_ Hk]. exact (Hk tt). Qed.

(** Along any run of the machine. *)
Lemma holding_moves {W L A} `{Kernel W} `{Library F X L} (p p' : thread F X M A) Q s
    (w w' : world L) :
  holding p Q s → moves p w p' w' → ∃ s', holding p' Q s'.
Proof. destruct p as [|R c k]; [done|]. intros [_ Hk] (r & _ & ->). eauto. Qed.

(** The call of [nx_baseline_free] on the uninitialized variable: harmless when
    what it holds looks like no arrays. *)
Definition unmapped (b : nx_baseline_t) : bool :=
  negb (array_mapped (names b)) && negb (array_mapped (types b)).

Lemma lwp_second_capture `{Host} garbage (Q : nx_baseline_t → ledger → Prop) s :
  (APPLE = true → unmapped garbage = true) →
  (∀ b, captured b → Q b (add_regions (baseline_regions b) s)) →
  lwp (second_capture garbage) Q s.
Proof.
  intros Hg HQ. unfold second_capture. apply wp_bind. unfold nx_baseline_free.
  destruct APPLE eqn:Ea; [|apply wp_ret; by apply lwp_capture].
  apply andb_prop in Hg as [E1%negb_true_iff E2%negb_true_iff]; [|done].
  rewrite E1, E2. simpl. by apply lwp_capture.
Qed.

(** Otherwise memory is given back that the program does not hold. *)
Lemma second_capture_unmapped `{Host} garbage (Q : nx_baseline_t → ledger → Prop) s :
  APPLE = true → regions s = ∅ → lwp (second_capture garbage) Q s → unmapped garbage = true.
Proof.
  intros Ha Hs. unfold second_capture, nx_baseline_free, unmapped. rewrite Ha.
  assert (∀ a n s, regions s = ∅ → holds (vm_deallocate a n) s = true → False) as Hno.
  { intros a n s' E Hh%bool_decide_eq_true. rewrite E in Hh. multiset_solver. }
  destruct (array_mapped (names garbage)); simpl; [intros [Hc _]; exfalso; by eapply Hno|].
  destruct (array_mapped (types garbage)); simpl; [intros [Hc _]; exfalso; by eapply Hno|done].
Qed.
Lemma lwp_free_unmapped `{Host} b (Q : nx_baseline_t → ledger → Prop) s :
  (APPLE = true → unmapped b = true) → Q zero_baseline s → lwp (nx_baseline_free b) Q s.
Proof.
  intros Hu HQ. unfold nx_baseline_free. destruct APPLE; [|done].
  apply andb_prop in Hu as [E1%negb_true_iff E2%negb_true_iff]; [|done].
  by rewrite E1, E2.
Qed.

(** The path on which the snapshots fail. *)
Lemma lwp_capture_fails `{Host} (Q : nx_baseline_t → ledger → Prop) s :
  APPLE = true → lwp nx_baseline_capture Q s →
  ∃ b s', Q b s' ∧ sends s' = sends s ∧ regions s' = regions s ∧ unmapped b = true.
Proof.
  unfold nx_baseline_capture. intros -> [_ Hk].
  specialize (Hk (KERN_FAILURE, null_array, null_array) _ eq_refl). simpl in Hk.
  do 2 eexists. split; [exact Hk|]. simpl. split; [done|]. split; [|done].
  unfold region. simpl. by rewrite !(right_id_L ∅ (⊎)).
Qed.

Lemma lwp_free_path `{Host} b (Q : nx_baseline_t → ledger → Prop) s :
  unmapped b = true → lwp (nx_baseline_free b) Q s → Q zero_baseline s.
Proof.
  intros [E1%negb_true_iff E2%negb_true_iff]%andb_prop. unfold nx_baseline_free.
  destruct APPLE; [|done]. by rewrite E1, E2.
Qed.

Lemma lwp_second_capture_fails `{Host} garbage (Q : nx_baseline_t → ledger → Prop) s :
  APPLE = true → unmapped garbage = true → lwp (second_capture garbage) Q s →
  ∃ b s', Q b s' ∧ sends s' = sends s ∧ regions s' = regions s ∧ unmapped b = true.
Proof.
  intros Ha [E1%negb_true_iff E2%negb_true_iff]%andb_prop.
  unfold second_capture, nx_baseline_free. rewrite Ha, E1, E2. by apply lwp_capture_fails.
Qed.

(** The end of [main]: [taken] tells whether [after] was captured or never set. *)
Lemma holding_closing `{Host} {A} b1 b2 (r : A) (taken : bool) (Q : A → ledger → Prop) s :
  captured b1 → (if taken then captured b2 else APPLE = true → unmapped b2 = true) →
  regions s = baseline_regions b1 ⊎ (if taken then baseline_regions b2 else ∅) →
  Q r (mk_ledger (rights s) (sends s) ∅) →
  holding (closing b1 b2 r) Q s.
Proof.
  intros H1 H2 Hs HQ. apply holding_bind, holding_lift.
  eapply (lwp_free _ _ _ (if taken then baseline_regions b2 else ∅));
    [done|rewrite Hs; multiset_solver|].
  apply holding_bind, holding_lift. destruct taken.
  - eapply (lwp_free _ _ _ ∅); [done|simpl; multiset_solver|done].
  - by apply lwp_free_unmapped.
Qed.

Lemma closing_path `{Host} {A} b1 b2 (r : A) (Q : A → ledger → Prop) s :
  unmapped b1 = true → unmapped b2 = true → holding (closing b1 b2 r) Q s → Q r s.
Proof.
  intros H1 H2 Hh. apply holding_bind_inv, holding_lift, lwp_free_path in Hh; [|done].
  by apply holding_bind_inv, holding_lift, lwp_free_path in Hh.
Qed.
End holdings.
End Dispatch.
