(* ===== verification/DispatchGlobalQueue.v ===== *)
(** [macos-validation/probes/dispatch/dispatch_global_queue_service.c]: 64 blocks on
    the global concurrent queue all run before the wait for their group returns. *)

From stdpp Require Import gmap gmultiset relations.
From S2P Require Import Prelude Json NxJson JsonText Builder MachApi NxMachUtils Ledger.
From S2P Require Import MachContract NxResult Probe RefKernel Dispatch.

Local Open Scope oracle_scope.
Local Open Scope Z_scope.

Module DispatchGlobalQueue.
Import Dispatch.Dispatch.

Definition DGQS_N : nat := 64.

(** The function and the object that are handed to the library: [counter] is a
    variable of [main], alive until the process ends.  It is all the threads share. *)
Inductive func : Set := dgqs_work_f.
Inductive var : Set := counter.
Abbreviation thread := (thread func var Z).

(** [atomic_fetch_add_explicit(c, 1, memory_order_relaxed)] *)
Definition dgqs_work (c : var) : thread unit :=
  mem (λ n, Some (tt, s32 (n + 1))).

Definition body (f : func) (c : var) : thread unit :=
  match f with dgqs_work_f => dgqs_work c end.

Definition read_kern_twq_threads_created : thread Z :=
  '(rc, val) ← act (Extern (sysctlbyname "kern.twq.threads_created"));
  mret (if negb (rc =? 0) then -1 else val).

Definition sizeof_thread_act_t : Z := 4.

Definition current_thread_count : thread Z :=
  '(kr, threads) ← act (Extern task_threads);
  if negb (kr =? KERN_SUCCESS) then mret (-1)
  else
    let count := Z.of_nat (length (elems threads)) in
    _ ← lift (MachApi.guarded (array_mapped threads) 0
          (call (vm_deallocate (addr threads) (count * sizeof_thread_act_t))));
    mret count.

(** [for (int i = 0; i < DGQS_N; i++)] *)
Fixpoint dispatch_blocks (n : nat) (grp gq : Z) : thread unit :=
  match n with
  | O => mret tt
  | S n =>
      _ ← lib (dispatch_group_async_f grp gq counter dgqs_work_f);
      dispatch_blocks n grp gq
  end.

Section dispatch_global_queue.
Context `{Host} `{Headers}.

(** [NX_HAVE_DISPATCH] *)
Definition NX_HAVE_DISPATCH : bool := has_dispatch_h.

Record obs := mk_obs {
  before : nx_baseline_t;
  after : nx_baseline_t;
  completed : Z;
  wait_kr : Z;
  threads_before : Z;
  threads_after : Z;
  twq_before : Z;
  twq_after : Z;
  elapsed_ns : Z;
}.

Definition u64 (z : Z) : Z := z `mod` 2 ^ 64.

Definition elapsed (t0 t1 : Z) (tbi : Z * Z) : Z :=
  if negb (tbi.2 =? 0) then u64 (u64 (t1 - t0) * tbi.1) `div` tbi.2 else 0.

(** The parts under [#ifdef __APPLE__]. *)
Definition clock_before : thread (Z * (Z * Z) * Z) :=
  guarded APPLE (-1, (0, 0), 0) (
    threads_before ← current_thread_count;
    '(_, tbi) ← lift (call mach_timebase_info);
    t0 ← lift (call mach_absolute_time);
    mret (threads_before, tbi, t0)).

Definition clock_after (t0 : Z) (tbi : Z * Z) : thread (Z * Z) :=
  guarded APPLE (-1, 0) (
    t1 ← lift (call mach_absolute_time);
    threads_after ← current_thread_count;
    mret (threads_after, elapsed t0 t1 tbi)).

(** The group, the result of the wait and the counter. *)
Definition run_blocks : thread (Z * Z * Z) :=
  gq ← lib dispatch_get_global_queue;
  grp ← lib dispatch_group_create;
  _ ← dispatch_blocks DGQS_N grp gq;
  wait_kr ← lib (dispatch_group_wait grp DISPATCH_TIME_FOREVER);
  completed ← mem (λ n, Some (n, n));
  mret (grp, wait_kr, completed).

(** The part under [#if NX_HAVE_DISPATCH]. *)
Definition service (garbage before : nx_baseline_t) : thread obs :=
  _ ← mem (λ _, Some (tt, 0));
  twq_before ← read_kern_twq_threads_created;
  '(threads_before, tbi, t0) ← clock_before;
  '(grp, wait_kr, completed) ← run_blocks;
  twq_after ← read_kern_twq_threads_created;
  '(threads_after, elapsed_ns) ← clock_after t0 tbi;
  _ ← guarded (negb (grp =? 0)) tt (lib (dispatch_release grp));
  after ← lift (second_capture garbage);
  mret (mk_obs before after completed wait_kr threads_before threads_after
          twq_before twq_after elapsed_ns).

(** [garbage] is the uninitialized [after]. *)
Definition observe (garbage : nx_baseline_t) : thread obs :=
  before ← lift nx_baseline_capture;
  if NX_HAVE_DISPATCH then service garbage before
  else mret (mk_obs before garbage (-1) (-1) (-1) (-1) (-1) (-1) 0).

(** [x_after - x_before], when both were read. *)
Definition delta (before after : Z) : Z :=
  if (0 <=? before) && (0 <=? after) then after - before else -1.

Definition ladder_of (o : obs) : list (bool * verdict) :=
  [(negb (wait_kr o =? 0),
     fail_contract "dispatch_group_wait did not return 0 (all-complete) within FOREVER");
   (negb (completed o =? Z.of_nat DGQS_N),
     fail_contract "not all dispatched blocks completed (counter != N)")].

Definition verdict_of (o : obs) : verdict :=
  if NX_HAVE_DISPATCH then ladder (ladder_of o)
  else skip "host without libdispatch: global-queue servicing not available".

Definition cleanup_ok (o : obs) : bool :=
  if NX_HAVE_DISPATCH then (nx_baseline_compare (before o) (after o)).1 else true.
Definition cleanup_delta (o : obs) : Z :=
  if NX_HAVE_DISPATCH then (nx_baseline_compare (before o) (after o)).2 else 0.
Definition cleanup_notes (o : obs) : string :=
  if NX_HAVE_DISPATCH then
    (if cleanup_ok o then ""
     else "libdispatch leaves internal Mach ports (delta captured, non-gating)")
  else "not applicable on this host".

Definition emit_returns (o : obs) : op nx_json_t :=
  nx_json_key "returns" ;;
  nx_json_begin_array ;;
  nx_result_emit_return "mach_port_names_before"
    (nx_kern_return_str (kr (before o))) (kr (before o)) false 0 ;;
  nx_result_emit_return "dispatch_group_wait"
    (if wait_kr o =? 0 then "0=all_complete" else if wait_kr o <? 0 then "n/a" else "nonzero")
    (wait_kr o) false 0 ;;
  nx_result_emit_return "mach_port_names_after"
    (nx_kern_return_str (kr (after o))) (kr (after o)) false 0 ;;
  nx_json_end_array.

Definition emit_observations (o : obs) : op nx_json_t :=
  nx_json_key "observations" ;;
  nx_json_begin_object ;;
  nx_json_key_int "dispatched_block_count" (Z.of_nat DGQS_N) ;;
  nx_json_key_bool "dispatch_available" NX_HAVE_DISPATCH ;;
  nx_json_key_bool "all_blocks_completed" (completed o =? Z.of_nat DGQS_N) ;;
  nx_json_key_int "completed_block_count" (completed o) ;;
  nx_json_key_int "threads_before" (threads_before o) ;;
  nx_json_key_int "threads_after" (threads_after o) ;;
  nx_json_key_int "threads_delta" (delta (threads_before o) (threads_after o)) ;;
  nx_json_key_uint "elapsed_ns" (elapsed_ns o) ;;
  nx_json_key_string "kwq_signal_note"
    ("kern.twq.threads_created is rmxOS-specific (absent on macOS); " +:+
     "threads_delta is the macOS kernel-workqueue analog") ;;
  (when 0 <=? twq_before o do
     (nx_json_key_int "kern_twq_threads_created_before" (twq_before o) ;;
      nx_json_key_int "kern_twq_threads_created_after" (twq_after o) ;;
      nx_json_key_int "kern_twq_threads_created_delta"
        (delta (twq_before o) (twq_after o)))) ;;
  nx_json_key_int "names_before" (count_or_minus1 (before o)) ;;
  nx_json_key_int "names_after" (count_or_minus1 (after o)) ;;
  nx_json_key_int "cleanup_delta" (cleanup_delta o) ;;
  nx_json_end_object.

Definition report (o : obs) (v : verdict) : op nx_json_t :=
  nx_json_begin_object ;;
  nx_result_emit_header agent_name "macos_dispatch_global_queue_service" NULL NULL
    (status v) (sclass v) ;;
  nx_env_emit ;;
  nx_result_emit_empty_message ;;
  emit_returns o ;;
  nx_json_key "right_deltas" ;;
  nx_json_begin_array ;;
  nx_json_end_array ;;
  emit_observations o ;;
  nx_result_emit_cleanup (cleanup_ok o) (cleanup_notes o) ;;
  nx_json_key_string "notes" (notes v) ;;
  nx_json_end_object.

Definition main (garbage : nx_baseline_t) : thread (option outcome) :=
  o ← observe garbage;
  let v := verdict_of o in
  closing (before o) (after o) (finish (report o v) v).
End dispatch_global_queue.

Section facts.
Context `{Host} `{Headers}.

Lemma dispatch_global_queue_written o :
  env_file_ok →
  emits_result true "macos_dispatch_global_queue_service" (verdict_of o) (cleanup_ok o)
    (report o (verdict_of o)).
Proof.
  intros Henv. unfold report, emit_returns, emit_observations. report_tac.
Qed.

(** *** What the main thread holds *)

Lemma holding_thread_count (Q : Z → ledger → Prop) s :
  (∀ n X, Q n (mk_ledger (rights s) (sends s ⊎ X) (regions s))) →
  holding current_thread_count Q s.
Proof.
  intros HQ. unfold current_thread_count. apply holding_bind. split; [done|].
  intros [k ths]. cbn [holding act action_account]. destruct (k =? KERN_SUCCESS); cbn [negb].
  - apply holding_bind, holding_lift. apply (lwp_free_array (@account) ths _ (regions s)); [done|].
    intros _. apply HQ.
  - specialize (HQ (-1) ∅). rewrite (right_id_L ∅ (⊎)) in HQ. by destruct s.
Qed.

Lemma holding_twq (Q : Z → ledger → Prop) s :
  (∀ n, Q n s) → holding read_kern_twq_threads_created Q s.
Proof. intros HQ. split; [done|]. intros [rc val]. apply HQ. Qed.

Lemma holding_blocks n grp gq (Q : unit → ledger → Prop) s :
  Q tt s → holding (dispatch_blocks n grp gq) Q s.
Proof.
  intros HQ. induction n as [|n IH]; simpl; [done|]. split; [done|]. by intros [].
Qed.

(** The parts change neither receive rights nor memory. *)
Definition same_memory (s s' : ledger) : Prop := rights s' = rights s ∧ regions s' = regions s.

Lemma holding_clock_before (Q : Z * (Z * Z) * Z → ledger → Prop) s :
  (∀ r s', same_memory s s' → Q r s') → holding clock_before Q s.
Proof.
  intros HQ. apply holding_guarded; intros _; [|by apply HQ].
  apply holding_bind, holding_thread_count. intros n X.
  apply holding_bind, holding_lift, wp_call; [done|]. intros [k tbi] s' ->.
  apply holding_bind, holding_lift, wp_call; [done|]. intros t0 s' ->.
  by apply (HQ (n, tbi, t0)).
Qed.

Lemma holding_clock_after t0 tbi (Q : Z * Z → ledger → Prop) s :
  (∀ r s', same_memory s s' → Q r s') → holding (clock_after t0 tbi) Q s.
Proof.
  intros HQ. apply holding_guarded; intros _; [|by apply HQ].
  apply holding_bind, holding_lift, wp_call; [done|]. intros t1 s' ->.
  apply holding_bind, holding_thread_count. intros n X.
  by apply (HQ (n, elapsed t0 t1 tbi)).
Qed.

Lemma holding_run_blocks (Q : Z * Z * Z → ledger → Prop) s :
  (∀ r, Q r s) → holding run_blocks Q s.
Proof.
  intros HQ. apply holding_bind, holding_act; [done|]. intros gq.
  apply holding_bind, holding_act; [done|]. intros grp.
  apply holding_bind, holding_blocks, holding_bind, holding_act; [done|]. intros wk.
  apply holding_bind, holding_act; [done|]. intros n. apply (HQ (grp, wk, n)).
Qed.

(** The two snapshots are held, and whatever [task_threads] gave. *)
Lemma dgqs_observe_holds garbage :
  (APPLE = true → unmapped garbage = true) →
  holding (observe garbage) (λ o s, rights s = ∅ ∧
    regions s = baseline_regions (before o) ⊎
      (if NX_HAVE_DISPATCH then baseline_regions (after o) else ∅) ∧
    captured (before o) ∧
    if NX_HAVE_DISPATCH then captured (after o) else after o = garbage) no_holdings.
Proof.
  intros Hg. unfold observe. apply holding_bind, holding_lift, lwp_capture; [apply _|].
  intros b Hb. unfold add_regions. simpl. rewrite (left_id_L ∅ (⊎)). destruct NX_HAVE_DISPATCH.
  2:{ simpl. by rewrite (right_id_L ∅ (⊎)). }
  unfold service. apply holding_bind, holding_act; [done|]. intros [].
  apply holding_bind, holding_twq. intros tq.
  apply holding_bind, holding_clock_before. intros [[tb tbi] t0] s1 [Hr1 Hg1].
  apply holding_bind, holding_run_blocks. intros [[grp wk] n].
  apply holding_bind, holding_twq. intros tq'.
  apply holding_bind, holding_clock_after. intros [ta el] s2 [Hr2 Hg2].
  apply holding_bind, holding_release, holding_bind, holding_lift, lwp_second_capture; [done|].
  intros b' Hb'. simpl. by rewrite Hr2, Hg2, Hr1, Hg1.
Qed.

Lemma dgqs_main_holds garbage :
  (APPLE = true → unmapped garbage = true) →
  holding (main garbage) (λ r s, rights s = ∅ ∧ regions s = ∅ ∧
    ∃ o, r = finish (report o (verdict_of o)) (verdict_of o)) no_holdings.
Proof.
  intros Hg. apply holding_bind.
  apply (holding_mono _ _ _ _ (dgqs_observe_holds garbage Hg)). intros o s (Hr & Hs & Hb & Ha).
  apply (holding_closing _ _ _ NX_HAVE_DISPATCH); [done| |done|by eauto].
  destruct NX_HAVE_DISPATCH; [done|by rewrite Ha].
Qed.

(** A path on which the snapshots fail and [task_threads] gives [threads] both times. *)
Lemma thread_count_path threads (Q : Z → ledger → Prop) s :
  addr threads = 0 → holding current_thread_count Q s →
  ∃ n s', Q n s' ∧ regions s' = regions s ∧
    sends s' = sends s ⊎ list_to_set_disj (elems threads).
Proof.
  intros Ha Hh. apply holding_bind_inv in Hh.
  apply (holding_act_inv _ _ _ (KERN_SUCCESS, threads)) in Hh. cbn in Hh.
  unfold array_mapped in Hh. rewrite Ha in Hh. do 2 eexists. split; [exact Hh|].
  simpl. unfold region, array_mapped. rewrite Ha. simpl. by rewrite (right_id_L ∅ (⊎)).
Qed.

Lemma blocks_path n grp gq (Q : unit → ledger → Prop) s :
  holding (dispatch_blocks n grp gq) Q s → Q tt s.
Proof.
  induction n as [|n IH]; [done|]. intros Hh%holding_bind_inv. apply IH.
  exact (holding_act_inv _ _ _ tt Hh).
Qed.

Lemma clock_before_path threads (Q : Z * (Z * Z) * Z → ledger → Prop) s :
  APPLE = true → addr threads = 0 → holding clock_before Q s →
  ∃ n s', Q n s' ∧ regions s' = regions s ∧
    sends s' = sends s ⊎ list_to_set_disj (elems threads).
Proof.
  intros Ha Ht. unfold clock_before. rewrite Ha. cbn [guarded]. intros Hh.
  apply holding_bind_inv, (thread_count_path threads) in Hh as (n & s2 & Hh & Hg & Hs); [|done].
  apply holding_bind_inv, holding_lift in Hh.
  destruct Hh as [_ Hh]. specialize (Hh (KERN_SUCCESS, (0, 0)) _ eq_refl).
  apply holding_bind_inv, holding_lift in Hh.
  destruct Hh as [_ Hh]. specialize (Hh 0 _ eq_refl).
  do 2 eexists. split; [exact Hh|by split].
Qed.

Lemma clock_after_path t0 tbi threads (Q : Z * Z → ledger → Prop) s :
  APPLE = true → addr threads = 0 → holding (clock_after t0 tbi) Q s →
  ∃ n s', Q n s' ∧ regions s' = regions s ∧
    sends s' = sends s ⊎ list_to_set_disj (elems threads).
Proof.
  intros Ha Ht. unfold clock_after. rewrite Ha. cbn [guarded]. intros Hh.
  apply holding_bind_inv, holding_lift in Hh.
  destruct Hh as [_ Hh]. specialize (Hh 0 _ eq_refl).
  apply holding_bind_inv, (thread_count_path threads) in Hh as (n & s2 & Hh & Hg & Hs); [|done].
  do 2 eexists. split; [exact Hh|by split].
Qed.

Lemma run_blocks_path (Q : Z * Z * Z → ledger → Prop) s :
  holding run_blocks Q s → Q (2, 0, 0) s.
Proof.
  intros Hh.
  apply holding_bind_inv, (holding_act_inv _ _ _ 1) in Hh.
  apply holding_bind_inv, (holding_act_inv _ _ _ 2) in Hh.
  apply holding_bind_inv, blocks_path in Hh.
  apply holding_bind_inv, (holding_act_inv _ _ _ 0) in Hh.
  by apply holding_bind_inv, (holding_act_inv _ _ _ 0) in Hh.
Qed.

Lemma main_path garbage threads Q :
  APPLE = true → NX_HAVE_DISPATCH = true → addr threads = 0 →
  holding (main garbage) Q no_holdings →
  unmapped garbage = true ∧ ∃ r s, Q r s ∧
    sends s = list_to_set_disj (elems threads) ⊎ list_to_set_disj (elems threads).
Proof.
  intros Ha Hd Ht. unfold main, observe, service. rewrite Hd. intros Hh.
  apply holding_bind_inv, holding_bind_inv, holding_lift in Hh.
  apply (lwp_capture_fails _ _ Ha) in Hh as (b & s1 & Hh & Hs1 & Hg1 & Hu1).
  apply holding_bind_inv, (holding_act_inv _ _ _ tt), holding_bind_inv, holding_bind_inv in Hh.
  apply (holding_act_inv _ _ _ (0, 0)), holding_bind_inv in Hh.
  apply (clock_before_path threads) in Hh as ([[tb tbi] t0] & s2 & Hh & Hg2 & Hs2); [|done..].
  apply holding_bind_inv, run_blocks_path, holding_bind_inv, holding_bind_inv in Hh.
  apply (holding_act_inv _ _ _ (0, 0)), holding_bind_inv in Hh.
  apply (clock_after_path _ _ threads) in Hh as ([ta el] & s3 & Hh & Hg3 & Hs3); [|done..].
  apply holding_bind_inv, release_path, holding_bind_inv, holding_lift in Hh.
  cbn [action_account account] in *.
  assert (regions s3 = ∅) as Hg by by rewrite Hg3, Hg2, Hg1.
  pose proof (second_capture_unmapped garbage _ s3 Ha Hg Hh) as Hu. split; [done|].
  apply (lwp_second_capture_fails _ _ _ Ha Hu) in Hh as (b' & s4 & Hh & Hs4 & Hg4 & Hu4).
  apply closing_path in Hh; [|done..].
  do 2 eexists. split; [exact Hh|]. rewrite Hs4, Hs3, Hs2, Hs1. simpl.
  by rewrite (left_id_L ∅ (⊎)).
Qed.

(** Where there is libdispatch and Mach, the main thread only gives back memory it
    holds, and at the end holds no memory and no receive right, exactly if the
    uninitialized snapshot it frees happens to look empty; but it ends with the send
    rights to threads that [task_threads] gave it and nobody gives back. *)
Theorem global_queue_holdings garbage :
  APPLE = true → NX_HAVE_DISPATCH = true →
  (holding (main garbage) (λ _ s, rights s = ∅ ∧ regions s = ∅) no_holdings ↔
   unmapped garbage = true) ∧
  ¬ holding (main garbage) (λ _ s, s = no_holdings) no_holdings.
Proof.
  intros Ha Hd. split; [split|].
  - intros Hh. by destruct (main_path garbage null_array _ Ha Hd eq_refl Hh).
  - intros Hg. eapply holding_mono; [by apply dgqs_main_holds|]. by intros r s (Hr & Hs & _).
  - intros Hh. destruct (main_path garbage (mk_array 0 [7]) _ Ha Hd eq_refl Hh)
      as (_ & r & s & -> & Hs).
    apply (f_equal (multiplicity 7)) in Hs. by vm_compute in Hs.
Qed.

(** *** All blocks complete *)

Section service.
Context {W : Type} `{Kernel W} `{Failures}.
(** The program does not look whether it got a group. *)
Hypothesis group_made : may_fail a_group = false.
Abbreviation state := (@world func var Z W (objects func var)).
Abbreviation cwp := (cwp body jobs_defined).

Definition the_job (grp : Z) : job func var := mk_job dgqs_work_f counter (Some grp).
Definition to_do (x : job func var * thread unit) : nat := if returned x.2 then 0 else 1.
Definition member (x : job func var * thread unit) : nat :=
  match member_of x.1 with Some _ => 1 | None => 0 end.

(** [i] blocks were handed to the library: each of them is submitted, running or
    done, the group knows of those that are not done, and the counter of those that
    have counted. *)
Record batch (grp gq : Z) (i : nat) (w : state) : Prop := {
  batch_queue : objs (library w) !! gq = Some Queue;
  batch_group : objs (library w) !! grp =
    Some (Group (length (ready (library w)) + sum_list_with member (running w)));
  batch_sources : no_sources (library w);
  batch_ready : Forall (λ j, j = the_job grp) (ready (library w));
  batch_running : Forall (λ x, (x.1 = the_job grp ∨ member_of x.1 = None ∧ x.2 = Done tt) ∧
    (x.2 = dgqs_work counter ∨ x.2 = Done tt)) (running w);
  batch_count : memory w + Z.of_nat (length (ready (library w)) +
    sum_list_with to_do (running w)) = Z.of_nat i;
  batch_low : 0 ≤ memory w;
  batch_small : (i ≤ DGQS_N)%nat;
}.

Lemma batch_defined grp gq i w : batch grp gq i w → jobs_defined w.
Proof.
  intros Hb. eapply Forall_impl; [apply (batch_running _ _ _ _ Hb)|].
  intros [j p] [_ [E|E]]; simpl in E; subst p; [by eexists|done].
Qed.

Lemma batch_stable grp gq i : stable body (batch grp gq i).
Proof.
  intros w w' [Hq Hg Hs Hrd Hru Hc Hl Hi] Hst.
  destruct Hst as [j l' Hst|l1 j p l2 p' w1 E Hm|l1 j l2 l' E Hf].
  - destruct Hst as [(l1 & l2 & E & ->)|(o & f & x & cc & Ho & _)]; [|by destruct (Hs _ _ _ _ Ho)].
    rewrite E in *. apply Forall_app in Hrd as [G1 [-> G2]%Forall_cons].
    split; simpl; try done.
    + rewrite Hg, sum_list_with_app, !length_app. simpl. do 2 f_equal. lia.
    + by apply Forall_app.
    + apply Forall_app. split; [done|]. constructor; [|done]. split; by left.
    + rewrite sum_list_with_app, length_app in *. simpl in *. lia.
  - rewrite E in *. apply Forall_app in Hru as [G1 [[Hj Hp] G2]%Forall_cons].
    simpl in Hj, Hp. destruct Hp as [->| ->]; [|done]. destruct Hj as [->|[_ ?]]; [|done].
    destruct Hm as (r & (m & Hm & ->) & ->). injection Hm as <- <-.
    rewrite sum_list_with_app in Hc, Hg. simpl in Hc, Hg.
    assert (s32 (memory w + 1) = memory w + 1) as Hn
      by (apply s32_small; unfold is_s32, DGQS_N in *; lia).
    split; simpl; try done.
    + by rewrite sum_list_with_app.
    + apply Forall_app. split; [done|]. constructor; [|done]. split; [by left|by right].
    + rewrite sum_list_with_app, Hn. simpl. lia.
    + rewrite Hn. lia.
  - rewrite E in *. apply Forall_app in Hru as [G1 [[Hj _] G2]%Forall_cons].
    rewrite sum_list_with_app in Hc, Hg. simpl in Hc, Hf, Hg, Hj. subst l'.
    destruct Hj as [->|[Hj _]]; unfold after_job, member in *; simpl in Hg |- *.
    + rewrite Hg. replace (pred _) with
        (length (ready (library w)) + sum_list_with member (l1 ++ l2))%nat
        by (rewrite sum_list_with_app; unfold member; lia).
      split; simpl; try done.
      * destruct (decide (grp = gq)) as [->|]; [congruence|]. by rewrite lookup_insert_ne.
      * by rewrite lookup_insert_eq.
      * by apply no_sources_set.
      * by apply Forall_app.
      * rewrite sum_list_with_app. lia.
    + rewrite Hj in *. split; simpl; try done.
      * rewrite Hg, sum_list_with_app. done.
      * by apply Forall_app.
      * rewrite sum_list_with_app. lia.
Qed.

Lemma cwp_blocks grp gq n i (Q : unit → state → Prop) w :
  batch grp gq i w → (i + n ≤ DGQS_N)%nat → (∀ w', batch grp gq (i + n) w' → Q tt w') →
  cwp (dispatch_blocks n grp gq) Q w.
Proof.
  revert i w. induction n as [|n IH]; intros i w Hb Hn HQ; cbn [dispatch_blocks].
  { apply HQ. by rewrite Nat.add_0_r. }
  apply cwp_bind. unfold lib. apply (cwp_act _ (batch grp gq i)); [apply batch_stable|done|].
  intros w' Hb'. pose proof Hb' as [Hq Hg Hs Hrd Hru Hc Hl Hi].
  split; [by eapply batch_defined|].
  assert (doc_pre (dispatch_group_async_f grp gq counter dgqs_work_f) (library w')) as Hp
    by (split; [done|by eexists]).
  split; [exact Hp|]. split.
  { left. eexists tt, _, _. split; [|reflexivity]. split; [exact Hp|]. eexists. by split. }
  intros r w2 (l & [_ (k & Hk & ->)] & ->). apply (IH (S i)); [|lia|].
  2: { intros w3. rewrite Nat.add_succ_comm. apply HQ. }
  rewrite Hg in Hk. injection Hk as <-. split; simpl; try done.
  - destruct (decide (grp = gq)) as [->|]; [congruence|]. by rewrite lookup_insert_ne.
  - rewrite lookup_insert_eq, length_app. simpl. do 2 f_equal. lia.
  - by apply no_sources_set.
  - apply Forall_app. by repeat constructor.
  - rewrite length_app. simpl. lia.
  - lia.
Qed.

Lemma idle_defined (w : state) : idle (running w) → jobs_defined w.
Proof. intros Hi. eapply Forall_impl; [exact Hi|]. by intros [j p] [-> _]. Qed.

(** The thread count and the sysctl concern nobody else. *)
Lemma cwp_twq (Q : Z → state → Prop) m s w :
  lone s → alone m s w → (∀ n w', alone m s w' → Q n w') → cwp read_kern_twq_threads_created Q w.
Proof.
  intros Hs Hw HQ. apply cwp_bind, (cwp_extern_alone idle_defined _ _ m s _ (0, 0)); [done..|].
  intros [rc val] w' Hw'. by apply HQ.
Qed.

Lemma cwp_thread_count (Q : Z → state → Prop) m s w :
  lone s → alone m s w → (∀ n w', alone m s w' → Q n w') → cwp current_thread_count Q w.
Proof.
  intros Hs Hw HQ.
  apply cwp_bind, (cwp_extern_alone idle_defined _ _ m s _ (0, null_array)); [done..|].
  intros [k ths] w1 Hw1. destruct (negb _); [by apply HQ|].
  by apply cwp_bind, (cwp_lift_alone idle_defined _ _ m s); [done..|]; intros; apply HQ.
Qed.

Lemma cwp_clock_before (Q : Z * (Z * Z) * Z → state → Prop) m s w :
  lone s → alone m s w → (∀ r w', alone m s w' → Q r w') → cwp clock_before Q w.
Proof.
  intros Hs Hw HQ. apply cwp_guarded; intros _; [|by apply (HQ (_, _, _))].
  apply cwp_bind, (cwp_thread_count _ m s); [done..|]. clear w Hw. intros n w Hw.
  apply cwp_bind, (cwp_lift_alone idle_defined _ _ m s); [done..|]. clear w Hw.
  intros [k tbi] w Hw.
  apply cwp_bind, (cwp_lift_alone idle_defined _ _ m s); [done..|]. clear w Hw.
  intros t0 w Hw. by apply (HQ (_, _, _)).
Qed.

Lemma cwp_clock_after t0 tbi (Q : Z * Z → state → Prop) m s w :
  lone s → alone m s w → (∀ r w', alone m s w' → Q r w') → cwp (clock_after t0 tbi) Q w.
Proof.
  intros Hs Hw HQ. apply cwp_guarded; intros _; [|by apply (HQ (_, _))].
  apply cwp_bind, (cwp_lift_alone idle_defined _ _ m s); [done..|]. clear w Hw.
  intros t1 w Hw. apply cwp_bind, (cwp_thread_count _ m s); [done..|]. clear w Hw.
  intros n w Hw. by apply (HQ (_, _)).
Qed.

(** The wait returns when the group has no members left, so every block has
    counted. *)
Lemma cwp_wait grp gq (Q : Z → state → Prop) w :
  batch grp gq DGQS_N w →
  (∀ s w', lone s → alone (Z.of_nat DGQS_N) s w' → objs s !! grp = Some (Group 0) → Q 0 w') →
  cwp (lib (dispatch_group_wait grp DISPATCH_TIME_FOREVER)) Q w.
Proof.
  intros Hb HQ. unfold lib. apply (cwp_act _ (batch grp gq DGQS_N)); [apply batch_stable|done|].
  clear w Hb. intros w Hb. split; [by eapply batch_defined|].
  destruct Hb as [Hq Hg Hs Hrd Hru Hc Hl Hi]. split; [by eexists|]. split.
  - destruct (ready (library w)) as [|j l] eqn:E; [|right; left; by rewrite E].
    destruct (sum_list_with member (running w)) as [|k] eqn:E'.
    + left. exists 0, w, (library w). split; [|by destruct w].
      split; [by eexists|]. split; [done|]. by left.
    + right. right. destruct (running w) as [|[j p] l]; [done|].
      apply Exists_cons_hd. apply Forall_cons in Hru as [[_ Hp] _].
      simpl in *. destruct Hp as [->| ->]; [|done]. by do 3 eexists.
  - intros r w' (l & [_ [-> [[-> Hz]|[_ Hf]]]] & ->); [|done].
    rewrite Hg in Hz. injection Hz as Hz.
    assert (ready (library w) = []) as Hr by (destruct (ready (library w)); [done|simpl in Hz; lia]).
    assert (idle (running w)) as Hi'.
    { apply Forall_forall. intros x Hx. apply list_elem_of_split in Hx as (l1 & l2 & E).
      rewrite E, sum_list_with_app in Hz. simpl in Hz. unfold member at 2 in Hz.
      rewrite E in Hru. apply Forall_app in Hru as [_ [[[Hj|[Hj Hd]] _] _]%Forall_cons]; [|done].
      rewrite Hj in Hz. simpl in Hz. lia. }
    assert (sum_list_with to_do (running w) = 0%nat) as Ht.
    { clear -Hi'. induction Hi' as [|x l [Hx _] _ IH]; [done|]. simpl. unfold to_do at 1.
      by rewrite Hx. }
    rewrite Hr, Ht in Hc. simpl in Hc. rewrite Hz in Hg.
    apply (HQ (library w)); [by split| |done]. split; [done|]. split; [simpl; lia|done].
Qed.

Lemma cwp_run_blocks (Q : Z * Z * Z → state → Prop) s w :
  lone s → alone 0 s w →
  (∀ grp s' w', grp ≠ 0 → lone s' → alone (Z.of_nat DGQS_N) s' w' →
     objs s' !! grp = Some (Group 0) → Q (grp, 0, Z.of_nat DGQS_N) w') →
  cwp run_blocks Q w.
Proof.
  intros [Hr Hs] Hw HQ. destruct (some_fresh s) as (o & Ho & Hno).
  apply cwp_bind, (cwp_lib_alone idle_defined _ _ 0 s); [done..| |].
  { exists o, (set_obj o Queue s). by repeat split; [..|left]. }
  clear w Hw o Ho Hno. intros gq s1 w (_ & -> & _) Hw.
  apply cwp_bind, (cwp_lib_alone idle_defined _ _ 0 (set_obj gq Queue s));
    [by split; [|apply no_sources_set]|done..|apply some_created|].
  clear w Hw. intros grp s2 w (Hgrp & Hno & ->)%creates_only (Hru & Hm & Hl); [|done].
  apply cwp_bind, (cwp_blocks grp gq DGQS_N 0).
  { split; rewrite ?Hl, ?Hm; simpl; rewrite ?Hr; simpl; try done; try lia.
    - destruct (decide (grp = gq)) as [->|]; [by simpl in Hno; rewrite lookup_insert_eq in Hno|].
      by rewrite lookup_insert_ne, lookup_insert_eq.
    - rewrite lookup_insert_eq. do 2 f_equal. induction Hru as [|x l [_ Hx] _ IH]; [done|].
      simpl. unfold member at 1. by rewrite Hx.
    - by apply no_sources_set; [apply no_sources_set|].
    - eapply Forall_impl; [exact Hru|]. intros x [Hx Hm']. split; right; [by split|done].
    - induction Hru as [|x l [Hx _] _ IH]; [done|]. simpl. unfold to_do at 1. by rewrite Hx. }
  { done. }
  clear w Hru Hm Hl. intros w Hb. apply cwp_bind, (cwp_wait grp gq); [done|].
  clear w Hb. intros s' w Hs' Hw Hg.
  eapply cwp_bind, (cwp_mem_alone idle_defined _ _ (Z.of_nat DGQS_N) s'); [done..|].
  clear w Hw. intros w Hw. by apply (HQ grp s').
Qed.

Definition all_counted (o : obs) (w : state) : Prop :=
  completed o = Z.of_nat DGQS_N ∧ wait_kr o = 0 ∧ ∃ m s, lone s ∧ alone m s w.

Lemma dgqs_cwp_observe garbage m s w :
  NX_HAVE_DISPATCH = true → lone s → alone m s w → cwp (observe garbage) all_counted w.
Proof.
  intros Hd Hs Hw. unfold observe. rewrite Hd.
  apply cwp_bind, (cwp_lift_alone idle_defined _ _ m s); [done..|]. clear w Hw.
  intros b w Hw. unfold service.
  eapply cwp_bind, (cwp_mem_alone idle_defined _ _ m s); [done..|]. clear w Hw. intros w Hw.
  apply cwp_bind, (cwp_twq _ 0 s); [done..|]. clear w Hw. intros tq w Hw.
  apply cwp_bind, (cwp_clock_before _ 0 s); [done..|]. clear w Hw. intros [[tb tbi] t0] w Hw.
  apply cwp_bind, (cwp_run_blocks _ s); [done..|]. clear w Hw s Hs. intros grp s w Hn Hs Hw Hg.
  apply cwp_bind, (cwp_twq _ (Z.of_nat DGQS_N) s); [done..|]. clear w Hw. intros tq' w Hw.
  apply cwp_bind, (cwp_clock_after _ _ _ (Z.of_nat DGQS_N) s); [done..|]. clear w Hw.
  intros [ta el] w Hw. apply cwp_bind, cwp_guarded; [|intros; lia]. intros _.
  apply (cwp_lib_alone idle_defined _ _ (Z.of_nat DGQS_N) s); [done..|by eexists|by eexists tt, _|].
  clear w Hw. intros [] s' w -> Hw. destruct Hs as [Hr Hs].
  assert (lone (mk_objects (delete grp (objs s)) (ready s))) as Hs'
    by (split; [done|by apply no_sources_delete]).
  apply cwp_bind, (cwp_lift_alone idle_defined _ _ _ _ w Hs' Hw).
  intros a w' Hw'. split; [done|]. split; [done|]. by do 2 eexists.
Qed.

Lemma dgqs_cwp_main garbage m s w :
  NX_HAVE_DISPATCH = true → lone s → alone m s w →
  cwp (main garbage) (λ r _, ∃ o, completed o = Z.of_nat DGQS_N ∧ verdict_of o = pass ∧
    r = finish (report o pass) pass) w.
Proof.
  intros Hd Hs Hw. apply cwp_bind. eapply cwp_mono; [by eapply dgqs_cwp_observe|].
  intros o w' (Hc & Hk & m' & s' & Hs' & Hw').
  assert (verdict_of o = pass) as Hv.
  { unfold verdict_of, ladder_of. rewrite Hd, Hc, Hk. done. }
  apply (cwp_closing idle_defined _ _ _ _ m' s'); [done..|]. intros w1. exists o. by rewrite Hv.
Qed.
End service.

(** *** Bounds *)

Lemma dgqs_bounded_body f c : bounded false 1 (body f c).
Proof. destruct f. split; [done|]. by split. Qed.

Lemma bounded_blocks n grp gq : bounded true n (dispatch_blocks n grp gq).
Proof.
  induction n as [|n IH]; [done|]. cbn [dispatch_blocks].
  apply (bounded_bind _ 1 n); [by apply bounded_act|done].
Qed.

Lemma bounded_twq : bounded true 1 read_kern_twq_threads_created.
Proof. apply (bounded_bind _ 1 0); [by apply bounded_act|by intros []]. Qed.

Lemma bounded_thread_count : bounded true 2 current_thread_count.
Proof.
  apply (bounded_bind _ 1 1); [by apply bounded_act|]. intros [k ths].
  destruct (negb _); [done|]. apply (bounded_bind _ 1 0); [|done].
  destruct (array_mapped ths); by repeat split.
Qed.

Lemma bounded_run_blocks : bounded true 68 run_blocks.
Proof.
  apply (bounded_bind _ 1 67); [by apply bounded_act|]. intros gq.
  apply (bounded_bind _ 1 66); [by apply bounded_act|]. intros grp.
  apply (bounded_bind _ 64 2); [apply bounded_blocks|]. intros [].
  apply (bounded_bind _ 1 1); [by apply bounded_act|]. intros wk.
  by apply (bounded_bind _ 1 0); [by apply bounded_act|].
Qed.

Lemma bounded_clocks :
  bounded true 4 clock_before ∧ ∀ t0 tbi, bounded true 3 (clock_after t0 tbi).
Proof.
  split; [|intros t0 tbi]; apply bounded_guarded.
  - apply (bounded_bind _ 2 2); [apply bounded_thread_count|]. intros n.
    apply (bounded_bind _ 1 1); [by repeat split|]. intros [k tbi].
    by apply (bounded_bind _ 1 0); [by repeat split|].
  - apply (bounded_bind _ 1 2); [by repeat split|]. intros t1.
    by apply (bounded_bind _ 2 0); [apply bounded_thread_count|].
Qed.

Lemma dgqs_bounded_main garbage : bounded true 87 (main garbage).
Proof.
  apply (bounded_bind _ 83 4).
  2: { intros o. apply bounded_closing. }
  apply (bounded_bind _ 1 82); [apply bounded_capture|]. intros b.
  destruct NX_HAVE_DISPATCH; [|done].
  apply (bounded_bind _ 1 81); [by apply bounded_act|]. intros [].
  apply (bounded_bind _ 1 80); [apply bounded_twq|]. intros tq.
  apply (bounded_bind _ 4 76); [apply bounded_clocks|]. intros [[tb tbi] t0].
  apply (bounded_bind _ 68 8); [apply bounded_run_blocks|]. intros [[grp wk] n].
  apply (bounded_bind _ 1 7); [apply bounded_twq|]. intros tq'.
  apply (bounded_bind _ 3 4); [apply bounded_clocks|]. intros [ta el].
  apply (bounded_bind _ 1 3); [apply bounded_guarded; by apply bounded_act|]. intros [].
  by apply (bounded_bind _ 3 0); [apply bounded_second_capture|].
Qed.

(** C13: with any library that keeps its documented behaviour and has the group there is
    to be had (the program does not look at the result of [dispatch_group_create],
    which may be [NULL]), any kernel and in every schedule of the 64 blocks: the probe is over after at most 348 steps; until then
    it can go on and nothing it or a block does is undefined; and when it returns,
    its counter was 64 at the end of the wait, and its document is the one with the
    verdict that says so. *)
Theorem global_queue_completes {W L} `{Kernel W} `{Failures}
    `{Library func var L} `{!DispatchContract func var L} garbage m l k0 :
  may_fail a_group = false →
  NX_HAVE_DISPATCH = true → lib_healthy l → objs (objects_of l) = ∅ →
  ready (objects_of l) = [] →
  let start := (main garbage, mk_world [] m l k0) in
  (∀ n c, nsteps (step body) n start c → (n ≤ 348)%nat) ∧
  ∀ p w, rtc (step body) start (p, w) →
    match p with
    | Done r => ∃ o, completed o = 64 ∧ verdict_of o = pass ∧ r = finish (report o pass) pass
    | Do c _ => jobs_defined (seen w) ∧ defined c (seen w) ∧ ∃ c', step body (p, w) c'
    end.
Proof.
  intros Hg Hd Hl Ho Hr start. split.
  - intros n c Hn. by apply (run_length body 1 87 (main garbage) (mk_world [] m l k0) c n
      dgqs_bounded_body (dgqs_bounded_main garbage)).
  - intros p w Hs.
    apply (cwp_adequate body jobs_defined (main garbage) p (λ r _, ∃ o, completed o = 64 ∧
      verdict_of o = pass ∧ r = finish (report o pass) pass) (mk_world [] m l k0) w Hl); [|done].
    apply (dgqs_cwp_main Hg garbage m (objects_of l)); [done| |by split; [constructor|]].
    split; [done|]. intros o f x b. by rewrite Ho.
Qed.
End facts.

(** The theorems at the reference library and kernel. *)
Section witnesses.
Import OnMacos.

(** The group is the one thing of which the library does not run out. *)
#[local] Instance dgqs_failures : Failures := λ k, match k with a_group => false | _ => true end.
#[local] Instance dgqs_both_headers : Headers := {| has_dispatch_h := true; has_mach_h := true |}.

Definition dgqs_garbage0 : nx_baseline_t := zero_baseline.
Definition dgqs_start0 : thread (option outcome) * @world func var Z machine (@ref_lib func var) :=
  (main dgqs_garbage0, mk_world [] 17 (mk_ref (mk_objects ∅ [])) boot).

(** All blocks are submitted, then they run one after the other. *)
Definition in_turn : list choice :=
  repeat Main 72 ++ concat (repeat [Start; Work 0; Work 0] 64) ++ repeat Main 11.

Lemma dgqs_finished0 :
  ∃ r, result_of (schedule body (@refuse) in_turn dgqs_start0) = Some r ∧ exit_status <$> r = Some 0.
Proof.
  enough (match result_of (schedule body (@refuse) in_turn dgqs_start0) with
          | Some r => bool_decide (exit_status <$> r = Some 0) | None => false end = true) as Hf.
  { destruct (result_of _) as [r|]; [|done]. exists r. by apply bool_decide_eq_true in Hf. }
  by vm_compute.
Qed.

Lemma dgqs_with_dispatch : NX_HAVE_DISPATCH = true.
Proof. done. Qed.

Lemma global_queue_completes_witness :
  may_fail a_group = false ∧ NX_HAVE_DISPATCH = true ∧ lib_healthy (mk_ref (F := func) (X := var) (mk_objects ∅ [])) ∧
  ∃ r w o, rtc (step body) dgqs_start0 (Done r, w) ∧ exit_status <$> r = Some 0 ∧
    completed o = 64 ∧ verdict_of o = pass ∧ r = finish (report o pass) pass.
Proof.
  do 3 (split; [done|]).
  destruct dgqs_finished0 as (r & E & Hr).
  destruct (result_steps body (@refuse) _ _ _ E) as [w Hs].
  pose proof (global_queue_completes (H := macos) (H0 := dgqs_both_headers) (W := machine)
    (L := @ref_lib func var) dgqs_garbage0 17 (mk_ref (mk_objects ∅ [])) boot
    eq_refl dgqs_with_dispatch (ref_healthy _) eq_refl eq_refl) as [_ Hall].
  destruct (Hall _ _ Hs) as (o & Ho). exists r, w, o.
  split; [exact Hs|]. split; [exact Hr|exact Ho].
Defined.

Lemma global_queue_holdings_witness :
  APPLE = true ∧ NX_HAVE_DISPATCH = true ∧
  holding (main dgqs_garbage0) (λ _ s, rights s = ∅ ∧ regions s = ∅) no_holdings ∧
  ¬ holding (main dgqs_garbage0) (λ _ s, s = no_holdings) no_holdings.
Proof.
  split; [done|]. split; [done|].
  destruct (global_queue_holdings dgqs_garbage0 on_macos dgqs_with_dispatch) as [Hiff Hno].
  split; [|exact Hno]. by apply Hiff.
Defined.
End witnesses.
End DispatchGlobalQueue.
