(* ===== verification/DispatchPrimitives.v ===== *)
(** [macos-validation/probes/dispatch/dispatch_primitives.c]: a group, a semaphore and
    [dispatch_after_f]. *)

From stdpp Require Import gmap gmultiset relations.
From S2P Require Import Prelude Json NxJson JsonText Builder MachApi NxMachUtils Ledger.
From S2P Require Import MachContract NxResult Probe RefKernel Dispatch.

Local Open Scope oracle_scope.
Local Open Scope Z_scope.

Module DispatchPrimitives.
Import Dispatch.Dispatch.

Definition DP_AFTER_DELAY_NS : Z := 20 * 1000 * 1000.
Definition DP_WAIT_BOUND_NS : Z := 2 * 1000 * 1000 * 1000.

(** The functions handed to the library, and the structures their contexts point to:
    [gctx] and [actx] are variables of blocks of [main]. *)
Inductive func : Set := dp_group_work_f | dp_after_work_f.
Inductive var : Set := gctx | actx.

(** [&gcount], [&afired] *)
Inductive atomic_int : Set := gcount | afired.

Record dp_group_ctx_t := mk_group_ctx { g : Z; count : atomic_int }.
Record dp_after_ctx_t := mk_after_ctx { fired : atomic_int; sem : Z }.

(** What the threads share.  A structure is [None] outside its block; the counters
    live as long as [main]. *)
Record shared := mk_shared {
  v_gcount : Z;
  v_afired : Z;
  v_gctx : option dp_group_ctx_t;
  v_actx : option dp_after_ctx_t;
}.

Abbreviation thread := (thread func var shared).

Definition atomic_get (a : atomic_int) (m : shared) : Z :=
  match a with gcount => v_gcount m | afired => v_afired m end.
Definition atomic_set (a : atomic_int) (n : Z) (m : shared) : shared :=
  match a with
  | gcount => mk_shared n (v_afired m) (v_gctx m) (v_actx m)
  | afired => mk_shared (v_gcount m) n (v_gctx m) (v_actx m)
  end.

Definition atomic_store (a : atomic_int) (n : Z) : thread unit :=
  mem (λ m, Some (tt, atomic_set a n m)).
Definition atomic_load (a : atomic_int) : thread Z := mem (λ m, Some (atomic_get a m, m)).
Definition atomic_fetch_add (a : atomic_int) (d : Z) : thread unit :=
  mem (λ m, Some (tt, atomic_set a (s32 (atomic_get a m + d)) m)).

(** The beginning and the end of a block with such a variable. *)
Definition set_gctx (c : option dp_group_ctx_t) : thread unit :=
  mem (λ m, Some (tt, mk_shared (v_gcount m) (v_afired m) c (v_actx m))).
Definition set_actx (c : option dp_after_ctx_t) : thread unit :=
  mem (λ m, Some (tt, mk_shared (v_gcount m) (v_afired m) (v_gctx m) c)).

(** [c->field], where [c] is the context converted to the structure's type. *)
Definition group_field {A} (p : var) (field : dp_group_ctx_t → A) : thread A :=
  mem (λ m, match p with
            | gctx => c ← v_gctx m; Some (field c, m)
            | actx => None
            end).
Definition after_field {A} (p : var) (field : dp_after_ctx_t → A) : thread A :=
  mem (λ m, match p with
            | actx => c ← v_actx m; Some (field c, m)
            | gctx => None
            end).

Definition dp_group_work (c : var) : thread unit :=
  a ← group_field c count;
  _ ← atomic_fetch_add a 1;
  o ← group_field c g;
  lib (dispatch_group_leave o).

Definition dp_after_work (c : var) : thread unit :=
  a ← after_field c fired;
  _ ← atomic_store a 1;
  o ← after_field c sem;
  lib (dispatch_semaphore_signal o).

Definition body (f : func) (c : var) : thread unit :=
  match f with
  | dp_group_work_f => dp_group_work c
  | dp_after_work_f => dp_after_work c
  end.

(** The three parts of [main]; [q] is the serial queue, and [NULL] is 0. *)
Definition group_part (q : Z) : thread (Z * bool) :=
  _ ← atomic_store gcount 0;
  g ← lib dispatch_group_create;
  guarded (negb (g =? 0)) (-1, false) (
    _ ← set_gctx (Some (mk_group_ctx g gcount));
    _ ← lib (dispatch_group_enter g);
    _ ← lib (dispatch_async_f q gctx dp_group_work_f);
    gw ← lib (dispatch_group_wait g DISPATCH_TIME_FOREVER);
    group_count ← atomic_load gcount;
    _ ← lib (dispatch_release g);
    _ ← set_gctx None;
    mret (group_count, (gw =? 0) && (group_count =? 1))).

Definition semaphore_part : thread (Z * bool * bool) :=
  sem ← lib (dispatch_semaphore_create 0);
  '(sem_timeout_observed, sem_signal_wait_ok) ← guarded (negb (sem =? 0)) (false, false) (
    w_timeout ← lib (dispatch_semaphore_wait sem (from_now (50 * 1000 * 1000)));
    _ ← lib (dispatch_semaphore_signal sem);
    w_second ← lib (dispatch_semaphore_wait sem (from_now DP_WAIT_BOUND_NS));
    mret (negb (w_timeout =? 0), w_second =? 0));
  mret (sem, sem_timeout_observed, sem_signal_wait_ok).

Definition after_part (q : Z) : thread bool :=
  _ ← atomic_store afired 0;
  asem ← lib (dispatch_semaphore_create 0);
  guarded (negb (asem =? 0) && negb (q =? 0)) false (
    _ ← set_actx (Some (mk_after_ctx afired asem));
    _ ← lib (dispatch_after_f (from_now DP_AFTER_DELAY_NS) q actx dp_after_work_f);
    aw ← lib (dispatch_semaphore_wait asem (from_now DP_WAIT_BOUND_NS));
    after_fired ← guarded (aw =? 0) false (n ← atomic_load afired; mret (n =? 1));
    _ ← lib (dispatch_release asem);
    _ ← set_actx None;
    mret after_fired).

Section dispatch_primitives.
Context `{Host} `{Headers}.

(** [NX_HAVE_DISPATCH] *)
Definition NX_HAVE_DISPATCH : bool := has_dispatch_h.

Record obs := mk_obs {
  before : nx_baseline_t;
  after : nx_baseline_t;
  group_ok : bool;
  group_count : Z;
  sem_timeout_observed : bool;
  sem_signal_wait_ok : bool;
  after_fired : bool;
}.

(** The part under [#if NX_HAVE_DISPATCH]. *)
Definition service (garbage before : nx_baseline_t) : thread obs :=
  q ← lib (dispatch_queue_create "nx.dprim");
  '(group_count, group_ok) ← group_part q;
  '(sem, sem_timeout_observed, sem_signal_wait_ok) ← semaphore_part;
  after_fired ← after_part q;
  _ ← guarded (negb (sem =? 0)) tt (lib (dispatch_release sem));
  _ ← guarded (negb (q =? 0)) tt (lib (dispatch_release q));
  after ← lift (second_capture garbage);
  mret (mk_obs before after group_ok group_count sem_timeout_observed sem_signal_wait_ok
          after_fired).

(** [garbage] is the uninitialized [after]. *)
Definition observe (garbage : nx_baseline_t) : thread obs :=
  before ← lift nx_baseline_capture;
  if NX_HAVE_DISPATCH then service garbage before
  else mret (mk_obs before garbage false (-1) false false false).

Definition ladder_of (o : obs) : list (bool * verdict) :=
  [(negb (group_ok o),
     fail_contract "group enter/leave/wait did not balance + run the work");
   (negb (sem_timeout_observed o) || negb (sem_signal_wait_ok o),
     fail_contract "semaphore did not time out when unsignaled, then succeed after signal");
   (negb (after_fired o),
     fail_contract "dispatch_after_f handler did not fire within the bound")].

Definition verdict_of (o : obs) : verdict :=
  if NX_HAVE_DISPATCH then ladder (ladder_of o)
  else skip "host without libdispatch: primitives not available".

Definition cleanup_ok (o : obs) : bool :=
  if NX_HAVE_DISPATCH then (nx_baseline_compare (before o) (after o)).1 else true.
Definition cleanup_delta (o : obs) : Z :=
  if NX_HAVE_DISPATCH then (nx_baseline_compare (before o) (after o)).2 else 0.
Definition cleanup_notes (o : obs) : string :=
  if NX_HAVE_DISPATCH then
    (if cleanup_ok o then ""
     else "libdispatch leaves internal Mach ports (delta captured, non-gating)")
  else "not applicable on this host".

Definition emit_returns (o : obs) : op nx_json_t :=
  nx_json_key "returns" ;;
  nx_json_begin_array ;;
  nx_result_emit_return "mach_port_names_before"
    (nx_kern_return_str (kr (before o))) (kr (before o)) false 0 ;;
  nx_result_emit_return "mach_port_names_after"
    (nx_kern_return_str (kr (after o))) (kr (after o)) false 0 ;;
  nx_json_end_array.

Definition emit_observations (o : obs) : op nx_json_t :=
  nx_json_key "observations" ;;
  nx_json_begin_object ;;
  nx_json_key_bool "dispatch_available" NX_HAVE_DISPATCH ;;
  nx_json_key_bool "group_enter_leave_wait_ok" (group_ok o) ;;
  nx_json_key_int "group_work_count" (group_count o) ;;
  nx_json_key_bool "semaphore_timeout_observed" (sem_timeout_observed o) ;;
  nx_json_key_bool "semaphore_signal_then_wait_ok" (sem_signal_wait_ok o) ;;
  nx_json_key_bool "dispatch_after_fired" (after_fired o) ;;
  nx_json_key_int "names_before" (count_or_minus1 (before o)) ;;
  nx_json_key_int "names_after" (count_or_minus1 (after o)) ;;
  nx_json_key_int "cleanup_delta" (cleanup_delta o) ;;
  nx_json_end_object.

Definition report (o : obs) (v : verdict) : op nx_json_t :=
  nx_json_begin_object ;;
  nx_result_emit_header agent_name "macos_dispatch_primitives" NULL NULL
    (status v) (sclass v) ;;
  nx_env_emit ;;
  nx_result_emit_empty_message ;;
  emit_returns o ;;
  nx_json_key "right_deltas" ;;
  nx_json_begin_array ;;
  nx_json_end_array ;;
  emit_observations o ;;
  nx_result_emit_cleanup (cleanup_ok o) (cleanup_notes o) ;;
  nx_json_key_string "notes" (notes v) ;;
  nx_json_end_object.

Definition main (garbage : nx_baseline_t) : thread (option outcome) :=
  o ← observe garbage;
  let v := verdict_of o in
  closing (before o) (after o) (finish (report o v) v).
End dispatch_primitives.

Section facts.
Context `{Host} `{Headers}.

Lemma dispatch_primitives_written o :
  env_file_ok →
  emits_result true "macos_dispatch_primitives" (verdict_of o) (cleanup_ok o)
    (report o (verdict_of o)).
Proof.
  intros Henv. unfold report, emit_returns, emit_observations. report_tac.
Qed.

(** *** What the main thread holds *)

Lemma holding_group q (Q : Z * bool → ledger → Prop) s :
  (∀ r, Q r s) → holding (group_part q) Q s.
Proof.
  intros HQ. do 2 (apply holding_bind, holding_act; [done|]; intros ?).
  apply holding_guarded; intros _; [|done].
  do 7 (apply holding_bind, holding_act; [done|]; intros ?). apply HQ.
Qed.

Lemma holding_semaphore (Q : Z * bool * bool → ledger → Prop) s :
  (∀ r, Q r s) → holding semaphore_part Q s.
Proof.
  intros HQ. apply holding_bind, holding_act; [done|]. intros sem.
  apply holding_bind, holding_guarded; intros _; [|apply (HQ (sem, false, false))].
  do 3 (apply holding_bind, holding_act; [done|]; intros ?). apply (HQ (_, _, _)).
Qed.

Lemma holding_after q (Q : bool → ledger → Prop) s :
  (∀ r, Q r s) → holding (after_part q) Q s.
Proof.
  intros HQ. do 2 (apply holding_bind, holding_act; [done|]; intros ?).
  apply holding_guarded; intros _; [|done].
  do 3 (apply holding_bind, holding_act; [done|]; intros ?).
  apply holding_bind, holding_guarded; intros _;
    [apply holding_bind, holding_act; [done|]; intros ?|];
    do 2 (apply holding_bind, holding_act; [done|]; intros ?); apply HQ.
Qed.

Lemma dprim_observe_holds garbage :
  (APPLE = true → unmapped garbage = true) →
  holding (observe garbage) (λ o s,
    s = mk_ledger ∅ ∅ (baseline_regions (before o) ⊎
      (if NX_HAVE_DISPATCH then baseline_regions (after o) else ∅)) ∧
    captured (before o) ∧
    if NX_HAVE_DISPATCH then captured (after o) else after o = garbage) no_holdings.
Proof.
  intros Hg. unfold observe. apply holding_bind, holding_lift, lwp_capture; [apply _|].
  intros b Hb. unfold add_regions. simpl. rewrite (left_id_L ∅ (⊎)). destruct NX_HAVE_DISPATCH.
  2:{ simpl. by rewrite (right_id_L ∅ (⊎)). }
  unfold service. apply holding_bind, holding_act; [done|]. intros q.
  apply holding_bind, holding_group. intros [n ok].
  apply holding_bind, holding_semaphore. intros [[sem b1] b2].
  apply holding_bind, holding_after. intros af.
  apply holding_bind, holding_release, holding_bind, holding_release.
  apply holding_bind, holding_lift, lwp_second_capture; [done|]. by repeat split.
Qed.

Lemma dprim_main_holds garbage :
  (APPLE = true → unmapped garbage = true) →
  holding (main garbage) (λ r s, s = no_holdings ∧
    ∃ o, r = finish (report o (verdict_of o)) (verdict_of o)) no_holdings.
Proof.
  intros Hg. apply holding_bind.
  apply (holding_mono _ _ _ _ (dprim_observe_holds garbage Hg)). intros o s (-> & Hb & Ha).
  apply (holding_closing _ _ _ NX_HAVE_DISPATCH); [done| |done|by split; [|exists o]].
  destruct NX_HAVE_DISPATCH; [done|by rewrite Ha].
Qed.

Lemma group_path q (Q : Z * bool → ledger → Prop) s :
  holding (group_part q) Q s → ∃ r, Q r s.
Proof.
  intros Hh. apply holding_bind_inv, (holding_act_inv _ _ _ tt) in Hh.
  apply holding_bind_inv, (holding_act_inv _ _ _ 0) in Hh.
  eexists. exact Hh.
Qed.

Lemma semaphore_path (Q : Z * bool * bool → ledger → Prop) s :
  holding semaphore_part Q s → ∃ r, Q r s.
Proof. intros Hh. apply holding_bind_inv, (holding_act_inv _ _ _ 0) in Hh.
  eexists. exact Hh. Qed.

Lemma after_path q (Q : bool → ledger → Prop) s :
  holding (after_part q) Q s → ∃ r, Q r s.
Proof.
  intros Hh. apply holding_bind_inv, (holding_act_inv _ _ _ tt) in Hh.
  apply holding_bind_inv, (holding_act_inv _ _ _ 0) in Hh.
  eexists. exact Hh.
Qed.

(** Where there is libdispatch and Mach, the main thread gives back memory it does
    not hold unless the uninitialized snapshot it frees happens to look empty; if it
    does, everything that was acquired is given back. *)
Theorem primitives_holdings garbage :
  APPLE = true → NX_HAVE_DISPATCH = true →
  holding (main garbage) (λ _ s, s = no_holdings) no_holdings ↔ unmapped garbage = true.
Proof.
  intros Ha Hd. split.
  - unfold main, observe, service. rewrite Hd. intros Hh.
    apply holding_bind_inv, holding_bind_inv, holding_lift in Hh.
    apply (lwp_capture_fails _ _ Ha) in Hh as (b & s1 & Hh & _ & Hg1 & _).
    apply holding_bind_inv, (holding_act_inv _ _ _ 0) in Hh.
    apply holding_bind_inv, group_path in Hh as ([n ok] & Hh).
    apply holding_bind_inv, semaphore_path in Hh as ([[sem b1] b2] & Hh).
    apply holding_bind_inv, after_path in Hh as (af & Hh).
    apply holding_bind_inv, release_path, holding_bind_inv, release_path in Hh.
    apply holding_bind_inv, holding_lift in Hh. by eapply second_capture_unmapped.
  - intros Hg. eapply holding_mono; [by apply dprim_main_holds|]. by intros r s [-> _].
Qed.

(** *** Every schedule *)

Section schedules.
Context {W : Type} `{Kernel W} `{Failures}.
(** The program does not look whether it got a queue before it submits to it. *)
Hypothesis queue_made : may_fail a_queue = false.
Abbreviation state := (@world func var shared W (objects func var)).

Definition group_job : job func var := mk_job dp_group_work_f gctx None.
Definition late_job : job func var := mk_job dp_after_work_f actx None.

(** The context of the second job is out of its block, or the semaphore in it was
    released. *)
Definition after_over (w : state) : Prop :=
  match v_actx (memory w) with
  | None => True
  | Some c => objs (library w) !! sem c = None
  end.

(** All jobs have a defined next action, except the second one when it is late. *)
Definition on_time (w : state) : Prop :=
  Forall (λ x, match x.2 with Done _ => True | Do c _ => defined c w end ∨
               x.1 = late_job ∧ after_over w) (running w).

Abbreviation cwp := (cwp body on_time).

Lemma idle_on_time (w : state) : idle (running w) → on_time w.
Proof. intros Hi. eapply Forall_impl; [exact Hi|]. intros [j p] [E _]. left. by rewrite E. Qed.

Lemma one_on_time j t (w : state) :
  one j t w →
  (match t with Done _ => True | Do c _ => defined c w end ∨ j = late_job ∧ after_over w) →
  on_time w.
Proof.
  intros (l1 & l2 & E & [G1 G2]%Forall_app) Ht. unfold on_time. rewrite E.
  apply Forall_app. split; [|constructor; [done|]];
    (eapply Forall_impl; [eassumption|]; intros [j' p] [Ep _]; left; by rewrite Ep).
Qed.

(** **** The group *)

(** The job of the group before each of its actions, the counter and the members. *)
Inductive group_stage (o : Z) : thread unit → Z → nat → Prop :=
  | group_0 : group_stage o (dp_group_work gctx) 0 1
  | group_1 : group_stage o
      (_ ← atomic_fetch_add gcount 1; o ← group_field gctx g; lib (dispatch_group_leave o)) 0 1
  | group_2 : group_stage o (o ← group_field gctx g; lib (dispatch_group_leave o)) 1 1
  | group_3 : group_stage o (lib (dispatch_group_leave o)) 1 1.

Inductive group_progress (o : Z) (w : state) : Z → nat → Prop :=
  | group_ready : ready (library w) = [group_job] → idle (running w) → group_progress o w 0 1
  | group_runs t n k : ready (library w) = [] → one group_job t w → group_stage o t n k →
      group_progress o w n k
  | group_over : ready (library w) = [] → idle (running w) → group_progress o w 1 0.

Record in_group (q o : Z) (w : state) : Prop := {
  ig_sources : no_sources (library w);
  ig_queue : objs (library w) !! q = Some Queue;
  ig_ctx : v_gctx (memory w) = Some (mk_group_ctx o gcount);
  ig_progress : ∃ k, group_progress o w (v_gcount (memory w)) k ∧
    objs (library w) !! o = Some (Group k);
}.

Lemma in_group_on_time q o w : in_group q o w → on_time w.
Proof.
  intros [Hs Hq Hc (k & Hp & Ho)]. destruct Hp as [Hr Hi|t n k Hr Hw Ht|Hr Hi];
    [by apply idle_on_time| |by apply idle_on_time].
  eapply one_on_time; [done|]. left. inversion Ht; subst; simpl.
  - rewrite Hc. by eexists.
  - by eexists.
  - rewrite Hc. by eexists.
  - by exists 0%nat.
Qed.

Lemma in_group_stable q o : stable body (in_group q o).
Proof.
  intros w w' [Hs Hq Hc (k & Hp & Ho)] Hst. remember (v_gcount (memory w)) as n0 eqn:En.
  destruct Hp as [Hr Hi|t n k Hr Hw Ht|Hr Hi].
  - destruct (env_idle _ _ _ Hi Hs Hst) as [(Hi' & Hm & Hl)|(l1 & j & l2 & E & Hw & Hm & Hl)].
    + split; rewrite ?Hm, ?Hl; try done. exists 1%nat. split; [|done]. rewrite <- En.
      apply group_ready; by rewrite ?Hl.
    + rewrite Hr in E. destruct l1 as [|? []]; simplify_eq/=.
      split; rewrite ?Hm, ?Hl; try done. exists 1%nat. split; [|done]. rewrite <- En.
      eapply group_runs; [by rewrite Hl|exact Hw|constructor].
  - assert (returned t = false) as Htr by by destruct Ht.
    destruct (env_one _ _ _ _ _ Hw Htr (conj Hr Hs) Hst)
      as [(Hw' & Hm & Hl)|(t' & w1 & Hmv & Hw' & Hm & Hl)].
    { split; rewrite ?Hm, ?Hl; try done. exists k. split; [|done]. rewrite <- En.
      eapply group_runs; [by rewrite Hl|done..]. }
    destruct Ht; destruct Hmv as (r & Ha & ->).
    + destruct Ha as (m & Ha & ->). rewrite Hc in Ha. injection Ha as <- <-.
      split; rewrite ?Hm, ?Hl; try done. exists 1%nat. split; [|done]. simpl. rewrite <- En.
      eapply group_runs; [by rewrite Hl|exact Hw'|constructor].
    + destruct Ha as (m & Ha & ->). injection Ha as <- <-.
      split; rewrite ?Hm, ?Hl; try done. exists 1%nat. split; [|done]. simpl. rewrite <- En.
      eapply group_runs; [by rewrite Hl|exact Hw'|constructor].
    + destruct Ha as (m & Ha & ->). rewrite Hc in Ha. injection Ha as <- <-.
      split; rewrite ?Hm, ?Hl; try done. exists 1%nat. split; [|done]. simpl. rewrite <- En.
      eapply group_runs; [by rewrite Hl|exact Hw'|constructor].
    + destruct Ha as (l & [_ (k' & Hk & ->)] & ->). rewrite Ho in Hk. injection Hk as <-.
      split; rewrite ?Hm, ?Hl; simpl; try done.
      * by apply no_sources_set.
      * destruct (decide (o = q)) as [->|]; [congruence|]. by rewrite lookup_insert_ne.
      * exists 0%nat. rewrite lookup_insert_eq, <- En. split; [|done].
        destruct r. apply group_over; [by rewrite Hl|]. by apply (one_done group_job).
  - destruct (env_idle _ _ _ Hi Hs Hst) as [(Hi' & Hm & Hl)|(l1 & j & l2 & E & _)].
    + split; rewrite ?Hm, ?Hl; try done. exists 0%nat. split; [|done]. rewrite <- En.
      apply group_over; by rewrite ?Hl.
    + rewrite Hr in E. by destruct l1.
Qed.

(** Until the wait returns; then the job has counted and left. *)
Lemma cwp_group_wait q o (Q : Z → state → Prop) w :
  in_group q o w →
  (∀ m s w', v_gcount m = 1 → lone s → alone m s w' → objs s !! q = Some Queue →
     objs s !! o = Some (Group 0) → Q 0 w') →
  cwp (lib (dispatch_group_wait o DISPATCH_TIME_FOREVER)) Q w.
Proof.
  intros Hw HQ. unfold lib. apply (cwp_act _ (in_group q o)); [apply in_group_stable|done|].
  clear w Hw. intros w Hw. split; [by eapply in_group_on_time|].
  destruct Hw as [Hs Hq Hc (k & Hp & Ho)]. split; [by eexists|]. split.
  - destruct Hp as [Hr Hi|t n k Hr (l1 & l2 & E & _) Ht|Hr Hi].
    + right. left. by rewrite Hr.
    + right. right. rewrite E. apply Exists_app. right. apply Exists_cons_hd. simpl.
      destruct Ht; simpl.
      * eexists _, _, _. rewrite Hc. by split.
      * by eexists _, _, _.
      * eexists _, _, _. rewrite Hc. by split.
      * eexists tt, _, _. split; [|reflexivity]. split; [by exists 0%nat|]. by eexists.
    + left. exists 0, w, (library w). split; [|by destruct w]. split; [by eexists|].
      split; [done|]. by left.
  - intros r w' (l & [_ [-> [[-> Hz]|[_ Hf]]]] & ->); [|done].
    rewrite Ho in Hz. injection Hz as ->. remember (v_gcount (memory w)) as n0 eqn:En.
    inversion Hp as [|t n k Hr _ Ht|Hr Hi]; subst; [inversion Ht|].
    by apply (HQ (memory w) (library w)); [..|repeat split| |].
Qed.

(** The work was counted, or there was no group. *)
Definition group_result (r : Z * bool) : Prop :=
  r = (1, true) ∨ may_fail a_group = true ∧ r = (-1, false).

Lemma cwp_group_part q (Q : Z * bool → state → Prop) m s w :
  lone s → alone m s w → objs s !! q = Some Queue →
  (∀ r m' s' w', group_result r → lone s' → alone m' s' w' → objs s' !! q = Some Queue → Q r w') →
  cwp (group_part q) Q w.
Proof.
  intros Hs Hw Hq HQ.
  eapply cwp_bind, (cwp_mem_alone idle_on_time _ _ m s); [done..|]. clear w Hw. intros w Hw.
  apply cwp_bind, (cwp_lib_alone idle_on_time _ _ _ s _ Hs Hw); [done|apply some_created|].
  clear w Hw. intros o s1 w [(Ho & Hno & ->)|(Hf & -> & ->)] Hw.
  2: { apply cwp_guarded; [done|intros _]. by apply (HQ _ _ _ _ (or_intror (conj Hf eq_refl)) Hs Hw). }
  apply cwp_guarded; [intros _|intros; lia].
  assert (o ≠ q) as Hoq by congruence.
  assert (lone (set_obj o (Group 0) s)) as Hs1
    by (destruct Hs; split; [done|by apply no_sources_set]).
  eapply cwp_bind, (cwp_mem_alone idle_on_time _ _ _ _ _ _ _ Hs1 Hw); [done|].
  clear w Hw. intros w Hw.
  apply cwp_bind, (cwp_lib_alone idle_on_time _ _ _ _ _ Hs1 Hw);
    [eexists; apply lookup_insert_eq|eexists tt, _, _; split; [apply lookup_insert_eq|done]|].
  clear w Hw. intros [] s2 w (k & Hk & ->) Hw. simpl in Hk.
  rewrite lookup_insert_eq in Hk. injection Hk as <-.
  assert (lone (set_obj o (Group 1) (set_obj o (Group 0) s))) as Hs2
    by (destruct Hs1; split; [done|by apply no_sources_set]).
  apply cwp_bind, (cwp_lib_alone idle_on_time _ _ _ _ _ Hs2 Hw).
  { simpl. by rewrite !lookup_insert_ne. }
  { by eexists tt, _. }
  clear w Hw. intros [] s3 w -> (Hi & Hm & Hl). apply cwp_bind, (cwp_group_wait q o).
  { split; rewrite ?Hm, ?Hl; simpl; try done.
    - by destruct Hs2.
    - by rewrite !lookup_insert_ne.
    - exists 1%nat. rewrite lookup_insert_eq. split; [|done]. apply group_ready; [|done].
      rewrite Hl. simpl. by destruct Hs as [-> _]. }
  clear w Hi Hm Hl. intros m' s' w Hm' Hs' Hw Hq' Ho'.
  eapply cwp_bind, (cwp_mem_alone idle_on_time _ _ _ _ _ _ _ Hs' Hw); [done|].
  clear w Hw. intros w Hw. change (atomic_get gcount m') with (v_gcount m'). rewrite Hm'.
  apply cwp_bind, (cwp_lib_alone idle_on_time _ _ _ _ _ Hs' Hw);
    [by eexists|by eexists tt, _|].
  clear w Hw. intros [] s4 w -> Hw.
  assert (lone (mk_objects (delete o (objs s')) (ready s'))) as Hs4
    by (destruct Hs'; split; [done|by apply no_sources_delete]).
  eapply cwp_bind, (cwp_mem_alone idle_on_time _ _ _ _ _ _ _ Hs4 Hw); [done|].
  clear w Hw. intros w Hw. apply (HQ _ _ _ _ (or_introl eq_refl) Hs4 Hw). simpl.
  by rewrite lookup_delete_ne.
Qed.

(** **** The semaphore *)

(** An object, if there is one. *)
Definition held (k : Z) : list Z := if k =? 0 then [] else [k].

Lemma cwp_semaphore_part q (Q : Z * bool * bool → state → Prop) m s w :
  lone s → alone m s w → objs s !! q = Some Queue →
  (∀ o b m' s' w', (b = false → may_fail a_semaphore = true) → lone s' → alone m' s' w' → o ≠ q ∨ o = 0 →
     objs s' !! q = Some Queue → Forall (λ k, is_Some (objs s' !! k)) (held o) → Q (o, b, b) w') →
  cwp semaphore_part Q w.
Proof.
  intros Hs Hw Hq HQ.
  apply cwp_bind, (cwp_lib_alone idle_on_time _ _ _ s _ Hs Hw); [done|apply some_created|].
  clear w Hw. intros o s1 w [(Ho & Hno & ->)|(Hf & -> & ->)] Hw.
  2: { apply cwp_bind, cwp_guarded; [done|intros _].
       by apply (HQ 0 false _ _ _ (λ _, Hf) Hs Hw); [right|..]. }
  apply cwp_bind, cwp_guarded; [intros _|intros; lia].
  assert (∀ v, lone (set_obj o (Semaphore v) s)) as Hs1
    by (intros v; destruct Hs; split; [done|by apply no_sources_set]).
  assert (∀ v v', set_obj o (Semaphore v) (set_obj o (Semaphore v') s) =
    set_obj o (Semaphore v) s) as Hset.
  { intros v v'. unfold set_obj. simpl. by rewrite insert_insert_eq. }
  assert (∀ v, objs (set_obj o (Semaphore v) s) !! o = Some (Semaphore v)) as Hv
    by (intros v; apply lookup_insert_eq).
  change (Z.to_nat 0) with 0%nat in Hw.
  apply cwp_bind, (cwp_lib_alone idle_on_time _ _ _ _ _ (Hs1 0%nat) Hw);
    [by eexists|eexists 1, _; right; by rewrite Hv|].
  clear w Hw. intros w1 s2 w [[_ (v & Hv' & _)]|(Hw1 & _ & _ & ->)] Hw; [by rewrite Hv in Hv'|].
  apply cwp_bind, (cwp_lib_alone idle_on_time _ _ _ _ _ (Hs1 0%nat) Hw);
    [by eexists|eexists tt, _, _; by rewrite Hv|].
  clear w Hw. intros [] s3 w (v & Hv' & ->) Hw. rewrite Hv in Hv'. injection Hv' as <-.
  rewrite Hset in Hw.
  apply cwp_bind, (cwp_lib_alone idle_on_time _ _ _ _ _ (Hs1 1%nat) Hw);
    [by eexists|eexists 0, _; left; split; [done|]; eexists; by rewrite Hv|].
  clear w Hw. intros w2 s4 w [[-> (v & Hv' & ->)]|(_ & Hv' & _)] Hw; [|by rewrite Hv in Hv'].
  rewrite Hv in Hv'. injection Hv' as <-. rewrite Hset in Hw.
  replace (negb (w1 =? 0)) with true by lia.
  assert (o ≠ q) by congruence.
  apply (HQ o true _ _ w (λ E, match Bool.diff_true_false E with end) (Hs1 0%nat) Hw);
    [by left|by simpl; rewrite lookup_insert_ne|].
  unfold held. rewrite (proj2 (Z.eqb_neq o 0) Ho). constructor; [by eexists|constructor].
Qed.

(** **** [dispatch_after_f] *)

(** The second job before each of its actions, and the counter it sets. *)
Inductive after_stage (o : Z) : thread unit → Z → Prop :=
  | after_0 : after_stage o (dp_after_work actx) 0
  | after_1 : after_stage o (_ ← atomic_store afired 1; o ← after_field actx sem;
                             lib (dispatch_semaphore_signal o)) 0
  | after_2 : after_stage o (o ← after_field actx sem; lib (dispatch_semaphore_signal o)) 1
  | after_3 : after_stage o (lib (dispatch_semaphore_signal o)) 1.

(** How far the job is: what it set the counter to, and how often it signalled. *)
Inductive after_progress (o : Z) (w : state) : Z → nat → Prop :=
  | after_ready : ready (library w) = [late_job] → idle (running w) → after_progress o w 0 0
  | after_runs t n : ready (library w) = [] → one late_job t w → after_stage o t n →
      after_progress o w n 0
  | after_done : ready (library w) = [] → idle (running w) → after_progress o w 1 1.

Lemma after_progress_same o (w w' : state) n v :
  after_progress o w n v → running w' = running w → ready (library w') = ready (library w) →
  after_progress o w' n v.
Proof.
  intros [Hr Hi|t n' Hr (l1 & l2 & E & Hi) Ht|Hr Hi] Hru Hrd.
  - apply after_ready; by rewrite ?Hru, ?Hrd.
  - apply (after_runs o w' t); [by rewrite Hrd|exists l1, l2; by rewrite Hru|done].
  - apply after_done; by rewrite ?Hru, ?Hrd.
Qed.

(** What the other threads do while it is not done. *)
Lemma after_progress_env o w w' n v :
  after_progress o w n v → no_sources (library w) →
  (∀ c, v_actx (memory w) = Some c → c = mk_after_ctx afired o) →
  env_step body w w' →
  after_progress o w' n v ∧ memory w' = memory w ∧ objs (library w') = objs (library w) ∨
  after_progress o w' 1 v ∧ v = 0%nat ∧ memory w' = atomic_set afired 1 (memory w) ∧
    objs (library w') = objs (library w) ∨
  n = 1 ∧ v = 0%nat ∧ after_progress o w' 1 1 ∧ memory w' = memory w ∧
    ∃ x, objs (library w) !! o = Some (Semaphore x) ∧
      objs (library w') = <[o := Semaphore (S x)]> (objs (library w)).
Proof.
  intros Hp Hs Hc Hst. destruct Hp as [Hr Hi|t n Hr Hw Ht|Hr Hi].
  - left. destruct (env_idle _ _ _ Hi Hs Hst) as [(Hi' & Hm & Hl)|(l1 & j & l2 & E & Hw & Hm & Hl)].
    + rewrite Hm, Hl. split; [|done]. apply after_ready; by rewrite ?Hl.
    + rewrite Hr in E. destruct l1 as [|? []]; simplify_eq/=. rewrite Hm, Hl. split; [|done].
      eapply after_runs; [by rewrite Hl|exact Hw|constructor].
  - assert (returned t = false) as Htr by by destruct Ht.
    destruct (env_one _ _ _ _ _ Hw Htr (conj Hr Hs) Hst)
      as [(Hw' & Hm & Hl)|(t' & w1 & Hmv & Hw' & Hm & Hl)].
    { left. rewrite Hm, Hl. split; [|done]. eapply after_runs; [by rewrite Hl|done..]. }
    destruct Ht; destruct Hmv as (r & Ha & ->).
    + left. destruct Ha as (m & Ha & ->). destruct (v_actx (memory w)) as [c|]; [|done].
      specialize (Hc c eq_refl) as ->. injection Ha as <- <-. rewrite Hm, Hl. split; [|done].
      eapply after_runs; [by rewrite Hl|exact Hw'|constructor].
    + right. left. destruct Ha as (m & Ha & ->). injection Ha as <- <-. rewrite Hm, Hl.
      split; [|done]. eapply after_runs; [by rewrite Hl|exact Hw'|constructor].
    + left. destruct Ha as (m & Ha & ->). destruct (v_actx (memory w)) as [c|]; [|done].
      specialize (Hc c eq_refl) as ->. injection Ha as <- <-. rewrite Hm, Hl. split; [|done].
      eapply after_runs; [by rewrite Hl|exact Hw'|constructor].
    + right. right. destruct Ha as (l & [_ (x & Hx & ->)] & ->). destruct r.
      split; [done|]. split; [done|]. rewrite Hm, Hl. split; [|by eauto].
      apply after_done; [by rewrite Hl|]. by apply (one_done late_job).
  - left. destruct (env_idle _ _ _ Hi Hs Hst) as [(Hi' & Hm & Hl)|(l1 & j & l2 & E & _)].
    + rewrite Hm, Hl. split; [|done]. apply after_done; by rewrite ?Hl.
    + rewrite Hr in E. by destruct l1.
Qed.

Lemma env_sources (w w' : state) :
  no_sources (library w) → objs (library w') = objs (library w) → no_sources (library w').
Proof. unfold no_sources. by intros Hs ->. Qed.

(** While the main thread waits: context and semaphore are alive, the semaphore was
    signalled as often as the job did, and the objects in [K] are there. *)
Definition kept (K : list Z) (w : state) : Prop :=
  Forall (λ k, is_Some (objs (library w) !! k)) K.

Record in_after (K : list Z) (o : Z) (w : state) : Prop := {
  ia_sources : no_sources (library w);
  ia_kept : kept K w;
  ia_other : o ∉ K;
  ia_ctx : v_actx (memory w) = Some (mk_after_ctx afired o);
  ia_progress : ∃ v, after_progress o w (v_afired (memory w)) v ∧
    objs (library w) !! o = Some (Semaphore v);
}.

(** After it gave up, or it is over: the context is alive if [c], the semaphore if
    [b]. *)
Record left_over (K : list Z) (o : Z) (c b : bool) (w : state) : Prop := {
  lo_sources : no_sources (library w);
  lo_kept : kept K w;
  lo_other : o ∉ K;
  lo_ctx : v_actx (memory w) = if c then Some (mk_after_ctx afired o) else None;
  lo_sem : if b then ∃ x, objs (library w) !! o = Some (Semaphore x)
           else objs (library w) !! o = None;
  lo_progress : ∃ n v, after_progress o w n v;
}.

Lemma kept_same K (w w' : state) : kept K w → objs (library w') = objs (library w) → kept K w'.
Proof. unfold kept. by intros Hk ->. Qed.

Lemma kept_insert K o x (w w' : state) :
  kept K w → objs (library w') = <[o := x]> (objs (library w)) → kept K w'.
Proof.
  intros Hk E. eapply Forall_impl; [exact Hk|]. intros k Hs. rewrite E.
  destruct (decide (o = k)) as [->|]; [by rewrite lookup_insert_eq|by rewrite lookup_insert_ne].
Qed.

Lemma in_after_stable K o : stable body (in_after K o).
Proof.
  intros w w' [Hs Hk Hno Hc (v & Hp & Ho)] Hst.
  assert (∀ c, v_actx (memory w) = Some c → c = mk_after_ctx afired o) as Hctx by congruence.
  destruct (after_progress_env _ _ _ _ _ Hp Hs Hctx Hst)
    as [(Hp' & Hm & Hl)|[(Hp' & -> & Hm & Hl)|(En & -> & Hp' & Hm & x & Hx & Hl)]].
  - split; rewrite ?Hm, ?Hl; try done; [by eapply env_sources|by eapply kept_same|].
    by exists v.
  - split; rewrite ?Hm, ?Hl; try done; [by eapply env_sources|by eapply kept_same|].
    by exists 0%nat.
  - rewrite Ho in Hx. injection Hx as <-. split; rewrite ?Hm; try done.
    + intros k f y bb. rewrite Hl. by apply (no_sources_set o (Semaphore 1) (library w)).
    + by eapply kept_insert.
    + exists 1%nat. by rewrite Hl, lookup_insert_eq, En.
Qed.

Lemma left_over_stable K o c b : stable body (left_over K o c b).
Proof.
  intros w w' [Hs Hk Hno Hc Ho (n & v & Hp)] Hst.
  assert (∀ c, v_actx (memory w) = Some c → c = mk_after_ctx afired o) as Hctx
    by (rewrite Hc; destruct c; congruence).
  destruct (after_progress_env _ _ _ _ _ Hp Hs Hctx Hst)
    as [(Hp' & Hm & Hl)|[(Hp' & -> & Hm & Hl)|(En & -> & Hp' & Hm & x & Hx & Hl)]].
  - split; rewrite ?Hm, ?Hl; try done; [by eapply env_sources|by eapply kept_same|by eauto].
  - split; rewrite ?Hm, ?Hl; try done; [by eapply env_sources|by eapply kept_same|by eauto].
  - destruct b; [|congruence]. split; rewrite ?Hm; try done.
    + intros k f y bb. rewrite Hl. by apply (no_sources_set o (Semaphore (S x)) (library w)).
    + by eapply kept_insert.
    + exists (S x). by rewrite Hl, lookup_insert_eq.
    + by eauto.
Qed.

Lemma progress_on_time o w n v :
  after_progress o w n v →
  (v_actx (memory w) = Some (mk_after_ctx afired o) ∧ ((∃ x, objs (library w) !! o = Some (Semaphore x))
     ∨ objs (library w) !! o = None) ∨ v_actx (memory w) = None) →
  on_time w.
Proof.
  intros [Hr Hi|t n' Hr Hw Ht|Hr Hi] Hc; [by apply idle_on_time| |by apply idle_on_time].
  eapply one_on_time; [done|]. unfold after_over.
  destruct Hc as [[Hc Hx]|Hc]; rewrite Hc; [|by right]. simpl.
  destruct Hx as [Hx|Hx]; [left|by right]. destruct Ht; simpl; rewrite ?Hc; try done; by eexists.
Qed.

Lemma in_after_on_time K o w : in_after K o w → on_time w.
Proof. intros [Hs Hk Hno Hc (v & Hp & Ho)]. eapply progress_on_time; [done|]. left. eauto. Qed.

Lemma left_over_on_time K o c b w : left_over K o c b w → on_time w.
Proof.
  intros [Hs Hk Hno Hc Ho (n & v & Hp)]. eapply progress_on_time; [done|].
  destruct c; [left|by right]. destruct b; auto.
Qed.

(** The wait returns 0 when the job has set the counter and signalled, or gives up
    before. *)
Lemma cwp_after_wait K o ns (Q : Z → state → Prop) w :
  in_after K o w →
  (∀ m s w', v_afired m = 1 → lone s → alone m s w' → is_Some (objs s !! o) →
     kept K w' → o ∉ K → Q 0 w') →
  (∀ r w', r ≠ 0 → left_over K o true true w' → Q r w') →
  cwp (lib (dispatch_semaphore_wait o (from_now ns))) Q w.
Proof.
  intros Hw HQ0 HQ1. unfold lib.
  apply (cwp_act _ (in_after K o)); [apply in_after_stable|done|]. clear w Hw. intros w Hw.
  split; [by eapply in_after_on_time|]. destruct Hw as [Hs Hk Hno Hc (v & Hp & Ho)].
  assert (∃ x, objs (library w) !! o = Some (Semaphore x)) as Hpre by by exists v.
  split; [exact Hpre|]. split.
  - left. destruct v as [|v].
    + exists 1, w, (library w). split; [|by destruct w]. split; [exact Hpre|]. by right.
    + exists 0. do 2 eexists. split; [|reflexivity]. split; [exact Hpre|]. left.
      split; [done|]. by exists v.
  - intros r w' (l & [_ [[-> (x & Hx & ->)]|(Hr & _ & _ & ->)]] & ->).
    + rewrite Ho in Hx. injection Hx as ->. remember (v_afired (memory w)) as n eqn:En.
      inversion Hp as [|t n' _ _ _|Hr Hi]; subst.
      apply (HQ0 (memory w) (set_obj o (Semaphore 0) (library w))); try done.
      * split; [done|by apply no_sources_set].
      * eexists. apply lookup_insert_eq.
      * by eapply kept_insert.
    + apply HQ1; [done|]. split; try done.
      eexists _, v. by eapply after_progress_same.
Qed.

(** The handler was never submitted. *)
Record nothing_left (K : list Z) (w : state) : Prop := {
  nl_lone : lone (library w);
  nl_idle : idle (running w);
  nl_kept : kept K w;
}.

Lemma nothing_left_stable K : stable body (nothing_left K).
Proof.
  intros w w' [[Hr Hs] Hi Hk] Hst.
  destruct (env_idle _ _ _ Hi Hs Hst) as [(Hi' & _ & Hl)|(l1 & j & l2 & E & _)];
    [|rewrite Hr in E; by destruct l1].
  split; rewrite ?Hl; try done. by eapply kept_same; [|rewrite Hl].
Qed.

(** The end of the block, and what follows. *)
Definition ended (b : bool) (K : list Z) (w : state) : Prop :=
  ((∃ o, left_over K o false false w) ∨ nothing_left K w) ∧
  (b = true → ready (library w) = [] ∧ idle (running w)).

Lemma ended_stable b K : stable body (ended b K).
Proof.
  intros w w' [Hw Hb] Hst. assert (no_sources (library w)) as Hs
    by (destruct Hw as [[o []]|[[]]]; done). split.
  - destruct Hw as [[o Hw]|Hw]; [left; exists o; by eapply left_over_stable|].
    right. by eapply nothing_left_stable.
  - intros Hbt. destruct (Hb Hbt) as [Hr Hi].
    destruct (env_idle _ _ _ Hi Hs Hst) as [(Hi' & _ & Hl)|(l1 & j & l2 & E & _)];
      [by rewrite Hl|]. rewrite Hr in E. by destruct l1.
Qed.

Lemma ended_on_time b K w : ended b K w → on_time w.
Proof. intros [[[o Hw]|[_ Hi _]] _]; [by eapply left_over_on_time|by apply idle_on_time]. Qed.

Lemma ended_unaware b K : unaware (ended b K).
Proof.
  intros w k [[[o [Hs Hk Hno Hc Ho (n & v & Hp)]]|Hw] Hb]; split; [|done| |done].
  - left. exists o. split; try done. exists n, v. by eapply after_progress_same.
  - right. by destruct Hw; split.
Qed.

Lemma kept_delete K k (w w' : state) :
  kept K w → k ∉ K → objs (library w') = delete k (objs (library w)) → kept K w'.
Proof.
  intros Hk Hn E. apply Forall_forall. intros k' Hin. rewrite E.
  rewrite lookup_delete_ne by congruence. by eapply Forall_forall in Hk.
Qed.

Lemma ended_delete b K k (w : state) :
  ended b (k :: K) w → k ∉ K →
  ended b K (mk_world (running w) (memory w) (mk_objects (delete k (objs (library w))) (ready (library w)))
               (kernel w)).
Proof.
  intros [[[o [Hs Hkp Hno Hc Ho (n & v & Hp)]]|[[Hr Hs] Hi Hkp]] Hb] Hk; (split; [|done]);
    apply Forall_cons in Hkp as [Hx Hkp].
  - left. exists o. split; simpl; try done.
    + by apply no_sources_delete.
    + by eapply kept_delete.
    + set_solver.
    + apply lookup_delete_None. by right.
    + exists n, v. by eapply after_progress_same.
  - right. split; simpl; [by split; [|apply no_sources_delete]|done|by eapply kept_delete].
Qed.

Lemma cwp_ended_release b K k (Q : unit → state → Prop) w :
  ended b (held k ++ K) w → k ∉ K → (∀ w', ended b K w' → Q tt w') →
  cwp (guarded (negb (k =? 0)) tt (lib (dispatch_release k))) Q w.
Proof.
  unfold held. intros Hw Hk HQ. destruct (k =? 0); [by apply HQ|]. cbn [guarded negb]. unfold lib.
  apply (cwp_act _ (ended b (k :: K))); [apply ended_stable|done|]. clear w Hw.
  intros w Hw. split; [by eapply ended_on_time|].
  assert (is_Some (objs (library w) !! k)) as Hx
    by (destruct Hw as [[[o [_ Hkp _ _ _ _]]|[_ _ Hkp]] _]; by apply Forall_cons in Hkp as [Hx _]).
  split; [done|]. split.
  { left. eexists tt, _, _. split; [|reflexivity]. by split. }
  intros [] w' (l & [_ ->] & ->). by apply HQ, ended_delete.
Qed.

Lemma cwp_gave_up K o (Q : bool → state → Prop) w :
  left_over K o true true w → (∀ w', ended false K w' → Q false w') →
  cwp (_ ← lib (dispatch_release o); _ ← set_actx None; mret false) Q w.
Proof.
  intros Hw HQ. apply cwp_bind. unfold lib.
  apply (cwp_act _ (left_over K o true true)); [apply left_over_stable|done|]. clear w Hw.
  intros w Hw. split; [by eapply left_over_on_time|].
  destruct Hw as [Hs Hk Hno Hc [x Hx] (n & v & Hp)].
  assert (is_Some (objs (library w) !! o)) as Hpre by by eexists.
  split; [exact Hpre|]. split; [left; eexists tt, _, _; split; [by split|reflexivity]|].
  intros [] w' (l & [_ ->] & ->). apply cwp_bind. unfold set_actx, mem.
  apply (cwp_act _ (left_over K o true false)); [apply left_over_stable| |].
  { split; simpl; try done.
    - by apply no_sources_delete.
    - apply Forall_forall. intros k' Hin. simpl.
      rewrite lookup_delete_ne by congruence. by eapply Forall_forall in Hk.
    - apply lookup_delete_eq.
    - exists n, v. by eapply after_progress_same. }
  clear w x Hs Hk Hno Hc Hx n v Hp Hpre. intros w Hw. split; [by eapply left_over_on_time|].
  split; [by eexists|]. split; [left; eexists tt, _, _; by split|].
  intros [] w' (m & [= <-] & ->). apply HQ. split; [left|done].
  destruct Hw as [Hs Hk Hno Hc Hx (n & v & Hp)]. exists o. split; simpl; try done.
  exists n, v. by eapply after_progress_same.
Qed.

Lemma cwp_fired K o (Q : bool → state → Prop) m s w :
  v_afired m = 1 → lone s → alone m s w → is_Some (objs s !! o) → kept K w → o ∉ K →
  (∀ w', ended true K w' → Q true w') →
  cwp (after_fired ← guarded (0 =? 0) false (n ← atomic_load afired; mret (n =? 1));
       _ ← lib (dispatch_release o); _ ← set_actx None; mret after_fired) Q w.
Proof.
  intros Hm Hs Hw Ho Hk Hno HQ. apply cwp_bind, cwp_guarded; [intros _|done].
  assert (kept K w ↔ Forall (λ k, is_Some (objs s !! k)) K) as Hks
    by (unfold kept; by destruct Hw as (_ & _ & ->)).
  apply Hks in Hk. clear Hks.
  eapply cwp_bind, (cwp_mem_alone idle_on_time _ _ _ _ _ _ _ Hs Hw); [done|].
  clear w Hw. intros w Hw. change (atomic_get afired m) with (v_afired m). rewrite Hm.
  apply cwp_bind, (cwp_lib_alone idle_on_time _ _ _ _ _ Hs Hw); [done|by eexists tt, _|].
  clear w Hw. intros [] s' w -> Hw.
  assert (lone (mk_objects (delete o (objs s)) (ready s))) as Hs'
    by (destruct Hs; split; [done|by apply no_sources_delete]).
  eapply cwp_bind, (cwp_mem_alone idle_on_time _ _ _ _ _ _ _ Hs' Hw); [done|].
  clear w Hw. intros w (Hi & Hmem & Hl). apply HQ. destruct Hs' as [Hr Hns].
  split; [left|by rewrite Hl]. exists o. split; rewrite ?Hmem; try done; rewrite ?Hl; try done.
  - apply Forall_forall. intros k Hin. rewrite Hl. simpl.
    rewrite lookup_delete_ne by congruence. by eapply Forall_forall in Hk.
  - apply lookup_delete_eq.
  - exists 1, 1%nat. apply after_done; by rewrite ?Hl.
Qed.

Lemma cwp_after_part K q (Q : bool → state → Prop) m s w :
  lone s → alone m s w → objs s !! q = Some Queue → q ≠ 0 → q ∈ K →
  Forall (λ k, is_Some (objs s !! k)) K →
  (∀ b w', ended b K w' → Q b w') →
  cwp (after_part q) Q w.
Proof.
  intros Hs Hw Hq Hq0 HqK HK HQ.
  eapply cwp_bind, (cwp_mem_alone idle_on_time _ _ m s); [done..|]. clear w Hw. intros w Hw.
  apply cwp_bind, (cwp_lib_alone idle_on_time _ _ _ s _ Hs Hw); [done|apply some_created|].
  clear w Hw. intros o s1 w [(Ho & Hno & ->)|(Hf & -> & ->)] Hw.
  2: { apply cwp_guarded; [done|intros _]. apply HQ. destruct Hw as (Hi & _ & Hl).
       split; [right|done]. split; [by rewrite Hl|done|].
       eapply Forall_impl; [exact HK|]. intros k. by rewrite Hl. }
  apply cwp_guarded; [intros _|lia].
  assert (o ∉ K) as HoK.
  { intros Hin. eapply Forall_forall in HK as [y Hy]; [|exact Hin]. congruence. }
  change (Z.to_nat 0) with 0%nat in Hw.
  assert (lone (set_obj o (Semaphore 0) s)) as Hs1
    by (destruct Hs; split; [done|by apply no_sources_set]).
  eapply cwp_bind, (cwp_mem_alone idle_on_time _ _ _ _ _ _ _ Hs1 Hw); [done|].
  clear w Hw. intros w Hw.
  apply cwp_bind, (cwp_lib_alone idle_on_time _ _ _ _ _ Hs1 Hw).
  { simpl. rewrite lookup_insert_ne by congruence. done. }
  { by eexists tt, _. }
  clear w Hw. intros [] s2 w -> (Hi & Hm & Hl).
  apply cwp_bind, (cwp_after_wait K o).
  - split; rewrite ?Hm, ?Hl; simpl; try done.
    + by destruct Hs1.
    + eapply (kept_insert K o (Semaphore 0) (mk_world [] m s (kernel w))); [exact HK|].
      by rewrite Hl.
    + exists 0%nat. rewrite lookup_insert_eq. split; [|done].
      apply after_ready; [|done]. rewrite Hl. simpl. by destruct Hs as [-> _].
  - intros m' s' w' Hm' Hs' Hw' Ho' Hk' _. eapply cwp_fired; eauto.
  - intros r w' Hr Hw'. apply cwp_bind, cwp_guarded; [lia|intros _].
    by eapply cwp_gave_up; [|intros; apply HQ].
Qed.

(** **** The whole of [main] *)

Definition late : verdict :=
  fail_contract "dispatch_after_f handler did not fire within the bound".
Definition no_semaphore : verdict :=
  fail_contract "semaphore did not time out when unsignaled, then succeed after signal".
Definition no_group : verdict :=
  fail_contract "group enter/leave/wait did not balance + run the work".

(** The group and the semaphore did as they should, or were not there. *)
Definition observed_well (o : obs) : Prop :=
  group_result (group_count o, group_ok o) ∧
  sem_signal_wait_ok o = sem_timeout_observed o ∧
  (sem_timeout_observed o = false → may_fail a_semaphore = true).

Definition settled (o : obs) (w : state) : Prop := observed_well o ∧ ended (after_fired o) [] w.

Lemma dprim_cwp_observe garbage m s w :
  NX_HAVE_DISPATCH = true → lone s → alone m s w → cwp (observe garbage) settled w.
Proof.
  intros Hd Hs Hw. unfold observe. rewrite Hd.
  apply cwp_bind, (cwp_lift_alone idle_on_time _ _ m s); [done..|]. clear w Hw.
  intros b w Hw. unfold service.
  apply cwp_bind, (cwp_lib_alone idle_on_time _ _ _ s _ Hs Hw); [done|apply some_created|].
  clear w Hw. intros q s1 w (Hq & Hno & ->)%creates_only Hw; [|done].
  assert (lone (set_obj q Queue s)) as Hs1
    by (destruct Hs; split; [done|by apply no_sources_set]).
  apply cwp_bind, (cwp_group_part _ _ _ _ _ Hs1 Hw); [apply lookup_insert_eq|].
  clear w Hw Hs1 Hno m s Hs. intros [gc gok] m s w Hg Hs Hw Hqq.
  apply cwp_bind, (cwp_semaphore_part _ _ _ _ _ Hs Hw Hqq).
  clear w Hw Hqq m s Hs. intros o sok m s w Hf Hs Hw Hoq Hqq Hoo.
  assert (held q = [q]) as Hhq by (unfold held; by rewrite (proj2 (Z.eqb_neq q 0) Hq)).
  apply cwp_bind, (cwp_after_part (held o ++ [q]) q _ _ _ _ Hs Hw Hqq Hq); [set_solver| |].
  { apply Forall_app. split; [done|]. constructor; [by eexists|constructor]. }
  clear w Hw Hqq Hoo m s Hs. intros af w Hw.
  apply cwp_bind, (cwp_ended_release af [q] o); [done|set_solver|]. clear w Hw. intros w Hw.
  apply cwp_bind, (cwp_ended_release af [] q); [by rewrite Hhq|set_solver|]. clear w Hw. intros w Hw.
  apply cwp_bind, (cwp_lift body on_time _ (ended af [])); [apply ended_stable|apply ended_unaware
    |apply ended_on_time|done|].
  clear w Hw. intros a w Hw. split; [|exact Hw]. by split.
Qed.

(** The verdict tells what was there and whether the handler was in time. *)
Definition verdict_for (o : obs) : verdict :=
  if group_ok o then if sem_timeout_observed o then if after_fired o then pass else late
                     else no_semaphore
  else no_group.

Lemma settled_verdict o w :
  NX_HAVE_DISPATCH = true → settled o w → verdict_of o = verdict_for o.
Proof.
  intros Hd ((_ & H1' & _) & _). unfold verdict_of, ladder_of, verdict_for.
  rewrite Hd, H1'. by destruct (group_ok o), (sem_timeout_observed o), (after_fired o).
Qed.

Definition outcome_ok (r : option outcome) (w : state) : Prop :=
  ∃ o, r = finish (report o (verdict_of o)) (verdict_of o) ∧ observed_well o ∧
    verdict_of o = verdict_for o ∧
    (after_fired o = true → ready (library w) = [] ∧ idle (running w)).

Lemma dprim_cwp_main garbage m s w :
  NX_HAVE_DISPATCH = true → lone s → alone m s w → cwp (main garbage) outcome_ok w.
Proof.
  intros Hd Hs Hw. apply cwp_bind. eapply cwp_mono; [by eapply dprim_cwp_observe|].
  intros o w' Ho. pose proof (settled_verdict _ _ Hd Ho) as Hv.
  destruct Ho as (Hc & He).
  assert (∀ {A} (p : prog A) Q w, ended (after_fired o) [] w →
    (∀ a w, ended (after_fired o) [] w → Q a w) → cwp (lift p) Q w) as Hlift.
  { intros A p Q w0 H1' H2'. by apply (cwp_lift body on_time p (ended (after_fired o) []));
      [apply ended_stable|apply ended_unaware|apply ended_on_time|..]. }
  apply cwp_bind, Hlift; [done|]. intros _ w1 He1.
  apply cwp_bind, Hlift; [done|]. intros _ w2 [_ He2]. by exists o.
Qed.
End schedules.

(** *** Bounds *)

Lemma dprim_bounded_body f c : bounded false 4 (body f c).
Proof.
  destruct f; [apply (bounded_bind _ 1 3)|apply (bounded_bind _ 1 3)];
    try (by repeat split); intros a;
    (apply (bounded_bind _ 1 2); [by repeat split|]); intros [];
    (apply (bounded_bind _ 1 1); [by repeat split|]); intros o; by repeat split.
Qed.

Ltac bounded_steps :=
  repeat match goal with
  | |- bounded _ (S ?n) (act _ ≫= _) => apply (bounded_bind _ 1 n); [by apply bounded_act|intros ?]
  end; try done.

Lemma bounded_parts q :
  bounded true 9 (group_part q) ∧ bounded true 4 semaphore_part ∧ bounded true 8 (after_part q).
Proof.
  split; [|split]; unfold group_part, semaphore_part, after_part, lib, set_gctx, set_actx,
    atomic_store, atomic_load, mem; bounded_steps.
  - apply bounded_guarded; bounded_steps.
  - apply (bounded_bind _ 3 0); [apply bounded_guarded; bounded_steps|by intros []].
  - apply bounded_guarded; bounded_steps.
    apply (bounded_bind _ 1 2); [apply bounded_guarded; bounded_steps|intros; bounded_steps].
Qed.

Lemma dprim_bounded_main garbage : bounded true 32 (main garbage).
Proof.
  apply (bounded_bind _ 28 4); [|intros o; apply bounded_closing].
  apply (bounded_bind _ 1 27); [apply bounded_capture|]. intros b.
  destruct NX_HAVE_DISPATCH; [|done].
  apply (bounded_bind _ 1 26); [by apply bounded_act|]. intros q.
  destruct (bounded_parts q) as (B1 & B2 & B3).
  apply (bounded_bind _ 9 17); [done|]. intros [n ok].
  apply (bounded_bind _ 4 13); [done|]. intros [[sem b1] b2].
  apply (bounded_bind _ 8 5); [done|]. intros af.
  apply (bounded_bind _ 1 4); [apply bounded_guarded; by apply bounded_act|]. intros [].
  apply (bounded_bind _ 1 3); [apply bounded_guarded; by apply bounded_act|]. intros [].
  by apply (bounded_bind _ 3 0); [apply bounded_second_capture|].
Qed.

(** C15: with any library that keeps its documented behaviour and has the queue there is to
    be had (the program does not look at the result of [dispatch_queue_create] before it
    uses it; the group and the semaphores may be [NULL]), any kernel and in every schedule: the probe is over after at most 224 steps; until then it can go on, and
    nothing is undefined except what the second job does once the main thread has
    given it up; the group has balanced unless it was [NULL], and the semaphore has timed
    out and then succeeded unless it was [NULL]; the verdict is the one for the first
    that was not there, or else a pass or the one for a handler that was late; and when
    the handler was in time no job is left. *)
Theorem primitives_complete {W L} `{Kernel W} `{Failures}
    `{Library func var L} `{!DispatchContract func var L} garbage m l k0 :
  may_fail a_queue = false →
  NX_HAVE_DISPATCH = true → lib_healthy l → objs (objects_of l) = ∅ →
  ready (objects_of l) = [] →
  let start := (main garbage, mk_world [] m l k0) in
  (∀ n c, nsteps (step body) n start c → (n ≤ 224)%nat) ∧
  ∀ p w, rtc (step body) start (p, w) →
    match p with
    | Done r => outcome_ok r (seen w)
    | Do c _ => on_time (seen w) ∧ defined c (seen w) ∧ ∃ c', step body (p, w) c'
    end.
Proof.
  intros Hq Hd Hl Ho Hr start. split.
  - intros n c Hn. by apply (run_length body 4 32 (main garbage) (mk_world [] m l k0) c n
      dprim_bounded_body (dprim_bounded_main garbage)).
  - intros p w Hs.
    apply (cwp_adequate body on_time (main garbage) p outcome_ok (mk_world [] m l k0) w Hl);
      [|done].
    apply (dprim_cwp_main Hq garbage m (objects_of l)); [done| |by split; [constructor|]].
    split; [done|]. intros o f x b. by rewrite Ho.
Qed.
End facts.

(** The theorems at the reference library and kernel. *)
Section witnesses.
Import OnMacos.

(** The queue is the one thing of which the library does not run out. *)
#[local] Instance dprim_failures : Failures := λ k, match k with a_queue => false | _ => true end.
#[local] Instance both_headers : Headers := {| has_dispatch_h := true; has_mach_h := true |}.

Definition garbage0 : nx_baseline_t := zero_baseline.
Definition memory0 : shared := mk_shared 3 5 None None.
Definition start0 : thread (option outcome) * @world func var shared machine (@ref_lib func var) :=
  (main garbage0, mk_world [] memory0 (mk_ref (mk_objects ∅ [])) boot).

(** Up to [dispatch_after_f], with the first job run in between. *)
Definition until_after : list choice :=
  repeat Main 7 ++ Start :: repeat (Work 0) 5 ++ repeat Main 12.

(** The handler fires; or it starts after the block was left; or it is about to
    signal when the semaphore is released. *)
Definition on_schedule : list choice :=
  until_after ++ Start :: repeat (Work 0) 5 ++ repeat Main 11.
Definition too_late : list choice := until_after ++ repeat Main 3 ++ [Start].
Definition overtaken : list choice :=
  until_after ++ Start :: repeat (Work 0) 3 ++ repeat Main 2.

Lemma finished0 :
  ∃ r, result_of (schedule body (@refuse) on_schedule start0) = Some r ∧ exit_status <$> r = Some 0.
Proof.
  enough (match result_of (schedule body (@refuse) on_schedule start0) with
          | Some r => bool_decide (exit_status <$> r = Some 0) | None => false end = true) as Hf.
  { destruct (result_of _) as [r|]; [|done]. exists r. by apply bool_decide_eq_true in Hf. }
  by vm_compute.
Qed.

Lemma with_dispatch : NX_HAVE_DISPATCH = true.
Proof. done. Qed.

Lemma primitives_complete_witness :
  may_fail a_queue = false ∧ NX_HAVE_DISPATCH = true ∧ lib_healthy (mk_ref (F := func) (X := var) (mk_objects ∅ [])) ∧
  ∃ r w, rtc (step body) start0 (Done r, w) ∧ exit_status <$> r = Some 0 ∧
    outcome_ok r (seen w).
Proof.
  do 3 (split; [done|]). destruct finished0 as (r & E & Hr).
  destruct (result_steps body (@refuse) _ _ _ E) as [w Hs].
  pose proof (primitives_complete (H := macos) (H0 := both_headers) (W := machine)
    (L := @ref_lib func var) garbage0 memory0 (mk_ref (mk_objects ∅ [])) boot
    eq_refl with_dispatch (ref_healthy _) eq_refl eq_refl) as [_ Hall].
  exists r, w. split; [exact Hs|]. split; [exact Hr|exact (Hall _ _ Hs)].
Defined.

Lemma primitives_holdings_witness :
  APPLE = true ∧ NX_HAVE_DISPATCH = true ∧
  holding (main garbage0) (λ _ s, s = no_holdings) no_holdings.
Proof.
  split; [done|]. split; [done|]. by apply (primitives_holdings garbage0 on_macos with_dispatch).
Defined.

(** A handler that [dispatch_after_f] starts late is not waited for: there is a run
    in which it starts when the block with its context has been left, and reads the
    context; and one in which it is about to signal the semaphore that the main thread
    has released after its wait timed out. *)
Theorem late_handler_undefined :
  (∃ p w, rtc (step body) start0 (p, w) ∧ returned p = false ∧
     v_actx (memory w) = None ∧ ¬ jobs_defined (seen w)) ∧
  (∃ p w c, rtc (step body) start0 (p, w) ∧ returned p = false ∧
     v_actx (memory w) = Some c ∧ objs (ref_objects (library w)) !! sem c = None ∧
     ¬ jobs_defined (seen w)).
Proof.
  split.
  - destruct (reaches_steps body (@refuse) (λ w, undefined_now w &&
        match v_actx (memory w) with None => true | Some _ => false end) too_late start0)
      as (p & w & Hs & Hp & [Hu Hc]%andb_prop); [by vm_compute|].
    exists p, w. split; [done|]. split; [done|].
    destruct (v_actx (memory w)); [done|]. split; [done|]. by apply undefined_now_sound.
  - destruct (reaches_steps body (@refuse) (λ w, undefined_now w &&
        match v_actx (memory w) with
        | Some c => bool_decide (objs (ref_objects (library w)) !! sem c = None)
        | None => false end) overtaken start0)
      as (p & w & Hs & Hp & [Hu Hc]%andb_prop); [by vm_compute|].
    destruct (v_actx (memory w)) as [c|] eqn:E; [|done]. apply bool_decide_eq_true in Hc.
    exists p, w, c. do 4 (split; [done|]). by apply undefined_now_sound.
Qed.
End witnesses.
End DispatchPrimitives.
