(* ===== verification/DispatchMachRecv.v ===== *)
(** [macos-validation/probes/dispatch/dispatch_mach_recv_source.c]: a source that
    watches a receive right, and its handler, which receives the message. *)

From stdpp Require Import gmap gmultiset relations.
From S2P Require Import Prelude Json NxJson JsonText Builder MachApi NxMachUtils Ledger.
From S2P Require Import MachContract NxResult Probe RefKernel Dispatch.

Local Open Scope oracle_scope.
Local Open Scope Z_scope.

Module DispatchMachRecv.
Import Dispatch.Dispatch.

Definition DMRS_MSG_ID : Z := 0x444d5253.
Definition DMRS_WAIT_NS : Z := 2 * 1000 * 1000 * 1000.

(** The function handed to the library, and the object its context points to: a
    variable of [main], alive until the process ends.  It is all the threads share. *)
Inductive func : Set := dmrs_handler_f.
Inductive var : Set := ctx_var.

Record dmrs_ctx_t := mk_ctx {
  sem : Z;
  port : mach_port_t;
  serviced : Z;
  recv_kr : kern_return_t;
}.

Abbreviation thread := (thread func var dmrs_ctx_t).

Definition read {A} (field : dmrs_ctx_t → A) : thread A := mem (λ m, Some (field m, m)).
Definition set_sem (s : Z) : thread unit :=
  mem (λ m, Some (tt, mk_ctx s (port m) (serviced m) (recv_kr m))).
Definition set_port (p : mach_port_t) : thread unit :=
  mem (λ m, Some (tt, mk_ctx (sem m) p (serviced m) (recv_kr m))).
Definition set_serviced (n : Z) : thread unit :=
  mem (λ m, Some (tt, mk_ctx (sem m) (port m) n (recv_kr m))).
Definition set_recv_kr (k : kern_return_t) : thread unit :=
  mem (λ m, Some (tt, mk_ctx (sem m) (port m) (serviced m) k)).

Section dispatch_mach_recv.
Context `{Host} `{MachSdk} `{Headers}.

(** [NX_HAVE_DISPATCH] of this file *)
Definition NX_HAVE_DISPATCH : bool := has_mach_h && has_dispatch_h.

(** [sizeof(msg)] in the handler *)
Definition sizeof_recv_msg : Z := sizeof_mach_msg_header + sizeof_mach_msg_max_trailer.

Definition receive_call (p : mach_port_t) : mach_call (mach_msg_return_t * mach_msg_buf) :=
  mach_msg zero_msg (Z.lor MACH_RCV_MSG MACH_RCV_TIMEOUT) 0 sizeof_recv_msg p 500
    MACH_PORT_NULL.

Definition dmrs_handler (c : var) : thread unit :=
  p ← read port;
  '(k, _) ← lift (call (receive_call p));
  _ ← set_recv_kr k;
  k ← read recv_kr;
  _ ← guarded (k =? MACH_MSG_SUCCESS) tt (set_serviced 1);
  s ← read sem;
  lib (dispatch_semaphore_signal s).

Definition body (f : func) (c : var) : thread unit :=
  match f with dmrs_handler_f => dmrs_handler c end.

Definition send_msg (p : mach_port_t) : mach_msg_buf :=
  mk_msg (MACH_MSGH_BITS MACH_MSG_TYPE_MAKE_SEND 0) sizeof_mach_msg_header p MACH_PORT_NULL
    DMRS_MSG_ID 0 zero_desc zero_desc.

Definition send_call (p : mach_port_t) : mach_call (mach_msg_return_t * mach_msg_buf) :=
  mach_msg (send_msg p) (Z.lor MACH_SEND_MSG MACH_SEND_TIMEOUT) (msgh_size (send_msg p)) 0
    MACH_PORT_NULL 5000 MACH_PORT_NULL.

Record obs := mk_obs {
  before : nx_baseline_t;
  after : nx_baseline_t;
  kr_alloc : kern_return_t;
  kr_send : kern_return_t;
  kr_dest : kern_return_t;
  handler_serviced : Z;
  o_recv_kr : Z;
}.

(** The part under [if (src != NULL)]. *)
Definition watch (p src : Z) : thread (Z * Z * Z) :=
  s ← lib (dispatch_semaphore_create 0);
  _ ← set_sem s;
  _ ← set_port p;
  _ ← lib (dispatch_set_context src ctx_var);
  _ ← lib (dispatch_source_set_event_handler_f src dmrs_handler_f);
  _ ← lib (dispatch_resume src);
  '(kr_send, _) ← lift (call (send_call p));
  _ ← guarded (kr_send =? KERN_SUCCESS) 0
        (s ← read sem; lib (dispatch_semaphore_wait s (from_now DMRS_WAIT_NS)));
  handler_serviced ← read serviced;
  recv_kr ← read recv_kr;
  _ ← lib (dispatch_release src);
  s ← read sem;
  _ ← guarded (negb (s =? 0)) tt (lib (dispatch_release s));
  mret (kr_send, handler_serviced, recv_kr).

(** The part under [if (kr_alloc == KERN_SUCCESS)]. *)
Definition with_port (p : mach_port_t) : thread (Z * Z * Z * Z) :=
  q ← lib (dispatch_queue_create "nx.dmrs");
  src ← lib (dispatch_source_create p q);
  '(kr_send, handler_serviced, recv_kr) ←
    guarded (negb (src =? 0)) (KERN_FAILURE, 0, KERN_FAILURE) (watch p src);
  _ ← guarded (negb (q =? 0)) tt (lib (dispatch_release q));
  kr_dest ← lift (call (mach_port_destroy p));
  mret (kr_send, handler_serviced, recv_kr, kr_dest).

(** The part under [#if NX_HAVE_DISPATCH]. *)
Definition service (garbage before : nx_baseline_t) : thread obs :=
  _ ← mem (λ _, Some (tt, mk_ctx 0 0 0 KERN_FAILURE));
  '(kr_alloc, p) ← lift (call (mach_port_allocate MACH_PORT_RIGHT_RECEIVE));
  '(kr_send, handler_serviced, recv_kr, kr_dest) ←
    guarded (kr_alloc =? KERN_SUCCESS) (KERN_FAILURE, 0, KERN_FAILURE, KERN_FAILURE)
      (with_port p);
  after ← lift (second_capture garbage);
  mret (mk_obs before after kr_alloc kr_send kr_dest handler_serviced recv_kr).

(** [garbage] is the uninitialized [after]. *)
Definition observe (garbage : nx_baseline_t) : thread obs :=
  before ← lift nx_baseline_capture;
  if NX_HAVE_DISPATCH then service garbage before
  else mret (mk_obs before garbage KERN_FAILURE KERN_FAILURE KERN_FAILURE 0 KERN_FAILURE).

Definition ladder_of (o : obs) : list (bool * verdict) :=
  [(negb (kr_alloc o =? KERN_SUCCESS), probe_failure "mach_port_allocate(RECEIVE) failed");
   (negb (kr_send o =? KERN_SUCCESS), probe_failure "mach_msg SEND to the recv port failed");
   (handler_serviced o =? 0,
     fail_contract "DISPATCH_SOURCE_TYPE_MACH_RECV did not fire + service the message");
   (negb (kr_dest o =? KERN_SUCCESS), fail_probe "mach_port_destroy failed")].

Definition verdict_of (o : obs) : verdict :=
  if NX_HAVE_DISPATCH then ladder (ladder_of o)
  else skip "host without Mach+dispatch: MACH_RECV source not available".

Definition cleanup_ok (o : obs) : bool :=
  if NX_HAVE_DISPATCH then (nx_baseline_compare (before o) (after o)).1 else true.
Definition cleanup_delta (o : obs) : Z :=
  if NX_HAVE_DISPATCH then (nx_baseline_compare (before o) (after o)).2 else 0.
Definition cleanup_notes (o : obs) : string :=
  if NX_HAVE_DISPATCH then
    (if cleanup_ok o then ""
     else "libdispatch leaves internal Mach ports (delta captured, non-gating)")
  else "not applicable on this host".

Definition emit_message : op nx_json_t :=
  nx_json_key "message" ;;
  nx_json_begin_object ;;
  nx_json_key_string "msgh_bits" "MACH_MSGH_BITS(MAKE_SEND,0)" ;;
  nx_json_key "remote_port" ;;
  nx_json_begin_object ;;
  nx_json_key_string "name" "recv_port" ;;
  nx_json_key_string "disposition" "MACH_MSG_TYPE_MAKE_SEND" ;;
  nx_json_key_string "right_type" "MACH_PORT_TYPE_RECEIVE" ;;
  nx_json_end_object ;;
  nx_json_key "local_port" ;;
  nx_json_begin_object ;;
  nx_json_key_null "name" ;;
  nx_json_key_null "disposition" ;;
  nx_json_key_null "right_type" ;;
  nx_json_end_object ;;
  nx_json_key "header_rights" ;;
  nx_json_begin_array ;;
  nx_json_end_array ;;
  nx_json_key_int "descriptor_count" 0 ;;
  nx_json_key "descriptors" ;;
  nx_json_begin_array ;;
  nx_json_end_array ;;
  nx_json_end_object.

Definition emit_returns (o : obs) : op nx_json_t :=
  nx_json_key "returns" ;;
  nx_json_begin_array ;;
  nx_result_emit_return "mach_port_names_before"
    (nx_kern_return_str (kr (before o))) (kr (before o)) false 0 ;;
  nx_result_emit_return "mach_port_allocate_receive"
    (nx_kern_return_str (kr_alloc o)) (kr_alloc o) false 0 ;;
  nx_result_emit_return "mach_msg_send_to_recv_port"
    (nx_kern_return_str (kr_send o)) (kr_send o) false 0 ;;
  nx_result_emit_return "mach_msg_receive_in_handler"
    (nx_kern_return_str (o_recv_kr o)) (o_recv_kr o) false 0 ;;
  nx_result_emit_return "mach_port_destroy_recv_port"
    (nx_kern_return_str (kr_dest o)) (kr_dest o) false 0 ;;
  nx_result_emit_return "mach_port_names_after"
    (nx_kern_return_str (kr (after o))) (kr (after o)) false 0 ;;
  nx_json_end_array.

Definition emit_observations (o : obs) : op nx_json_t :=
  nx_json_key "observations" ;;
  nx_json_begin_object ;;
  nx_json_key_bool "mach_recv_source_created" (kr_alloc o =? KERN_SUCCESS) ;;
  nx_json_key_bool "send_succeeded" (kr_send o =? KERN_SUCCESS) ;;
  nx_json_key_bool "handler_fired_and_serviced" (negb (handler_serviced o =? 0)) ;;
  nx_json_key_string "source_type" "DISPATCH_SOURCE_TYPE_MACH_RECV" ;;
  nx_json_key_int "names_before" (count_or_minus1 (before o)) ;;
  nx_json_key_int "names_after" (count_or_minus1 (after o)) ;;
  nx_json_key_int "cleanup_delta" (cleanup_delta o) ;;
  nx_json_end_object.

Definition report (o : obs) (v : verdict) : op nx_json_t :=
  nx_json_begin_object ;;
  nx_result_emit_header agent_name "macos_dispatch_mach_recv_source" NULL NULL
    (status v) (sclass v) ;;
  nx_env_emit ;;
  emit_message ;;
  emit_returns o ;;
  nx_json_key "right_deltas" ;;
  nx_json_begin_array ;;
  nx_json_end_array ;;
  emit_observations o ;;
  nx_result_emit_cleanup (cleanup_ok o) (cleanup_notes o) ;;
  nx_json_key_string "notes" (notes v) ;;
  nx_json_end_object.

Definition main (garbage : nx_baseline_t) : thread (option outcome) :=
  o ← observe garbage;
  let v := verdict_of o in
  closing (before o) (after o) (finish (report o v) v).
End dispatch_mach_recv.

Section facts.
Context `{Host} `{MachSdk} `{Headers}.

Lemma dispatch_mach_recv_written o :
  env_file_ok →
  emits_result true "macos_dispatch_mach_recv_source" (verdict_of o) (cleanup_ok o)
    (report o (verdict_of o)).
Proof.
  intros Henv. unfold report, emit_message, emit_returns, emit_observations. report_tac.
Qed.

(** *** What the main thread holds *)

Lemma holding_watch p src (Q : Z * Z * Z → ledger → Prop) s :
  (∀ r, Q r s) → holding (watch p src) Q s.
Proof.
  intros HQ. do 6 (apply holding_bind, holding_act; [done|]; intros ?).
  apply holding_bind, holding_lift, wp_call; [done|]. intros [k m] s' ->.
  apply holding_bind, holding_guarded; intros _.
  1: apply holding_bind, holding_act; [done|]; intros ?; apply holding_act; [done|]; intros ?.
  all: do 4 (apply holding_bind, holding_act; [done|]; intros ?);
    apply holding_bind, holding_release; apply (HQ (_, _, _)).
Qed.

Lemma holding_with_port p (Q : Z * Z * Z * Z → ledger → Prop) s :
  p ∈ rights s →
  (∀ r, Q r (mk_ledger (rights s ∖ {[+ p +]}) (drop_name p (sends s)) (regions s))) →
  holding (with_port p) Q s.
Proof.
  intros Hp HQ. do 2 (apply holding_bind, holding_act; [done|]; intros ?).
  apply holding_bind.
  match goal with |- holding _ ?Q _ => enough (∀ r, Q r s) as HQ' end.
  { apply holding_guarded; intros _; [by apply holding_watch|apply (HQ' (_, _, _))]. }
  intros [[ks n] rk]. apply holding_bind, holding_release, holding_bind, holding_lift, wp_call.
  - by apply bool_decide_eq_true.
  - intros kd s' ->. apply (HQ (_, _, _, _)).
Qed.

Lemma dmrs_observe_holds garbage :
  (APPLE = true → unmapped garbage = true) →
  holding (observe garbage) (λ o s,
    s = mk_ledger ∅ ∅ (baseline_regions (before o) ⊎
      (if NX_HAVE_DISPATCH then baseline_regions (after o) else ∅)) ∧
    captured (before o) ∧
    if NX_HAVE_DISPATCH then captured (after o) else after o = garbage) no_holdings.
Proof.
  intros Hg. unfold observe. apply holding_bind, holding_lift, lwp_capture; [apply _|].
  intros b Hb. unfold add_regions. simpl. rewrite (left_id_L ∅ (⊎)). destruct NX_HAVE_DISPATCH.
  2:{ simpl. by rewrite (right_id_L ∅ (⊎)). }
  unfold service. apply holding_bind, holding_act; [done|]. intros [].
  apply holding_bind, holding_lift, wp_call; [done|]. intros [k p] s' ->.
  apply holding_bind.
  match goal with |- holding _ ?Q _ =>
    enough (∀ r, Q r (mk_ledger ∅ ∅ (baseline_regions b))) as HQ end.
  { apply holding_guarded; intros E; cbn [account dead_right MACH_PORT_RIGHT_RECEIVE];
      rewrite E; simpl; rewrite (left_id_L ∅ (⊎)); [|apply (HQ (_, _, _, _))].
    apply holding_with_port; [simpl; multiset_solver|]. intros r.
    cbn [rights sends regions]. rewrite drop_name_empty. replace ({[+ p +]} ∖ {[+ p +]}) with (∅ : gmultiset Z)
      by multiset_solver. apply HQ. }
  intros [[[ks n] rk] kd]. apply holding_bind, holding_lift, lwp_second_capture; [done|].
  by repeat split.
Qed.

Lemma dmrs_main_holds garbage :
  (APPLE = true → unmapped garbage = true) →
  holding (main garbage) (λ r s, s = no_holdings ∧
    ∃ o, r = finish (report o (verdict_of o)) (verdict_of o)) no_holdings.
Proof.
  intros Hg. apply holding_bind.
  apply (holding_mono _ _ _ _ (dmrs_observe_holds garbage Hg)). intros o s (-> & Hb & Ha).
  apply (holding_closing _ _ _ NX_HAVE_DISPATCH); [done| |done|by split; [|exists o]].
  destruct NX_HAVE_DISPATCH; [done|by rewrite Ha].
Qed.

(** Where there is libdispatch and Mach, the main thread destroys the right it
    allocated and gives back the snapshots; but it gives back memory it does not hold
    unless the uninitialized snapshot it frees happens to look empty. *)
Theorem mach_recv_holdings garbage :
  APPLE = true → NX_HAVE_DISPATCH = true →
  holding (main garbage) (λ _ s, s = no_holdings) no_holdings ↔ unmapped garbage = true.
Proof.
  intros Ha Hd. split.
  - unfold main, observe, service. rewrite Hd. intros Hh.
    apply holding_bind_inv, holding_bind_inv, holding_lift in Hh.
    apply (lwp_capture_fails _ _ Ha) in Hh as (b & s1 & Hh & _ & Hg1 & _).
    apply holding_bind_inv, (holding_act_inv _ _ _ tt) in Hh.
    apply holding_bind_inv, holding_lift in Hh.
    destruct Hh as [_ Hh]. specialize (Hh (KERN_FAILURE, 0) _ eq_refl).
    apply holding_bind_inv, holding_bind_inv, holding_lift in Hh.
    refine (second_capture_unmapped garbage _ _ Ha _ Hh). exact Hg1.
  - intros Hg. eapply holding_mono; [by apply dmrs_main_holds|]. by intros r s [-> _].
Qed.

(** *** Every schedule *)

Section schedules.
Context {W : Type} `{Kernel W} `{Failures}.
(** The program does not look whether it got a semaphore before it waits. *)
Hypothesis semaphore_made : may_fail a_semaphore = false.
Abbreviation state := (@world func var dmrs_ctx_t W (objects func var)).

(** Something that is true of the kernel once a handler has received a message, and
    stays true. *)
Variable received : W → Prop.
Hypothesis received_stays : ∀ R (c : mach_call R) k, received k → received (handle c k).2.
Hypothesis received_here : ∀ p k,
  (handle (receive_call p) k).1.1 = MACH_MSG_SUCCESS → received (handle (receive_call p) k).2.

Abbreviation cwp := (cwp body (λ _, True)).

Definition after_receive : thread unit :=
  k ← read recv_kr;
  _ ← guarded (k =? MACH_MSG_SUCCESS) tt (set_serviced 1);
  s ← read sem;
  lib (dispatch_semaphore_signal s).
Definition signal_end : thread unit := s ← read sem; lib (dispatch_semaphore_signal s).

(** A handler before each of its actions; [r] tells whether something was received. *)
Inductive stage (r : Prop) : thread unit → Prop :=
  | stage_0 : stage r (dmrs_handler ctx_var)
  | stage_1 p : stage r ('(k, _) ← lift (call (receive_call p)); _ ← set_recv_kr k; after_receive)
  | stage_2 k : (k = MACH_MSG_SUCCESS → r) → stage r (_ ← set_recv_kr k; after_receive)
  | stage_3 : stage r after_receive
  | stage_4 : r → stage r (_ ← set_serviced 1; signal_end)
  | stage_5 : stage r signal_end
  | stage_6 s : stage r (lib (dispatch_semaphore_signal s))
  | stage_7 : stage r (Done tt).

Lemma stage_mono (r r' : Prop) t : (r → r') → stage r t → stage r' t.
Proof. intros Hr [| | | | | | |]; constructor; auto. Qed.

Definition staged (r : Prop) (x : job func var * thread unit) : Prop :=
  member_of x.1 = None ∧ stage r x.2.

Lemma staged_mono (r r' : Prop) l : (r → r') → Forall (staged r) l → Forall (staged r') l.
Proof.
  intros Hr Hl. eapply Forall_impl; [exact Hl|]. intros x [Hx Ht].
  split; [done|]. by eapply stage_mono.
Qed.

(** The objects the main thread still needs. *)
Inductive kind := AQueue | AGroup | ASource | ASemaphore | APthread.
Definition kind_of (x : object func var) : kind :=
  match x with
  | Queue => AQueue
  | Group _ => AGroup
  | Semaphore _ => ASemaphore
  | Pthread _ => APthread
  | Source _ _ _ => ASource
  end.
Definition kinds (K : list (Z * kind)) (m : gmap Z (object func var)) : Prop :=
  Forall (λ e, kind_of <$> m !! e.1 = Some e.2) K.

Lemma kinds_elem K m o k : kinds K m → (o, k) ∈ K → ∃ x, m !! o = Some x ∧ kind_of x = k.
Proof.
  intros Hk Hin. eapply Forall_forall in Hk; [|exact Hin]. simpl in Hk.
  destruct (m !! o) as [x|]; [|done]. exists x. by simplify_eq/=.
Qed.

Lemma kinds_subseteq K K' m : kinds K m → K' ⊆ K → kinds K' m.
Proof. intros Hk Hs. apply Forall_forall. intros e He. eapply Forall_forall in Hk; eauto. Qed.

(** Objects change, but not their kinds; *)
Lemma kinds_update K m o x x' :
  kinds K m → m !! o = Some x → kind_of x' = kind_of x → kinds K (<[o := x']> m).
Proof.
  intros Hk Ho Hx. eapply Forall_impl; [exact Hk|]. intros [o' k]. simpl.
  destruct (decide (o = o')) as [<-|]; [|by rewrite lookup_insert_ne].
  rewrite lookup_insert_eq, Ho. simpl. congruence.
Qed.

(** new ones are others; *)
Lemma kinds_create K m o x :
  kinds K m → m !! o = None → kinds ((o, kind_of x) :: K) (<[o := x]> m).
Proof.
  intros Hk Ho. constructor; [simpl; by rewrite lookup_insert_eq|].
  eapply Forall_impl; [exact Hk|]. intros [o' k]. simpl.
  destruct (decide (o = o')) as [<-|]; [by rewrite Ho|by rewrite lookup_insert_ne].
Qed.

(** and a released one is not one of another kind. *)
Lemma kinds_delete K K' m o k :
  kinds K m → (o, k) ∈ K → K' ⊆ K → Forall (λ e, e.2 ≠ k) K' → kinds K' (delete o m).
Proof.
  intros Hk Ho Hs Hd. destruct (kinds_elem _ _ _ _ Hk Ho) as (x & Hx & <-).
  apply Forall_forall. intros [o' k'] Hin. simpl.
  eapply Forall_forall in Hd; [|exact Hin]. simpl in Hd. apply Hs in Hin.
  destruct (kinds_elem _ _ _ _ Hk Hin) as (x' & Hx' & Hk').
  rewrite lookup_delete_ne by congruence. rewrite Hx'. simpl. congruence.
Qed.

(** What holds between any two steps: handlers are at one of their stages, and the
    variables they share with the main thread say that something was received only
    when it was.  [e] is set once the main thread has seen that. *)
Record inv (K : list (Z * kind)) (s : Z) (e : bool) (w : state) : Prop := {
  inv_ready : ready (library w) = [];
  inv_running : Forall (staged (received (kernel w))) (running w);
  inv_serviced : serviced (memory w) ≠ 0 → received (kernel w);
  inv_recv : recv_kr (memory w) = MACH_MSG_SUCCESS → received (kernel w);
  inv_kinds : kinds K (objs (library w));
  inv_sem : sem (memory w) = s;
  inv_seen : e = true → received (kernel w);
}.

(** A step of a handler, by its stage. *)
Lemma stage_moves K s e (w w1 : state) t t' :
  stage (received (kernel w)) t → moves t w t' w1 → inv K s e w →
  stage (received (kernel w1)) t' ∧ (received (kernel w) → received (kernel w1)) ∧
  ready (library w1) = [] ∧ kinds K (objs (library w1)) ∧ sem (memory w1) = s ∧
  (serviced (memory w1) ≠ 0 → received (kernel w1)) ∧
  (recv_kr (memory w1) = MACH_MSG_SUCCESS → received (kernel w1)).
Proof.
  intros Ht Hm [Hr _ Hs Hk HK Hsem _].
  destruct Ht as [|p|k Hkk| | | |s'|]; try (destruct Hm as (r & Ha & ->)); [..|done].
  - destruct Ha as (m & [= <- <-] & ->). simpl. repeat split; auto. apply stage_1.
  - destruct Ha as [-> ->]. simpl.
    assert (received (kernel w) → received (handle (receive_call p) (kernel w)).2) as Hmono
      by apply received_stays.
    pose proof (received_here p (kernel w)) as Hh.
    destruct (handle (receive_call p) (kernel w)) as [[k m] w2]. simpl in *.
    repeat split; auto. by apply stage_2.
  - destruct Ha as (m & [= <- <-] & ->). simpl. repeat split; auto. apply stage_3.
  - destruct Ha as (m & [= <- <-] & ->). split; [|by repeat split].
    change (stage (received (kernel w)) (_ ← guarded (recv_kr (memory w) =? MACH_MSG_SUCCESS) tt
      (set_serviced 1); signal_end)).
    destruct (Z.eqb_spec (recv_kr (memory w)) MACH_MSG_SUCCESS) as [E|E].
    + apply stage_4. auto.
    + apply stage_5.
  - destruct Ha as (m & [= <- <-] & ->). simpl. repeat split; auto. apply stage_5.
  - destruct Ha as (m & [= <- <-] & ->). simpl. repeat split; auto. apply stage_6.
  - destruct Ha as (l & [_ (v & Hv & ->)] & ->). destruct r. simpl. repeat split; auto.
    + apply stage_7.
    + by eapply kinds_update.
Qed.

Lemma inv_stable K s e : stable body (inv K s e).
Proof.
  intros w w' Hw Hst. pose proof Hw as [Hr Hru Hs Hk HK Hsem Hse].
  destruct Hst as [j l' Hst|l1 j p l2 p' w1 E Hm|l1 j l2 l' E Hf].
  - destruct Hst as [(l1 & l2 & E & _)|(o & f & x & c & _ & -> & ->)]; [rewrite Hr in E; by destruct l1|].
    split; try done. apply Forall_app. split; [done|]. constructor; [|done]. split; [done|].
    simpl. destruct f, x. apply stage_0.
  - rewrite E in Hru. pose proof Hru as [G1 [[Hj Hp] G2]%Forall_cons]%Forall_app.
    destruct (stage_moves _ _ _ _ _ _ _ Hp Hm Hw) as (Hp' & Hmono & Hr' & HK' & Hsem' & Hs' & Hk').
    pose proof (λ l, staged_mono _ _ l Hmono) as Hfm.
    split; try done; [|by auto]. apply Forall_app. split; [by apply Hfm|].
    constructor; [done|by apply Hfm].
  - rewrite E in Hru. pose proof Hru as [G1 [[Hj Hp] G2]%Forall_cons]%Forall_app.
    simpl in Hf, Hj. subst l'. unfold after_job. rewrite Hj.
    split; try done. by apply Forall_app.
Qed.

Lemma inv_kernel K s e R (c : mach_call R) w :
  inv K s e w → inv K s e (mk_world (running w) (memory w) (library w) (handle c (kernel w)).2).
Proof.
  intros [Hr Hru Hs Hk HK Hsem Hse]. pose proof (received_stays _ c (kernel w)) as Hm.
  split; simpl; auto. by eapply staged_mono.
Qed.

(** The rules for the main thread. *)
Lemma cwp_inv {R} (c : action func var dmrs_ctx_t R) (Q : R → state → Prop) K s e w :
  inv K s e w →
  (∀ w', inv K s e w' → defined c w' ∧ (∃ r w2, acts c w' r w2) ∧
     ∀ r w2, acts c w' r w2 → Q r w2) →
  cwp (act c) Q w.
Proof.
  intros Hw HQ. apply (cwp_act _ (inv K s e)); [apply inv_stable|done|].
  intros w' Hw'. destruct (HQ w' Hw') as (Hd & Ha & Hq). split; [done|]. split; [done|].
  split; [by left|done].
Qed.

Lemma cwp_inv_lift {A} (p : prog A) (Q : A → state → Prop) K s e w :
  inv K s e w → (∀ a w', inv K s e w' → Q a w') → cwp (lift p) Q w.
Proof.
  intros Hw HQ. revert w Hw. induction p as [a|R c k IH]; intros w Hw; simpl; [auto|].
  apply (cwp_bind (λ r, lift (k r)) (act (Mach c))). apply (cwp_inv _ _ K s e); [done|].
  intros w' Hw'. split; [done|]. split; [eexists _, _; by split|].
  intros r w2 [-> ->]. apply IH. by apply inv_kernel.
Qed.

Lemma cwp_inv_read {A} (field : dmrs_ctx_t → A) (Q : A → state → Prop) K s e w :
  inv K s e w → (∀ w', inv K s e w' → Q (field (memory w')) w') → cwp (read field) Q w.
Proof.
  intros Hw HQ. unfold read, mem. apply (cwp_inv _ _ K s e); [done|]. intros w' Hw'.
  split; [by eexists|]. split; [by eexists _, _, _|]. intros r w2 (m & [= <- <-] & ->).
  destruct w'. by apply (HQ _ Hw').
Qed.

(** The main thread sets the fields that handlers only read. *)
Lemma cwp_inv_set (f : dmrs_ctx_t → dmrs_ctx_t) (Q : unit → state → Prop) K s s' e w :
  (∀ m, serviced (f m) = serviced m ∧ recv_kr (f m) = recv_kr m ∧ (sem m = s → sem (f m) = s')) →
  inv K s e w → (∀ w', inv K s' e w' → Q tt w') → cwp (mem (λ m, Some (tt, f m))) Q w.
Proof.
  intros Hf Hw HQ. unfold mem. apply (cwp_inv _ _ K s e); [done|]. intros w' Hw'.
  split; [by eexists|]. split; [by eexists _, _, _|]. intros [] w2 (m & [= <-] & ->).
  apply HQ. destruct Hw' as [Hr Hru Hs Hk HK Hsem Hse]. destruct (Hf (memory w')) as (E1 & E2 & E3).
  split; simpl; rewrite ?E1, ?E2; auto.
Qed.

Lemma cwp_inv_lib {R} (c : lib_call func var R) (Q : R → state → Prop) K s e w :
  inv K s e w →
  (∀ o, kinds K (objs o) → ready o = [] → doc_pre c o ∧ (∃ r o', doc_call c o r o') ∧
     ∀ r o', doc_call c o r o' → ready o' = [] ∧
       ∃ K', kinds K' (objs o') ∧ ∀ w', inv K' s e w' → Q r w') →
  cwp (lib c) Q w.
Proof.
  intros Hw HQ. unfold lib. apply (cwp_inv _ _ K s e); [done|].
  intros w' [Hr Hru Hs Hk HK Hsem Hse].
  destruct (HQ (library w') HK Hr) as (Hp & (r & o' & Hd) & HQ').
  split; [done|]. split; [by eexists r, _, o'|].
  intros r' w2 (l & [_ Hd'] & ->). destruct (HQ' _ _ Hd') as (Hr' & K' & HK' & Hfin).
  by apply Hfin.
Qed.

Lemma cwp_inv_create (c : lib_call func var Z) k x (Q : Z → state → Prop) K s e w :
  (∀ o, kinds K (objs o) → doc_pre c o) → (∀ o r o', doc_call c o r o' ↔ creates_or_null k x o r o') →
  inv K s e w → (∀ r w', r ≠ 0 → inv ((r, kind_of x) :: K) s e w' → Q r w') →
  (may_fail k = true → ∀ w', inv K s e w' → Q 0 w') →
  cwp (lib c) Q w.
Proof.
  intros Hp Hd Hw HQ HQ0. apply (cwp_inv_lib _ _ K s e); [done|]. intros o Hk Hr.
  split; [auto|]. split.
  - destruct (some_created k x o) as (r & o' & Hc). exists r, o'. by apply Hd.
  - intros r o' [(Hr0 & Hf & ->)|(Hm & -> & ->)]%Hd; (split; [done|]).
    + exists ((r, kind_of x) :: K). split; [by apply kinds_create|]. auto.
    + exists K. auto.
Qed.

(** Calls that set something of a source. *)
Lemma cwp_inv_source (c : lib_call func var unit) src (Q : unit → state → Prop) K s e w :
  (∀ o f x b, objs o !! src = Some (Source f x b) → doc_pre c o ∧
     ∃ f' x' b', ∀ o', doc_call c o tt o' ↔ o' = set_obj src (Source f' x' b') o) →
  (src, ASource) ∈ K → inv K s e w → (∀ w', inv K s e w' → Q tt w') → cwp (lib c) Q w.
Proof.
  intros Hc Hin Hw HQ. apply (cwp_inv_lib _ _ K s e); [done|]. intros o Hk Hr.
  destruct (kinds_elem _ _ _ _ Hk Hin) as ([| | | |f x b] & Ho & Hkx); try done.
  destruct (Hc _ _ _ _ Ho) as (Hp & f' & x' & b' & Hd). split; [done|]. split.
  - exists tt. eexists. by apply Hd.
  - intros [] o' ->%Hd. split; [done|]. exists K. split; [by eapply kinds_update|done].
Qed.

Lemma cwp_inv_release o k (Q : unit → state → Prop) K K' s e w :
  (o, k) ∈ K → K' ⊆ K → Forall (λ x, x.2 ≠ k) K' →
  inv K s e w → (∀ w', inv K' s e w' → Q tt w') → cwp (lib (dispatch_release o)) Q w.
Proof.
  intros Ho Hs Hd Hw HQ. apply (cwp_inv_lib _ _ K s e); [done|]. intros x Hk Hr.
  destruct (kinds_elem _ _ _ _ Hk Ho) as (y & Hy & _). split; [by exists y|].
  split; [by eexists tt, _|]. intros [] o' Hd'. simpl in Hd'. subst o'. split; [done|].
  exists K'. split; [by eapply kinds_delete|done].
Qed.

Lemma cwp_inv_wait o ns (Q : Z → state → Prop) K s e w :
  (o, ASemaphore) ∈ K → inv K s e w → (∀ r w', inv K s e w' → Q r w') →
  cwp (lib (dispatch_semaphore_wait o (from_now ns))) Q w.
Proof.
  intros Ho Hw HQ. apply (cwp_inv_lib _ _ K s e); [done|]. intros x Hk Hr.
  destruct (kinds_elem _ _ _ _ Hk Ho) as ([| |v| |] & Hy & Hkx); try done.
  split; [by exists v|]. split.
  - destruct v as [|v]; [exists 1; eexists; right; by split|].
    exists 0; eexists; left. split; [done|]. by exists v.
  - intros r o' [(-> & v' & Hv & ->)|(_ & _ & _ & ->)]; (split; [done|]); exists K.
    + split; [by eapply kinds_update|auto].
    + auto.
Qed.

Lemma inv_see K s e (b : bool) w : inv K s e w → (b = true → received (kernel w)) → inv K s b w.
Proof. by intros [] Hb. Qed.

Lemma inv_subseteq K K' s e w : inv K s e w → K' ⊆ K → inv K' s e w.
Proof. intros [] Hs. split; try done. by eapply kinds_subseteq. Qed.

Lemma cwp_watch p src K (Q : Z * Z * Z → state → Prop) w :
  inv ((src, ASource) :: K) 0 false w → Forall (λ x, x.2 = AQueue) K →
  (∀ ks n rk s w', inv K s (negb (n =? 0)) w' → Q (ks, n, rk) w') →
  cwp (watch p src) Q w.
Proof.
  intros Hw HK HQ. unfold watch.
  eapply cwp_bind, (cwp_inv_create _ a_semaphore (Semaphore 0)); [done|done|exact Hw| |congruence].
  clear w Hw. intros o w Ho Hw. eapply cwp_bind, (cwp_inv_set _ _ _ 0 o); [by repeat split|exact Hw|].
  clear w Hw. intros w Hw. eapply cwp_bind, (cwp_inv_set _ _ _ o o); [by repeat split|exact Hw|].
  clear w Hw. intros w Hw.
  set (K' := (o, kind_of (Semaphore 0)) :: (src, ASource) :: K) in *.
  assert ((src, ASource) ∈ K') as Hsrc by set_solver.
  assert ((o, ASemaphore) ∈ K') as Hsem by set_solver.
  do 3 (eapply cwp_bind, (cwp_inv_source _ src _ K'); [|exact Hsrc|exact Hw|clear w Hw; intros w Hw];
    [intros x f y b Hx; split; [by do 3 eexists|]; do 3 eexists; intros o'; split;
       [intros (?&?&?&E&->); rewrite Hx in E; by simplify_eq|intros ->; by do 3 eexists]|]).
  eapply cwp_bind, cwp_inv_lift; [exact Hw|]. clear w Hw. intros [ks m] w Hw.
  apply cwp_bind.
  match goal with |- cwp _ ?Q _ => enough (∀ r w', inv K' o false w' → Q r w') as HQ' end.
  { apply cwp_guarded; intros _; [|by apply HQ'].
    eapply cwp_bind, cwp_inv_read; [exact Hw|]. clear w Hw. intros w Hw.
    rewrite (inv_sem _ _ _ _ Hw). by eapply cwp_inv_wait. }
  clear w Hw. intros _ w Hw.
  eapply cwp_bind, cwp_inv_read; [exact Hw|]. clear w Hw. intros w Hw.
  assert (inv K' o (negb (serviced (memory w) =? 0)) w) as Hw'.
  { apply (inv_see _ _ _ _ _ Hw). intros Hs%negb_true_iff%Z.eqb_neq.
    by apply (inv_serviced _ _ _ _ Hw). }
  revert Hw'. clear Hw. generalize (serviced (memory w)). intros n Hw.
  eapply cwp_bind, cwp_inv_read; [exact Hw|]. clear w Hw. intros w Hw.
  generalize (recv_kr (memory w)). intros rk.
  eapply cwp_bind, (cwp_inv_release src ASource _ K' ((o, ASemaphore) :: K));
    [exact Hsrc|set_solver| |exact Hw|].
  { constructor; [done|]. eapply Forall_impl; [exact HK|]. by intros x ->. }
  clear w Hw. intros w Hw.
  eapply cwp_bind, cwp_inv_read; [exact Hw|]. clear w Hw. intros w Hw.
  rewrite (inv_sem _ _ _ _ Hw). apply cwp_bind, cwp_guarded; [intros _|intros; lia].
  eapply (cwp_inv_release o ASemaphore _ ((o, ASemaphore) :: K) K); [|set_solver| |exact Hw|].
  { set_solver. }
  { eapply Forall_impl; [exact HK|]. by intros x ->. }
  intros w' Hw'. by eapply HQ.
Qed.

(** The queue, if there is one. *)
Definition queue_held (q : Z) : list (Z * kind) := if q =? 0 then [] else [(q, AQueue)].

Lemma queue_held_all q : Forall (λ x, x.2 = AQueue) (queue_held q).
Proof. unfold queue_held. destruct (q =? 0); by repeat constructor. Qed.

(** The end of the part, whether there was a source or not. *)
Lemma cwp_queue_done p q ks n rk s (Q : Z * Z * Z * Z → state → Prop) w :
  inv (queue_held q) s (negb (n =? 0)) w →
  (∀ ks n rk kd s w', inv [] s (negb (n =? 0)) w' → Q (ks, n, rk, kd) w') →
  cwp (_ ← guarded (negb (q =? 0)) tt (lib (dispatch_release q));
       kr_dest ← lift (call (mach_port_destroy p));
       mret (ks, n, rk, kr_dest)) Q w.
Proof.
  unfold queue_held. intros Hw HQ. apply cwp_bind.
  match goal with |- cwp _ ?Q' _ => enough (∀ w, inv [] s (negb (n =? 0)) w → Q' tt w) as HQ' end.
  { destruct (q =? 0); [by apply HQ'|].
    eapply (cwp_inv_release q AQueue _ [(q, AQueue)] []); [set_solver|set_solver|done|exact Hw|].
    intros w' Hw'. by apply HQ'. }
  clear w Hw. intros w Hw. eapply cwp_bind, cwp_inv_lift; [exact Hw|]. clear w Hw.
  intros kd w Hw. by eapply HQ.
Qed.

Lemma cwp_with_port p (Q : Z * Z * Z * Z → state → Prop) w :
  inv [] 0 false w → (∀ ks n rk kd s w', inv [] s (negb (n =? 0)) w' → Q (ks, n, rk, kd) w') →
  cwp (with_port p) Q w.
Proof.
  intros Hw HQ. unfold with_port. apply cwp_bind.
  match goal with |- cwp _ ?Q' _ => enough (∀ q w, inv (queue_held q) 0 false w → Q' q w) as Hq end.
  { eapply (cwp_inv_create _ a_queue Queue); [done|done|exact Hw|..].
    - intros q w' Hn Hw'. apply Hq. unfold queue_held. by rewrite (proj2 (Z.eqb_neq _ _)).
    - intros _ w' Hw'. by apply (Hq 0). }
  clear w Hw. intros q w Hw.
  eapply cwp_bind, (cwp_inv_create _ a_source (Source None None (false, None))); [|done|exact Hw|..].
  { intros o Hk. unfold queue_held in Hk. destruct (q =? 0) eqn:E; [left; lia|].
    right. destruct (kinds_elem _ _ q AQueue Hk) as ([] & Hx & Hkx); try done. set_solver. }
  - clear w Hw. intros src w Hsrc Hw. apply cwp_bind, cwp_guarded; [intros _|intros; lia].
    eapply cwp_watch; [exact Hw|apply queue_held_all|]. clear w Hw. intros ks n rk s w Hw.
    by eapply cwp_queue_done.
  - clear w Hw. intros _ w Hw. apply cwp_bind, cwp_guarded; [done|intros _]. by eapply cwp_queue_done.
Qed.

Lemma dmrs_cwp_observe garbage m s w :
  NX_HAVE_DISPATCH = true → objs s = ∅ → ready s = [] → alone m s w →
  cwp (observe garbage) (λ o w', ∃ s, inv [] s (negb (handler_serviced o =? 0)) w') w.
Proof.
  intros Hd Ho Hr Hw. assert (lone s) as Hs by (split; [done|intros ????; by rewrite Ho]).
  assert (∀ w : state, idle (running w) → True) as Hok by done.
  unfold observe. rewrite Hd.
  apply cwp_bind, (cwp_lift_alone Hok _ _ m s); [done..|]. clear w Hw. intros b w Hw.
  unfold service. eapply cwp_bind, (cwp_mem_alone Hok _ _ m s); [done..|]. clear w Hw.
  intros w (Hi & Hm & Hl).
  assert (inv [] 0 false w) as Hw.
  { split; rewrite ?Hm, ?Hl; try done; [|by constructor].
    eapply Forall_impl; [exact Hi|]. intros [j t] [E1 E2]. simpl in *. subst t.
    split; [done|apply stage_7]. }
  eapply cwp_bind, cwp_inv_lift; [exact Hw|]. clear w Hm Hl Hi Hw. intros [ka p] w Hw.
  apply cwp_bind.
  match goal with |- cwp _ ?Q _ =>
    enough (∀ ks n rk kd s w', inv [] s (negb (n =? 0)) w' → Q (ks, n, rk, kd) w') as HQ end.
  { apply cwp_guarded; intros _; [by apply cwp_with_port|by eapply HQ]. }
  clear w Hw. intros ks n rk kd s' w Hw. eapply cwp_bind, cwp_inv_lift; [exact Hw|].
  clear w Hw. intros a w Hw. by exists s'.
Qed.

Lemma dmrs_cwp_main garbage m s w :
  NX_HAVE_DISPATCH = true → objs s = ∅ → ready s = [] → alone m s w →
  cwp (main garbage) (λ r w', ∃ o, r = finish (report o (verdict_of o)) (verdict_of o) ∧
    (handler_serviced o ≠ 0 → received (kernel w'))) w.
Proof.
  intros Hd Ho Hr Hw. apply cwp_bind. eapply cwp_mono; [by eapply dmrs_cwp_observe|].
  clear w Hw. intros o w (s' & Hw). unfold closing.
  do 2 (eapply cwp_bind, cwp_inv_lift; [exact Hw|]; clear w Hw; intros _ w Hw).
  exists o. split; [done|]. intros Hn. apply (inv_seen _ _ _ _ Hw).
  by apply negb_true_iff, Z.eqb_neq.
Qed.
End schedules.

(** The last verdict is reached when nothing failed. *)
Lemma pass_observed o :
  NX_HAVE_DISPATCH = true → verdict_of o = pass →
  kr_send o = KERN_SUCCESS ∧ handler_serviced o ≠ 0.
Proof.
  unfold verdict_of, ladder_of. intros -> Hv. simpl in Hv. repeat case_match; try done.
  split; [by apply Z.eqb_eq, negb_false_iff|by apply Z.eqb_neq].
Qed.

(** C14: with any library that keeps its documented behaviour and has the semaphore there is
    to be had (the program waits without a look at the result of
    [dispatch_semaphore_create]; the queue and the source may be [NULL]), any kernel and in
    every schedule, however often the handler is started: the main thread can go on until it
    returns, and nothing it does is undefined; its document has the verdict of its
    observations; and if it observed that the message was serviced, and so if it
    passes, a handler received it: whatever successful receives establish for good is
    true of the kernel. *)
Theorem mach_recv_pass_sound {W L} `{Kernel W} `{Failures}
    `{Library func var L} `{!DispatchContract func var L}
    (received : W → Prop) garbage m l k0 :
  may_fail a_semaphore = false → NX_HAVE_DISPATCH = true → lib_healthy l → objs (objects_of l) = ∅ →
  ready (objects_of l) = [] →
  (∀ R (c : mach_call R) k, received k → received (handle c k).2) →
  (∀ p k, (handle (receive_call p) k).1.1 = MACH_MSG_SUCCESS →
     received (handle (receive_call p) k).2) →
  ∀ p w, rtc (step body) (main garbage, mk_world [] m l k0) (p, w) →
    match p with
    | Done r => ∃ o, r = finish (report o (verdict_of o)) (verdict_of o) ∧
        (handler_serviced o ≠ 0 → received (kernel w)) ∧
        (verdict_of o = pass → kr_send o = KERN_SUCCESS ∧ received (kernel w))
    | Do c _ => defined c (seen w) ∧ ∃ c', step body (p, w) c'
    end.
Proof.
  intros Hsem Hd Hl Ho Hr Hst Hre p w Hs.
  pose proof (cwp_adequate body (λ _, True) (main garbage) p _ (mk_world [] m l k0) w Hl
    (dmrs_cwp_main Hsem received Hst Hre garbage m (objects_of l) (seen (mk_world [] m l k0)) Hd Ho Hr
      ltac:(by split; [constructor|])) Hs) as Hp.
  destruct p as [r|R c k]; [|by destruct Hp].
  destruct Hp as (o & -> & Hrc). exists o. split; [done|]. split; [done|].
  intros Hv. destruct (pass_observed o Hd Hv). auto.
Qed.
End facts.

(** The theorems at the reference library and kernel. *)
Section witnesses.
Import OnMacos.

(** The semaphore is the one thing of which the library does not run out. *)
#[local] Instance dmrs_failures : Failures := λ k, match k with a_semaphore => false | _ => true end.
#[local] Instance dmrs_headers : Headers := {| has_dispatch_h := true; has_mach_h := true |}.

(** The reference kernel, with a note of whether something was received. *)
Definition receives {R} (c : mach_call R) : R → bool :=
  match c in mach_call R return R → bool with
  | mach_msg _ option _ _ _ _ _ => λ '(k, _),
      negb (Z.land option MACH_RCV_MSG =? 0) && (k =? MACH_MSG_SUCCESS)
  | _ => λ _, false
  end.
Definition noting : Type := machine * bool.
#[local] Instance noting_kernel : Kernel noting := λ R c '(k, b),
  let '(r, k') := handle c k in (r, (k', b || receives c r)).

Lemma noted_stays R (c : mach_call R) (k : noting) : k.2 = true → (handle c k).2.2 = true.
Proof. destruct k as [k b]. simpl. intros ->. unfold handle, noting_kernel. by destruct (handle c k). Qed.

Lemma noted_here p (k : noting) :
  (handle (receive_call p) k).1.1 = MACH_MSG_SUCCESS → (handle (receive_call p) k).2.2 = true.
Proof.
  destruct k as [k b]. unfold handle at 1 2, noting_kernel.
  destruct (@handle machine _ _ (receive_call p) k) as [[r m] k']. simpl. intros ->.
  apply orb_true_r.
Qed.

Definition dmrs_start : thread (option outcome) *
    @world func var dmrs_ctx_t noting (@ref_lib func var) :=
  (main zero_baseline,
   mk_world [] (mk_ctx 0 0 0 0) (mk_ref (mk_objects ∅ [])) (boot, false)).

(** The message is there when the handler is started, before the wait. *)
Definition handled : list choice :=
  repeat Main 13 ++ Fire 2 :: repeat (Work 0) 8 ++ repeat Main 13.

(** The wait times out, and the semaphore is released, while a handler that received
    the message is about to signal it. *)
Definition signal_late : list choice :=
  repeat Main 13 ++ Fire 2 :: repeat (Work 0) 6 ++ repeat Main 6.

Lemma handled_passes :
  ∃ r, result_of (schedule body (@refuse) handled dmrs_start) = Some r ∧ exit_status <$> r = Some 0.
Proof.
  enough (match result_of (schedule body (@refuse) handled dmrs_start) with
          | Some r => bool_decide (exit_status <$> r = Some 0) | None => false end = true) as Hf.
  { destruct (result_of _) as [r|]; [|done]. exists r. by apply bool_decide_eq_true in Hf. }
  by vm_compute.
Qed.

Lemma dmrs_with_dispatch : NX_HAVE_DISPATCH = true.
Proof. done. Qed.

Lemma mach_recv_pass_sound_witness :
  may_fail a_semaphore = false ∧ NX_HAVE_DISPATCH = true ∧ lib_healthy (mk_ref (F := func) (X := var) (mk_objects ∅ [])) ∧
  ∃ r w o, rtc (step body) dmrs_start (Done r, w) ∧ exit_status <$> r = Some 0 ∧
    r = finish (report o (verdict_of o)) (verdict_of o) ∧
    (handler_serviced o ≠ 0 → (kernel w).2 = true).
Proof.
  do 3 (split; [done|]). destruct handled_passes as (r & E & Hr).
  destruct (result_steps body (@refuse) _ _ _ E) as [w Hs].
  pose proof (mach_recv_pass_sound (H := macos) (H1 := dmrs_headers) (W := noting)
    (L := @ref_lib func var) (λ k, k.2 = true) zero_baseline (mk_ctx 0 0 0 0)
    (mk_ref (mk_objects ∅ [])) (boot, false)
    eq_refl dmrs_with_dispatch (ref_healthy _) eq_refl eq_refl noted_stays noted_here _ _ Hs)
    as (o & Ho & Hrc & _).
  exists r, w, o. split; [exact Hs|]. split; [exact Hr|]. split; [exact Ho|exact Hrc].
Defined.

Lemma mach_recv_holdings_witness :
  APPLE = true ∧ NX_HAVE_DISPATCH = true ∧
  holding (main zero_baseline) (λ _ s, s = no_holdings) no_holdings.
Proof.
  split; [done|]. split; [done|].
  by apply (mach_recv_holdings zero_baseline on_macos dmrs_with_dispatch).
Defined.

(** The result of the wait is ignored: there is a run in which the handler has
    received the message and recorded that, the wait times out, the main thread
    observes success and releases the semaphore, and the handler is about to signal
    the semaphore that is gone. *)
Theorem late_signal_undefined :
  ∃ p w, rtc (step body) dmrs_start (p, w) ∧ returned p = false ∧
    serviced (memory w) = 1 ∧ objs (ref_objects (library w)) !! sem (memory w) = None ∧
    ¬ jobs_defined (seen w).
Proof.
  destruct (reaches_steps body (@refuse) (λ w, undefined_now w && (serviced (memory w) =? 1) &&
      bool_decide (objs (ref_objects (library w)) !! sem (memory w) = None))
      signal_late dmrs_start)
    as (p & w & Hs & Hp & [[Hu Hn%Z.eqb_eq]%andb_prop Hc%bool_decide_eq_true]%andb_prop);
    [by vm_compute|].
  exists p, w. do 4 (split; [done|]). by apply undefined_now_sound.
Qed.
End witnesses.
End DispatchMachRecv.
