(* ===== verification/Asl.v ===== *)
(** What the two probes of [src/priv/probes/asl] share: each file has its own copy of
    these functions.  The functions of libasl, liblaunch and libmd, the generated MIG
    code and the layout of the messages are parameters. *)

From stdpp Require Import gmap gmultiset list.
From S2P Require Import Prelude NxJson MachApi NxMachUtils Ledger Dispatch.

Local Open Scope Z_scope.

Module Asl.
Import Dispatch.Dispatch.

(** The constants and macros of the platform's headers that only these probes use. *)
Class AslSdk := {
  MACH_RCV_TRAILER_TYPE : Z → Z;
  MACH_RCV_TRAILER_ELEMENTS : Z → Z;
  MACH_MSG_TRAILER_FORMAT_0 : Z;
  MACH_RCV_TRAILER_AUDIT : Z;
  MAX_TRAILER_SIZE : Z;
  sizeof_mach_msg_audit_trailer : Z;
  ENOTSUP : Z;
}.

(** [SHA256_Data(bytes, size, digest)]; [NULL] is [None]. *)
Class Libmd := SHA256_Data : string → Z → option string.

(** What the buffer of a received message holds beside the members of [mach_msg_buf]:
    the out-of-line descriptor, the memory it points to, and the member
    [msgh_trailer_size] of a trailer at an offset. *)
Class ReceivedMessage := {
  ool_address : mach_msg_buf → Z;
  ool_size : mach_msg_buf → Z;
  ool_bytes : mach_msg_buf → string;
  trailer_size_at : mach_msg_buf → Z → Z;
}.

(** A C string with its terminator. *)
Definition with_nul (s : string) : string := s +:+ str1 nul.

(** [sizeof] of a string literal. *)
Definition sizeof_literal (s : string) : Z := Z.of_nat (String.length s) + 1.

(** [payload_size == sizeof(s) && memcmp(payload, s, sizeof(s)) == 0] *)
Definition same_bytes (payload : string) (size : Z) (s : string) : bool :=
  (size =? sizeof_literal s) &&
  String.eqb (String.substring 0 (Z.to_nat (sizeof_literal s)) payload) (with_nul s).

Lemma same_bytes_spec payload size s :
  Z.of_nat (String.length payload) = size →
  same_bytes payload size s = true ↔ payload = with_nul s.
Proof.
  intros <-. unfold same_bytes, sizeof_literal, with_nul. rewrite andb_true_iff, Z.eqb_eq, String.eqb_eq.
  split.
  - intros [E1 E2]. rewrite <- E1, Nat2Z.id in E2. by rewrite substring_all in E2 by lia.
  - intros ->. rewrite string_length_app. simpl. split; [lia|].
    apply substring_all. rewrite string_length_app. simpl. lia.
Qed.

Lemma with_nul_length s : String.length (with_nul s) = S (String.length s).
Proof. unfold with_nul. rewrite string_length_app. simpl. lia. Qed.

Lemma with_nul_inj s1 s2 : with_nul s1 = with_nul s2 → s1 = s2.
Proof.
  intros E. pose proof (f_equal String.length E) as El. rewrite !with_nul_length in El.
  revert s2 E El. unfold with_nul. induction s1 as [|c s1 IH]; intros [|d s2] E El; try done.
  simpl in *. injection E as -> E. f_equal. by apply IH; [|lia].
Qed.

(** What is printed for the digest. *)
Definition digest `{Libmd} (data : string) (n : Z) : string :=
  default "sha256_error" (SHA256_Data data (u32 n)).

(** Lines of standard output: [printf("%s=%s\n", key, value)] and [fflush]. *)
Abbreviation line := (string * string)%type.
Class Output (M : Type) := print_line : line → M → M.

Definition flag (b : bool) : string := if b then "1" else "0".

(** [(size + sizeof(mach_msg_size_t) - 1) & ~(sizeof(mach_msg_size_t) - 1)], in
    [size_t] and then converted to [mach_msg_size_t]. *)
Definition round_msg_size (size : Z) : Z := u32 (Z.land (size + 4 - 1) (2 ^ 64 - 1 - (4 - 1))).

Section emit.
Context {F X M : Type} `{Output M}.

Definition emit_kv (key value : string) : thread F X M unit :=
  mem (λ m, Some (tt, print_line (key, value) m)).
Definition emit_u32 (key : string) (value : Z) : thread F X M unit :=
  emit_kv key (fmt_lld (u32 value)).
Definition emit_i32 (key : string) (value : Z) : thread F X M unit :=
  emit_kv key (fmt_lld value).
Definition emit_sha256 `{Libmd} (key : string) (bytes : string) (size : Z) : thread F X M unit :=
  match SHA256_Data bytes (u32 size) with
  | None => emit_kv key "sha256_error"
  | Some digest => emit_kv key digest
  end.
End emit.

(** The receive, and what is looked up in the buffer. *)
Section receive.
Context `{MachSdk} `{AslSdk} `{ReceivedMessage}.

(** [sizeof] of the union with [uint8_t bytes[8192 + MAX_TRAILER_SIZE]] *)
Definition sizeof_request : Z := 8192 + MAX_TRAILER_SIZE.

Definition receive_options : Z :=
  Z.lor (Z.lor (Z.lor MACH_RCV_MSG MACH_RCV_TIMEOUT)
    (MACH_RCV_TRAILER_TYPE MACH_MSG_TRAILER_FORMAT_0))
    (MACH_RCV_TRAILER_ELEMENTS MACH_RCV_TRAILER_AUDIT).

Definition receive_request (port timeout : Z) : mach_call (mach_msg_return_t * mach_msg_buf) :=
  mach_msg zero_msg receive_options 0 sizeof_request port timeout MACH_PORT_NULL.

Definition trailer_offset (m : mach_msg_buf) : Z := round_msg_size (msgh_size m).

(** The condition under which a trailer is looked for. *)
Definition trailer_fits (m : mach_msg_buf) : bool :=
  trailer_offset m + sizeof_mach_msg_audit_trailer <=? sizeof_request.

Definition audit_trailer_at (m : mach_msg_buf) : bool :=
  sizeof_mach_msg_audit_trailer <=? trailer_size_at m (trailer_offset m).

Lemma round_msg_size_spec size :
  is_u32 size → round_msg_size size = u32 (4 * ((size + 3) `div` 4)).
Proof.
  intros Hs. unfold round_msg_size, is_u32 in *. f_equal.
  change (2 ^ 64 - 1 - (4 - 1)) with (Z.ldiff (Z.ones 64) (Z.ones 2)).
  replace (Z.land (size + 4 - 1) (Z.ldiff (Z.ones 64) (Z.ones 2)))
    with (Z.ldiff (Z.land (size + 4 - 1) (Z.ones 64)) (Z.ones 2)).
  - rewrite Z.land_ones, Z.mod_small, Z.ldiff_ones_r, Z.shiftl_mul_pow2, Z.shiftr_div_pow2 by lia.
    rewrite Z.mul_comm. do 2 f_equal. lia.
  - apply Z.bits_inj'. intros n _. rewrite !Z.ldiff_spec, !Z.land_spec, Z.ldiff_spec.
    by rewrite andb_assoc.
Qed.

(** C31: for sizes that leave room below 2^32 the offset of the trailer is the least
    multiple of four that is not below the size, else it is 0; and a trailer is read
    only within the buffer, whatever size the header has. *)
Theorem audit_trailer_in_bounds (m : mach_msg_buf) :
  is_u32 (msgh_size m) → 0 < sizeof_mach_msg_audit_trailer →
  trailer_offset m `mod` 4 = 0 ∧
  (msgh_size m ≤ 2 ^ 32 - 4 → msgh_size m ≤ trailer_offset m < msgh_size m + 4) ∧
  (2 ^ 32 - 4 < msgh_size m → trailer_offset m = 0) ∧
  (trailer_fits m = true →
   0 ≤ trailer_offset m ∧ trailer_offset m + sizeof_mach_msg_audit_trailer ≤ sizeof_request).
Proof.
  intros Hs Ht. unfold trailer_fits, trailer_offset. rewrite round_msg_size_spec by done.
  rewrite Z.leb_le. unfold is_u32, u32 in *. pose proof (Z.div_mod (msgh_size m + 3) 4 ltac:(done)).
  pose proof (Z.mod_pos_bound (msgh_size m + 3) 4 ltac:(done)).
  assert (0 ≤ (4 * ((msgh_size m + 3) `div` 4)) `mod` 2 ^ 32) by (apply Z.mod_pos_bound; lia).
  destruct (Z.le_gt_cases (msgh_size m) (2 ^ 32 - 4)).
  - rewrite !(Z.mod_small (4 * ((msgh_size m + 3) `div` 4)) (2 ^ 32)) by lia. rewrite Z.mul_comm, Z.mod_mul by done. lia.
  - replace ((msgh_size m + 3) `div` 4) with (2 ^ 30)
      by (apply (Z.div_unique _ _ _ (msgh_size m + 3 - 2 ^ 32)); lia).
    change ((4 * 2 ^ 30) `mod` 2 ^ 32) with 0. rewrite Z.mod_0_l by done. lia.
Qed.
End receive.

(** A size for which there is room. *)
Section witness.
#[local] Instance asl_sdk0 : AslSdk := {|
  MACH_RCV_TRAILER_TYPE x := Z.shiftl (Z.land x 15) 28;
  MACH_RCV_TRAILER_ELEMENTS x := Z.shiftl (Z.land x 15) 24;
  MACH_MSG_TRAILER_FORMAT_0 := 0; MACH_RCV_TRAILER_AUDIT := 3; MAX_TRAILER_SIZE := 68;
  sizeof_mach_msg_audit_trailer := 52; ENOTSUP := 45 |}.
#[local] Instance received0 : ReceivedMessage := {|
  ool_address m := 0; ool_size m := 0; ool_bytes m := ""; trailer_size_at m offset := 52 |}.

Lemma audit_trailer_in_bounds_witness :
  let m := mk_msg 0 101 0 0 118 0 zero_desc zero_desc in
  is_u32 (msgh_size m) ∧ 0 < sizeof_mach_msg_audit_trailer ∧ trailer_fits m = true ∧
  trailer_offset m `mod` 4 = 0 ∧ 0 ≤ trailer_offset m.
Proof.
  intros m. assert (is_u32 (msgh_size m)) as Hm by (subst m; unfold is_u32; simpl; lia).
  assert (0 < sizeof_mach_msg_audit_trailer) as Ht by done.
  assert (trailer_fits m = true) as Hf by by vm_compute.
  destruct (audit_trailer_in_bounds m Hm Ht) as (H1 & _ & _ & H4).
  split; [exact Hm|]. split; [exact Ht|]. split; [exact Hf|]. split; [exact H1|].
  exact (proj1 (H4 Hf)).
Defined.
End witness.
End Asl.
