(* ===== verification/AslHandoff.v ===== *)
(** [priv/probes/asl/a2_system_logger_handoff.c]: a server that checks in with launchd and
    receives one message, and the client that looks the service up and sends it. *)

From stdpp Require Import gmap gmultiset list.
From S2P Require Import Prelude NxJson MachApi NxMachUtils Ledger RefKernel Dispatch Asl.

Local Open Scope Z_scope.

Module AslHandoff.
Import Dispatch.Dispatch Asl.Asl.

Definition LAUNCH_KEY_CHECKIN : string := "CheckIn".
Definition LAUNCH_JOBKEY_MACHSERVICES : string := "MachServices".
Definition ASL_A2_SERVICE_NAME : string := "com.apple.system.logger".
Definition ASL_A2_NONCE : string := "rmxos-asl-a2-nonce-v1".
Definition ASL_A2_PAYLOAD : string :=
  "[Sender oracle_asl_a2_client] [Facility com.rmxos.oracle.asl] [Level 5] [Message " +:+
  ASL_A2_NONCE +:+ "]".

(** One thread, whose only memory is standard output. *)
Abbreviation thread := (thread Empty_set Empty_set (list line)).
#[local] Instance output_lines : Output (list line) := λ l m, m ++ [l].

Section asl_handoff.
Context `{MachSdk} `{AslSdk} `{Libmd} `{ReceivedMessage}.

(** The functions that only satisfy the linker: what they store where they are given
    a pointer, the [errno] they set, and what they return. *)
Definition fileport_makeport (port : bool) : option mach_port_t * Z :=
  (if port then Some MACH_PORT_NULL else None, ENOTSUP).
Definition fileport_makefd (port : mach_port_t) : Z * Z := (ENOTSUP, -1).
Definition _vprocmgr_getsocket : Z * Z := (ENOTSUP, -1).
Definition _vprocmgr_init (session_type : option string) : Z := 0.
Definition _vprocmgr_move_subset_to_user (target_user : Z) (session_type : option string)
  (flags : Z) : Z := ENOTSUP.

Definition complex_bit (m : mach_msg_buf) : bool :=
  negb (Z.land (msgh_bits m) MACH_MSGH_BITS_COMPLEX =? 0).

(** The message is not the one that is expected. *)
Definition unexpected (m : mach_msg_buf) : bool :=
  negb (msgh_id m =? 118) || negb (complex_bit m) || negb (msgh_descriptor_count m =? 1) ||
  (ool_address m =? 0) || (ool_size m =? 0).

Definition nonce_match (m : mach_msg_buf) : bool :=
  same_bytes (ool_bytes m) (ool_size m) ASL_A2_PAYLOAD.

(** [run_server] from the receive to [out]. *)
Definition receive_message (receive_port : mach_port_t) : thread Z :=
  '(kr, m) ← lift (call (receive_request receive_port 15000));
  _ ← emit_i32 "ASL_A2_SERVER_RECEIVE_KR" kr;
  if negb (kr =? KERN_SUCCESS) then mret 1 else
  _ ← emit_u32 "ASL_A2_SERVER_RECEIVED_MSG_ID" (u32 (msgh_id m));
  _ ← emit_kv "ASL_A2_SERVER_RECEIVED_COMPLEX" (flag (complex_bit m));
  _ ← emit_u32 "ASL_A2_SERVER_DESCRIPTOR_COUNT" (u32 (msgh_descriptor_count m));
  _ ← emit_u32 "ASL_A2_RECEIVED_OOL_BYTE_COUNT" (ool_size m);
  _ ← emit_kv "ASL_A2_SERVER_REQUESTED_AUDIT_TRAILER" "1";
  _ ← emit_kv "ASL_A2_SERVER_AUDIT_TRAILER_PRESENT" (flag (trailer_fits m && audit_trailer_at m));
  if unexpected m then mret 1 else
  _ ← emit_sha256 "ASL_A2_RECEIVED_OOL_SHA256" (ool_bytes m) (ool_size m);
  _ ← emit_kv "ASL_A2_NONCE_MATCH" (flag (nonce_match m));
  _ ← emit_kv "ASL_A2_PORT_IDENTITY_NONCE_RECEIVED" "1";
  _ ← emit_kv "ASL_A2_SUBCLAIM_B_SERVER_RECEIPT" "1";
  _ ← guarded (negb (ool_address m =? 0)) KERN_SUCCESS
        (lift (call (vm_deallocate (ool_address m) (ool_size m))));
  mret 0.

(** [run_server] from the check-in reply to [out]. *)
Definition use_reply (reply : Z) : thread Z :=
  if reply =? 0 then mret 1 else
  machservices ← act (Extern (launch_data_dict_lookup reply LAUNCH_JOBKEY_MACHSERVICES));
  _ ← emit_kv "ASL_A2_MACHSERVICES_DICT_PRESENT" (flag (negb (machservices =? 0)));
  if machservices =? 0 then mret 1 else
  service ← act (Extern (launch_data_dict_lookup machservices ASL_A2_SERVICE_NAME));
  _ ← emit_kv "ASL_A2_SERVICE_ENTRY_PRESENT" (flag (negb (service =? 0)));
  if service =? 0 then mret 1 else
  receive_port ← act (Extern (launch_data_get_machport service));
  _ ← emit_u32 "ASL_A2_SERVER_CHECKIN_RECEIVE_PORT" receive_port;
  _ ← emit_kv "ASL_A2_SERVER_RECEIVE_RIGHT_USABLE"
        (flag (negb (receive_port =? MACH_PORT_NULL)));
  if receive_port =? MACH_PORT_NULL then mret 1 else
  _ ← emit_kv "ASL_A2_SUBCLAIM_A_PASSED" "1";
  receive_message receive_port.

Definition run_server : thread Z :=
  _ ← emit_kv "ASL_A2_SERVER_START" "1";
  _ ← emit_kv "ASL_A2_SERVICE_NAME" ASL_A2_SERVICE_NAME;
  _ ← emit_kv "ASL_A2_LAUNCH_CHECKIN_CALLED" "1";
  _ ← emit_kv "ASL_A2_LAUNCH_CHECKIN_KEY" LAUNCH_KEY_CHECKIN;
  request ← act (Extern (launch_data_new_string LAUNCH_KEY_CHECKIN));
  reply ← act (Extern (launch_msg request));
  _ ← emit_kv "ASL_A2_LAUNCH_CHECKIN_REPLY_PRESENT" (flag (negb (reply =? 0)));
  _ ← guarded (negb (request =? 0)) tt (act (Extern (launch_data_free request)));
  rc ← use_reply reply;
  _ ← emit_kv "ASL_A2_DONE" (flag (rc =? 0));
  _ ← guarded (negb (reply =? 0)) tt (act (Extern (launch_data_free reply)));
  mret rc.

Definition run_client : thread Z :=
  _ ← emit_kv "ASL_A2_CLIENT_START" "1";
  _ ← emit_kv "ASL_A2_SERVICE_NAME" ASL_A2_SERVICE_NAME;
  _ ← emit_kv "ASL_A2_DONOR_LOOKUP_FUNCTION" "asl_core_get_service_port";
  _ ← emit_kv "ASL_A2_DONOR_LOOKUP_CALLED" "1";
  service_port ← act (Extern (asl_core_get_service_port 1));
  _ ← emit_u32 "ASL_A2_CLIENT_LOOKUP_SEND_RIGHT" service_port;
  _ ← emit_kv "ASL_A2_CLIENT_LOOKUP_SUCCESS" (flag (negb (service_port =? MACH_PORT_NULL)));
  if service_port =? MACH_PORT_NULL then mret 1 else
  let ool_len := u32 (sizeof_literal ASL_A2_PAYLOAD) in
  _ ← emit_u32 "ASL_A2_EXPECTED_OOL_BYTE_COUNT" ool_len;
  _ ← emit_sha256 "ASL_A2_EXPECTED_OOL_SHA256" (with_nul ASL_A2_PAYLOAD) ool_len;
  _ ← emit_kv "ASL_A2_NONCE" ASL_A2_NONCE;
  '(kr, ool) ← lift (call (vm_allocate ool_len));
  _ ← emit_i32 "ASL_A2_CLIENT_VM_ALLOCATE_KR" kr;
  if negb (kr =? KERN_SUCCESS) then mret 1 else
  _ ← act (Extern (memcpy ool (with_nul ASL_A2_PAYLOAD)));
  _ ← emit_kv "ASL_A2_CLIENT_SEND_STARTED" "1";
  kr ← act (Extern (asl_server_message service_port ool ool_len));
  _ ← emit_i32 "ASL_A2_CLIENT_SEND_KR" kr;
  _ ← emit_kv "ASL_A2_SUBCLAIM_B_CLIENT_SEND" (flag (kr =? KERN_SUCCESS));
  mret (if kr =? KERN_SUCCESS then 0 else 1).

(** What is built, by the macros that are defined. *)
Inductive role := ASL_A2_ROLE_SERVER | ASL_A2_ROLE_CLIENT | no_role.

Definition main (r : role) : thread Z :=
  match r with
  | ASL_A2_ROLE_SERVER => run_server
  | ASL_A2_ROLE_CLIENT => run_client
  | no_role => _ ← emit_kv "ASL_A2_BUILD_ROLE_MISSING" "1"; mret 64
  end.
End asl_handoff.

(** ** What a run leaves behind

    The state beside the program: its output, the launch data it holds, each with the
    object it is a part of, the memory it has mapped, what it has sent, and the messages
    it received. *)
Record trail := mk_trail {
  printed : list line;
  held : gset (Z * Z);
  mapped : gmap Z (Z * string);
  sent : list (mach_port_t * string);
  got : list mach_msg_buf;
}.

(** The messages that may come, and whether the descriptor in one is out-of-line memory:
    the program does not look at its type. *)
Class Arrivals := {
  arrives : mach_msg_buf → Prop;
  out_of_line : mach_msg_buf → bool;
}.

Definition set_held (h : gset (Z * Z)) (s : trail) : trail :=
  mk_trail (printed s) h (mapped s) (sent s) (got s).
Definition set_mapped (m : gmap Z (Z * string)) (s : trail) : trail :=
  mk_trail (printed s) (held s) m (sent s) (got s).
Definition set_got (m : mach_msg_buf) (s : trail) : trail :=
  mk_trail (printed s) (held s) (mapped s) (sent s) (got s ++ [m]).

Section paths.
Context `{MachSdk} `{AslSdk} `{Libmd} `{ReceivedMessage} `{Arrivals}.

(** What the program must hold to make a call. *)
Definition entitled {R} (c : action Empty_set Empty_set (list line) R) (s : trail) : Prop :=
  match c with
  | Mach (vm_deallocate a n) => ∃ data, mapped s !! a = Some (n, data)
  | Mem f => is_Some (f (printed s))
  | Extern (launch_data_free d) => (d, d) ∈ held s
  | Extern (launch_data_dict_lookup d _) | Extern (launch_data_get_machport d) =>
      ∃ root, (d, root) ∈ held s
  | Extern (launch_msg d) => d = 0 ∨ ∃ root, (d, root) ∈ held s
  | Extern (memcpy dst data) =>
      ∃ n old, mapped s !! dst = Some (n, old) ∧ Z.of_nat (String.length data) ≤ n
  | Extern (asl_server_message _ a n) => ∃ data, mapped s !! a = Some (n, data)
  | _ => True
  end.

(** A call that gives an object that is the program's to free, or [NULL]. *)
Definition gives_object (r : Z) (s s' : trail) : Prop :=
  (r = 0 ∧ s' = s) ∨
  (r ≠ 0 ∧ (∀ d, (d, r) ∉ held s) ∧ s' = set_held ({[(r, r)]} ∪ held s) s).

(** The memory a message with one out-of-line descriptor brings along. *)
Definition brings (m : mach_msg_buf) : bool :=
  complex_bit m && (msgh_descriptor_count m =? 1) && out_of_line m && negb (ool_address m =? 0) &&
  negb (ool_size m =? 0).

Definition effect {R} (c : action Empty_set Empty_set (list line) R) (s : trail) :
    R → trail → Prop :=
  match c in action _ _ _ R return R → trail → Prop with
  | Mach c =>
      match c in mach_call R return R → trail → Prop with
      | vm_allocate n => λ '(k, a) s',
          if k =? KERN_SUCCESS
          then mapped s !! a = None ∧ s' = set_mapped (<[a := (n, EmptyString)]> (mapped s)) s
          else s' = s
      | vm_deallocate a n => λ _ s', s' = set_mapped (delete a (mapped s)) s
      | mach_msg _ _ _ _ _ _ _ => λ '(k, m) s',
          if k =? KERN_SUCCESS
          then arrives m ∧
               if brings m
               then mapped s !! ool_address m = None ∧
                    s' = set_got m
                      (set_mapped (<[ool_address m := (ool_size m, ool_bytes m)]> (mapped s)) s)
               else s' = set_got m s
          else s' = s
      | _ => λ _ s', s' = s
      end
  | Mem f => λ r s', ∃ l, f (printed s) = Some (r, l) ∧ s' = mk_trail l (held s) (mapped s) (sent s) (got s)
  | Lib _ => λ _ s', s' = s
  | Extern c =>
      match c in extern R return R → trail → Prop with
      | launch_data_new_string _ => λ r s', gives_object r s s'
      | launch_msg _ => λ r s', gives_object r s s'
      | launch_data_dict_lookup d _ => λ r s',
          (r = 0 ∧ s' = s) ∨
          (r ≠ 0 ∧ ∃ root, (d, root) ∈ held s ∧ s' = set_held ({[(r, root)]} ∪ held s) s)
      | launch_data_free d => λ _ s',
          s' = set_held (filter (λ e, e.2 ≠ d) (held s)) s
      | memcpy dst data => λ _ s',
          ∃ n old, mapped s !! dst = Some (n, old) ∧
            s' = set_mapped (<[dst := (n, data)]> (mapped s)) s
      | asl_server_message port a n => λ _ s', ∃ data, mapped s !! a = Some (n, data) ∧
          s' = mk_trail (printed s) (held s) (mapped s) (sent s ++ [(port, data)]) (got s)
      | _ => λ _ s', s' = s
      end
  end.

(** On every path each call is one the program is entitled to, and [Q] holds at the
    end. *)
Fixpoint along {A} (p : thread A) (Q : A → trail → Prop) (s : trail) : Prop :=
  match p with
  | Done a => Q a s
  | Do c k => entitled c s ∧ ∀ r s', effect c s r s' → along (k r) Q s'
  end.

Lemma along_bind {A B} (f : A → thread B) (p : thread A) Q s :
  along p (λ a, along (f a) Q) s → along (p ≫= f) Q s.
Proof.
  revert s. induction p as [a|R c k IH]; intros s; [done|].
  intros [Hc Hk]. split; [done|]. intros r s' He. by apply IH, Hk.
Qed.

Lemma along_mono {A} (p : thread A) (Q Q' : A → trail → Prop) s :
  along p Q s → (∀ a s', Q a s' → Q' a s') → along p Q' s.
Proof.
  revert s. induction p as [a|R c k IH]; intros s Hp HQ; [by apply HQ|].
  destruct Hp as [Hc Hk]. split; [done|]. intros r s' He. eapply IH; eauto.
Qed.

Lemma along_act {R} (c : action Empty_set Empty_set (list line) R) (Q : R → trail → Prop) s :
  entitled c s → (∀ r s', effect c s r s' → Q r s') → along (act c) Q s.
Proof. by split. Qed.

Definition add_lines (l : list line) (s : trail) : trail :=
  mk_trail (printed s ++ l) (held s) (mapped s) (sent s) (got s).

Lemma along_kv key value (Q : unit → trail → Prop) s :
  Q tt (add_lines [(key, value)] s) → along (emit_kv key value) Q s.
Proof.
  intros HQ. apply along_act; [by eexists|]. intros [] s' (l & [= <-] & ->). exact HQ.
Qed.

Lemma along_sha256 key data n (Q : unit → trail → Prop) s :
  Q tt (add_lines [(key, digest data n)] s) → along (emit_sha256 key data n) Q s.
Proof.
  intros HQ. unfold emit_sha256. unfold digest in HQ. case_match; by apply along_kv.
Qed.

Lemma along_guarded {A} (b : bool) (a : A) p (Q : A → trail → Prop) s :
  (b = true → along p Q s) → (b = false → Q a s) → along (guarded b a p) Q s.
Proof. destruct b; simpl; auto. Qed.

Lemma add_lines_app l1 l2 s : add_lines l2 (add_lines l1 s) = add_lines (l1 ++ l2) s.
Proof. unfold add_lines. simpl. by rewrite (assoc_L (++)). Qed.
Lemma set_held_lines h l s : set_held h (add_lines l s) = add_lines l (set_held h s).
Proof. done. Qed.
End paths.

(** *** The server *)

(** How far it gets: no reply of launchd, no services in it, no entry of this service,
    no port in that; no message on [port], another message, or the expected one. *)
Inductive server_end :=
  | no_reply
  | no_services
  | no_entry
  | no_port
  | no_message (port kr : Z)
  | other_message (port : Z) (m : mach_msg_buf)
  | accepted (port : Z) (m : mach_msg_buf).

Section server.
Context `{MachSdk} `{AslSdk} `{Libmd} `{ReceivedMessage} `{Arrivals}.

Definition level (e : server_end) : nat :=
  match e with
  | no_reply => 0 | no_services => 1 | no_entry => 2 | no_port => 3
  | no_message _ _ => 4 | other_message _ _ => 5 | accepted _ _ => 6
  end.
Definition reached (n : nat) (e : server_end) : bool := (n <=? level e)%nat.
Definition port_of (e : server_end) : Z :=
  match e with
  | no_message port _ | other_message port _ | accepted port _ => port
  | _ => MACH_PORT_NULL
  end.
Definition kr_of (e : server_end) : Z :=
  match e with no_message _ kr => kr | _ => KERN_SUCCESS end.

Definition message_lines (m : mach_msg_buf) : list line :=
  [("ASL_A2_SERVER_RECEIVED_MSG_ID", fmt_lld (u32 (msgh_id m)));
   ("ASL_A2_SERVER_RECEIVED_COMPLEX", flag (complex_bit m));
   ("ASL_A2_SERVER_DESCRIPTOR_COUNT", fmt_lld (u32 (msgh_descriptor_count m)));
   ("ASL_A2_RECEIVED_OOL_BYTE_COUNT", fmt_lld (u32 (ool_size m)));
   ("ASL_A2_SERVER_REQUESTED_AUDIT_TRAILER", "1");
   ("ASL_A2_SERVER_AUDIT_TRAILER_PRESENT", flag (trailer_fits m && audit_trailer_at m))].

Definition accepted_lines (m : mach_msg_buf) : list line :=
  [("ASL_A2_RECEIVED_OOL_SHA256", digest (ool_bytes m) (ool_size m));
   ("ASL_A2_NONCE_MATCH", flag (nonce_match m));
   ("ASL_A2_PORT_IDENTITY_NONCE_RECEIVED", "1");
   ("ASL_A2_SUBCLAIM_B_SERVER_RECEIPT", "1")].

(** What it prints, from how far it got. *)
Definition reply_log (e : server_end) : list line :=
  (if reached 1 e then [("ASL_A2_MACHSERVICES_DICT_PRESENT", flag (reached 2 e))] else []) ++
  (if reached 2 e then [("ASL_A2_SERVICE_ENTRY_PRESENT", flag (reached 3 e))] else []) ++
  (if reached 3 e then
     [("ASL_A2_SERVER_CHECKIN_RECEIVE_PORT", fmt_lld (u32 (port_of e)));
      ("ASL_A2_SERVER_RECEIVE_RIGHT_USABLE", flag (reached 4 e))] else []) ++
  (if reached 4 e then
     [("ASL_A2_SUBCLAIM_A_PASSED", "1");
      ("ASL_A2_SERVER_RECEIVE_KR", fmt_lld (kr_of e))] else []) ++
  match e with
  | other_message _ m => message_lines m
  | accepted _ m => message_lines m ++ accepted_lines m
  | _ => []
  end.
Definition server_log (e : server_end) : list line :=
  [("ASL_A2_SERVER_START", "1"); ("ASL_A2_SERVICE_NAME", ASL_A2_SERVICE_NAME);
   ("ASL_A2_LAUNCH_CHECKIN_CALLED", "1"); ("ASL_A2_LAUNCH_CHECKIN_KEY", LAUNCH_KEY_CHECKIN);
   ("ASL_A2_LAUNCH_CHECKIN_REPLY_PRESENT", flag (reached 1 e))] ++
  reply_log e ++
  [("ASL_A2_DONE", flag (reached 6 e))].

(** The reason is the one it had, and what stays mapped then. *)
Definition ended_so (e : server_end) : Prop :=
  match e with
  | no_message port kr => port ≠ MACH_PORT_NULL ∧ kr ≠ KERN_SUCCESS
  | other_message port m => port ≠ MACH_PORT_NULL ∧ arrives m ∧ unexpected m = true
  | accepted port m => port ≠ MACH_PORT_NULL ∧ arrives m ∧ unexpected m = false
  | _ => True
  end.
Definition left_mapped (e : server_end) : gmap Z (Z * string) :=
  match e with
  | other_message _ m =>
      if brings m then {[ool_address m := (ool_size m, ool_bytes m)]} else ∅
  | _ => ∅
  end.

Definition got_of (e : server_end) : list mach_msg_buf :=
  match e with other_message _ m | accepted _ m => [m] | _ => [] end.

Definition server_rc (e : server_end) : Z := if reached 6 e then 0 else 1.

(** What the program relies on: a message of the expected form has memory with it. *)
Definition memory_comes : Prop := ∀ m, arrives m → unexpected m = false → out_of_line m = true.

Lemma unexpected_brings m :
  unexpected m = false → out_of_line m = true → brings m = true ∧ ool_address m ≠ 0.
Proof.
  unfold unexpected, brings. rewrite !orb_false_iff, !negb_false_iff, !Z.eqb_neq.
  intros ((((_ & Hb) & Hc) & Ha) & Hs) Ho. rewrite Hb, Hc, Ho. simpl. split; [|done].
  apply andb_true_iff. by rewrite !negb_true_iff, !Z.eqb_neq.
Qed.

(** The steps of a path. *)
Ltac kv := apply along_bind, along_kv.
Ltac ext r s' H := apply along_bind, along_act; [|intros r s' H].

Lemma u32_u32 z : u32 (u32 z) = u32 z.
Proof. unfold u32. by rewrite Z.mod_mod. Qed.

Lemma receive_message_path port (Q : Z → trail → Prop) s :
  memory_comes → mapped s = ∅ → port ≠ MACH_PORT_NULL →
  (∀ kr, kr ≠ KERN_SUCCESS →
     Q 1 (add_lines [("ASL_A2_SERVER_RECEIVE_KR", fmt_lld kr)] s)) →
  (∀ m, arrives m → unexpected m = true →
     Q 1 (set_got m (set_mapped (left_mapped (other_message port m))
       (add_lines (("ASL_A2_SERVER_RECEIVE_KR", "0") :: message_lines m) s)))) →
  (∀ m, arrives m → unexpected m = false →
     Q 0 (set_got m
       (add_lines (("ASL_A2_SERVER_RECEIVE_KR", "0") :: message_lines m ++ accepted_lines m) s))) →
  along (receive_message port) Q s.
Proof.
  intros Hcome Hm Hp HQ1 HQ2 HQ3. unfold receive_message, emit_i32, emit_u32.
  apply along_bind. split; [done|]. intros [kr m] s1 Hs1. simpl in Hs1. kv.
  destruct (Z.eqb_spec kr KERN_SUCCESS) as [->|Hk]; cbn [negb andb] in *.
  2: { subst s1. by apply HQ1. }
  do 6 kv. rewrite !add_lines_app, !u32_u32. cbn [app].
  destruct Hs1 as [Harr Hs1].
  set (s2 := set_got m (set_mapped (left_mapped (other_message port m)) s)).
  assert (s1 = s2) as ->.
  { subst s2. simpl. destruct (brings m); [destruct Hs1 as [_ ->]|subst s1].
    - by rewrite Hm.
    - destruct s. simpl in Hm. by subst. }
  destruct (unexpected m) eqn:E; [by apply HQ2|].
  destruct (unexpected_brings m E (Hcome m Harr E)) as [Hb Ha].
  apply along_bind, along_sha256. do 3 kv. rewrite !add_lines_app. cbn [app].
  apply along_bind, along_guarded; intros Hg; [|by apply negb_false_iff, Z.eqb_eq in Hg].
  subst s2. simpl. rewrite Hb. split; [simpl; exists (ool_bytes m); by rewrite lookup_singleton_eq|].
  intros r s' ->. specialize (HQ3 m Harr E). unfold add_lines, set_mapped, set_got in *. simpl in *.
  by rewrite delete_singleton_eq, <- Hm.
Qed.

(** All launch data that is held is part of the reply. *)
Definition of_reply (reply : Z) (h : gset (Z * Z)) : Prop :=
  (reply, reply) ∈ h ∧ ∀ d root, (d, root) ∈ h → root = reply.

Lemma of_reply_add reply h d root r :
  of_reply reply h → (d, root) ∈ h → of_reply reply ({[(r, root)]} ∪ h).
Proof.
  intros [Hr Ha] Hd. rewrite (Ha _ _ Hd). split; [set_solver|].
  intros d' root' [E|Hin]%elem_of_union; [set_solver|by eapply Ha].
Qed.

Lemma lookup_path d key reply (Q : Z → trail → Prop) s :
  of_reply reply (held s) → (∃ root, (d, root) ∈ held s) →
  Q 0 s →
  (∀ r h, r ≠ 0 → of_reply reply h → (∃ root, (r, root) ∈ h) → Q r (set_held h s)) →
  along (act (Extern (launch_data_dict_lookup d key))) Q s.
Proof.
  intros Hr Hd H1' H2'. apply along_act; [done|].
  intros r s' [[-> ->]|(Hn & root & Hin & ->)]; [done|]. apply H2'; [done| |].
  - by eapply of_reply_add.
  - exists root. set_solver.
Qed.

Lemma use_reply_path reply (Q : Z → trail → Prop) s :
  memory_comes → reply ≠ 0 → of_reply reply (held s) → mapped s = ∅ →
  (∀ e h, reached 1 e = true → ended_so e → of_reply reply h →
     Q (server_rc e) (mk_trail (printed s ++ reply_log e) h (left_mapped e) (sent s) (got s ++ got_of e))) →
  along (use_reply reply) Q s.
Proof.
  intros Hcome Hr Ho Hm HQ. unfold use_reply, emit_u32. rewrite (proj2 (Z.eqb_neq reply 0)) by done.
  apply along_bind, (lookup_path _ _ reply); [done|eexists; apply Ho| |].
  { kv. specialize (HQ no_services _ eq_refl I Ho). unfold left_mapped in HQ. cbn [got_of] in HQ. by rewrite app_nil_r, <- Hm in HQ. }
  intros ms h1 Hn1 Ho1 Hd1. kv. rewrite (proj2 (Z.eqb_neq ms 0)) by done.
  apply along_bind, (lookup_path _ _ reply); [done..| |].
  { kv. rewrite ?set_held_lines, ?add_lines_app. specialize (HQ no_entry _ eq_refl I Ho1). unfold left_mapped in HQ. cbn [got_of] in HQ. by rewrite app_nil_r, <- Hm in HQ. }
  intros sv h2 Hn2 Ho2 Hd2. kv. rewrite (proj2 (Z.eqb_neq sv 0)) by done.
  ext port s' Hs'; [done|]. simpl in Hs'. subst s'. do 2 kv. rewrite !set_held_lines, !add_lines_app. cbn [app].
  destruct (Z.eqb_spec port MACH_PORT_NULL) as [->|Hp].
  { specialize (HQ no_port _ eq_refl I Ho2). unfold left_mapped in HQ. cbn [got_of] in HQ. by rewrite app_nil_r, <- Hm in HQ. }
  kv. rewrite ?set_held_lines, ?add_lines_app. apply receive_message_path; [done|done|done|..].
  - intros kr Hk. rewrite ?set_held_lines, ?add_lines_app.
    specialize (HQ (no_message port kr) _ eq_refl (conj Hp Hk) Ho2). unfold left_mapped in HQ. cbn [got_of] in HQ. by rewrite app_nil_r, <- Hm in HQ.
  - intros m Harr Hu. rewrite ?set_held_lines, ?add_lines_app. exact (HQ (other_message port m) _ eq_refl (conj Hp (conj Harr Hu)) Ho2).
  - intros m Harr Hu. rewrite ?set_held_lines, ?add_lines_app.
    specialize (HQ (accepted port m) _ eq_refl (conj Hp (conj Harr Hu)) Ho2). unfold left_mapped in HQ. by rewrite <- Hm in HQ.
Qed.

(** Nothing that is part of the reply is left when it is freed. *)
Lemma reply_freed reply h :
  of_reply reply h → filter (λ e : Z * Z, e.2 ≠ reply) h = ∅.
Proof.
  intros [_ Ha]. apply set_eq. intros [d root]. rewrite elem_of_filter. simpl.
  split; [|set_solver]. intros [Hn Hin]. by apply Ha in Hin.
Qed.

(** What is held after the request was freed: the reply, if there is one. *)
Definition after_request (request reply : Z) (h : gset (Z * Z)) : Prop :=
  let h' := if negb (request =? 0) then filter (λ e : Z * Z, e.2 ≠ request) h else h in
  (request ≠ 0 → (request, request) ∈ h) ∧
  (reply = 0 → h' = ∅) ∧ (reply ≠ 0 → of_reply reply h').

Lemma check_in_held request reply s0 s1 s2 :
  held s0 = ∅ → gives_object request s0 s1 → gives_object reply s1 s2 →
  s2 = set_held (held s2) s0 ∧ after_request request reply (held s2).
Proof.
  destruct s0 as [l h mm ss]. simpl. intros ->.
  intros [[-> ->]|(Hn & _ & ->)] [[-> ->]|(Hn' & Hf & ->)]; (split; [done|]);
    unfold after_request; rewrite ?(proj2 (Z.eqb_neq request 0)) by done;
    cbn [Z.eqb negb held set_held] in *; (split; [set_solver|]); (split; [|try done]); try done.
  - intros _. split; set_solver.
  - intros _. apply set_eq. intros [d root]. rewrite elem_of_filter. set_solver.
  - intros _. assert (reply ≠ request) by (intros ->; apply (Hf request); set_solver).
    split; [apply elem_of_filter; set_solver|]. intros d root [Hx Hin]%elem_of_filter. set_solver.
Qed.

(** Up to the reply. *)
Lemma check_in_path (k : Z → thread Z) (Q : Z → trail → Prop) s :
  held s = ∅ →
  along (k 0) Q (add_lines [("ASL_A2_LAUNCH_CHECKIN_REPLY_PRESENT", "0")] s) →
  (∀ reply h, reply ≠ 0 → of_reply reply h →
     along (k reply) Q
       (set_held h (add_lines [("ASL_A2_LAUNCH_CHECKIN_REPLY_PRESENT", "1")] s))) →
  along (request ← act (Extern (launch_data_new_string LAUNCH_KEY_CHECKIN));
         reply ← act (Extern (launch_msg request));
         _ ← emit_kv "ASL_A2_LAUNCH_CHECKIN_REPLY_PRESENT" (flag (negb (reply =? 0)));
         _ ← guarded (negb (request =? 0)) tt (act (Extern (launch_data_free request)));
         k reply) Q s.
Proof.
  intros Hs H0' H1'. ext request s1 Hs1; [done|]. ext reply s2 Hs2.
  { destruct Hs1 as [[-> _]|(_ & _ & ->)]; [by left|right; exists request; set_solver]. }
  destruct (check_in_held _ _ _ _ _ Hs Hs1 Hs2) as [-> (Hq & Hr0 & Hr1)]. clear Hs1 Hs2 s1.
  revert Hq Hr0 Hr1. generalize (held s2). intros h Hq Hr0 Hr1. kv.
  apply along_bind. set (h' := if negb (request =? 0) then _ else _) in *.
  enough (∀ s', s' = set_held h' (add_lines
    [("ASL_A2_LAUNCH_CHECKIN_REPLY_PRESENT", flag (negb (reply =? 0)))] s) → along (k reply) Q s') as HQ.
  { apply along_guarded; intros Hg.
    - apply along_act; [by apply Hq, Z.eqb_neq, negb_true_iff|]. intros r s' ->. apply HQ.
      subst h'. by rewrite Hg.
    - apply HQ. subst h'. by rewrite Hg. }
  intros s' ->. destruct (Z.eqb_spec reply 0) as [->|Hn].
  - rewrite Hr0, <- Hs by done. by destruct s.
  - apply H1'; auto.
Qed.

Lemma run_server_path l :
  memory_comes →
  along run_server (λ rc s, ∃ e, ended_so e ∧ rc = server_rc e ∧
    s = mk_trail (l ++ server_log e) ∅ (left_mapped e) [] (got_of e)) (mk_trail l ∅ ∅ [] []).
Proof.
  intros Hcome. unfold run_server. do 4 kv. rewrite !add_lines_app. cbn [app].
  apply check_in_path; [done|..].
  - rewrite add_lines_app. apply along_bind. unfold use_reply. cbn [Z.eqb along mret thread_ret].
    kv. rewrite add_lines_app. exists no_reply. by repeat split.
  - intros reply h Hr Ho. rewrite !set_held_lines, add_lines_app.
    apply along_bind, use_reply_path; [done..|]. intros e h' He1 He Ho'. kv.
    apply along_bind, along_guarded; intros Hg; [|by apply negb_false_iff, Z.eqb_eq in Hg].
    apply along_act; [apply Ho'|]. intros r s' ->. exists e. split; [done|]. split; [done|].
    unfold set_held. simpl. rewrite reply_freed by done. unfold server_log, server_rc. rewrite He1.
    f_equal. rewrite <- !(assoc_L (++)). simpl. do 6 f_equal. by destruct (reached 6 e).
Qed.
End server.

(** *** The client *)

Inductive client_end :=
  | no_service
  | no_memory (port kr : Z)
  | sent_with (port kr : Z).

Section client.
Context `{MachSdk} `{AslSdk} `{Libmd} `{ReceivedMessage} `{Arrivals}.

Definition payload_size : Z := sizeof_literal ASL_A2_PAYLOAD.

Definition client_port (e : client_end) : Z :=
  match e with no_service => MACH_PORT_NULL | no_memory port _ | sent_with port _ => port end.

(** What it prints, from how far it gets. *)
Definition client_log (e : client_end) : list line :=
  [("ASL_A2_CLIENT_START", "1"); ("ASL_A2_SERVICE_NAME", ASL_A2_SERVICE_NAME);
   ("ASL_A2_DONOR_LOOKUP_FUNCTION", "asl_core_get_service_port");
   ("ASL_A2_DONOR_LOOKUP_CALLED", "1");
   ("ASL_A2_CLIENT_LOOKUP_SEND_RIGHT", fmt_lld (u32 (client_port e)));
   ("ASL_A2_CLIENT_LOOKUP_SUCCESS", flag (negb (client_port e =? MACH_PORT_NULL)))] ++
  match e with
  | no_service => []
  | no_memory _ kr =>
      [("ASL_A2_EXPECTED_OOL_BYTE_COUNT", fmt_lld payload_size);
       ("ASL_A2_EXPECTED_OOL_SHA256", digest (with_nul ASL_A2_PAYLOAD) payload_size);
       ("ASL_A2_NONCE", ASL_A2_NONCE); ("ASL_A2_CLIENT_VM_ALLOCATE_KR", fmt_lld kr)]
  | sent_with _ kr =>
      [("ASL_A2_EXPECTED_OOL_BYTE_COUNT", fmt_lld payload_size);
       ("ASL_A2_EXPECTED_OOL_SHA256", digest (with_nul ASL_A2_PAYLOAD) payload_size);
       ("ASL_A2_NONCE", ASL_A2_NONCE); ("ASL_A2_CLIENT_VM_ALLOCATE_KR", "0");
       ("ASL_A2_CLIENT_SEND_STARTED", "1"); ("ASL_A2_CLIENT_SEND_KR", fmt_lld kr);
       ("ASL_A2_SUBCLAIM_B_CLIENT_SEND", flag (kr =? KERN_SUCCESS))]
  end.

Definition client_ended_so (e : client_end) : Prop :=
  match e with
  | no_service => True
  | no_memory port kr => port ≠ MACH_PORT_NULL ∧ kr ≠ KERN_SUCCESS
  | sent_with port _ => port ≠ MACH_PORT_NULL
  end.
Definition client_rc (e : client_end) : Z :=
  match e with sent_with _ kr => if kr =? KERN_SUCCESS then 0 else 1 | _ => 1 end.
Definition client_sent (e : client_end) : list (mach_port_t * string) :=
  match e with sent_with port _ => [(port, with_nul ASL_A2_PAYLOAD)] | _ => [] end.

Ltac kv := apply along_bind, along_kv.
Ltac ext r s' H := apply along_bind, along_act; [|intros r s' H].

Lemma run_client_path l :
  along run_client (λ rc s, ∃ e, client_ended_so e ∧ rc = client_rc e ∧
    printed s = l ++ client_log e ∧ held s = ∅ ∧ sent s = client_sent e) (mk_trail l ∅ ∅ [] []).
Proof.
  unfold run_client, emit_u32, emit_i32. do 4 kv. rewrite !add_lines_app. cbn [app].
  ext port s1 Hs1; [done|]. simpl in Hs1. subst s1. do 2 kv. rewrite !add_lines_app. cbn [app].
  destruct (Z.eqb_spec port MACH_PORT_NULL) as [->|Hp]; cbn [negb].
  { exists no_service. by repeat split. }
  assert (port =? MACH_PORT_NULL = false) as Hf by by apply Z.eqb_neq.
  kv. apply along_bind, along_sha256. kv. rewrite !add_lines_app. cbn [app].
  apply along_bind. split; [done|]. intros [kr a] s1 Hs1. simpl in Hs1. kv.
  destruct (Z.eqb_spec kr KERN_SUCCESS) as [->|Hk]; cbn [negb] in *.
  2: { subst s1. exists (no_memory port kr). split; [done|]. split; [done|].
       unfold client_log. cbn [client_port]. rewrite Hf. cbn. by rewrite <- (assoc_L (++)). }
  destruct Hs1 as [_ ->].
  ext r s1 Hs1.
  { simpl. do 2 eexists. by rewrite lookup_insert_eq. }
  simpl in Hs1. destruct Hs1 as (n & old & Hn & ->). rewrite lookup_insert_eq in Hn.
  injection Hn as <- <-. kv.
  apply along_bind, along_act; [|intros ks s2 Hs2].
  { simpl. eexists. by rewrite lookup_insert_eq. }
  simpl in Hs2. destruct Hs2 as (data & Hd & ->). rewrite lookup_insert_eq in Hd.
  injection Hd as <-. do 2 kv. exists (sent_with port ks). split; [done|]. split; [done|].
  unfold client_log. cbn [client_port]. rewrite Hf. cbn. rewrite <- !(assoc_L (++)).
  by repeat split.
Qed.
End client.

Section theorems.
Context `{MachSdk} `{AslSdk} `{Libmd} `{ReceivedMessage} `{Arrivals}.

Definition nothing : trail := mk_trail [] ∅ ∅ [] [].

(** C16: whatever launchd, the kernel and libasl answer, if a message of the expected form
    that arrives has its memory with it (the program does not look at the type of the
    descriptor): the server prints exactly what belongs to how far it got and to the
    message it received, returns 0 exactly if it accepted that, uses no launch
    data after it was freed, frees all it was given, deallocates only memory that came
    with the message, and keeps mapped only the memory of a message it did not accept; the
    client prints what belongs to how far it got, and what it sends, to the port it looked
    up, is the payload with its terminator. *)
Theorem handoff_main_reports (r : role) :
  memory_comes →
  along (main r) (λ rc s,
    match r with
    | ASL_A2_ROLE_SERVER => ∃ e, ended_so e ∧ rc = (if reached 6 e then 0 else 1) ∧
        s = mk_trail (server_log e) ∅ (left_mapped e) [] (got_of e)
    | ASL_A2_ROLE_CLIENT => ∃ e, client_ended_so e ∧ rc = client_rc e ∧
        printed s = client_log e ∧ held s = ∅ ∧ sent s = client_sent e
    | no_role => rc = 64 ∧ s = mk_trail [("ASL_A2_BUILD_ROLE_MISSING", "1")] ∅ ∅ [] []
    end) nothing.
Proof.
  intros Hcome. destruct r.
  - eapply along_mono; [exact (run_server_path [] Hcome)|]. intros rc s (e & He & Hr & Hs). by exists e.
  - eapply along_mono; [exact (run_client_path [])|].
    intros rc s (e & He & Hr & Hp & Hs). by exists e.
  - apply along_bind, along_kv. by split.
Qed.

(** The lines of a path. *)
Lemma kv_inv {A} key value (f : unit → thread A) (Q : A → trail → Prop) s :
  along (emit_kv key value ≫= f) Q s → along (f tt) Q (add_lines [(key, value)] s).
Proof. intros [_ Hp]. exact (Hp tt _ (ex_intro _ _ (conj eq_refl eq_refl))). Qed.

Lemma receive_inv {A} port ms (f : Z * mach_msg_buf → thread A) (Q : A → trail → Prop) s r s' :
  along (lift (call (receive_request port ms)) ≫= f) Q s →
  effect (Mach (receive_request port ms)) s r s' → along (f r) Q s'.
Proof. intros [_ Hp]. apply Hp. Qed.

Lemma sha256_inv {A} key data n (f : unit → thread A) (Q : A → trail → Prop) s :
  along (emit_sha256 key data n ≫= f) Q s → along (f tt) Q (add_lines [(key, digest data n)] s).
Proof. unfold emit_sha256, digest. destruct (SHA256_Data data (u32 n)); apply kv_inv. Qed.

(** A message of the expected form whose descriptor is not out-of-line memory: the server
    deallocates memory that it does not have. *)
Lemma handoff_descriptor_unchecked port m s :
  arrives m → unexpected m = false → out_of_line m = false → mapped s = ∅ →
  ¬ along (receive_message port) (λ _ _, True) s.
Proof.
  intros Ha Hu Ho Hm Hp. unfold receive_message, emit_i32, emit_u32 in Hp.
  assert (ool_address m ≠ 0) as Hn.
  { unfold unexpected in Hu. rewrite !orb_false_iff, !Z.eqb_neq in Hu. tauto. }
  apply (receive_inv _ _ _ _ _ (KERN_SUCCESS, m) (set_got m s)) in Hp.
  2: { simpl. split; [done|]. unfold brings. by rewrite Ho, !andb_false_r. }
  apply kv_inv in Hp. change (negb (KERN_SUCCESS =? KERN_SUCCESS)) with false in Hp.
  cbv iota in Hp. do 6 apply kv_inv in Hp.
  rewrite Hu in Hp. apply sha256_inv in Hp. do 3 apply kv_inv in Hp.
  rewrite (proj2 (Z.eqb_neq _ _) Hn) in Hp. destruct Hp as [(data & Hd) _]. simpl in Hd.
  by rewrite Hm, lookup_empty in Hd.
Qed.

Lemma nonce_printed port m :
  ("ASL_A2_NONCE_MATCH", "1") ∈ server_log (accepted port m) ↔ nonce_match m = true.
Proof.
  unfold server_log, reply_log, message_lines, accepted_lines.
  cbn [reached level Nat.leb app port_of kr_of]. split.
  - intros Hin. destruct (nonce_match m); [done|]. exfalso. revert Hin.
    rewrite !elem_of_cons. intros Hin.
    repeat (destruct Hin as [Hin|Hin]; [discriminate Hin|]). by apply elem_of_nil in Hin.
  - intros ->. rewrite !elem_of_cons. tauto.
Qed.

Lemma not_accepted e :
  reached 6 e = false → ended_so e →
  ("ASL_A2_NONCE_MATCH", "1") ∉ server_log e ∧ ∀ m, got_of e = [m] → unexpected m = true.
Proof.
  intros E He. split.
  - destruct e as [| | | | |port m|port m]; try done;
      unfold server_log, reply_log, message_lines;
      cbn [reached level Nat.leb app port_of kr_of]; rewrite ?not_elem_of_cons, ?not_elem_of_app;
      repeat split; try discriminate; apply not_elem_of_nil.
  - destruct e as [| | | | |port m|port m]; try done. intros m' [= <-]. by destruct He as (_ & _ & Hu).
Qed.

(** C32: if what arrives with a message of the expected form is memory of the size the
    message gives: the client returns 0 only after it sent the payload with its terminator
    to a port; the server prints no key twice; it prints the line that says that the
    payload matched exactly if it received a message of the expected form whose memory is,
    byte for byte, what the client sends; and it returns 0 exactly if it received any
    message of that form, whatever its memory contains. *)
Theorem handoff_nonce :
  memory_comes →
  (∀ m, arrives m → unexpected m = false → Z.of_nat (String.length (ool_bytes m)) = ool_size m) →
  along run_client (λ rc s, rc = 0 →
    ∃ port, port ≠ MACH_PORT_NULL ∧ sent s = [(port, with_nul ASL_A2_PAYLOAD)]) nothing ∧
  along run_server (λ rc s, NoDup (map fst (printed s)) ∧
    (("ASL_A2_NONCE_MATCH", "1") ∈ printed s ↔
       ∃ m, got s = [m] ∧ unexpected m = false ∧ ool_bytes m = with_nul ASL_A2_PAYLOAD) ∧
    (rc = 0 ↔ ∃ m, got s = [m] ∧ unexpected m = false)) nothing.
Proof.
  intros Hcome Hsize. split.
  - eapply along_mono; [exact (run_client_path [])|].
    intros rc s (e & He & -> & _ & _ & ->) Hz. destruct e as [|port kr|port kr]; [done|done|].
    exists port. by split.
  - eapply along_mono; [exact (run_server_path [] Hcome)|].
    intros rc s (e & He & -> & ->). cbn [printed got app].
    split; [destruct e; apply (bool_decide_unpack _); by vm_compute|].
    assert (∀ port m, e = accepted port m →
      (("ASL_A2_NONCE_MATCH", "1") ∈ server_log e ↔ ool_bytes m = with_nul ASL_A2_PAYLOAD)) as Hacc.
    { intros port m ->. destruct He as (_ & Harr & Hu). rewrite nonce_printed. unfold nonce_match.
      apply same_bytes_spec. by apply Hsize. }
    unfold server_rc. destruct (reached 6 e) eqn:E6.
    + destruct e as [| | | | | |port m]; try done. rewrite (Hacc port m eq_refl).
      destruct He as (_ & Harr & Hu). split; (split; [by eauto|]); [|done].
      by intros (m' & [= <-] & _ & Hb).
    + pose proof (not_accepted e E6 He) as [Hin Hm].
      split; (split; [done|]); intros (m & Hg & Hu & _) || intros (m & Hg & Hu); specialize (Hm m Hg); congruence.
Qed.
End theorems.

Section witnesses.
Import OnMacos.

#[local] Instance sdk0 : AslSdk := {|
  MACH_RCV_TRAILER_TYPE x := Z.shiftl (Z.land x 15) 28;
  MACH_RCV_TRAILER_ELEMENTS x := Z.shiftl (Z.land x 15) 24;
  MACH_MSG_TRAILER_FORMAT_0 := 0; MACH_RCV_TRAILER_AUDIT := 3; MAX_TRAILER_SIZE := 68;
  sizeof_mach_msg_audit_trailer := 52; ENOTSUP := 45 |}.
#[local] Instance libmd0 : Libmd := λ data n, Some "0123".
#[local] Instance view0 : ReceivedMessage := {|
  ool_address m := 0x30000; ool_size m := payload_size; ool_bytes m := with_nul ASL_A2_PAYLOAD;
  trailer_size_at m offset := 52 |}.
(** What comes is the message of the client. *)
Definition message0 : mach_msg_buf := mk_msg (2 ^ 31) 44 0 7 118 1 zero_desc zero_desc.
#[local] Instance arrivals0 : Arrivals := {| arrives m := m = message0; out_of_line m := true |}.

Lemma memory_comes0 : memory_comes.
Proof. done. Qed.
Lemma sizes0 m : arrives m → unexpected m = false → Z.of_nat (String.length (ool_bytes m)) = ool_size m.
Proof. done. Qed.

Lemma handoff_main_reports_witness :
  memory_comes ∧
  along run_server (λ rc s, ∃ e, rc = (if reached 6 e then 0 else 1) ∧ printed s = server_log e) nothing.
Proof.
  split; [exact memory_comes0|].
  eapply along_mono; [exact (handoff_main_reports ASL_A2_ROLE_SERVER memory_comes0)|].
  intros rc s (e & _ & Hr & ->). by exists e.
Defined.

Lemma handoff_nonce_witness :
  memory_comes ∧ unexpected message0 = false ∧
  along run_server (λ rc s, got s = [message0] → rc = 0 ∧ ("ASL_A2_NONCE_MATCH", "1") ∈ printed s) nothing.
Proof.
  split; [exact memory_comes0|]. split; [reflexivity|].
  destruct (handoff_nonce memory_comes0 sizes0) as [_ Hs].
  eapply along_mono; [exact Hs|]. intros rc s (_ & Hn & Hr) Hg.
  split; [apply Hr|apply Hn]; by exists message0.
Defined.
End witnesses.
End AslHandoff.
