(* ===== verification/DispatchEnds.v ===== *)
(** Runs end: programs whose threads are finite, without a bound on their length. *)

From stdpp Require Import gmap gmultiset list relations.
From S2P Require Import Prelude MachApi NxMachUtils Ledger Dispatch.

Local Open Scope Z_scope.

Module DispatchEnds.
Import Dispatch.Dispatch.

(** One element of a list becomes smaller, or is removed. *)
Section lists.
Context {T : Type} (R : relation T).

Inductive shrinks : relation (list T) :=
  | shrinks_element l1 x y l2 : R y x → shrinks (l1 ++ y :: l2) (l1 ++ x :: l2)
  | shrinks_length l1 x l2 : shrinks (l1 ++ l2) (l1 ++ x :: l2).

Lemma shrinks_cons_inv l' x l :
  shrinks l' (x :: l) →
  (∃ y, R y x ∧ l' = y :: l) ∨ l' = l ∨ ∃ l2, shrinks l2 l ∧ l' = x :: l2.
Proof.
  inversion 1 as [l1 x0 y l2 HR E E'|l1 x0 l2 E E']; subst; destruct l1 as [|z l1]; simplify_list_eq.
  - left. by exists y.
  - right. right. exists (l1 ++ y :: l2). split; [by constructor|done].
  - right. by left.
  - right. right. exists (l1 ++ l2). split; [by econstructor|done].
Qed.

Lemma shrinks_acc_cons x l : Acc R x → Acc shrinks l → Acc shrinks (x :: l).
Proof.
  intros Hx. revert l. induction Hx as [x _ IHx]. intros l Hl. induction Hl as [l Hl IHl].
  constructor. intros l' [(y & Hy & ->)|[->|(l2 & Hl2 & ->)]]%shrinks_cons_inv.
  - apply IHx; [done|]. by constructor.
  - by constructor.
  - by apply IHl.
Qed.

Lemma shrinks_acc l : Forall (Acc R) l → Acc shrinks l.
Proof.
  induction 1 as [|x l Hx _ IH]; [|by apply shrinks_acc_cons].
  constructor. intros l' Hs. remember [] as l eqn:E. by destruct Hs as [[]|[]].
Qed.
End lists.

Section ends.
Context {F X M W : Type} `{Kernel W} `{Failures} (body : F → X → thread F X M unit).
Context {L : Type} `{Library F X L} `{!DispatchContract F X L}.
Abbreviation state := (@world F X M W L).
Implicit Types w : state.

(** Without sources, and with submissions only if [sub]. *)
Fixpoint finite {A} (sub : bool) (p : thread F X M A) : Prop :=
  match p with
  | Done _ => True
  | Do c k => sourceless c = true ∧ (spawns c = true → sub = true) ∧ ∀ r, finite sub (k r)
  end.

Lemma finite_bind {A B} sub (f : A → thread F X M B) (p : thread F X M A) :
  finite sub p → (∀ a, finite sub (f a)) → finite sub (p ≫= f).
Proof.
  intros Hp Hf. induction p as [a|R c k IH]; simpl; [apply Hf|].
  destruct Hp as (G1 & G2 & G3). split; [done|]. split; [done|]. intros r. by apply IH.
Qed.

Lemma finite_act {R} sub (c : action F X M R) :
  sourceless c = true → (spawns c = true → sub = true) → finite sub (act c).
Proof. intros G1 G2. by repeat split. Qed.

Lemma finite_lift {A} sub (p : prog A) : finite sub (lift p : thread F X M A).
Proof. induction p as [a|R c k IH]; simpl; [done|]. by repeat split. Qed.

Lemma finite_guarded {A} sub (b : bool) (a : A) (p : thread F X M A) :
  finite sub p → finite sub (guarded b a p).
Proof. by destruct b. Qed.

(** A job has less left to do. *)
Definition less_left (y x : job F X * thread F X M unit) : Prop :=
  match x.2 with Done _ => False | Do c k => ∃ r, y = (x.1, k r) end.

Lemma less_left_acc x : Acc less_left x.
Proof.
  destruct x as [j p]. induction p as [a|R c k IH]; constructor; [by intros y []|].
  intros y [r ->]. apply IH.
Qed.

(** No sources, and the jobs submit nothing. *)
Record tame w : Prop := {
  tame_well : well w;
  tame_sources : no_sources (objects_of (library w));
  tame_running : Forall (λ x, finite false x.2) (running w);
}.
Hypothesis bodies : ∀ f x, finite false (body f x).

Definition submitted w : nat := length (ready (objects_of (library w))).

(** A step beside the main thread: fewer jobs are submitted, or as many, and those that
    run shrink. *)
Lemma env_shrinks w w' :
  tame w → env_step body w w' →
  tame w' ∧ ((submitted w' < submitted w)%nat ∨
             submitted w' = submitted w ∧ shrinks less_left (running w') (running w)).
Proof.
  intros [Hw Hs Hr] [j l' Hl|l1 j p l2 p' w1 E Ha|l1 j l2 l' E Hl].
  - destruct (contract_start _ _ _ Hw Hl) as [[(l1 & l2 & E & E')|(o & f & x & c & Ho & _)] Hh];
      [|exfalso; exact (Hs _ _ _ _ Ho)].
    split; [split; [done|simpl; rewrite E'; apply Hs|]|].
    + simpl. apply Forall_app. split; [done|]. constructor; [apply bodies|done].
    + left. unfold submitted. simpl. rewrite E, E'. simpl. rewrite !length_app. simpl. lia.
  - rewrite E in Hr. apply Forall_app in Hr as [G1 [Hp G2]%Forall_cons]. simpl in Hp.
    destruct p as [|R c k]; [done|]. destruct Ha as (r & Ha & ->). destruct Hp as (Hsl & Hsp & Hk).
    destruct (acts_submits _ _ _ _ Hw Hsl Hs Ha) as (Hw' & Hs' & _ & Hlen).
    rewrite (not_true_is_false (spawns c)) in Hlen by (intros E'; discriminate (Hsp E')).
    split; [split; [done|done|]|].
    + simpl. apply Forall_app. split; [done|]. constructor; [apply Hk|done].
    + unfold submitted. simpl. destruct (decide (length (ready (objects_of (library w1))) =
        length (ready (objects_of (library w))))) as [El|]; [|left; lia].
      right. split; [done|]. rewrite E. constructor. by exists r.
  - rewrite E in Hr. apply Forall_app in Hr as [G1 [_ G2]%Forall_cons].
    destruct (contract_finish _ _ _ Hw Hl) as [Hd Hh]. destruct (after_job_ready j _ Hs) as [Hs' Hrd].
    split; [split; [done|by simpl; rewrite Hd|by apply Forall_app]|].
    right. unfold submitted. simpl. rewrite Hd, Hrd, E. split; [done|]. constructor.
Qed.

(** A relation that contains the steps beside the main thread, with its induction. *)
Lemma env_acc w : tame w → Acc (λ w' w, tame w ∧ env_step body w w') w.
Proof.
  remember (submitted w) as n eqn:En. revert w En.
  induction n as [n IHn] using lt_wf_ind. intros w.
  assert (Acc (shrinks less_left) (running w)) as Hacc.
  { apply shrinks_acc, Forall_forall. intros x _. apply less_left_acc. }
  remember (running w) as l eqn:El. revert w El.
  induction Hacc as [l _ IHl]. intros w -> -> Ht. constructor. intros w' [_ Hst].
  destruct (env_shrinks w w' Ht Hst) as [Ht' [Hlt|[Heq Hsh]]]; [by eapply IHn|].
  by apply (IHl (running w')).
Qed.

(** No run goes on for ever. *)
Lemma runs_end {A} (p : thread F X M A) w :
  finite true p → tame w → Acc (λ c' c, step body c c') (p, w).
Proof.
  revert w. induction p as [a|R c k IH]; intros w Hp Ht.
  { constructor. intros [p' w'] Hst. by inversion Hst. }
  induction (env_acc w Ht) as [w _ IHw]. constructor. intros [p' w'] Hst.
  inversion Hst as [q w0 q' w1 Ha E1|q w0 w1 He Hs' E1]; subst.
  - destruct Ha as (r & Ha & ->). destruct Hp as (Hsl & _ & Hk). destruct Ht as [Hw Hs Hr].
    destruct (acts_submits _ _ _ _ Hw Hsl Hs Ha) as (Hw' & Hs' & Er & _).
    apply IH; [apply Hk|]. split; [done|done|by rewrite Er].
  - apply IHw; [done|]. by apply (env_shrinks w w').
Qed.

(** From the start. *)
Lemma tame_start m (l : L) k :
  lib_healthy l → objs (objects_of l) = ∅ → tame (mk_world [] m l k).
Proof.
  intros Hl Ho. split; [done| |by constructor]. intros o f x b. simpl. by rewrite Ho.
Qed.
End ends.
End DispatchEnds.
