(* ===== verification/Pthread.v ===== *)
(** A thread that is created and joined: a logic for what it does while the main thread
    goes on, by rely and guarantee. *)

From stdpp Require Import gmap gmultiset list relations.
From S2P Require Import Prelude MachApi NxMachUtils Ledger Dispatch.

Local Open Scope Z_scope.

Module Pthread.
Import Dispatch.Dispatch.

Section pthread.
Context {F X M W : Type} `{Kernel W} `{Failures} (body : F → X → thread F X M unit).

(** The main thread leaves the [view] of the memory as it is, and the other one changes
    the memory only along [grows]. *)
Context {V : Type} (view : M → V) (grows : relation M) `{!PreOrder grows}.
Abbreviation state := (@world F X M W (objects F X)).
Implicit Types (w : state) (v : V) (m : M).

(** [gwp p Q v]: from any memory with view [v], whatever the kernel and other functions
    answer, every access of [p] to memory is defined, it makes no call of the library,
    and [Q] holds of what it returns and of the view then. *)
Fixpoint gwp {A} (p : thread F X M A) (Q : A → V → Prop) v : Prop :=
  match p with
  | Done a => Q a v
  | Do c k =>
      match c in action _ _ _ R return (R → thread F X M A) → (R → V → Prop) → Prop with
      | Mach c => λ _ go, ∀ r, go r v
      | Extern c => λ _ go, ∀ r, go r v
      | Mem f => λ _ go, ∀ m, view m = v →
          ∃ r m', f m = Some (r, m') ∧ grows m m' ∧ go r (view m')
      | Lib c => λ _ _, False
      end k (λ r, gwp (k r) Q)
  end.

Lemma gwp_bind {A B} (f : A → thread F X M B) (p : thread F X M A) Q v :
  gwp p (λ a, gwp (f a) Q) v → gwp (p ≫= f) Q v.
Proof.
  revert v. induction p as [a|R c k IH]; intros v; [done|].
  destruct c as [R c|R f'|R c|R c]; simpl; [|..|done|].
  - intros Hk r. by apply IH.
  - intros Hk m Hm. destruct (Hk m Hm) as (r & m' & Hf & Hg & Hr).
    exists r, m'. split; [done|]. split; [done|]. by apply IH.
  - intros Hk r. by apply IH.
Qed.

Lemma gwp_mono {A} (p : thread F X M A) (Q Q' : A → V → Prop) v :
  gwp p Q v → (∀ a v', Q a v' → Q' a v') → gwp p Q' v.
Proof.
  intros Hp HQ. revert v Hp. induction p as [a|R c k IH]; intros v; [by apply HQ|].
  destruct c as [R c|R f'|R c|R c]; simpl; [|..|done|].
  - intros Hk r. by apply IH.
  - intros Hk m Hm. destruct (Hk m Hm) as (r & m' & Hf & Hg & Hr).
    exists r, m'. split; [done|]. split; [done|]. by apply IH.
  - intros Hk r. by apply IH.
Qed.

Lemma gwp_mem {R} (f : M → option (R * M)) (Q : R → V → Prop) v :
  (∀ m, view m = v → ∃ r m', f m = Some (r, m') ∧ grows m m' ∧ Q r (view m')) →
  gwp (mem f) Q v.
Proof. done. Qed.

Lemma gwp_lift {A} (p : prog A) (Q : A → V → Prop) v :
  (∀ a, Q a v) → gwp (lift p) Q v.
Proof. intros HQ. induction p as [a|R c k IH]; simpl; [done|]. intros r. apply IH. Qed.

Lemma gwp_extern {R} (c : extern R) (Q : R → V → Prop) v :
  (∀ r, Q r v) → gwp (act (Extern c)) Q v.
Proof. intros HQ. exact HQ. Qed.

Lemma gwp_guarded {A} (b : bool) (a : A) p (Q : A → V → Prop) v :
  (b = true → gwp p Q v) → (b = false → Q a v) → gwp (guarded b a p) Q v.
Proof. destruct b; simpl; auto. Qed.

(** ** The thread, from its creation to its end *)

Definition the_thread (b : bool) (t : Z) : gmap Z (object F X) := {[t := Pthread b]}.

(** It was created and not started, it runs, or it has ended; nothing else is going on. *)
Inductive going (j : job F X) (t : Z) (Q : V → Prop) w : Prop :=
  | going_created :
      library w = mk_objects (the_thread false t) [j] → idle (running w) →
      gwp (body (fn j) (ctx j)) (λ _, Q) (view (memory w)) → going j t Q w
  | going_running p :
      library w = mk_objects (the_thread false t) [] → one j p w →
      gwp p (λ _, Q) (view (memory w)) → going j t Q w
  | going_ended :
      library w = mk_objects (the_thread true t) [] → idle (running w) →
      Q (view (memory w)) → going j t Q w.

(** And the memory has grown from [m]. *)
Definition beside (j : job F X) (t : Z) (Q : V → Prop) m w : Prop :=
  going j t Q w ∧ grows m (memory w).

Lemma no_sources_thread b t l : no_sources (mk_objects (the_thread b t) l).
Proof. intros o f x c Hl. simpl in Hl. unfold the_thread in Hl.
  by apply lookup_singleton_Some in Hl as [_ ?]. Qed.

Lemma gwp_moves p p' Q w w' :
  gwp p (λ _ : unit, Q) (view (memory w)) → moves p w p' w' →
  gwp p' (λ _, Q) (view (memory w')) ∧ grows (memory w) (memory w') ∧ library w' = library w.
Proof.
  destruct p as [|R c k]; [done|]. intros Hp (r & Ha & ->).
  destruct c as [R c|R f|R c|R c]; simpl in *; [|..|done|].
  - destruct Ha as [_ ->]. simpl. split; [apply Hp|by split].
  - destruct (Hp _ eq_refl) as (r' & m' & Hf & Hg & Hk). destruct Ha as (m2 & Hf' & ->).
    rewrite Hf in Hf'. injection Hf' as -> ->. by repeat split.
  - destruct Ha as [k' ->]. simpl. split; [apply Hp|by split].
Qed.

Lemma finish_one j t w w' l1 l2 i :
  member_of j = Some t → library w = mk_objects (the_thread false t) [] →
  one j (Done tt) w → running w = l1 ++ (i, Done tt) :: l2 → running w' = l1 ++ l2 →
  library w' = after_job i (library w) →
  (idle (running w') ∧ library w' = mk_objects (the_thread true t) []) ∨
  (one j (Done tt) w' ∧ library w' = library w).
Proof.
  intros Hj Hl (k1 & k2 & E & Hi) E' Hr ->. rewrite E in E'.
  destruct (split_idle _ _ _ _ _ _ _ E' Hi) as [(-> & [= ->] & ->)|(_ & Hm & k1' & k2' & E2 & Hi')].
  - left. rewrite Hr. split; [done|]. unfold after_job, set_obj. rewrite Hj, Hl. cbn [objs ready].
    unfold the_thread. by rewrite lookup_singleton_eq, insert_singleton_eq.
  - right. split; [exists k1', k2'; by rewrite Hr|]. simpl in Hm. unfold after_job. by rewrite Hm.
Qed.

Lemma going_stable j t Q m :
  member_of j = Some t → stable body (beside j t Q m).
Proof.
  intros Hj w w' [Hg Hm] Hst. destruct Hg as [Hl Hi Hp|p Hl Ho Hp|Hl Hi Hp].
  - destruct (env_idle body _ w' Hi) as [(Hi' & Hm' & Hl')|(l1 & i & l2 & E & Ho & Hm' & Hl')];
      [rewrite Hl; apply no_sources_thread|done|..].
    + split; [|by rewrite Hm']. apply going_created; [congruence|done|by rewrite Hm'].
    + rewrite Hl in E, Hl'. simpl in E, Hl'. split; [|by rewrite Hm'].
      destruct l1 as [|? [|]]; simplify_eq/=.
      by apply (going_running _ _ _ _ (body (fn i) (ctx i))); [| |rewrite Hm'].
  - destruct (returned p) eqn:Hr.
    + destruct p as [[]|]; [|done].
      assert (lone (library w)) as Hs by (rewrite Hl; split; [done|apply no_sources_thread]).
      destruct Hst as [i l' Hst|l1 i p l2 p' w1 E Hmv|l1 i l2 l' E Hf]; [by apply no_start in Hst|..].
      * exfalso. destruct Ho as (k1 & k2 & E' & Hi). rewrite E in E'. symmetry in E'.
        destruct (split_idle _ _ _ _ _ _ _ E' Hi) as [(_ & [= _ <-] & _)|(E2 & _)]; [done|].
        simpl in E2. by subst p.
      * split; [|done]. simpl in Hf.
        destruct (finish_one j t w (mk_world (l1 ++ l2) (memory w) l' (kernel w)) l1 l2 i)
          as [[Hi El]|[Ho' El]]; [done..| |].
        { by apply going_ended. }
        by apply (going_running _ _ _ _ (Done tt)); [rewrite El| |].
    + destruct (env_one body _ _ _ w' Ho Hr) as [(Ho' & Hm' & Hl')|(p' & w1 & Hmv & Ho' & Hm' & Hl')];
        [rewrite Hl; split; [done|apply no_sources_thread]|done|..].
      * split; [|by rewrite Hm']. apply (going_running _ _ _ _ p); [congruence|done|by rewrite Hm'].
      * destruct (gwp_moves _ _ _ _ _ Hp Hmv) as (Hp' & Hg & Hl1).
        split; [|rewrite Hm'; by transitivity (memory w)].
        apply (going_running _ _ _ _ p'); [congruence|done|by rewrite Hm'].
  - destruct (env_idle body _ w' Hi) as [(Hi' & Hm' & Hl')|(l1 & i & l2 & E & _)];
      [rewrite Hl; apply no_sources_thread|done|..].
    + split; [|by rewrite Hm']. apply going_ended; [congruence|done|by rewrite Hm'].
    + rewrite Hl in E. by destruct l1.
Qed.

(** ** Rules for the main thread *)

Abbreviation cwp := (cwp body jobs_defined).
Definition nothing : objects F X := mk_objects ∅ [].

Lemma lone_nothing : lone nothing.
Proof. split; [done|]. intros o f x b. simpl. by rewrite lookup_empty. Qed.

Lemma idle_jobs_defined (l : list (job F X * thread F X M unit)) (w : state) :
  idle l → Forall (λ x, match x.2 with Done _ => True | Do c _ => defined c w end) l.
Proof. intros Hi. eapply Forall_impl; [exact Hi|]. by intros x [-> _]. Qed.

Lemma gwp_defined {A R} (c : action F X M R) (k : R → thread F X M A) Q w :
  gwp (Do c k) Q (view (memory w)) → defined c w ∧ ∃ r w', acts c w r w'.
Proof.
  destruct c as [R c|R f|R c|R c]; simpl; intros Hp; [|..|done|].
  - split; [done|]. by eexists _, _.
  - destruct (Hp _ eq_refl) as (r & m' & Hf & _). split; [by eexists|].
    by eexists _, _, m'.
  - split; [done|]. by exists (refuse c), w, (kernel w); destruct w.
Qed.

Section thread.
Context (j : job F X) (t : Z) (Q : V → Prop) (Hj : member_of j = Some t).

Lemma going_defined w : going j t Q w → jobs_defined w.
Proof.
  intros [Hl Hi Hp|p Hl (l1 & l2 & E & Hi) Hp|Hl Hi Hp]; [by apply idle_jobs_defined| |by apply idle_jobs_defined].
  unfold jobs_defined. rewrite E. apply (idle_jobs_defined _ w), Forall_app in Hi as [G1 G2].
  apply Forall_app. split; [done|]. constructor; [|done]. simpl.
  destruct p as [|R c k]; [done|]. by eapply gwp_defined.
Qed.

Lemma going_ready w : going j t Q w →
  (∃ r w', acts (Lib (pthread_join t) : action F X M Z) w r w') ∨ env_ready w.
Proof.
  intros [Hl Hi Hp|p Hl (l1 & l2 & E & Hi) Hp|Hl Hi Hp].
  - right. left. by rewrite Hl.
  - right. right. rewrite E. apply Exists_app. right. left. simpl.
    destruct p as [|R c k]; [done|]. by eapply gwp_defined.
  - left. eexists 0, _, _. split; [|done]. rewrite Hl. unfold the_thread.
    simpl. rewrite lookup_singleton_eq. split; [by eexists|]. by repeat split.
Qed.

(** What the main thread does meanwhile. *)
Lemma cwp_beside {R} (c : action F X M R) (Q' : R → state → Prop) m w :
  beside j t Q m w →
  (∀ w', beside j t Q m w' → defined c w' ∧ (∃ r w2, acts c w' r w2) ∧
     ∀ r w2, acts c w' r w2 → Q' r w2) →
  cwp (act c) Q' w.
Proof.
  intros Hw Hc. apply (cwp_act _ (beside j t Q m)); [by apply going_stable|done|].
  intros w' Hw'. destruct (Hc w' Hw') as (Hd & Ha & Hk).
  split; [by apply going_defined, Hw'|]. split; [done|]. by split; [left|].
Qed.

Lemma going_memory w m k :
  view m = view (memory w) → going j t Q w →
  going j t Q (mk_world (running w) m (library w) k).
Proof.
  intros Hv [Hl Hi Hp|p Hl Ho Hp|Hl Hi Hp].
  - apply going_created; [done..|]. simpl. by rewrite Hv.
  - apply (going_running _ _ _ _ p); [done..|]. simpl. by rewrite Hv.
  - apply going_ended; [done..|]. simpl. by rewrite Hv.
Qed.

Lemma cwp_beside_mem {R} (f : M → option (R * M)) (Q' : R → state → Prop) m w :
  beside j t Q m w →
  (∀ m1, grows m m1 → ∃ r m2, f m1 = Some (r, m2) ∧ view m2 = view m1 ∧
     ∀ w', beside j t Q m2 w' → Q' r w') →
  cwp (mem f) Q' w.
Proof.
  intros Hw HQ. apply (cwp_beside _ _ m); [done|]. intros w1 [Hg Hm].
  destruct (HQ _ Hm) as (r & m2 & Hf & Hv & Hk). split; [by exists (r, m2)|].
  split; [by eexists r, _, m2|]. intros r' w2 (m' & Hf' & ->). rewrite Hf in Hf'.
  injection Hf' as <- <-. apply Hk. split; [by apply going_memory|done].
Qed.

Lemma cwp_beside_mach {R} (c : mach_call R) (P : R → Prop) (Q' : R → state → Prop) m w :
  beside j t Q m w → (∀ k, P (handle c k).1) →
  (∀ r w', P r → beside j t Q m w' → Q' r w') → cwp (act (Mach c)) Q' w.
Proof.
  intros Hw HP HQ. apply (cwp_beside _ _ m); [done|]. intros w1 [Hg Hm]. split; [done|].
  split; [by eexists _, _|]. intros r w2 [-> ->]. apply HQ; [apply HP|].
  split; [by apply going_memory|done].
Qed.

Lemma cwp_beside_extern {R} (c : extern R) (Q' : R → state → Prop) m w :
  beside j t Q m w → (∀ r w', beside j t Q m w' → Q' r w') → cwp (act (Extern c)) Q' w.
Proof.
  intros Hw HQ. apply (cwp_beside _ _ m); [done|]. intros w1 [Hg Hm]. split; [done|].
  split; [by exists (refuse c), w1, (kernel w1); destruct w1|]. intros r w2 [k ->].
  apply HQ. split; [by apply going_memory|done].
Qed.

Lemma cwp_join (Q' : Z → state → Prop) m w :
  beside j t Q m w →
  (∀ m' w', grows m m' → Q (view m') → alone m' nothing w' → Q' 0 w') →
  cwp (lib (pthread_join t)) Q' w.
Proof.
  intros Hw HQ. apply (cwp_act _ (beside j t Q m)); [by apply going_stable|done|].
  intros w1 [Hg Hm]. split; [by apply going_defined|]. split; [|split; [by apply going_ready|]].
  - destruct Hg as [Hl _ _|p Hl _ _|Hl _ _]; eexists; rewrite Hl; unfold the_thread;
      cbn [objs]; apply lookup_singleton_eq.
  - intros r w2 (l & [_ Hd] & ->). simpl in Hd. destruct Hd as (-> & Ht & ->).
    destruct Hg as [Hl Hi Hp|p Hl Ho Hp|Hl Hi Hp]; rewrite Hl in Ht; unfold the_thread in Ht;
      cbn [objs] in Ht; rewrite lookup_singleton_eq in Ht; [done..|].
    apply (HQ (memory w1)); [done..|]. split; [done|]. split; [done|].
    rewrite Hl. unfold the_thread. cbn [objs ready library]. by rewrite delete_singleton_eq.
Qed.
End thread.

(** What the main thread does before and after. *)
Lemma cwp_twp {A} (p : thread F X M A) (R : A → V → Prop) (Q' : A → state → Prop) m w :
  alone m nothing w → gwp p R (view m) →
  (∀ a m' w', grows m m' → R a (view m') → alone m' nothing w' → Q' a w') → cwp p Q' w.
Proof.
  intros Hw Hp HQ. revert m w Hw Hp HQ. induction p as [a|S c k IH]; intros m w Hw Hp HQ.
  { by apply (HQ a m). }
  change (cwp (r ← act c; k r) Q' w). apply cwp_bind.
  apply (cwp_alone (λ w Hi, idle_jobs_defined _ w Hi) _ _ m nothing); [apply lone_nothing|done|..].
  - intros w1 (Hi & Hm & Hl). apply (gwp_defined c k R). by rewrite Hm.
  - intros r w1 w2 (Hi & Hm & Hl) Ha. destruct c as [S c|S f|S c|S c]; simpl in Hp, Ha; [|..|done|].
    + destruct Ha as [_ ->]. by apply (IH r m).
    + destruct Ha as (m' & Hf & ->). rewrite Hm in Hf.
      destruct (Hp m eq_refl) as (r' & m2 & Hf' & Hg & Hk). rewrite Hf in Hf'.
      injection Hf' as <- <-. apply (IH r m'); [done..|]. intros a m2 w3 Hg2. apply HQ.
      by transitivity m'.
    + destruct Ha as [k' ->]. by apply (IH r m).
Qed.

(** Its creation, which may fail. *)
Lemma cwp_create (x : X) (f : F) Q (Q' : Z * Z → state → Prop) m w :
  alone m nothing w → gwp (body f x) (λ _, Q) (view m) →
  (∀ error t w', error ≠ 0 → alone m nothing w' → Q' (error, t) w') →
  (∀ t w', beside (mk_job f x (Some t)) t Q m w' → Q' (0, t) w') →
  cwp (lib (pthread_create x f)) Q' w.
Proof.
  intros Hw Hp HQ1 HQ2. apply (cwp_act _ (alone m nothing)).
  { apply alone_stable, lone_nothing. }
  { done. }
  intros w1 (Hi & Hm & Hl). split; [by apply idle_jobs_defined|]. split; [done|]. split.
  - left. destruct (some_fresh (library w1)) as (t & Ht & Hf).
    eexists (0, t), _, _. split; [|done]. split; [done|]. right. split; [done|].
    eexists. by repeat split.
  - intros [error t] w2 (l & [_ Hd] & ->).
    destruct Hd as [[He ->]|(He & s1 & (Ht & Hn & ->) & ->)]; simpl in *.
    + by apply HQ1.
    + subst error. apply HQ2. split; [|simpl; by rewrite Hm].
      apply going_created; simpl; [|done|by rewrite Hm]. by rewrite Hl.
Qed.
End pthread.
End Pthread.
