(* ===== verification/AslMessage.v ===== *)
(** [priv/probes/asl/a1_server_message_ool.c]: a thread that receives one message and gives it
    to the generated server of libasl, the hooks that server calls, and the client that
    sends the message; three arms of a test. *)

From stdpp Require Import gmap gmultiset list relations.
From S2P Require Import Prelude NxJson MachApi NxMachUtils Ledger RefKernel Dispatch.
From S2P Require Import DispatchEnds Asl Pthread.

Local Open Scope Z_scope.

Module AslMessage.
Import Dispatch.Dispatch DispatchEnds.DispatchEnds Asl.Asl Pthread.Pthread.

Definition ASL_A1_SOURCE_ASL_MESSAGE : Z := 5.
Definition ASL_A1_EXPECTED_MESSAGE : string := "oracle_asl_a1".
Definition ASL_A1_EXPECTED_SENDER : string := "oracle_asl_a1_client".
Definition ASL_A1_EXPECTED_FACILITY : string := "com.rmxos.oracle.asl".
Definition ASL_A1_EXPECTED_LEVEL : string := "5".
Definition ASL_A1_POSITIVE_PAYLOAD : string :=
  "[Sender oracle_asl_a1_client] [Facility com.rmxos.oracle.asl] [Level 5] [Message oracle_asl_a1]".

Record asl_a1_server_case_t := mk_case {
  receive_port : mach_port_t;
  receive_kr : kern_return_t;
  demux_handled : bool;
  audit_trailer_present : bool;
}.

(** What the threads share: standard output, the counters, and the variable [state] of
    every call of [send_ool_case] so far, [None] once the call has returned. *)
Record shared := mk_shared {
  out : list line;
  g_process_message_count : Z;
  g_donor_enter_count : Z;
  g_decode_ok_count : Z;
  frames : list (option asl_a1_server_case_t);
}.

Definition with_out (l : list line) (m : shared) : shared :=
  mk_shared l (g_process_message_count m) (g_donor_enter_count m) (g_decode_ok_count m) (frames m).
Definition with_frames (fs : list (option asl_a1_server_case_t)) (m : shared) : shared :=
  mk_shared (out m) (g_process_message_count m) (g_donor_enter_count m) (g_decode_ok_count m) fs.

#[export] Instance output_shared : Output shared := λ l m, with_out (out m ++ [l]) m.

(** The thread function, and the call whose [state] it is given. *)
Inductive func : Set := server_thread_f.
Abbreviation thread := (thread func nat shared).

(** [g_process_message_count++; g_decode_ok_count++;] and [g_donor_enter_count++;] *)
Definition count_message : thread unit :=
  mem (λ m, Some (tt, mk_shared (out m) (u32 (g_process_message_count m + 1))
    (g_donor_enter_count m) (u32 (g_decode_ok_count m + 1)) (frames m))).
Definition count_enter : thread unit :=
  mem (λ m, Some (tt, mk_shared (out m) (g_process_message_count m)
    (u32 (g_donor_enter_count m + 1)) (g_decode_ok_count m) (frames m))).
Definition load {A} (counter : shared → A) : thread A := mem (λ m, Some (counter m, m)).

(** [state], [state->field] and [state->field = ...] in the call [i] *)
Definition frame (i : nat) (m : shared) : option asl_a1_server_case_t := mjoin (frames m !! i).
Definition enter_frame : thread nat :=
  mem (λ m, Some (length (frames m),
    with_frames (frames m ++ [Some (mk_case 0 0 false false)]) m)).
Definition leave_frame (i : nat) : thread unit :=
  mem (λ m, Some (tt, with_frames (<[i := None]> (frames m)) m)).
Definition get {A} (i : nat) (field : asl_a1_server_case_t → A) : thread A :=
  mem (λ m, c ← frame i m; Some (field c, m)).
Definition set (i : nat) (f : asl_a1_server_case_t → asl_a1_server_case_t) : thread unit :=
  mem (λ m, c ← frame i m; Some (tt, with_frames (<[i := Some (f c)]> (frames m)) m)).

Definition set_receive_port (p : Z) (c : asl_a1_server_case_t) : asl_a1_server_case_t :=
  mk_case p (receive_kr c) (demux_handled c) (audit_trailer_present c).
Definition set_receive_kr (k : Z) (c : asl_a1_server_case_t) : asl_a1_server_case_t :=
  mk_case (receive_port c) k (demux_handled c) (audit_trailer_present c).
Definition set_demux_handled (b : bool) (c : asl_a1_server_case_t) : asl_a1_server_case_t :=
  mk_case (receive_port c) (receive_kr c) b (audit_trailer_present c).
Definition set_audit_trailer_present (b : bool) (c : asl_a1_server_case_t) :
    asl_a1_server_case_t :=
  mk_case (receive_port c) (receive_kr c) (demux_handled c) b.

(** The user and process ids of the probe. *)
Class Process := { getpid : Z; geteuid : Z; getegid : Z }.

(** The generated and the linked code: its messages, and what its server does with a
    request, as far as it calls hooks of the probe: code that ends and depends on
    the message and on what the hooks return only.  [Asldebug] has the text the
    format and its arguments give. *)
Section donor.
Context (asl_msg_t : Type).
Inductive donor (A : Type) : Type :=
  | Returns (a : A)
  | Asldebug (text : string) (k : donor A)
  | Process_message (msg : asl_msg_t) (source : Z) (k : donor A)
  | Register_session (client pid : Z) (k : donor A)
  | Task_name_for_pid (pid : Z) (task : bool) (k : option mach_port_t * kern_return_t → donor A)
  | Notify_post (name : string) (k : Z → donor A).
End donor.
Arguments Returns {asl_msg_t A} a.
Arguments Asldebug {asl_msg_t A} text k.
Arguments Process_message {asl_msg_t A} msg source k.
Arguments Register_session {asl_msg_t A} client pid k.
Arguments Task_name_for_pid {asl_msg_t A} pid task k.
Arguments Notify_post {asl_msg_t A} name k.

Class Libasl := {
  asl_msg_t : Type;
  asl_msg_address : asl_msg_t → Z;
  asl_msg_lookup : asl_msg_t → string → option string;
  asl_ipc_server : mach_msg_buf → donor asl_msg_t bool;
  ASL_KEY_SENDER : string; ASL_KEY_FACILITY : string; ASL_KEY_LEVEL : string;
  ASL_KEY_MSG : string; ASL_KEY_UID : string; ASL_KEY_GID : string; ASL_KEY_PID : string;
}.

Section hooks.
Context `{Libmd} `{Libasl} `{Process} `{AslSdk}.

(** The identities in an audit token of eight words, and a terminal id of zeros; each is
    stored if its pointer is not [NULL]. *)
Definition stored {A} (pointer : bool) (a : A) : option A := if pointer then Some a else None.
Definition audit_token_to_au32 (val : list Z)
    (auidp euidp egidp ruidp rgidp pidp asidp tidp : bool) : list (option Z) :=
  [stored auidp (u32 (nth 0 val 0)); stored euidp (u32 (nth 1 val 0));
   stored egidp (u32 (nth 2 val 0)); stored ruidp (u32 (nth 3 val 0));
   stored rgidp (u32 (nth 4 val 0)); stored pidp (s32 (nth 5 val 0));
   stored asidp (s32 (nth 6 val 0)); stored tidp 0].

Definition task_name_for_pid (pid : Z) (task : bool) :
    thread (option mach_port_t * kern_return_t) :=
  _ ← emit_kv "ASL_A1_TASK_NAME_FOR_PID" "fenced_deferred";
  mret (stored task MACH_PORT_NULL, KERN_FAILURE).

Definition notify_post (name : string) : Z := 0.

(** Drops a newline at the end. *)
Fixpoint chop (s : string) : string :=
  match s with
  | EmptyString => EmptyString
  | String c EmptyString => if Ascii.eqb c newline then EmptyString else s
  | String c s' => String c (chop s')
  end.

Definition asldebug (text : string) : thread unit :=
  match strip_prefix "__asl_server_message: " (snprintf 2048 text) with
  | None => mret tt
  | Some payload0 =>
      let payload := chop payload0 in
      let size := Z.of_nat (String.length payload) + 1 in
      _ ← count_enter;
      _ ← emit_kv "ASL_A1_DONOR_SERVER_MESSAGE_ENTER" "1";
      _ ← emit_u32 "ASL_A1_RECEIVED_OOL_BYTE_COUNT" (u32 size);
      _ ← emit_sha256 "ASL_A1_RECEIVED_OOL_SHA256" (with_nul payload) size;
      guarded (same_bytes (with_nul payload) size ASL_A1_POSITIVE_PAYLOAD) tt
        (emit_kv "ASL_A1_DONOR_OOL_BYTES_INTACT" "1")
  end.

Definition register_session (client pid : Z) : thread unit :=
  emit_kv "ASL_A1_SESSION_TRACKING" "fenced_stub".

(** [if (value != NULL) emit_kv(key, value);] *)
Definition emit_field (key : string) (value : option string) : thread unit :=
  match value with Some v => emit_kv key v | None => mret tt end.

(** [value != NULL && strcmp(value, s) == 0] *)
Definition is_string (value : option string) (s : string) : bool :=
  match value with Some v => String.eqb v s | None => false end.
(** [value != NULL], and [strtol(value, NULL, 10) == (long)id] *)
Definition is_number (value : option string) (id : Z) : bool :=
  match value with Some v => strtol v =? id | None => false end.

Definition payload_match (msg : asl_msg_t) (source : Z) : bool :=
  (source =? ASL_A1_SOURCE_ASL_MESSAGE) &&
  is_string (asl_msg_lookup msg ASL_KEY_MSG) ASL_A1_EXPECTED_MESSAGE &&
  is_string (asl_msg_lookup msg ASL_KEY_SENDER) ASL_A1_EXPECTED_SENDER &&
  is_string (asl_msg_lookup msg ASL_KEY_FACILITY) ASL_A1_EXPECTED_FACILITY &&
  is_string (asl_msg_lookup msg ASL_KEY_LEVEL) ASL_A1_EXPECTED_LEVEL.

Definition audit_match (msg : asl_msg_t) : bool :=
  is_number (asl_msg_lookup msg ASL_KEY_UID) geteuid &&
  is_number (asl_msg_lookup msg ASL_KEY_GID) getegid &&
  is_number (asl_msg_lookup msg ASL_KEY_PID) getpid.

Definition process_message (msg : asl_msg_t) (source : Z) : thread unit :=
  _ ← count_message;
  _ ← emit_kv "ASL_A1_DONOR_DECODE_OK" "1";
  _ ← emit_kv "ASL_A1_PROCESS_MESSAGE_STUB_CALLED" "1";
  _ ← emit_u32 "ASL_A1_PROCESS_MESSAGE_SOURCE" source;
  let uid := asl_msg_lookup msg ASL_KEY_UID in
  let gid := asl_msg_lookup msg ASL_KEY_GID in
  let pid := asl_msg_lookup msg ASL_KEY_PID in
  _ ← emit_field "ASL_A1_PROCESS_MESSAGE_SENDER" (asl_msg_lookup msg ASL_KEY_SENDER);
  _ ← emit_field "ASL_A1_PROCESS_MESSAGE_FACILITY" (asl_msg_lookup msg ASL_KEY_FACILITY);
  _ ← emit_field "ASL_A1_PROCESS_MESSAGE_LEVEL" (asl_msg_lookup msg ASL_KEY_LEVEL);
  _ ← emit_field "ASL_A1_PROCESS_MESSAGE_MESSAGE" (asl_msg_lookup msg ASL_KEY_MSG);
  _ ← emit_field "ASL_A1_PROCESS_MESSAGE_UID" uid;
  _ ← emit_field "ASL_A1_PROCESS_MESSAGE_GID" gid;
  _ ← emit_field "ASL_A1_PROCESS_MESSAGE_PID" pid;
  _ ← emit_field "ASL_A1_AUDIT_UID" uid;
  _ ← emit_field "ASL_A1_AUDIT_GID" gid;
  _ ← emit_field "ASL_A1_AUDIT_PID" pid;
  _ ← (if audit_match msg then
         _ ← emit_kv "ASL_A1_AUDIT_MATCH" "1";
         emit_kv "ASL_A1_AUDIT_CLAIM" "accepted"
       else
         _ ← emit_kv "ASL_A1_AUDIT_MATCH" "0";
         _ ← emit_kv "ASL_A1_AUDIT_CLAIM" "deferred";
         emit_kv "ASL_A1_AUDIT_DEFER_REASON" "audit_token_not_delivered_or_not_matchable");
  _ ← emit_kv "ASL_A1_PROCESS_MESSAGE_PAYLOAD_MATCH" (flag (payload_match msg source));
  _ ← act (Extern (asl_msg_release (asl_msg_address msg)));
  emit_kv "ASL_A1_DONOR_RELEASE_COMPLETED" "1".

(** The other routines of the MIG subsystem: what they store through the pointers that
    are not [NULL], and what they return. *)
Record query_out := mk_query_out {
  q_reply : option Z; q_replyCnt : option Z; q_lastid : option Z; q_status : option Z }.
Definition __asl_server_query (reply replyCnt lastid status : bool) : query_out * kern_return_t :=
  (mk_query_out (stored reply 0) (stored replyCnt 0) (stored lastid 0) (stored status ENOTSUP),
   KERN_SUCCESS).
Definition __asl_server_query_timeout (reply replyCnt lastid status : bool) :
    query_out * kern_return_t := __asl_server_query reply replyCnt lastid status.
Definition __asl_server_query_2 (reply replyCnt lastid status : bool) :
    query_out * kern_return_t := __asl_server_query reply replyCnt lastid status.
Definition __asl_server_match (reply replyCnt lastid status : bool) :
    query_out * kern_return_t := __asl_server_query reply replyCnt lastid status.
Definition __asl_server_prune (status : bool) : option Z * kern_return_t :=
  (stored status ENOTSUP, KERN_SUCCESS).
Definition __asl_server_create_aux_link (fileport url urlCnt status : bool) :
    option mach_port_t * option Z * option Z * option Z * kern_return_t :=
  (stored fileport MACH_PORT_NULL, stored url 0, stored urlCnt 0, stored status ENOTSUP,
   KERN_SUCCESS).
Definition __asl_server_register_direct_watch : kern_return_t := KERN_SUCCESS.
Definition __asl_server_cancel_direct_watch : kern_return_t := KERN_SUCCESS.

(** The generated server, with the hooks it calls. *)
Fixpoint serve {A} (d : donor asl_msg_t A) : thread A :=
  match d with
  | Returns a => mret a
  | Asldebug text k => _ ← asldebug text; serve k
  | Process_message msg source k => _ ← process_message msg source; serve k
  | Register_session client pid k => _ ← register_session client pid; serve k
  | Task_name_for_pid pid task k => r ← task_name_for_pid pid task; serve (k r)
  | Notify_post name k => serve (k (notify_post name))
  end.
End hooks.

Section asl_message.
Context `{MachSdk} `{AslSdk} `{Libmd} `{ReceivedMessage} `{Libasl} `{Process}.

Definition server_thread (i : nat) : thread unit :=
  port ← get i receive_port;
  '(kr, m) ← lift (call (receive_request port 5000));
  _ ← set i (set_receive_kr kr);
  kr ← get i receive_kr;
  _ ← emit_i32 "ASL_A1_SERVER_RECEIVE_KR" kr;
  kr ← get i receive_kr;
  if negb (kr =? KERN_SUCCESS) then mret tt else
  _ ← emit_u32 "ASL_A1_SERVER_RECEIVED_MSG_ID" (u32 (msgh_id m));
  _ ← guarded (trailer_fits m) tt (set i (set_audit_trailer_present (audit_trailer_at m)));
  _ ← emit_kv "ASL_A1_SERVER_REQUESTED_AUDIT_TRAILER" "1";
  present ← get i audit_trailer_present;
  _ ← emit_kv "ASL_A1_SERVER_AUDIT_TRAILER_PRESENT" (flag present);
  _ ← emit_kv "ASL_A1_GENERATED_DEMUX_CALLED" "1";
  handled ← serve (asl_ipc_server m);
  _ ← set i (set_demux_handled handled);
  handled ← get i demux_handled;
  emit_kv "ASL_A1_GENERATED_DEMUX_HANDLED" (flag handled).

Definition body (f : func) (i : nat) : thread unit :=
  match f with server_thread_f => server_thread i end.

(** [send_ool_case] from [pthread_create] on. *)
Definition send_with_thread (i : nat) (port : mach_port_t) (payload : string) : thread Z :=
  '(error, t) ← lib (pthread_create i server_thread_f);
  if negb (error =? 0) then mret 1 else
  let ool_len := u32 (Z.of_nat (String.length payload) + 1) in
  '(kr, ool) ← lift (call (vm_allocate ool_len));
  if negb (kr =? KERN_SUCCESS) then mret 1 else
  _ ← act (Extern (memcpy ool (with_nul payload)));
  _ ← emit_kv "ASL_A1_CLIENT_SEND_STARTED" "1";
  kr ← act (Extern (asl_server_message port ool ool_len));
  _ ← emit_i32 "ASL_A1_CLIENT_SEND_KR" kr;
  _ ← lib (pthread_join t);
  _ ← lift (call (mach_port_destroy port));
  ok ← (if kr =? KERN_SUCCESS then
          rkr ← get i receive_kr;
          if rkr =? KERN_SUCCESS then get i demux_handled else mret false
        else mret false);
  mret (if (ok : bool) then 0 else 1).

Definition send_ool_case (payload : string) : thread Z :=
  i ← enter_frame;
  '(kr, port) ← lift (call (mach_port_allocate MACH_PORT_RIGHT_RECEIVE));
  rc ← (if negb (kr =? KERN_SUCCESS) then mret 1 else
        kr ← lift (call (mach_port_insert_right port port MACH_MSG_TYPE_MAKE_SEND));
        if negb (kr =? KERN_SUCCESS) then mret 1 else
        _ ← set i (set_receive_port port);
        send_with_thread i port payload);
  _ ← leave_frame i;
  mret rc.

Definition invalid_request : mach_msg_buf :=
  mk_msg (MACH_MSGH_BITS MACH_MSG_TYPE_COPY_SEND 0) sizeof_mach_msg_header 0 0 118 0
    zero_desc zero_desc.

Definition run_invalid_ool_descriptor_negative : thread Z :=
  process_before ← load g_process_message_count;
  donor_before ← load g_donor_enter_count;
  handled ← serve (asl_ipc_server invalid_request);
  process ← load g_process_message_count;
  rejected ← (if process =? process_before then
                donor ← load g_donor_enter_count; mret (donor =? donor_before)
              else mret false);
  if (rejected : bool) then
    _ ← emit_kv "ASL_A1_NEG_INVALID_OOL_DESCRIPTOR_REJECTED" "1"; mret 0
  else
    _ ← emit_kv "ASL_A1_NEG_INVALID_OOL_DESCRIPTOR_REJECTED" (if handled : bool then "0" else "0");
    mret 1.

(** The three arms of [main]; each returns whether it sets [rc] to 1. *)
Definition positive_arm : thread bool :=
  _ ← emit_kv "ASL_A1_ARM_START" "positive_decode";
  _ ← emit_u32 "ASL_A1_EXPECTED_OOL_BYTE_COUNT" (sizeof_literal ASL_A1_POSITIVE_PAYLOAD);
  _ ← emit_sha256 "ASL_A1_EXPECTED_OOL_SHA256" (with_nul ASL_A1_POSITIVE_PAYLOAD)
        (sizeof_literal ASL_A1_POSITIVE_PAYLOAD);
  process_before ← load g_process_message_count;
  sent ← send_ool_case ASL_A1_POSITIVE_PAYLOAD;
  process ← load g_process_message_count;
  confirmed ← (if process =? u32 (process_before + 1) then
                 decode ← load g_decode_ok_count; mret (0 <? decode)
               else mret false);
  _ ← emit_kv "ASL_A1_POSITIVE_DECODE_AND_STUB_CONFIRMED" (flag confirmed);
  _ ← emit_kv "ASL_A1_ARM_END" "positive_decode";
  mret (negb (sent =? 0) || negb confirmed).

Definition malformed_arm : thread bool :=
  _ ← emit_kv "ASL_A1_ARM_START" "malformed_payload";
  process_before ← load g_process_message_count;
  decode_before ← load g_decode_ok_count;
  sent ← send_ool_case "not-a-valid-asl-mig-message";
  process ← load g_process_message_count;
  rejected ← (if process =? process_before then
                decode ← load g_decode_ok_count; mret (decode =? decode_before)
              else mret false);
  _ ← emit_kv "ASL_A1_NEG_MALFORMED_PAYLOAD_REJECTED" (flag rejected);
  _ ← emit_kv "ASL_A1_ARM_END" "malformed_payload";
  mret (negb (sent =? 0) || negb rejected).

Definition invalid_arm : thread bool :=
  _ ← emit_kv "ASL_A1_ARM_START" "invalid_ool";
  r ← run_invalid_ool_descriptor_negative;
  _ ← emit_kv "ASL_A1_ARM_END" "invalid_ool";
  mret (negb (r =? 0)).

Definition main : thread Z :=
  _ ← emit_kv "ASL_A1_PROBE_START" "1";
  _ ← emit_kv "ASL_A1_MIG_SUBSYSTEM" "114";
  _ ← emit_kv "ASL_A1_MIG_ROUTINE_ID" "118";
  _ ← emit_i32 "ASL_A1_CLIENT_PID" getpid;
  _ ← emit_i32 "ASL_A1_CLIENT_UID" (s32 geteuid);
  _ ← emit_i32 "ASL_A1_CLIENT_GID" (s32 getegid);
  failed1 ← positive_arm;
  failed2 ← malformed_arm;
  failed3 ← invalid_arm;
  let rc := if failed1 || failed2 || failed3 then 1 else 0 in
  _ ← emit_kv "ASL_A1_DONE" (flag (rc =? 0));
  mret rc.
End asl_message.

(** ** What the server thread does

    Its view of the memory: what it printed itself, the counters and its [state]. *)

Definition client_key (key : string) : bool :=
  String.eqb key "ASL_A1_CLIENT_SEND_STARTED" || String.eqb key "ASL_A1_CLIENT_SEND_KR".
Definition own_lines (l : list line) : list line := List.filter (λ x, negb (client_key x.1)) l.

Record seen_memory := mk_seen {
  printed : list line;
  processed : Z;
  entered : Z;
  decoded : Z;
  my_state : option asl_a1_server_case_t;
}.
Definition view_of (i : nat) (m : shared) : seen_memory :=
  mk_seen (own_lines (out m)) (g_process_message_count m) (g_donor_enter_count m)
    (g_decode_ok_count m) (frame i m).

(** Output is only appended to. *)
Definition extends (m m' : shared) : Prop := ∃ l, out m' = out m ++ l.
#[export] Instance extends_preorder : PreOrder extends.
Proof.
  split.
  - intros m. exists []. by rewrite app_nil_r.
  - intros m1 m2 m3 [l1 E1] [l2 E2]. exists (l1 ++ l2). by rewrite E2, E1, (assoc_L (++)).
Qed.

Lemma own_lines_app l1 l2 : own_lines (l1 ++ l2) = own_lines l1 ++ own_lines l2.
Proof. apply List.filter_app. Qed.

(** How often a line is printed. *)
Definition times (x : line) (l : list line) : nat := length (List.filter (λ y, bool_decide (y = x)) l).

Lemma times_app x l1 l2 : times x (l1 ++ l2) = (times x l1 + times x l2)%nat.
Proof. unfold times. by rewrite List.filter_app, length_app. Qed.

Lemma times_own x l : client_key x.1 = false → times x (own_lines l) = times x l.
Proof.
  intros Hx. unfold times, own_lines. induction l as [|y l IH]; [done|]. simpl.
  destruct (client_key y.1) eqn:Ey; simpl; [|by case_bool_decide; simpl; rewrite IH].
  rewrite IH, bool_decide_eq_false_2; [done|]. intros ->. by rewrite Hx in Ey.
Qed.

Lemma own_elem x l : x ∈ own_lines l → x ∈ l.
Proof. unfold own_lines. rewrite !list_elem_of_In. by intros [? _]%List.filter_In. Qed.

Definition stub_called : line := ("ASL_A1_PROCESS_MESSAGE_STUB_CALLED", "1").
Definition donor_entered : line := ("ASL_A1_DONOR_SERVER_MESSAGE_ENTER", "1").

(** [c] is [c0] and [n] increments. *)
Definition counts (c0 : Z) (n : nat) (c : Z) : Prop := u32 c = u32 (c0 + Z.of_nat n).

Lemma counts_0 c : counts c 0 c.
Proof. unfold counts. f_equal. lia. Qed.
Lemma u32_idem z : u32 (u32 z) = u32 z.
Proof. apply Z.mod_mod. lia. Qed.
Lemma counts_1 c : counts c 1 (u32 (c + 1)).
Proof. apply u32_idem. Qed.
Lemma counts_trans c0 n c1 n' c2 : counts c0 n c1 → counts c1 n' c2 → counts c0 (n + n') c2.
Proof.
  unfold counts, u32. intros H1 ->. rewrite <- Z.add_mod_idemp_l, H1, Z.add_mod_idemp_l by lia.
  f_equal. lia.
Qed.
Lemma counts_same c n : counts c n c → u32 (Z.of_nat n) = 0.
Proof. unfold counts, u32. intros H. Z.to_euclidean_division_equations. lia. Qed.
Lemma counts_once c n : counts c n (u32 (c + 1)) → u32 (Z.of_nat n) = 1.
Proof. unfold counts, u32. intros H. Z.to_euclidean_division_equations. lia. Qed.

(** The lines [l] are printed, and the counters agree with them. *)
Record agrees (v v' : seen_memory) (l : list line) : Prop := {
  agrees_printed : printed v' = printed v ++ l;
  agrees_processed : counts (processed v) (times stub_called l) (processed v');
  agrees_decoded : counts (decoded v) (times stub_called l) (decoded v');
  agrees_entered : counts (entered v) (times donor_entered l) (entered v');
}.
(** And the thread's [state] is as before. *)
Definition later (v v' : seen_memory) : Prop :=
  my_state v' = my_state v ∧ ∃ l, agrees v v' l.

Lemma agrees_trans v1 v2 v3 l1 l2 :
  agrees v1 v2 l1 → agrees v2 v3 l2 → agrees v1 v3 (l1 ++ l2).
Proof.
  intros [A1 A2 A3 A4] [B1 B2 B3 B4]. split; rewrite ?times_app.
  - by rewrite B1, A1, (assoc_L (++)).
  - by eapply counts_trans.
  - by eapply counts_trans.
  - by eapply counts_trans.
Qed.
Lemma agrees_refl v : agrees v v [].
Proof. split; [by rewrite app_nil_r|apply counts_0..]. Qed.

Lemma later_trans v1 v2 v3 : later v1 v2 → later v2 v3 → later v1 v3.
Proof.
  intros [E1 [l1 A1]] [E2 [l2 A2]]. split; [congruence|]. exists (l1 ++ l2).
  by eapply agrees_trans.
Qed.
Lemma later_refl v : later v v.
Proof. split; [done|]. exists []. apply agrees_refl. Qed.

Definition say (x : line) (v : seen_memory) : seen_memory :=
  mk_seen (printed v ++ [x]) (processed v) (entered v) (decoded v) (my_state v).
Definition with_state (c : asl_a1_server_case_t) (v : seen_memory) : seen_memory :=
  mk_seen (printed v) (processed v) (entered v) (decoded v) (Some c).

Lemma agrees_say x v : x ≠ stub_called → x ≠ donor_entered → agrees v (say x v) [x].
Proof.
  intros H1 H2. split; [done|..]; unfold times; simpl; rewrite bool_decide_eq_false_2 by done;
    apply counts_0.
Qed.
Lemma later_say x v : x ≠ stub_called → x ≠ donor_entered → later v (say x v).
Proof. intros H1 H2. split; [done|]. exists [x]. by apply agrees_say. Qed.

Section server_facts.
Context (i : nat).
Abbreviation gwp := (gwp (X := nat) (F := func) (view_of i) extends).

Lemma gwp_emit key value (Q : unit → seen_memory → Prop) v :
  client_key key = false → Q tt (say (key, value) v) → gwp (emit_kv key value) Q v.
Proof.
  intros Hk HQ. apply gwp_mem. intros m <-. eexists tt, _. split; [done|].
  split; [by eexists|]. unfold view_of, say in *. cbn in *.
  rewrite own_lines_app. unfold own_lines at 2. simpl. rewrite Hk. exact HQ.
Qed.

Lemma gwp_get {A} (field : asl_a1_server_case_t → A) (Q : A → seen_memory → Prop) v c :
  my_state v = Some c → Q (field c) v → gwp (get i field) Q v.
Proof.
  intros Hc HQ. apply gwp_mem. intros m <-. simpl in Hc. exists (field c), m. rewrite Hc.
  by split; [|split].
Qed.

Lemma frame_set m c c' : frame i m = Some c → frame i (with_frames (<[i := Some c']> (frames m)) m) = Some c'.
Proof.
  unfold frame. intros Hc. simpl. destruct (frames m !! i) as [f|] eqn:E; [|done].
  rewrite list_lookup_insert_eq; [done|]. by eapply lookup_lt_Some.
Qed.

Lemma gwp_set f (Q : unit → seen_memory → Prop) v c :
  my_state v = Some c → Q tt (with_state (f c) v) → gwp (set i f) Q v.
Proof.
  intros Hc HQ. apply gwp_mem. intros m <-. simpl in Hc.
  exists tt, (with_frames (<[i := Some (f c)]> (frames m)) m). rewrite Hc.
  split; [done|]. split; [by exists []; rewrite app_nil_r|].
  unfold view_of. by rewrite (frame_set _ c).
Qed.

Lemma gwp_count_message (Q : unit → seen_memory → Prop) v :
  Q tt (mk_seen (printed v) (u32 (processed v + 1)) (entered v) (u32 (decoded v + 1)) (my_state v)) →
  gwp count_message Q v.
Proof.
  intros HQ. apply gwp_mem. intros m <-. eexists tt, _. split; [done|].
  split; [|exact HQ]. exists []. by rewrite app_nil_r.
Qed.

Lemma gwp_count_enter (Q : unit → seen_memory → Prop) v :
  Q tt (mk_seen (printed v) (processed v) (u32 (entered v + 1)) (decoded v) (my_state v)) →
  gwp count_enter Q v.
Proof.
  intros HQ. apply gwp_mem. intros m <-. eexists tt, _. split; [done|].
  split; [|exact HQ]. exists []. by rewrite app_nil_r.
Qed.

(** A part that keeps the account. *)
Definition keeps {A} (p : thread A) : Prop := ∀ v, gwp p (λ _ v', later v v') v.

Lemma keeps_ret {A} (a : A) : keeps (mret a).
Proof. intros v. apply later_refl. Qed.

Lemma gwp_keeps {A} (p : thread A) (Q : A → seen_memory → Prop) v :
  keeps p → (∀ a v', later v v' → Q a v') → gwp p Q v.
Proof. intros Hp HQ. eapply gwp_mono; [apply Hp|]. exact HQ. Qed.

Lemma keeps_bind {A B} (p : thread A) (f : A → thread B) :
  keeps p → (∀ a, keeps (f a)) → keeps (p ≫= f).
Proof.
  intros Hp Hf v. apply gwp_bind, gwp_keeps; [done|]. intros a v1 H1.
  apply gwp_keeps; [apply Hf|]. intros b v2. by apply later_trans.
Qed.

(** The keys whose lines are not counted. *)
Definition plain_key (key : string) : bool :=
  negb (client_key key) && negb (String.eqb key stub_called.1) &&
  negb (String.eqb key donor_entered.1).

Lemma keeps_emit key value : plain_key key = true → keeps (emit_kv key value).
Proof.
  intros [[H1%negb_true_iff H2%negb_true_iff]%andb_prop H3%negb_true_iff]%andb_prop v.
  apply gwp_emit; [done|]. apply later_say; intros [= -> _]; [by rewrite String.eqb_refl in H2|].
  by rewrite String.eqb_refl in H3.
Qed.

Lemma keeps_field key value : plain_key key = true → keeps (emit_field key value).
Proof. intros Hk. destruct value; [by apply keeps_emit|apply keeps_ret]. Qed.

Lemma keeps_guarded {A} (b : bool) (a : A) p : keeps p → keeps (guarded b a p).
Proof. intros Hp v. apply gwp_guarded; intros _; [apply Hp|apply later_refl]. Qed.

Lemma keeps_extern {R} (c : extern R) : keeps (act (Extern c)).
Proof. intros v. apply gwp_extern. intros r. apply later_refl. Qed.

Lemma keeps_sha256 `{Libmd} key bytes size :
  plain_key key = true → keeps (emit_sha256 key bytes size).
Proof. intros Hk. unfold emit_sha256. case_match; by apply keeps_emit. Qed.
End server_facts.

(** For programs made of such parts. *)
Ltac keeps_tac :=
  unfold emit_u32, emit_i32;
  repeat first [ apply keeps_bind; [|intros ?] | apply keeps_emit; reflexivity
               | apply keeps_field; reflexivity | apply keeps_sha256; reflexivity
               | apply keeps_guarded | apply keeps_extern | apply keeps_ret ].

Section hook_facts.
Context (i : nat) `{Libmd} `{Libasl} `{Process} `{AslSdk}.
Abbreviation gwp := (gwp (X := nat) (F := func) (view_of i) extends).
Abbreviation keeps := (keeps i).

Lemma task_name_keeps pid task : keeps (task_name_for_pid pid task).
Proof. unfold task_name_for_pid. keeps_tac. Qed.

Lemma asldebug_keeps text : keeps (asldebug text).
Proof.
  unfold asldebug. destruct (strip_prefix _ _) as [payload0|]; [|apply keeps_ret]. intros v.
  apply gwp_bind, gwp_count_enter, gwp_bind, gwp_emit; [done|].
  set (v1 := say _ _). assert (later v v1) as Hv.
  { split; [done|]. exists [donor_entered].
    split; [done|..]; simpl; [apply counts_0..|apply counts_1]. }
  apply gwp_keeps; [|intros ? v2; by apply later_trans]. keeps_tac.
Qed.

Lemma process_message_keeps msg source : keeps (process_message msg source).
Proof.
  unfold process_message. intros v.
  apply gwp_bind, gwp_count_message, gwp_bind, gwp_emit; [done|].
  apply gwp_bind, gwp_emit; [done|].
  set (v1 := say _ _). assert (later v v1) as Hv.
  { split; [done|]. exists [("ASL_A1_DONOR_DECODE_OK", "1"); stub_called].
    split; simpl; [by rewrite <- (assoc_L (++))|apply counts_1..|apply counts_0]. }
  apply gwp_keeps; [|intros ? v2; by apply later_trans]. destruct (audit_match msg); keeps_tac.
Qed.

(** Whatever the generated server does. *)
Lemma serve_keeps {A} (d : donor asl_msg_t A) : keeps (serve d).
Proof.
  induction d as [a|text k IH|msg source k IH|client pid k IH|pid task k IH|name k IH]; cbn [serve].
  - apply keeps_ret.
  - apply keeps_bind; [apply asldebug_keeps|done].
  - apply keeps_bind; [apply process_message_keeps|done].
  - apply keeps_bind; [by apply keeps_emit|done].
  - apply keeps_bind; [apply task_name_keeps|done].
  - apply IH.
Qed.
End hook_facts.

Section thread_facts.
Context `{MachSdk} `{AslSdk} `{Libmd} `{ReceivedMessage} `{Libasl} `{Process}.

Definition received : line := ("ASL_A1_SERVER_RECEIVE_KR", "0").
Definition handled_line : line := ("ASL_A1_GENERATED_DEMUX_HANDLED", "1").
Definition client_sent : line := ("ASL_A1_CLIENT_SEND_KR", "0").

(** What the client is told in [state] was printed, too. *)
Definition served (c : asl_a1_server_case_t) (l : list line) : Prop :=
  receive_kr c = KERN_SUCCESS → demux_handled c = true → received ∈ l ∧ handled_line ∈ l.

Definition ended (v v' : seen_memory) : Prop :=
  ∃ l c, agrees v v' l ∧ my_state v' = Some c ∧ served c l.

Lemma ended_later v v1 v2 l1 c :
  agrees v v1 l1 → later v1 v2 → my_state v1 = Some c → receive_kr c = KERN_SUCCESS →
  received ∈ l1 →
  my_state v2 = Some c ∧ ∃ l, agrees v v2 l ∧ received ∈ l.
Proof.
  intros A1 [E [l2 A2]] Hc Hk Hr. split; [congruence|]. exists (l1 ++ l2).
  split; [by eapply agrees_trans|]. set_solver.
Qed.

Lemma agrees_state v v' c l : agrees v v' l → agrees v (with_state c v') l.
Proof. by intros []. Qed.

Lemma agrees_from v c v' l : agrees (with_state c v) v' l → agrees v v' l.
Proof. by intros []. Qed.

Lemma demux_ends i m v v2 c2 l2 :
  my_state v2 = Some c2 → receive_kr c2 = KERN_SUCCESS → agrees v v2 l2 → received ∈ l2 →
  gwp (view_of i) extends
    (_ ← emit_kv "ASL_A1_SERVER_REQUESTED_AUDIT_TRAILER" "1";
     present ← get i audit_trailer_present;
     _ ← emit_kv "ASL_A1_SERVER_AUDIT_TRAILER_PRESENT" (flag present);
     _ ← emit_kv "ASL_A1_GENERATED_DEMUX_CALLED" "1";
     handled ← serve (asl_ipc_server m);
     _ ← set i (set_demux_handled handled);
     handled ← get i demux_handled;
     emit_kv "ASL_A1_GENERATED_DEMUX_HANDLED" (flag handled)) (λ _ v', ended v v') v2.
Proof.
  intros Hs2 Hk2 A2 Hr2.
  apply gwp_bind, gwp_keeps; [by apply keeps_emit|]. intros _ v3 Hv3.
  destruct (ended_later _ _ _ _ c2 A2 Hv3) as [Hs3 (l3 & A3 & Hr3)]; [done..|].
  apply gwp_bind, (gwp_get _ _ _ _ c2); [done|].
  apply gwp_bind, gwp_keeps; [by apply keeps_emit|]. intros _ v4 Hv4.
  destruct (ended_later _ _ _ _ c2 A3 Hv4) as [Hs4 (l4 & A4 & Hr4)]; [done..|].
  apply gwp_bind, gwp_keeps; [by apply keeps_emit|]. intros _ v5 Hv5.
  destruct (ended_later _ _ _ _ c2 A4 Hv5) as [Hs5 (l5 & A5 & Hr5)]; [done..|].
  apply gwp_bind, gwp_keeps; [apply serve_keeps|]. intros handled v6 Hv6.
  destruct (ended_later _ _ _ _ c2 A5 Hv6) as [Hs6 (l6 & A6 & Hr6)]; [done..|].
  apply gwp_bind, (gwp_set _ _ _ _ c2); [done|]. set (c3 := set_demux_handled handled c2).
  apply gwp_bind, (gwp_get _ _ _ _ c3); [done|]. apply gwp_emit; [done|].
  set (x := (_, _)). exists (l6 ++ [x]), c3. split; [|split; [done|]].
  - eapply agrees_trans; [by apply agrees_state|]. by apply agrees_say.
  - intros _ Hh. split; [set_solver|]. subst x. rewrite Hh. set_solver.
Qed.

Lemma server_thread_ends i v c :
  my_state v = Some c →
  gwp (view_of i) extends (server_thread i) (λ _ v', ended v v') v.
Proof.
  intros Hc. unfold server_thread, emit_u32, emit_i32.
  apply gwp_bind, (gwp_get _ _ _ _ c); [done|].
  apply gwp_bind, gwp_lift. intros [kr m].
  apply gwp_bind, (gwp_set _ _ _ _ c); [done|]. set (c1 := set_receive_kr kr c).
  apply gwp_bind, (gwp_get _ _ _ _ c1); [done|].
  apply gwp_bind, gwp_emit; [done|]. set (v1 := say _ _).
  assert (agrees v v1 [("ASL_A1_SERVER_RECEIVE_KR", fmt_lld kr)]) as A1.
  { apply (agrees_from _ c1), agrees_say; done. }
  apply gwp_bind, (gwp_get _ _ _ _ c1); [done|].
  change (receive_kr c1) with kr. destruct (Z.eqb_spec kr KERN_SUCCESS) as [->|Hk]; cbn [negb].
  2: { exists [("ASL_A1_SERVER_RECEIVE_KR", fmt_lld kr)], c1.
       split; [done|]. split; [done|]. by intros ?. }
  change (fmt_lld KERN_SUCCESS) with "0" in A1.
  apply gwp_bind, gwp_keeps; [by apply keeps_emit|]. intros _ v2 Hv2.
  destruct (ended_later _ _ _ _ c1 A1 Hv2) as [Hs2 (l2 & A2 & Hr2)]; [done..|set_solver|].
  apply gwp_bind.
  apply gwp_guarded; intros _; [|by apply (demux_ends _ _ _ _ c1 l2)].
  apply (gwp_set _ _ _ _ c1); [done|]. eapply demux_ends; [done|done|by apply agrees_state|done].
Qed.
End thread_facts.

(** ** What the main thread does *)

(** The lines [l] were printed, by any thread, and the counters agree with them. *)
Record adds (m m' : shared) (l : list line) : Prop := {
  adds_out : out m' = out m ++ l;
  adds_process : counts (g_process_message_count m) (times stub_called l) (g_process_message_count m');
  adds_decode : counts (g_decode_ok_count m) (times stub_called l) (g_decode_ok_count m');
  adds_donor : counts (g_donor_enter_count m) (times donor_entered l) (g_donor_enter_count m');
}.

Lemma adds_refl m : adds m m [].
Proof. split; [by rewrite app_nil_r|apply counts_0..]. Qed.

Lemma adds_trans m1 m2 m3 l1 l2 : adds m1 m2 l1 → adds m2 m3 l2 → adds m1 m3 (l1 ++ l2).
Proof.
  intros [A1 A2 A3 A4] [B1 B2 B3 B4]. split; rewrite ?times_app; [|by eapply counts_trans..].
  by rewrite B1, A1, (assoc_L (++)).
Qed.

Lemma adds_line key value m :
  plain_key key = true ∨ client_key key = true →
  adds m (print_line (key, value) m) [(key, value)].
Proof.
  intros Hk. assert ((key, value) ≠ stub_called ∧ (key, value) ≠ donor_entered) as [H1 H2].
  { split; intros [= -> _]; by destruct Hk. }
  split; [done|..]; unfold times; simpl; rewrite bool_decide_eq_false_2 by done; apply counts_0.
Qed.

(** From what the other thread says. *)
Lemma agrees_adds i m m' l l' :
  out m' = out m ++ l → agrees (view_of i m) (view_of i m') l' → adds m m' l ∧ l' = own_lines l.
Proof.
  intros E [A1 A2 A3 A4]. simpl in *. rewrite E, own_lines_app in A1. simplify_list_eq.
  rewrite times_own in A2, A3, A4 by done. split; [by split|done].
Qed.

Section main_facts.
Context `{MachSdk} `{AslSdk} `{Libmd} `{ReceivedMessage} `{Libasl} `{Process}.
Context {W : Type} `{Kernel W} `{Failures}.
Abbreviation state := (@world func nat shared W (objects func nat)).
Abbreviation cwp := (cwp body jobs_defined).
Implicit Types (w : state) (m : shared).

Lemma alone_ok w : idle (running w) → jobs_defined w.
Proof. apply idle_jobs_defined. Qed.

Lemma cwp_emit key value (Q : unit → state → Prop) m w :
  alone m nothing w →
  (∀ w', alone (print_line (key, value) m) nothing w' → Q tt w') →
  cwp (emit_kv key value) Q w.
Proof.
  intros Hw HQ. by apply (cwp_mem_alone alone_ok _ _ m nothing _ tt (print_line (key, value) m));
    [apply lone_nothing|..].
Qed.

Lemma cwp_load {A} (counter : shared → A) (Q : A → state → Prop) m w :
  alone m nothing w → (∀ w', alone m nothing w' → Q (counter m) w') → cwp (load counter) Q w.
Proof.
  intros Hw HQ. by apply (cwp_mem_alone alone_ok _ _ m nothing _ (counter m) m);
    [apply lone_nothing|..].
Qed.

Lemma cwp_call {A} (p : prog A) (Q : A → state → Prop) m w :
  alone m nothing w → (∀ a w', alone m nothing w' → Q a w') → cwp (lift p) Q w.
Proof. apply (cwp_lift_alone alone_ok), lone_nothing. Qed.

Lemma cwp_get {A} i c (field : asl_a1_server_case_t → A) (Q : A → state → Prop) m w :
  alone m nothing w → frame i m = Some c → (∀ w', alone m nothing w' → Q (field c) w') →
  cwp (get i field) Q w.
Proof.
  intros Hw Hc HQ. apply (cwp_mem_alone alone_ok _ _ m nothing _ (field c) m);
    [apply lone_nothing|done| |done]. by rewrite Hc.
Qed.

(** The hooks, when the main thread calls them. *)
Lemma cwp_keeps {A} (p : thread A) (Q : A → state → Prop) m w :
  (∀ i, keeps i p) → alone m nothing w →
  (∀ a m' l w', adds m m' l → alone m' nothing w' → Q a w') → cwp p Q w.
Proof.
  intros Hp Hw HQ. apply (cwp_twp body (view_of 0) extends p _ _ m _ Hw (Hp 0%nat _)).
  intros a m' w' [b Hb] [_ [l Hl]] Hw'. destruct (agrees_adds _ _ _ _ _ Hb Hl). by eapply HQ.
Qed.

(** What a call of [send_ool_case] prints if it returns 0. *)
Definition sent_and_served (l : list line) : Prop :=
  client_sent ∈ l ∧ received ∈ l ∧ handled_line ∈ l.
Definition send_result (m : shared) (rc : Z) (m' : shared) : Prop :=
  ∃ l, adds m m' l ∧ (rc = 0 ∨ rc = 1) ∧ (rc = 0 → sent_and_served l).

Lemma send_failed m m' l : adds m m' l → send_result m 1 m'.
Proof. intros Hl. exists l. split; [done|]. split; [by right|done]. Qed.

(** The kernel has memory for the message. *)
Definition allocates : Prop := ∀ n k, (handle (vm_allocate n) k).1.1 = KERN_SUCCESS.

Lemma cwp_client_emit i t Q0 key value (Q : unit → state → Prop) m w :
  client_key key = true →
  beside body (view_of i) extends (mk_job server_thread_f i (Some t)) t Q0 m w →
  (∀ m' l w', out m' = out m ++ l → (key, value) ∈ l →
     beside body (view_of i) extends (mk_job server_thread_f i (Some t)) t Q0 m' w' → Q tt w') →
  cwp (emit_kv key value) Q w.
Proof.
  intros Hk Hw HQ. apply (cwp_beside_mem body (view_of i) extends (mk_job server_thread_f i (Some t)) t Q0 eq_refl _ _ m); [done|].
  intros m1 [l1 E1]. eexists tt, _. split; [done|]. split.
  - unfold view_of. cbn. rewrite own_lines_app. unfold own_lines at 2. simpl. rewrite Hk.
    simpl. by rewrite app_nil_r.
  - intros w' Hw'. apply (HQ (print_line (key, value) m1) (l1 ++ [(key, value)]) w'); [|set_solver|done].
    simpl. by rewrite E1, (assoc_L (++)).
Qed.

Lemma cwp_send_with_thread (Hva : allocates) i port payload c (Q : Z → state → Prop) m w :
  alone m nothing w → frame i m = Some c →
  (∀ rc m' w', send_result m rc m' → alone m' nothing w' → Q rc w') →
  cwp (send_with_thread i port payload) Q w.
Proof.
  intros Hw Hc HQ. unfold send_with_thread.
  apply cwp_bind, (cwp_create body (view_of i) extends i server_thread_f (ended (view_of i m)) _ m);
    [done|by apply (server_thread_ends _ _ c)|..].
  { intros error t w1 He Hw1. rewrite (proj2 (Z.eqb_neq error 0)) by done.
    apply (HQ 1 m); [|done]. eapply send_failed, adds_refl. }
  intros t w1 Hw1. cbn [Z.eqb negb]. set (J := mk_job _ _ _) in Hw1. set (Q0 := ended _) in Hw1.
  apply cwp_bind, (cwp_beside_mach body (view_of i) extends J t Q0 eq_refl _ (λ r, r.1 = KERN_SUCCESS) _ m); [done|apply Hva|].
  intros [kr ool] w2 Hkr Hw2. simpl in Hkr. subst kr. cbn [Z.eqb KERN_SUCCESS negb].
  apply cwp_bind, (cwp_beside_extern body (view_of i) extends J t Q0 eq_refl _ _ m); [done|]. intros _ w3 Hw3.
  apply cwp_bind, (cwp_client_emit i t Q0 _ _ _ m); [done|done|]. intros m4 l4 w4 E4 _ Hw4.
  apply cwp_bind, (cwp_beside_extern body (view_of i) extends J t Q0 eq_refl _ _ m4); [done|]. intros kr w5 Hw5.
  apply cwp_bind, (cwp_client_emit i t Q0 _ _ _ m4); [done|done|]. intros m6 l6 w6 E6 Hk6 Hw6.
  apply cwp_bind, (cwp_join body (view_of i) extends J t Q0 eq_refl _ m6); [done|].
  intros m7 w7 [l7 E7] (l & c' & Ha & Hc' & Hs) Hw7. simpl in Hc'.
  assert (out m7 = out m ++ (l4 ++ l6 ++ l7)) as E by by rewrite E7, E6, E4, <- !(assoc_L (++)).
  destruct (agrees_adds _ _ _ _ _ E Ha) as [Hadd ->].
  apply cwp_bind, (cwp_call _ _ m7); [done|]. intros _ w8 Hw8.
  apply cwp_bind. destruct (Z.eqb_spec kr KERN_SUCCESS) as [->|Hk].
  2: { apply (HQ 1 m7); [by eapply send_failed|done]. }
  apply cwp_bind, (cwp_get i c' _ _ m7); [done..|]. intros w9 Hw9.
  destruct (Z.eqb_spec (receive_kr c') KERN_SUCCESS) as [Er|Hr].
  2: { apply (HQ 1 m7); [by eapply send_failed|done]. }
  apply (cwp_get i c' _ _ m7); [done..|]. intros w10 Hw10. apply (HQ _ m7); [|done].
  exists (l4 ++ l6 ++ l7). split; [done|]. destruct (demux_handled c') eqn:Ed; [|by split; [right|]].
  split; [by left|]. intros _. destruct (Hs Er Ed) as [Hr1%own_elem Hr2%own_elem].
  change (fmt_lld KERN_SUCCESS) with "0" in Hk6. unfold sent_and_served, client_sent. set_solver.
Qed.

(** Entering and leaving a call. *)
Lemma frame_enter m :
  frame (length (frames m)) (with_frames (frames m ++ [Some (mk_case 0 0 false false)]) m) =
    Some (mk_case 0 0 false false).
Proof. unfold frame. simpl. by rewrite list_lookup_middle. Qed.

Lemma adds_frames m m' l fs : adds m (with_frames fs m') l ↔ adds m m' l.
Proof. split; intros []; by split. Qed.
Lemma adds_from_frames m m' l fs : adds (with_frames fs m) m' l ↔ adds m m' l.
Proof. split; intros []; by split. Qed.

Lemma cwp_send_case (Hva : allocates) payload (Q : Z → state → Prop) m w :
  alone m nothing w →
  (∀ rc m' w', send_result m rc m' → alone m' nothing w' → Q rc w') →
  cwp (send_ool_case payload) Q w.
Proof.
  intros Hw HQ. unfold send_ool_case.
  apply cwp_bind, (cwp_mem_alone alone_ok _ _ m nothing _ (length (frames m))
    (with_frames (frames m ++ [Some (mk_case 0 0 false false)]) m));
    [apply lone_nothing|done|done|].
  set (i := length (frames m)). set (c := mk_case 0 0 false false).
  set (m1 := with_frames _ m). intros w1 Hw1.
  assert (frame i m1 = Some c) as Hc by apply frame_enter.
  apply cwp_bind, (cwp_call _ _ m1); [done|]. intros [kr port] w2 Hw2. apply cwp_bind.
  assert (∀ rc m' w', send_result m rc m' → alone m' nothing w' →
    cwp (_ ← leave_frame i; mret rc) Q w') as Hleave.
  { intros rc m' w' (l & Hl & Hrc) Hw'. apply cwp_bind.
    apply (cwp_mem_alone alone_ok _ _ m' nothing _ tt (with_frames (<[i := None]> (frames m')) m'));
      [apply lone_nothing|done|done|].
    intros w3 Hw3. apply (HQ rc (with_frames (<[i := None]> (frames m')) m') w3); [|exact Hw3].
    exists l. by rewrite adds_frames. }
  assert (send_result m 1 m1) as Hfail by (eapply send_failed, adds_frames, adds_refl).
  destruct (negb (kr =? KERN_SUCCESS)); [by apply (Hleave _ m1)|].
  apply cwp_bind, (cwp_call _ _ m1); [done|]. intros kr2 w3 Hw3.
  destruct (negb (kr2 =? KERN_SUCCESS)); [by apply (Hleave _ m1)|].
  apply cwp_bind, (cwp_mem_alone alone_ok _ _ m1 nothing _ tt
    (with_frames (<[i := Some (set_receive_port port c)]> (frames m1)) m1));
    [apply lone_nothing|done| |].
  { by rewrite Hc. }
  intros w4 Hw4. apply (cwp_send_with_thread Hva _ _ _ (set_receive_port port c) _ _ _ Hw4).
  { by apply (frame_set i m1 c). }
  intros rc m' w' (l & Hl & Hrc) Hw'. apply (Hleave _ m'); [|done]. exists l.
  subst m1. rewrite !adds_from_frames in Hl. by split.
Qed.
End main_facts.

(** ** The arms *)

(** What an arm prints: its body, its verdict, and its two ends. *)
Definition arm (name : string) (l : list line) (key : string) (verdict : bool) : list line :=
  ("ASL_A1_ARM_START", name) :: l ++ [(key, flag verdict); ("ASL_A1_ARM_END", name)].

Section arm_facts.
Context `{MachSdk} `{AslSdk} `{Libmd} `{ReceivedMessage} `{Libasl} `{Process}.
Context {W : Type} `{Kernel W} `{Failures}.
Abbreviation state := (@world func nat shared W (objects func nat)).
Abbreviation cwp := (cwp body jobs_defined).
Implicit Types (w : state) (m : shared).

Definition process_calls (l : list line) : Z := u32 (Z.of_nat (times stub_called l)).
Definition donor_calls (l : list line) : Z := u32 (Z.of_nat (times donor_entered l)).

(** The verdict [c] of an arm, and whether it fails the test. *)
Definition positive_result (l : list line) (c failed : bool) : Prop :=
  (c = true → process_calls l = 1) ∧ (failed = false → c = true ∧ sent_and_served l).
Definition malformed_result (l : list line) (c failed : bool) : Prop :=
  (c = true → process_calls l = 0) ∧ (failed = false → c = true ∧ sent_and_served l).
Definition invalid_result (l : list line) (c failed : bool) : Prop :=
  (c = true → process_calls l = 0 ∧ donor_calls l = 0) ∧ (failed = false → c = true).

Lemma sent_after l0 l : sent_and_served l → sent_and_served (l0 ++ l).
Proof. intros (Hx & Hy & Hz). unfold sent_and_served. set_solver. Qed.

Ltac line := apply cwp_bind; eapply cwp_emit; [eassumption|];
  match goal with |- ∀ w, alone ?m' nothing w → _ => let w1 := fresh "v" in let Hw1 := fresh "Hv" in
    intros w1 Hw1 end.

Lemma cwp_sha256 key bytes size (Q : unit → state → Prop) m w :
  alone m nothing w →
  (∀ value w', alone (print_line (key, value) m) nothing w' → Q tt w') →
  cwp (emit_sha256 key bytes size) Q w.
Proof.
  intros Hw HQ. unfold emit_sha256. case_match; (eapply cwp_emit; [done|apply HQ]).
Qed.

Lemma cwp_positive_arm (Hva : allocates) (Q : bool → state → Prop) m w :
  alone m nothing w →
  (∀ failed m' w' l c, positive_result l c failed →
     out m' = out m ++ arm "positive_decode" l "ASL_A1_POSITIVE_DECODE_AND_STUB_CONFIRMED" c →
     alone m' nothing w' → Q failed w') →
  cwp positive_arm Q w.
Proof.
  intros Hw HQ. unfold positive_arm, emit_u32. line. line.
  apply cwp_bind. eapply cwp_sha256; [eassumption|]. intros digest w1 Hw1.
  apply cwp_bind. eapply cwp_load; [eassumption|]. intros w2 Hw2.
  apply cwp_bind. eapply cwp_send_case; [done|eassumption|]. intros sent m3 w3 (l & Hl & Hs & Hok) Hw3.
  set (l0 := [("ASL_A1_EXPECTED_OOL_BYTE_COUNT", fmt_lld (u32 (sizeof_literal ASL_A1_POSITIVE_PAYLOAD)));
              ("ASL_A1_EXPECTED_OOL_SHA256", digest)]).
  assert (adds (print_line ("ASL_A1_ARM_START", "positive_decode") m) m3 (l0 ++ l)) as Hadd.
  { eapply adds_trans; [|exact Hl]. eapply (adds_trans _ _ _ [_] [_]); apply adds_line; by left. }
  apply cwp_bind. eapply cwp_load; [eassumption|]. intros w4 Hw4.
  apply cwp_bind. cbn [print_line output_shared with_out g_process_message_count].
  enough (∀ c w5, (c = true → process_calls (l0 ++ l) = 1) → alone m3 nothing w5 →
    cwp (_ ← emit_kv "ASL_A1_POSITIVE_DECODE_AND_STUB_CONFIRMED" (flag c);
         _ ← emit_kv "ASL_A1_ARM_END" "positive_decode";
         mret (negb (sent =? 0) || negb c)) Q w5) as Hrest.
  { destruct (Z.eqb_spec (g_process_message_count m3) (u32 (g_process_message_count m + 1))) as [Ep|Ep].
    - apply cwp_bind. eapply cwp_load; [eassumption|]. intros w5 Hw5. apply Hrest; [|done].
      intros _. apply (counts_once (g_process_message_count m)). rewrite <- Ep. apply Hadd.
    - by apply Hrest. }
  intros c w5 Hc Hw5. line. line.
  refine (HQ _ _ _ (l0 ++ l) c _ _ ltac:(eassumption)).
  - split; [done|]. intros [Hz%negb_false_iff%Z.eqb_eq Hcc%negb_false_iff]%orb_false_iff.
    split; [done|]. by apply sent_after, Hok.
  - simpl. rewrite (adds_out _ _ _ Hadd). unfold arm. simpl. by rewrite <- !(assoc_L (++)).
Qed.

Lemma cwp_malformed_arm (Hva : allocates) (Q : bool → state → Prop) m w :
  alone m nothing w →
  (∀ failed m' w' l c, malformed_result l c failed →
     out m' = out m ++ arm "malformed_payload" l "ASL_A1_NEG_MALFORMED_PAYLOAD_REJECTED" c →
     alone m' nothing w' → Q failed w') →
  cwp malformed_arm Q w.
Proof.
  intros Hw HQ. unfold malformed_arm. line.
  apply cwp_bind. eapply cwp_load; [eassumption|]. intros w1 Hw1.
  apply cwp_bind. eapply cwp_load; [eassumption|]. intros w2 Hw2.
  apply cwp_bind. eapply cwp_send_case; [done|eassumption|]. intros sent m3 w3 (l & Hl & Hs & Hok) Hw3.
  apply cwp_bind. eapply cwp_load; [eassumption|]. intros w4 Hw4.
  apply cwp_bind. cbn [print_line output_shared with_out g_process_message_count g_decode_ok_count] in *.
  enough (∀ c w5, (c = true → process_calls l = 0) → alone m3 nothing w5 →
    cwp (_ ← emit_kv "ASL_A1_NEG_MALFORMED_PAYLOAD_REJECTED" (flag c);
         _ ← emit_kv "ASL_A1_ARM_END" "malformed_payload";
         mret (negb (sent =? 0) || negb c)) Q w5) as Hrest.
  { destruct (Z.eqb_spec (g_process_message_count m3) (g_process_message_count m)) as [Ep|Ep].
    - apply cwp_bind. eapply cwp_load; [eassumption|]. intros w5 Hw5. apply Hrest; [|done].
      intros _. apply (counts_same (g_process_message_count m)). rewrite <- Ep at 2. apply Hl.
    - by apply Hrest. }
  intros c w5 Hc Hw5. line. line.
  refine (HQ _ _ _ l c _ _ ltac:(eassumption)).
  - split; [done|]. intros [Hz%negb_false_iff%Z.eqb_eq Hcc%negb_false_iff]%orb_false_iff. auto.
  - simpl. rewrite (adds_out _ _ _ Hl). unfold arm. simpl. by rewrite <- !(assoc_L (++)).
Qed.

Lemma cwp_invalid_arm (Q : bool → state → Prop) m w :
  alone m nothing w →
  (∀ failed m' w' l c, invalid_result l c failed →
     out m' = out m ++ arm "invalid_ool" l "ASL_A1_NEG_INVALID_OOL_DESCRIPTOR_REJECTED" c →
     alone m' nothing w' → Q failed w') →
  cwp invalid_arm Q w.
Proof.
  intros Hw HQ. unfold invalid_arm, run_invalid_ool_descriptor_negative. line.
  apply cwp_bind, cwp_bind. eapply cwp_load; [eassumption|]. intros w1 Hw1.
  apply cwp_bind. eapply cwp_load; [eassumption|]. intros w2 Hw2.
  apply cwp_bind. eapply cwp_keeps; [intros i; apply serve_keeps|eassumption|].
  intros handled m3 l w3 Hl Hw3.
  apply cwp_bind. eapply cwp_load; [eassumption|]. intros w4 Hw4.
  apply cwp_bind. cbn [print_line output_shared with_out g_process_message_count g_donor_enter_count] in *.
  enough (∀ c w5, (c = true → process_calls l = 0 ∧ donor_calls l = 0) → alone m3 nothing w5 →
    cwp (if c then _ ← emit_kv "ASL_A1_NEG_INVALID_OOL_DESCRIPTOR_REJECTED" "1"; mret 0
         else _ ← emit_kv "ASL_A1_NEG_INVALID_OOL_DESCRIPTOR_REJECTED"
                    (if handled : bool then "0" else "0"); mret 1)
      (λ r, cwp (_ ← emit_kv "ASL_A1_ARM_END" "invalid_ool"; mret (negb (r =? 0))) Q) w5) as Hrest.
  { destruct (Z.eqb_spec (g_process_message_count m3) (g_process_message_count m)) as [Ep|Ep].
    - apply cwp_bind. eapply cwp_load; [eassumption|]. intros w5 Hw5. apply Hrest; [|done].
      intros Ed%Z.eqb_eq. split; [apply (counts_same (g_process_message_count m)); rewrite <- Ep at 2
        |apply (counts_same (g_donor_enter_count m)); rewrite <- Ed at 2]; apply Hl.
    - by apply Hrest. }
  intros c w5 Hc Hw5.
  assert (out m ++ arm "invalid_ool" l "ASL_A1_NEG_INVALID_OOL_DESCRIPTOR_REJECTED" c =
    (out m3 ++ [("ASL_A1_NEG_INVALID_OOL_DESCRIPTOR_REJECTED", flag c)]) ++
    [("ASL_A1_ARM_END", "invalid_ool")]) as E.
  { rewrite (adds_out _ _ _ Hl). unfold arm. simpl. by rewrite <- !(assoc_L (++)). }
  destruct c; [|destruct handled]; line; apply cwp_ret; line;
    (eapply HQ; [| |eassumption]; [|symmetry; exact E]; by split).
Qed.
End arm_facts.

(** *** The hook that sees the payload *)

Lemma chop_newline s : chop (s +:+ str1 newline) = s.
Proof.
  induction s as [|c s IH]; [done|]. change (String c s +:+ str1 newline) with (String c (s +:+ str1 newline)).
  destruct s as [|d s]; [done|]. cbn [chop String.append] in *. by rewrite IH.
Qed.

Lemma chop_length s : (String.length (chop s) ≤ String.length s)%nat.
Proof.
  induction s as [|c s IH]; [done|]. destruct s as [|d s]; [simpl; case_match; simpl; lia|].
  change (chop (String c (String d s))) with (String c (chop (String d s))).
  simpl in *. lia.
Qed.

Lemma substring_app p s n :
  String.substring 0 (String.length p + n) (p +:+ s) = p +:+ String.substring 0 n s.
Proof. induction p as [|c p IH]; [done|]. simpl. by rewrite IH. Qed.

(** What is seen of a text behind the prefix. *)
Definition payload_seen (rest : string) : string := chop (String.substring 0 2025 rest).

Lemma payload_seen_fits s : (String.length s < 2025)%nat → payload_seen (s +:+ str1 newline) = s.
Proof.
  intros Hs. unfold payload_seen. rewrite substring_all; [apply chop_newline|].
  rewrite string_length_app. simpl. lia.
Qed.

Lemma payload_seen_length rest : (String.length (payload_seen rest) ≤ 2025)%nat.
Proof. unfold payload_seen. pose proof (chop_length (String.substring 0 2025 rest)). pose proof (substring_length 2025 rest). lia. Qed.

Definition payload_lines `{Libmd} (payload : string) : list line :=
  let size := Z.of_nat (String.length payload) + 1 in
  [donor_entered; ("ASL_A1_RECEIVED_OOL_BYTE_COUNT", fmt_lld size);
   ("ASL_A1_RECEIVED_OOL_SHA256", digest (with_nul payload) size)] ++
  if String.eqb payload ASL_A1_POSITIVE_PAYLOAD then [("ASL_A1_DONOR_OOL_BYTES_INTACT", "1")]
  else [].

Lemma intact_spec payload size :
  size = Z.of_nat (String.length payload) + 1 →
  same_bytes (with_nul payload) size ASL_A1_POSITIVE_PAYLOAD =
    String.eqb payload ASL_A1_POSITIVE_PAYLOAD.
Proof.
  intros ->. apply eq_bool_prop_intro. rewrite !Is_true_true, String.eqb_eq.
  rewrite same_bytes_spec by (rewrite with_nul_length; lia).
  split; [apply with_nul_inj|by intros ->].
Qed.

(** C33: when the donor code reports a text behind its prefix, the hook counts one call
    and prints the size and the digest of the first 2025 characters, less a newline at
    their end, and that the bytes are intact exactly if those are the expected payload;
    a payload of less than 2025 characters, followed by a newline, is seen whole. *)
Theorem asldebug_reports `{Libmd} (i : nat) (rest : string) (v : seen_memory) :
  gwp (view_of i) extends (asldebug ("__asl_server_message: " +:+ rest)) (λ _ v',
    v' = mk_seen (printed v ++ payload_lines (payload_seen rest)) (processed v)
           (u32 (entered v + 1)) (decoded v) (my_state v)) v ∧
  (∀ s, rest = s +:+ str1 newline → (String.length s < 2025)%nat → payload_seen rest = s).
Proof.
  split; [|by intros s -> Hs; apply payload_seen_fits].
  unfold asldebug, snprintf. change (2048 - 1)%nat with (String.length "__asl_server_message: " + 2025)%nat.
  rewrite substring_app, strip_prefix_self. fold (payload_seen rest).
  pose proof (payload_seen_length rest) as Hl. unfold emit_u32. set (v_end := mk_seen _ _ _ _ _).
  set (size := Z.of_nat (String.length (payload_seen rest)) + 1).
  assert (is_u32 size) as Hz by (subst size; unfold is_u32; lia).
  apply gwp_bind, gwp_count_enter, gwp_bind, gwp_emit; [done|].
  apply gwp_bind, gwp_emit; [done|]. rewrite !(u32_small size) by done. apply gwp_bind.
  enough (∀ v1, v1 = mk_seen (printed v ++ [donor_entered; ("ASL_A1_RECEIVED_OOL_BYTE_COUNT", fmt_lld size);
      ("ASL_A1_RECEIVED_OOL_SHA256", digest (with_nul (payload_seen rest)) size)])
      (processed v) (u32 (entered v + 1)) (decoded v) (my_state v) →
    gwp (view_of i) extends (guarded (same_bytes (with_nul (payload_seen rest)) size
        ASL_A1_POSITIVE_PAYLOAD) tt (emit_kv "ASL_A1_DONOR_OOL_BYTES_INTACT" "1") : thread unit)
      (λ _ v', v' = v_end) v1) as Hrest.
  { unfold emit_sha256, digest in *. destruct (SHA256_Data _ _); (apply gwp_emit; [done|]);
      apply Hrest; unfold say; cbn; by rewrite <- !(assoc_L (++)). }
  intros v1 ->. subst v_end. unfold payload_lines. fold size. rewrite intact_spec by done.
  apply gwp_guarded; intros ->; [|done]. apply gwp_emit; [done|].
  unfold say. cbn. by rewrite <- (assoc_L (++)).
Qed.

(** ** The test *)

Section theorems.
Context `{MachSdk} `{AslSdk} `{Libmd} `{ReceivedMessage} `{Libasl} `{Process}.

Definition preamble : list line :=
  [("ASL_A1_PROBE_START", "1"); ("ASL_A1_MIG_SUBSYSTEM", "114"); ("ASL_A1_MIG_ROUTINE_ID", "118");
   ("ASL_A1_CLIENT_PID", fmt_lld getpid); ("ASL_A1_CLIENT_UID", fmt_lld (s32 geteuid));
   ("ASL_A1_CLIENT_GID", fmt_lld (s32 getegid))].

(** The output of a run that returns [rc]: in each arm [ci] is the verdict it prints and
    [fi] whether it fails the test. *)
Definition test_log (rc : Z) (l : list line) : Prop :=
  ∃ l1 c1 f1 l2 c2 f2 l3 c3 f3,
    l = preamble ++
      arm "positive_decode" l1 "ASL_A1_POSITIVE_DECODE_AND_STUB_CONFIRMED" c1 ++
      arm "malformed_payload" l2 "ASL_A1_NEG_MALFORMED_PAYLOAD_REJECTED" c2 ++
      arm "invalid_ool" l3 "ASL_A1_NEG_INVALID_OOL_DESCRIPTOR_REJECTED" c3 ++
      [("ASL_A1_DONE", flag (rc =? 0))] ∧
    positive_result l1 c1 f1 ∧ malformed_result l2 c2 f2 ∧ invalid_result l3 c3 f3 ∧
    rc = (if f1 || f2 || f3 then 1 else 0).

(** The memory when [main] starts. *)
Definition initial : shared := mk_shared [] 0 0 0 [].

Lemma cwp_main {W} `{Kernel W} `{Failures} (Hva : allocates) (w : @world func nat shared W (objects func nat)) :
  alone initial nothing w →
  cwp body jobs_defined main (λ rc w', test_log rc (out (memory w'))) w.
Proof.
  intros Hw. unfold main, emit_i32. do 6 (apply cwp_bind; eapply cwp_emit; [eassumption|]; intros ? ?).
  apply cwp_bind. eapply cwp_positive_arm; [done|eassumption|].
  intros f1 m1 w1 l1 c1 R1 E1 Hw1.
  apply cwp_bind. eapply cwp_malformed_arm; [done|eassumption|].
  intros f2 m2 w2 l2 c2 R2 E2 Hw2.
  apply cwp_bind. eapply cwp_invalid_arm; [eassumption|].
  intros f3 m3 w3 l3 c3 R3 E3 Hw3.
  apply cwp_bind. eapply cwp_emit; [eassumption|]. intros w4 (_ & Hm & _).
  apply cwp_ret. rewrite Hm. exists l1, c1, f1, l2, c2, f2, l3, c3, f3.
  split; [|done]. cbn [print_line output_shared with_out out].
  rewrite E3, E2, E1, <- !(assoc_L (++)). done.
Qed.

(** What holds of every state of a run. *)
Lemma asl_run {W} `{Kernel W} `{Failures} {L} `{Library func nat L}
    `{!DispatchContract func nat L} (l : L) (k0 : W) p w :
  allocates → lib_healthy l → objs (objects_of l) = ∅ → ready (objects_of l) = [] →
  rtc (step body) (main, mk_world [] initial l k0) (p, w) →
  match p with
  | Done rc => test_log rc (out (memory w))
  | Do _ _ => jobs_defined (seen w) ∧ ∃ c, step body (p, w) c
  end.
Proof.
  intros Hva Hl Ho Hr Hs.
  assert (cwp body jobs_defined main (λ rc w', test_log rc (out (memory w')))
    (seen (mk_world [] initial l k0))) as Hp.
  { apply cwp_main; [done|]. split; [by constructor|]. split; [done|].
    simpl. destruct (objects_of l). simpl in *. by subst. }
  pose proof (cwp_adequate body jobs_defined main p _ (mk_world [] initial l k0) w Hl Hp Hs) as Ha.
  destruct p as [rc|R c k]; [exact Ha|]. by destruct Ha as (Hj & _ & Hc).
Qed.

(** C10: if the kernel has memory for the messages, then with every library and kernel, with
    every donor code that ends, and in every interleaving no thread uses the [state] of a
    call that has returned, the main thread is never stuck, and what the test says is so: an
    arm that prints the verdict 1 has printed the line of the stub once, in the first arm,
    and not at all, in the others, up to multiples of 2^32, the last arm no line of the
    donor code either; and if the probe returns 0 then all verdicts are 1 and in both arms
    that send the client has sent and the thread has received and handled the message. *)
Theorem asl_message_sound {W} `{Kernel W} `{Failures} {L} `{Library func nat L}
    `{!DispatchContract func nat L} (l : L) (k0 : W) p w :
  allocates → lib_healthy l → objs (objects_of l) = ∅ → ready (objects_of l) = [] →
  rtc (step body) (main, mk_world [] initial l k0) (p, w) →
  match p with
  | Done rc => test_log rc (out (memory w))
  | Do _ _ => jobs_defined (seen w) ∧ ∃ c, step body (p, w) c
  end.
Proof. apply asl_run. Qed.

(** *** Its end *)

Lemma finite_mem {R} sub (f : shared → option (R * shared)) : finite sub (mem f : thread R).
Proof. by apply finite_act. Qed.

Ltac finite_tac := repeat lazymatch goal with
  | |- finite _ (_ ≫= _) => apply finite_bind; [|intros ?]
  | |- finite _ (mret _) => exact I
  | |- finite _ (lift _) => apply finite_lift
  | |- finite _ (act _) => by apply finite_act
  | |- finite _ (lib _) => by apply finite_act
  | |- finite _ (guarded _ _ _) => apply finite_guarded
  | |- finite _ (emit_sha256 _ _ _) => unfold emit_sha256
  | |- finite _ (emit_field _ _) => unfold emit_field
  | |- finite _ (if ?b then _ else _) => destruct b
  | |- finite _ (match ?x with _ => _ end) => destruct x
  | |- finite _ (serve _) => fail
  | |- finite _ _ => apply finite_mem
  end.

Lemma finite_serve sub {A} (d : donor asl_msg_t A) : finite sub (serve d).
Proof.
  induction d as [a|text k IH|msg source k IH|client pid k IH|pid task k IH|name k IH];
    cbn [serve]; [done|..|apply IH]; (apply finite_bind; [|intros ?; apply IH]).
  - unfold asldebug. finite_tac.
  - unfold process_message. finite_tac.
  - apply finite_mem.
  - unfold task_name_for_pid. finite_tac.
Qed.

Lemma finite_server_thread f i : finite false (body f i).
Proof. destruct f. cbn [body]. unfold server_thread. finite_tac; apply finite_serve. Qed.

Lemma finite_main : finite true main.
Proof.
  unfold main, positive_arm, malformed_arm, invalid_arm, run_invalid_ool_descriptor_negative,
    send_ool_case, send_with_thread. finite_tac; apply finite_serve.
Qed.

(** No run of the probe goes on for ever, with every library and kernel and every donor code
    that ends; and if the kernel has memory for the messages, a run that cannot go on is one
    in which [main] has returned. *)
Theorem asl_message_returns {W} `{Kernel W} `{Failures} {L} `{Library func nat L}
    `{!DispatchContract func nat L} (l : L) (k0 : W) :
  lib_healthy l → objs (objects_of l) = ∅ → ready (objects_of l) = [] →
  Acc (λ c' c, step body c c') (main, mk_world [] initial l k0) ∧
  (allocates → ∀ p w, rtc (step body) (main, mk_world [] initial l k0) (p, w) →
     (∀ c, ¬ step body (p, w) c) → returned p = true).
Proof.
  intros Hl Ho Hr. split.
  - refine (runs_end body _ main _ finite_main _); [apply finite_server_thread|by apply tame_start].
  - intros Hva p w Hs Hno. pose proof (asl_run l k0 p w Hva Hl Ho Hr Hs) as Ha.
    destruct p as [rc|R c k]; [done|]. destruct Ha as [_ [c' Hc']]. by destruct (Hno c').
Qed.
End theorems.

(** *** At the reference library *)
Section witnesses.
Import OnMacos.

#[local] Instance sdk1 : AslSdk := {|
  MACH_RCV_TRAILER_TYPE x := Z.shiftl (Z.land x 15) 28;
  MACH_RCV_TRAILER_ELEMENTS x := Z.shiftl (Z.land x 15) 24;
  MACH_MSG_TRAILER_FORMAT_0 := 0; MACH_RCV_TRAILER_AUDIT := 3; MAX_TRAILER_SIZE := 68;
  sizeof_mach_msg_audit_trailer := 52; ENOTSUP := 45 |}.
#[local] Instance libmd1 : Libmd := λ data n, Some "0123".
#[local] Instance view1 : ReceivedMessage := {|
  ool_address m := 0x30000; ool_size m := 4096; ool_bytes m := "";
  trailer_size_at m offset := 52 |}.
#[local] Instance process1 : Process := {| getpid := 42; geteuid := 501; getegid := 20 |}.

(** Donor code that decodes the first message it is given, as [text] from [source], but
    not the second, and refuses others. *)
Definition lookup1 (key : string) : option string :=
  if String.eqb key "Message" then Some ASL_A1_EXPECTED_MESSAGE
  else if String.eqb key "Sender" then Some ASL_A1_EXPECTED_SENDER
  else if String.eqb key "Facility" then Some ASL_A1_EXPECTED_FACILITY
  else if String.eqb key "Level" then Some ASL_A1_EXPECTED_LEVEL
  else if String.eqb key "UID" then Some "501" else if String.eqb key "GID" then Some "20"
  else Some "42".
Definition serve1 (text : string) (source : Z) (m : mach_msg_buf) : donor Z bool :=
  match msgh_size m with
  | 100 => Asldebug ("__asl_server_message: " +:+ text +:+ str1 newline)
             (Process_message 7 source (Returns true))
  | 104 => Asldebug "__asl_server_message: not-a-valid-asl-mig-message" (Returns true)
  | _ => Returns false
  end.
Definition libasl_with (text : string) (source : Z) : Libasl := {|
  asl_msg_t := Z; asl_msg_address msg := msg; asl_msg_lookup msg := lookup1;
  asl_ipc_server := serve1 text source; ASL_KEY_SENDER := "Sender";
  ASL_KEY_FACILITY := "Facility"; ASL_KEY_LEVEL := "Level"; ASL_KEY_MSG := "Message";
  ASL_KEY_UID := "UID"; ASL_KEY_GID := "GID"; ASL_KEY_PID := "PID" |}.

(** A library that has everything there is to be had. *)
#[local] Instance asl_failures : Failures := λ _, false.

(** A kernel with a message for each receive, the next one of the size in its state, and
    with or without memory. *)
Definition serving_kernel (has_memory : bool) : Kernel Z := λ R c next,
  match c in mach_call R return R * Z with
  | vm_allocate n => ((if has_memory then KERN_SUCCESS else KERN_NO_SPACE, 4096), next)
  | mach_msg msg _ _ _ _ _ _ =>
      ((MACH_MSG_SUCCESS, mk_msg 0 next 0 0 118 0 zero_desc zero_desc), next + 4)
  | mach_port_allocate _ => ((KERN_SUCCESS, 7), next)
  | mach_port_insert_right _ _ _ => (KERN_SUCCESS, next)
  | c => let '(r, _) := handle c boot in (r, next)
  end.

Definition replies {R} (c : extern R) : R :=
  match c in extern R return R with
  | asl_server_message _ _ _ => KERN_SUCCESS
  | c => refuse c
  end.

Definition a1_start (donor : Libasl) :
    thread Z * @world func nat shared Z (@ref_lib func nat) :=
  (main, mk_world [] initial (mk_ref (mk_objects ∅ [])) 100).

(** In both arms the client sends, then the thread receives, in the first arm in [n] steps,
    then the client waits. *)
Definition send_then_serve (n : nat) : list choice :=
  repeat Main 20 ++ Start :: repeat (Work 0) n ++
  repeat Main 22 ++ Start :: repeat (Work 0) 20 ++ repeat Main 17.

Definition good_donor : Libasl := libasl_with ASL_A1_POSITIVE_PAYLOAD 5.
Lemma a1_finished :
  result_of (schedule (H := serving_kernel true) (body (H3 := good_donor)) (@replies) (send_then_serve 40)
    (a1_start good_donor)) = Some 0.
Proof. by vm_compute. Qed.

Lemma a1_passes :
  ∃ w, rtc (step (H := serving_kernel true) (body (H3 := good_donor))) (a1_start good_donor) (Done 0, w).
Proof.
  exact (result_steps (H := serving_kernel true) (body (H3 := good_donor)) (@replies) _ _ _ a1_finished).
Qed.

Lemma serving_allocates : allocates (H5 := serving_kernel true).
Proof. by intros n k. Qed.

Lemma asl_message_sound_witness :
  allocates (H5 := serving_kernel true) ∧ lib_healthy (mk_ref (F := func) (X := nat) (mk_objects ∅ [])) ∧
  ∃ w, rtc (step (H := serving_kernel true) (body (H3 := good_donor))) (a1_start good_donor) (Done 0, w) ∧
    test_log 0 (out (memory w)).
Proof.
  split; [exact serving_allocates|]. split; [done|].
  destruct a1_passes as [w Hs]. exists w. split; [exact Hs|].
  exact (asl_message_sound (H5 := serving_kernel true) (L := @ref_lib func nat) (mk_ref (mk_objects ∅ [])) 100 _ w
    serving_allocates (ref_healthy _) eq_refl eq_refl Hs).
Defined.

Lemma asl_message_returns_witness :
  lib_healthy (mk_ref (F := func) (X := nat) (mk_objects ∅ [])) ∧
  Acc (λ c' c, step (H := serving_kernel true) (body (H3 := good_donor)) c c') (a1_start good_donor).
Proof.
  split; [done|].
  exact (proj1 (asl_message_returns (H5 := serving_kernel true) (H3 := good_donor) (L := @ref_lib func nat)
    (mk_ref (mk_objects ∅ [])) 100 (ref_healthy _) eq_refl eq_refl)).
Defined.

(** Without memory for the message the client returns from [send_ool_case] with the
    thread created and not joined: when the thread starts it reads the [state] of a call
    that has returned, while the main thread goes on with the test. *)
Theorem asl_thread_outlives_state :
  ∃ p w, rtc (step (H := serving_kernel false) (body (H3 := good_donor))) (a1_start good_donor) (p, w) ∧
    returned p = false ∧ ¬ jobs_defined (seen w).
Proof.
  destruct (reaches_steps (H := serving_kernel false) (body (H3 := good_donor)) (@replies) undefined_now
    (repeat Main 17 ++ [Start]) (a1_start good_donor)) as (p & w & Hs & Hp & Hu); [by vm_compute|].
  exists p, w. split; [exact Hs|]. split; [exact Hp|]. by apply undefined_now_sound.
Qed.

(** The test passes, too, when the payload arrives from another source and cut off. *)
Definition other_donor : Libasl := libasl_with "[Sender oracle" 6.
Definition payload_unchecked
    (c : option (thread Z * @world func nat shared Z (@ref_lib func nat))) : bool :=
  match c with
  | Some (Done 0, w) => bool_decide
      (("ASL_A1_PROCESS_MESSAGE_PAYLOAD_MATCH", "0") ∈ out (memory w) ∧
       ("ASL_A1_DONOR_OOL_BYTES_INTACT", "1") ∉ out (memory w))
  | _ => false
  end.

Lemma other_donor_run :
  payload_unchecked (schedule (H := serving_kernel true) (body (H3 := other_donor)) (@replies)
    (send_then_serve 39) (a1_start other_donor)) = true.
Proof. by vm_compute. Qed.

Lemma asl_payload_not_checked :
  ∃ w, rtc (step (H := serving_kernel true) (body (H3 := other_donor))) (a1_start other_donor) (Done 0, w) ∧
    ("ASL_A1_PROCESS_MESSAGE_PAYLOAD_MATCH", "0") ∈ out (memory w) ∧
    ("ASL_A1_DONOR_OOL_BYTES_INTACT", "1") ∉ out (memory w).
Proof.
  pose proof other_donor_run as Hb. destruct (schedule _ _ _ _) as [[[rc|] w]|] eqn:E; [|done..].
  destruct rc; [|done..]. apply bool_decide_eq_true in Hb. exists w. split; [|exact Hb].
  exact (schedule_steps (H := serving_kernel true) (body (H3 := other_donor)) (@replies) _ _ _ E).
Qed.
End witnesses.
End AslMessage.
