(* ===== verification/Harness.v ===== *)
(** Harnesses: programs of one thread that call functions of libraries, print a line for
    each test and count those that fail. *)

From stdpp Require Import gmap gmultiset list.
From S2P Require Import Prelude.

Local Open Scope Z_scope.

Module Harness.

(** Programs over the calls [C], each with the type of its answer. *)
Inductive script (C : Type → Type) (A : Type) : Type :=
  | Return (a : A)
  | Call {R : Type} (c : C R) (k : R → script C A)
  | Print (line : string) (k : script C A)
  | OutOfFuel.
Arguments Return {C A} a.
Arguments Call {C A R} c k.
Arguments Print {C A} line k.
Arguments OutOfFuel {C A}.

#[export] Instance script_ret C : MRet (script C) := λ A a, Return a.
#[export] Instance script_bind C : MBind (script C) := λ A B f,
  fix go p := match p with
  | Return a => f a
  | Call c k => Call c (λ r, go (k r))
  | Print l k => Print l (go k)
  | OutOfFuel => OutOfFuel
  end.

Definition ask {C R} (c : C R) : script C R := Call c Return.
Definition say {C} (line : string) : script C unit := Print line (Return tt).

(** [if (c) { ... }], with what is known otherwise. *)
Definition only_if {C A} (c : bool) (init : A) (p : script C A) : script C A :=
  if c then p else mret init.

(** ** Runs *)

Section runs.
Context {C : Type → Type} {W : Type} (answer : ∀ R, C R → W → R * W).

Fixpoint run {A} (p : script C A) (w : W) : option A * list string * W :=
  match p with
  | Return a => (Some a, [], w)
  | Call c k => let '(r, w') := answer _ c w in run (k r) w'
  | Print l k => let '(a, out, w') := run k w in (a, l :: out, w')
  | OutOfFuel => (None, [], w)
  end.

(** Every call of the run is made in a state where it may be made. *)
Fixpoint calls_meet {A} (P : ∀ R, C R → W → Prop) (p : script C A) (w : W) : Prop :=
  match p with
  | Return _ | OutOfFuel => True
  | Call c k => P _ c w ∧ calls_meet P (k (answer _ c w).1) (answer _ c w).2
  | Print _ k => calls_meet P k w
  end.

Fixpoint calls_checked {A} (P : ∀ R, C R → W → bool) (p : script C A) (w : W) : bool :=
  match p with
  | Return _ | OutOfFuel => true
  | Call c k => P _ c w && calls_checked P (k (answer _ c w).1) (answer _ c w).2
  | Print _ k => calls_checked P k w
  end.

Lemma calls_meet_checked {A} (P : ∀ R, C R → W → Prop) (Pb : ∀ R, C R → W → bool) (p : script C A) w :
  (∀ R c w, P R c w → Pb R c w = true) → calls_meet P p w → calls_checked Pb p w = true.
Proof.
  intros HP. revert w. induction p as [a|R c k IH|l k IH|]; simpl; intros w; auto.
  intros [Hc Hk]. by rewrite (HP _ _ _ Hc), IH.
Qed.
End runs.

(** ** What a run asked and was answered *)

Inductive called (C : Type → Type) : Type :=
  | Called {R : Type} (c : C R) (r : R).
Arguments Called {C R} c r.

Fixpoint calls_of {C W} (answer : ∀ R, C R → W → R * W) {A} (p : script C A) (w : W) : list (called C) :=
  match p with
  | Return _ | OutOfFuel => []
  | Call c k => let '(r, w') := answer _ c w in Called c r :: calls_of answer (k r) w'
  | Print _ k => calls_of answer k w
  end.

(** Whatever is answered, the result, the lines and the calls of a run are related. *)
Fixpoint does {C A} (p : script C A) (Φ : A → list string → list (called C) → Prop) : Prop :=
  match p with
  | Return a => Φ a [] []
  | Call c k => ∀ r, does (k r) (λ a out t, Φ a out (Called c r :: t))
  | Print l k => does k (λ a out t, Φ a (l :: out) t)
  | OutOfFuel => True
  end.

Lemma script_does_run {C W} (answer : ∀ R, C R → W → R * W) {A} (p : script C A) Φ w a out w' :
  does p Φ → run answer p w = (Some a, out, w') → Φ a out (calls_of answer p w).
Proof.
  revert w out Φ. induction p as [b|R c k IH|l k IH|]; intros w out Φ Hp; simpl in *.
  - by intros [= -> <- <-].
  - destruct (answer R c w) as [r w1]. intros E. exact (IH r w1 out _ (Hp r) E).
  - destruct (run answer k w) as [[b out'] w1] eqn:E. intros [= -> <- <-].
    exact (IH w out' _ Hp E).
  - done.
Qed.

Lemma script_does_mono {C A} (p : script C A) (Φ Ψ : A → list string → list (called C) → Prop) :
  does p Φ → (∀ a out t, Φ a out t → Ψ a out t) → does p Ψ.
Proof.
  revert Φ Ψ. induction p as [b|R c k IH|l k IH|]; intros Φ Ψ Hp HΦ; simpl in *; auto.
  - intros r. eapply IH; [apply Hp|]. auto.
  - eapply IH; [exact Hp|]. auto.
Qed.

Lemma script_does_bind {C A B} (f : A → script C B) (p : script C A) (Φ : B → list string → list (called C) → Prop) :
  does p (λ a out t, does (f a) (λ b out' t', Φ b (out ++ out') (t ++ t'))) → does (p ≫= f) Φ.
Proof.
  revert Φ. induction p as [b|R c k IH|l k IH|]; intros Φ Hp; simpl in *; auto.
  intros r. apply IH, Hp.
Qed.

Lemma does_ask {C A R} (c : C R) (f : R → script C A) (Φ : A → list string → list (called C) → Prop) :
  (∀ r, does (f r) (λ a out t, Φ a out (Called c r :: t))) → does (ask c ≫= f) Φ.
Proof. done. Qed.

(** ** A logic

    The answers are related to what is known of the libraries, [S]. *)
Section logic.
Context {C : Type → Type} {S : Type}.
Context (pre : ∀ R, C R → S → Prop) (post : ∀ R, C R → S → R → S → Prop).

Fixpoint wp {A} (p : script C A) (Q : A → list string → S → Prop) (out : list string) (s : S) : Prop :=
  match p with
  | Return a => Q a out s
  | Call c k => pre _ c s ∧ ∀ r s', post _ c s r s' → wp (k r) Q out s'
  | Print l k => wp k Q (out ++ [l]) s
  | OutOfFuel => False
  end.

Lemma script_wp_mono {A} (p : script C A) (Q Q' : A → list string → S → Prop) out s :
  wp p Q out s → (∀ a l s', Q a l s' → Q' a l s') → wp p Q' out s.
Proof.
  intros Hp HQ. revert out s Hp.
  induction p as [a|R c k IH|l k IH|]; simpl; intros out s Hp; [auto| |auto|done].
  destruct Hp as [Hc Hk]. split; [done|]. intros r s' Hr. by apply IH, Hk.
Qed.

Lemma script_wp_bind {A B} (f : A → script C B) (p : script C A) (Q : B → list string → S → Prop) out s :
  wp p (λ a l s', wp (f a) Q l s') out s → wp (p ≫= f) Q out s.
Proof.
  revert out s. induction p as [a|R c k IH|l k IH|]; intros out s; simpl; [done| |apply IH|done].
  intros [Hc Hk]. split; [done|]. intros r s' Hr. by apply IH, Hk.
Qed.

(** A library that keeps to it, where [view] is what is known of its states. *)
Class Keeps {W} (answer : ∀ R, C R → W → R * W) (view : W → S) : Prop :=
  keeps : ∀ R (c : C R) w, pre _ c (view w) →
    post _ c (view w) (answer _ c w).1 (view (answer _ c w).2).

Lemma wp_run {W} (answer : ∀ R, C R → W → R * W) (view : W → S) `{!Keeps answer view}
    {A} (p : script C A) Q out w :
  wp p Q out (view w) →
  calls_meet answer (λ R c w, pre R c (view w)) p w ∧
  ∃ a l w', run answer p w = (Some a, l, w') ∧ Q a (out ++ l) (view w').
Proof.
  revert out w. induction p as [a|R c k IH|l k IH|]; simpl; intros out w Hp; [| | |done].
  - split; [done|]. exists a, [], w. by rewrite app_nil_r.
  - destruct Hp as [Hc Hk]. pose proof (keeps _ _ _ Hc) as Hr.
    destruct (answer R c w) as [r w']. simpl in *.
    destruct (IH _ _ _ (Hk _ _ Hr)) as [H1 H2]. by split.
  - destruct (IH _ _ Hp) as [H1 (a & l' & w' & E & HQ)]. split; [done|].
    exists a, (l :: l'), w'. rewrite E. split; [done|]. by rewrite <- app_assoc in HQ.
Qed.
End logic.

(** ** Handles: what a call is passed, gives back and makes *)

Class Handles (C : Type → Type) := {
  needs : ∀ R, C R → gmultiset Z;
  spends : ∀ R, C R → gmultiset Z;
  makes : ∀ R, C R → R → gmultiset Z;
}.

(** A pointer that is not [NULL]. *)
Definition non_null (p : Z) : bool := negb (p =? 0).
Definition object_at (p : Z) : gmultiset Z := if non_null p then {[+ p +]} else ∅.

Lemma object_null p : non_null p = false → object_at p = ∅.
Proof. unfold object_at. by intros ->. Qed.
Lemma object_sub p : object_at p ⊆ {[+ p +]}.
Proof. unfold object_at. destruct (non_null p); multiset_solver. Qed.
Lemma object_non_null p : non_null p = true → object_at p = {[+ p +]}.
Proof. unfold object_at. by intros ->. Qed.

Section handles.
Context {C : Type → Type} `{!Handles C}.

(** The library, whatever it does, next to the handles that are held. *)
Definition tracked {W} (answer : ∀ R, C R → W → R * W) : ∀ R, C R → W * gmultiset Z → R * (W * gmultiset Z) :=
  λ R c '(w, h), let '(r, w') := answer R c w in (r, (w', (h ∖ spends R c) ⊎ makes R c r)).
Definition entitled R (c : C R) (h : gmultiset Z) : Prop := needs R c ⊆ h.
Definition tracks R (c : C R) (h : gmultiset Z) (r : R) (h' : gmultiset Z) : Prop :=
  h' = (h ∖ spends R c) ⊎ makes R c r.

#[export] Instance tracked_keeps {W} (answer : ∀ R, C R → W → R * W) :
  Keeps entitled tracks (tracked answer) snd.
Proof. intros R c [w h] _. unfold tracks. simpl. by destruct (answer R c w). Qed.

Lemma t_ask {A R} (c : C R) (f : R → script C A) (Q : A → list string → gmultiset Z → Prop) out h :
  needs R c ⊆ h →
  (∀ r, wp entitled tracks (f r) Q out ((h ∖ spends R c) ⊎ makes R c r)) →
  wp entitled tracks (ask c ≫= f) Q out h.
Proof. intros Hc Hk. split; [exact Hc|]. intros r h' ->. apply Hk. Qed.
End handles.

(** ** Loops over what a library answers

    The libraries have an end: some answers use up what is left. *)
Section ranked.
Context {C : Type → Type} `{!Handles C} (uses_up : ∀ R, C R → R → Prop).

Definition runs_down {W} (answer : ∀ R, C R → W → R * W) (left : W → nat) : Prop :=
  ∀ R (c : C R) w, (left (answer R c w).2 ≤ left w)%nat ∧
    (uses_up R c (answer R c w).1 → (left (answer R c w).2 < left w)%nat).

Definition r_pre R (c : C R) (s : nat * gmultiset Z) : Prop := entitled R c s.2.
Definition r_post R (c : C R) (s : nat * gmultiset Z) (r : R) (s' : nat * gmultiset Z) : Prop :=
  tracks R c s.2 r s'.2 ∧ (s'.1 ≤ s.1)%nat ∧ (uses_up R c r → (s'.1 < s.1)%nat).

Lemma ranked_keeps {W} (answer : ∀ R, C R → W → R * W) left :
  runs_down answer left → Keeps r_pre r_post (tracked answer) (λ w, (left w.1, w.2)).
Proof.
  intros Hd R c [w h] _. destruct (Hd R c w) as [Hle Hlt]. unfold r_post, tracks. simpl.
  by destruct (answer R c w).
Qed.

Lemma r_ask {A R} (c : C R) (f : R → script C A) (Q : A → list string → nat * gmultiset Z → Prop)
    out n h :
  needs R c ⊆ h →
  (∀ r n', (n' ≤ n)%nat → (uses_up R c r → (n' < n)%nat) →
     wp r_pre r_post (f r) Q out (n', (h ∖ spends R c) ⊎ makes R c r)) →
  wp r_pre r_post (ask c ≫= f) Q out (n, h).
Proof. intros Hc Hk. split; [exact Hc|]. intros r [n' h'] (Ht & Hn & Hu). simpl in *. rewrite Ht. by apply Hk. Qed.
End ranked.

(** ** Tests

    The macro [R]: a line, and the count of the failures, which the program threads
    through. *)
Definition harness (C : Type → Type) (A : Type) : Type := Z → script C (A * Z).
#[export] Instance harness_ret C : MRet (harness C) := λ A a fails, Return (a, fails).
#[export] Instance harness_bind C : MBind (harness C) := λ A B f p fails,
  p fails ≫= λ x, f x.1 x.2.

Definition test_line (t : string * bool) : string := t.1 +:+ ": " +:+ if t.2 then "PASS" else "FAIL".
Definition R {C} (name : string) (val : bool) : harness C unit := λ fails,
  Print (test_line (name, val)) (Return (tt, fails + if val then 0 else 1)).
(** The macro uses its argument twice: a call in it is made for the line and again for the
    count. *)
Definition R_twice {C R} (name : string) (c : C R) (val : R → bool) : harness C unit := λ fails,
  r ← ask c;
  Print (test_line (name, val r)) (
  r ← ask c;
  Return (tt, fails + if val r then 0 else 1)).
Definition lift {C A} (p : script C A) : harness C A := λ fails, a ← p; mret (a, fails).

(** The end of [main]. *)
Definition matrix {C} (op : string) (tests : harness C unit) : script C Z :=
  '(_, fails) ← tests 0;
  _ ← say (op +:+ "_matrix_fails=" +:+ fmt_lld fails);
  _ ← say (op +:+ "_matrix_terminal status=0");
  mret 0.

Definition failures (tests : list (string * bool)) : Z :=
  Z.of_nat (length (filter (λ t, t.2 = false) tests)).

Definition matrix_lines (op : string) (tests : list (string * bool)) : list string :=
  map test_line tests ++
  [op +:+ "_matrix_fails=" +:+ fmt_lld (failures tests); op +:+ "_matrix_terminal status=0"].

Lemma failures_snoc tests name val :
  failures (tests ++ [(name, val)]) = failures tests + if val then 0 else 1.
Proof.
  unfold failures. rewrite filter_app, length_app. destruct val; simpl; lia.
Qed.

Section tests.
Context {C : Type → Type} {S : Type}.
Context (pre : ∀ R, C R → S → Prop) (post : ∀ R, C R → S → R → S → Prop).

(** The tests so far are what was printed and counted. *)
Definition hwp {A} (p : harness C A) (Q : A → list (string * bool) → S → Prop)
    (tests : list (string * bool)) (s : S) : Prop :=
  wp pre post (p (failures tests)) (λ x out s', ∃ tests',
    x.2 = failures tests' ∧ out = map test_line tests' ∧ Q x.1 tests' s') (map test_line tests) s.

Lemma hwp_ret {A} (a : A) (Q : A → list (string * bool) → S → Prop) tests s :
  Q a tests s → hwp (mret a) Q tests s.
Proof. intros HQ. by exists tests. Qed.

Lemma hwp_bind {A B} (f : A → harness C B) (p : harness C A)
    (Q : B → list (string * bool) → S → Prop) tests s :
  hwp p (λ a t s', hwp (f a) Q t s') tests s → hwp (p ≫= f) Q tests s.
Proof.
  intros Hp. unfold hwp. apply (script_wp_bind pre post (λ x, f x.1 x.2)).
  eapply script_wp_mono; [exact Hp|]. by intros [a n] out s' (t & -> & -> & HQ).
Qed.

Lemma hwp_R name val (Q : unit → list (string * bool) → S → Prop) tests s :
  Q tt (tests ++ [(name, val)]) s → hwp (R name val) Q tests s.
Proof.
  intros HQ. exists (tests ++ [(name, val)]). simpl. by rewrite failures_snoc, map_app.
Qed.

Lemma hwp_R_twice {R} name (c : C R) val (Q : unit → list (string * bool) → S → Prop) tests s :
  pre _ c s →
  (∀ r s1, post _ c s r s1 → pre _ c s1 ∧ ∀ r' s2, post _ c s1 r' s2 →
     val r' = val r ∧ Q tt (tests ++ [(name, val r)]) s2) →
  hwp (R_twice name c val) Q tests s.
Proof.
  intros Hc HQ. split; [done|]. intros r s1 Hr. destruct (HQ r s1 Hr) as [Hc1 HQ1].
  split; [done|]. intros r' s2 Hr'. destruct (HQ1 r' s2 Hr') as [Hv H2]. simpl.
  exists (tests ++ [(name, val r)]). by rewrite failures_snoc, map_app, Hv.
Qed.

Lemma hwp_ask {R} (c : C R) (Q : R → list (string * bool) → S → Prop) tests s :
  pre _ c s → (∀ r s', post _ c s r s' → Q r tests s') → hwp (lift (ask c)) Q tests s.
Proof. intros Hc HQ. split; [done|]. intros r s' Hr. exists tests. auto. Qed.

Lemma hwp_lift {A} (p : script C A) (Q : A → list (string * bool) → S → Prop) tests s :
  wp pre post p (λ a out s', out = map test_line tests ∧ Q a tests s') (map test_line tests) s →
  hwp (lift p) Q tests s.
Proof.
  intros Hp. apply script_wp_bind. eapply script_wp_mono; [exact Hp|]. intros a out s' [-> HQ]. by exists tests.
Qed.

(** What the harness prints, with the tests that were made. *)
Lemma wp_matrix op (p : harness C unit) (Q : Z → list string → S → Prop) s :
  hwp p (λ _ tests s', Q 0 (matrix_lines op tests) s') [] s → wp pre post (matrix op p) Q [] s.
Proof.
  intros Hp. apply script_wp_bind. eapply script_wp_mono; [exact Hp|].
  intros [u n] out s' (t & En & -> & HQ). simpl in En. subst n. simpl.
  by rewrite <- app_assoc.
Qed.
End tests.

Lemma hr_ask {C} `{!Handles C} uses_up {R} (c : C R)
    (Q : R → list (string * bool) → nat * gmultiset Z → Prop) tests n h :
  needs R c ⊆ h →
  (∀ r n', (n' ≤ n)%nat → Q r tests (n', (h ∖ spends R c) ⊎ makes R c r)) →
  hwp r_pre (r_post uses_up) (lift (ask c)) Q tests (n, h).
Proof.
  intros Hc HQ. apply hwp_ask; [exact Hc|]. intros r [n' h'] (Ht & Hn & _). simpl in *.
  rewrite Ht. by apply HQ.
Qed.

(** A call that leaves the handles as they are. *)
Lemma all_kept (h : gmultiset Z) : (h ∖ ∅) ⊎ ∅ = h.
Proof. multiset_solver. Qed.
Lemma one_more (h x : gmultiset Z) : (h ∖ ∅) ⊎ x = h ⊎ x.
Proof. multiset_solver. Qed.
Lemma one_less (h x : gmultiset Z) : (h ∖ x) ⊎ ∅ = h ∖ x.
Proof. multiset_solver. Qed.
End Harness.
