(* ===== verification/NotifyHarness.v ===== *)
(** [findings/nx-r64z/dtrace/notify-conformance/notify-harness.c]: tests of libnotify.

    The library and the server are not in the repository: they are a parameter, and what
    <notify.h> says of the calls is the law [documented]. *)

From stdpp Require Import gmap gmultiset list strings.
From S2P Require Import Prelude MachApi RefKernel Harness.

Local Open Scope Z_scope.

Module NotifyHarness.
Import Harness.

(** The functions of <notify.h>.  Those that store through a pointer are passed what the
    variable holds and answer, after the status, what it holds afterwards. *)
Inductive call : Type → Type :=
  | notify_post (name : string) : call Z
  | notify_register_check (name : string) (token : Z) : call (Z * Z)
  | notify_register_signal (name : string) (sig token : Z) : call (Z * Z)
  | notify_register_mach_port (name : string) (port flags token : Z) : call (Z * Z * Z)
  | notify_check (token check : Z) : call (Z * Z)
  | notify_set_state (token state : Z) : call Z
  | notify_get_state (token state : Z) : call (Z * Z)
  | notify_cancel (token : Z) : call Z
  | Mach {R : Type} (c : mach_call R) : call R.

Definition NOTIFY_STATUS_OK : Z := 0.
Definition STATUS_OK (s : Z) : bool := s =? NOTIFY_STATUS_OK.
Definition SIGUSR1 : Z := 30.

(** Tokens are handles of registrations that succeeded. *)
#[export] Instance tokens : Handles call := {|
  needs R c := match c with
    | notify_check t _ | notify_set_state t _ | notify_get_state t _ | notify_cancel t => {[+ t +]}
    | _ => ∅
    end;
  spends R c := match c with notify_cancel t => {[+ t +]} | _ => ∅ end;
  makes R c := match c in call R return R → gmultiset Z with
    | notify_register_check _ _ | notify_register_signal _ _ _ => λ r,
        if STATUS_OK r.1 then {[+ r.2 +]} else ∅
    | notify_register_mach_port _ _ _ _ => λ r, if STATUS_OK r.1.1 then {[+ r.2 +]} else ∅
    | _ => λ _, ∅
    end |}.

Abbreviation harness := (harness call).
Definition notify {R} (c : call R) : harness R := lift (ask c).
Definition is_set (n : Z) : bool := negb (n =? 0).

Section harness.
Context `{MachSdk}.

(** From the registration of "test.op110.check" to the label; the value is [token]. *)
Definition check_tests (token : Z) : harness Z :=
  '(s, token) ← notify (notify_register_check "test.op110.check" token);
  if negb (STATUS_OK s) then _ ← R "register_check+check" false; mret token else
  _ ← notify (notify_post "test.op110.check");
  '(s, check) ← notify (notify_check token 0);
  _ ← R "register_check+check" (STATUS_OK s && is_set check);
  _ ← notify (notify_cancel token);
  '(_, token) ← notify (notify_register_check "test.op110.prepost" token);
  '(s, _) ← notify (notify_check token 1);
  _ ← R "check_first_call" (STATUS_OK s);
  _ ← notify (notify_cancel token);
  mret token.

Definition state_test (token : Z) : harness Z :=
  '(s, token) ← notify (notify_register_check "test.op110.state" token);
  if STATUS_OK s then
    s ← notify (notify_set_state token 0xDEADBEEF);
    let set_ok := STATUS_OK s in
    '(s, state) ← notify (notify_get_state token 0);
    _ ← R "set_state+get_state" (set_ok && STATUS_OK s && (state =? 0xDEADBEEF));
    _ ← notify (notify_cancel token);
    mret token
  else
    _ ← R "set_state+get_state" false;
    mret token.

Definition cancel_test (token : Z) : harness Z :=
  '(_, token) ← notify (notify_register_check "test.op110.cancel" token);
  s ← notify (notify_cancel token);
  _ ← R "notify_cancel" (STATUS_OK s);
  mret token.

Definition coalescing_test (token : Z) : harness Z :=
  '(_, token) ← notify (notify_register_check "test.op110.coalesce" token);
  _ ← notify (notify_post "test.op110.coalesce");
  _ ← notify (notify_post "test.op110.coalesce");
  _ ← notify (notify_post "test.op110.coalesce");
  '(_, check) ← notify (notify_check token 0);
  _ ← R "name_coalescing" (is_set check);
  _ ← notify (notify_cancel token);
  mret token.

Definition broadcast_test (tok1 tok2 : Z) : harness unit :=
  '(_, tok1) ← notify (notify_register_check "test.op110.broadcast" tok1);
  '(_, tok2) ← notify (notify_register_check "test.op110.broadcast" tok2);
  _ ← notify (notify_post "test.op110.broadcast");
  '(_, c1) ← notify (notify_check tok1 0);
  '(_, c2) ← notify (notify_check tok2 0);
  _ ← R "multi_client_broadcast" (is_set c1 && is_set c2);
  _ ← notify (notify_cancel tok1);
  _ ← notify (notify_cancel tok2);
  mret tt.

Definition signal_test (token : Z) : harness Z :=
  '(s, token) ← notify (notify_register_signal "test.op110.signal" SIGUSR1 token);
  _ ← R "register_signal" (STATUS_OK s);
  if STATUS_OK s then _ ← notify (notify_cancel token); mret token else mret token.

Definition sizeof_msg : Z := sizeof_mach_msg_header + sizeof_mach_msg_max_trailer.
Definition mach_port_test (token : Z) : harness unit :=
  '(_, port) ← notify (Mach (mach_port_allocate MACH_PORT_RIGHT_RECEIVE));
  '(s, port, token) ← notify (notify_register_mach_port "test.op110.machport" port 0 token);
  _ ← R "register_mach_port" (STATUS_OK s);
  _ ← (if STATUS_OK s then
    _ ← notify (notify_post "test.op110.machport");
    '(s, _) ← notify (Mach (mach_msg zero_msg (Z.lor MACH_RCV_MSG MACH_RCV_TIMEOUT) 0 sizeof_msg
                              port 500 MACH_PORT_NULL));
    _ ← R "mach_port_delivery" ((s =? MACH_MSG_SUCCESS) || (s =? MACH_RCV_TIMED_OUT));
    _ ← notify (notify_cancel token);
    mret tt
  else mret tt);
  _ ← notify (Mach (mach_port_destroy port));
  mret tt.

(** [token], [tok1] and [tok2] are not initialized. *)
Definition tests (token tok1 tok2 : Z) : harness unit :=
  s ← notify (notify_post "test.op110.post");
  _ ← R "notify_post" (STATUS_OK s);
  token ← check_tests token;
  token ← state_test token;
  token ← cancel_test token;
  token ← coalescing_test token;
  _ ← broadcast_test tok1 tok2;
  token ← signal_test token;
  mach_port_test token.

Definition main (token tok1 tok2 : Z) : script call Z := matrix "op110" (tests token tok1 tok2).
End harness.

(** ** What <notify.h> says, of a server that refuses nothing

    The registrations of the process, each with its name and whether something was posted
    since the last check, where the first check says so in any case, and the states of
    the names. *)
Record notifyd := mk_notifyd {
  regs : gmap Z (string * bool);
  states : gmap string Z;
}.
Definition posted (name : string) (r : string * bool) : string * bool :=
  (r.1, r.2 || String.eqb r.1 name).
Definition registers (name : string) (s : notifyd) (t : Z) (s' : notifyd) : Prop :=
  regs s !! t = None ∧ s' = mk_notifyd (<[t := (name, true)]> (regs s)) (states s).

(** Tokens are those of registrations. *)
Definition doc_pre R (c : call R) (s : notifyd) : Prop :=
  match c with
  | notify_check t _ | notify_set_state t _ | notify_get_state t _ | notify_cancel t =>
      is_Some (regs s !! t)
  | _ => True
  end.
Definition doc_post R (c : call R) (s : notifyd) : R → notifyd → Prop :=
  match c in call R return R → notifyd → Prop with
  | notify_post name => λ r s',
      r = NOTIFY_STATUS_OK ∧ s' = mk_notifyd (posted name <$> regs s) (states s)
  | notify_register_check name _ | notify_register_signal name _ _ => λ r s',
      r.1 = NOTIFY_STATUS_OK ∧ registers name s r.2 s'
  | notify_register_mach_port name _ _ _ => λ r s',
      r.1.1 = NOTIFY_STATUS_OK ∧ registers name s r.2 s'
  | notify_check t _ => λ r s', ∃ name b, regs s !! t = Some (name, b) ∧
      r.1 = NOTIFY_STATUS_OK ∧ is_set r.2 = b ∧
      s' = mk_notifyd (<[t := (name, false)]> (regs s)) (states s)
  | notify_set_state t v => λ r s', ∃ x, regs s !! t = Some x ∧
      r = NOTIFY_STATUS_OK ∧ s' = mk_notifyd (regs s) (<[x.1 := v]> (states s))
  | notify_get_state t _ => λ r s', ∃ x, regs s !! t = Some x ∧
      r = (NOTIFY_STATUS_OK, default 0 (states s !! x.1)) ∧ s' = s
  | notify_cancel t => λ r s',
      r = NOTIFY_STATUS_OK ∧ s' = mk_notifyd (delete t (regs s)) (states s)
  | Mach _ => λ _ s', s' = s
  end.
Abbreviation documented := (Keeps doc_pre doc_post).

(** ** What is held of a run *)

Section facts.
Context `{MachSdk}.

(** The tests, for how the registrations went that are tested for. *)
Definition test_names (checks port : bool) : list string :=
  ["notify_post"; "register_check+check"] ++ (if checks then ["check_first_call"] else []) ++
  ["set_state+get_state"; "notify_cancel"; "name_coalescing"; "multi_client_broadcast";
   "register_signal"; "register_mach_port"] ++ (if port then ["mach_port_delivery"] else []).

Abbreviation any_pre := (λ R (c : call R) (s : unit), True).
Abbreviation any_post := (λ R (c : call R) (s : unit) (r : R) (s' : unit), True).

Ltac harness_step := lazymatch goal with
  | |- hwp _ _ (_ ≫= _) _ _ _ => apply hwp_bind
  | |- hwp _ _ (mret _) _ _ _ => apply hwp_ret
  | |- hwp _ _ (R _ _) _ _ _ => apply hwp_R
  | |- hwp _ _ (notify _) _ _ _ => apply hwp_ask; [exact I|intros ? ? _]
  | |- hwp _ _ (let '(_, _) := ?x in _) _ _ _ => destruct x
  | |- hwp _ _ (if ?b then _ else _) _ _ _ => destruct b
  end.

Lemma hwp_tests token tok1 tok2 s :
  hwp any_pre any_post (tests token tok1 tok2)
    (λ _ t _, ∃ checks port, map fst t = test_names checks port) [] s.
Proof.
  unfold tests, check_tests, state_test, cancel_test, coalescing_test, broadcast_test,
    signal_test, mach_port_test.
  repeat harness_step.
  all: first [by exists true, true|by exists true, false|by exists false, true|by exists false, false].
Qed.

(** *** With a library that keeps to the documentation *)

Abbreviation dwp := (hwp doc_pre doc_post).
Abbreviation one t name b := ({[t := (name, b)]} : gmap Z (string * bool)).

Section documented_calls.
Context (tests : list (string * bool)) (st : gmap string Z).

Lemma dwp_post name (Q : Z → list (string * bool) → notifyd → Prop) rs :
  Q 0 tests (mk_notifyd (posted name <$> rs) st) →
  dwp (notify (notify_post name)) Q tests (mk_notifyd rs st).
Proof. intros HQ. apply hwp_ask; [done|]. by intros r s' [-> ->]. Qed.

Lemma dwp_register name token (Q : Z * Z → list (string * bool) → notifyd → Prop) :
  (∀ t, Q (0, t) tests (mk_notifyd (one t name true) st)) →
  dwp (notify (notify_register_check name token)) Q tests (mk_notifyd ∅ st).
Proof.
  intros HQ. apply hwp_ask; [done|]. intros [r t] s' [Hr [_ ->]]. simpl in Hr. subst r.
  simpl. by rewrite insert_empty.
Qed.

Lemma dwp_check t name b token (Q : Z * Z → list (string * bool) → notifyd → Prop) rs :
  rs !! t = Some (name, b) →
  (∀ c, is_set c = b → Q (0, c) tests (mk_notifyd (<[t := (name, false)]> rs) st)) →
  dwp (notify (notify_check t token)) Q tests (mk_notifyd rs st).
Proof.
  intros Hrs HQ. apply hwp_ask; [by exists (name, b)|]. intros [r c] s' (n' & b' & E & Hr & Hc & ->).
  simpl in Hr, Hc, E. subst r. rewrite Hrs in E. injection E as <- <-. by apply HQ.
Qed.

Lemma dwp_cancel t x (Q : Z → list (string * bool) → notifyd → Prop) rs :
  rs !! t = Some x → Q 0 tests (mk_notifyd (delete t rs) st) →
  dwp (notify (notify_cancel t)) Q tests (mk_notifyd rs st).
Proof. intros Hrs HQ. apply hwp_ask; [by exists x|]. by intros r s' [-> ->]. Qed.

Lemma dwp_mach {A} (c : mach_call A) (Q : A → list (string * bool) → notifyd → Prop) s :
  (∀ r, Q r tests s) → dwp (notify (Mach c)) Q tests s.
Proof. intros HQ. apply hwp_ask; [done|]. by intros r s' ->. Qed.
End documented_calls.

(** One registration at a time. *)
Ltac token_tac := first
  [ done | apply lookup_singleton_eq
  | rewrite insert_singleton_eq | rewrite delete_singleton_eq | rewrite map_fmap_singleton ].
Ltac doc_step := cbn [fst snd posted orb String.eqb Ascii.eqb Bool.eqb STATUS_OK Z.eqb negb andb
    NOTIFY_STATUS_OK regs states default]; lazymatch goal with
  | |- hwp _ _ (_ ≫= _) _ _ _ => apply hwp_bind
  | |- hwp _ _ (mret _) _ _ _ => apply hwp_ret
  | |- hwp _ _ (R _ _) _ _ _ => apply hwp_R
  | |- hwp _ _ (notify (notify_post _)) _ _ _ => apply dwp_post; rewrite ?map_fmap_singleton, ?fmap_empty
  | |- hwp _ _ (notify (notify_register_check _ _)) _ _ _ => apply dwp_register; intros ?
  | |- hwp _ _ (notify (notify_check _ _)) _ _ _ =>
      eapply dwp_check; [apply lookup_singleton_eq|intros ? ?; rewrite insert_singleton_eq]
  | |- hwp _ _ (notify (notify_cancel _)) _ _ _ =>
      eapply dwp_cancel; [apply lookup_singleton_eq|rewrite delete_singleton_eq]
  | |- hwp _ _ (notify (Mach _)) _ _ _ => apply dwp_mach; intros ?
  | |- hwp _ _ (let '(_, _) := ?x in _) _ _ _ => destruct x
  end.

Ltac doc_done HQ := repeat doc_step; simpl in *; simplify_eq;
  repeat match goal with E : is_set _ = _ |- _ => rewrite E; clear E end;
  rewrite <- ?app_assoc; apply HQ.

Section documented_tests.
Context (tests : list (string * bool)) (st : gmap string Z).

Lemma dwp_check_tests token (Q : Z → list (string * bool) → notifyd → Prop) :
  (∀ t, Q t (tests ++ [("register_check+check", true); ("check_first_call", true)]) (mk_notifyd ∅ st)) →
  dwp (check_tests token) Q tests (mk_notifyd ∅ st).
Proof. intros HQ. unfold check_tests. doc_done HQ. Qed.

Lemma dwp_cancel_test token (Q : Z → list (string * bool) → notifyd → Prop) :
  (∀ t, Q t (tests ++ [("notify_cancel", true)]) (mk_notifyd ∅ st)) →
  dwp (cancel_test token) Q tests (mk_notifyd ∅ st).
Proof. intros HQ. unfold cancel_test. doc_done HQ. Qed.

Lemma dwp_coalescing_test token (Q : Z → list (string * bool) → notifyd → Prop) :
  (∀ t, Q t (tests ++ [("name_coalescing", true)]) (mk_notifyd ∅ st)) →
  dwp (coalescing_test token) Q tests (mk_notifyd ∅ st).
Proof. intros HQ. unfold coalescing_test. doc_done HQ. Qed.

Lemma dwp_state_test token (Q : Z → list (string * bool) → notifyd → Prop) :
  (∀ t, Q t (tests ++ [("set_state+get_state", true)])
     (mk_notifyd ∅ (<["test.op110.state" := 0xDEADBEEF]> st))) →
  dwp (state_test token) Q tests (mk_notifyd ∅ st).
Proof.
  intros HQ. unfold state_test. repeat doc_step.
  apply hwp_ask; [eexists; apply lookup_singleton_eq|].
  intros r s' ([n b] & E & -> & ->). simpl in E. rewrite lookup_singleton_eq in E.
  injection E as <- <-. repeat doc_step.
  apply hwp_ask; [eexists; apply lookup_singleton_eq|].
  intros r s' ([n b] & E & -> & ->). simpl in E. rewrite lookup_singleton_eq in E.
  injection E as <- <-. simpl. rewrite lookup_insert_eq. doc_done HQ.
Qed.

Lemma dwp_signal_test token (Q : Z → list (string * bool) → notifyd → Prop) :
  (∀ t, Q t (tests ++ [("register_signal", true)]) (mk_notifyd ∅ st)) →
  dwp (signal_test token) Q tests (mk_notifyd ∅ st).
Proof.
  intros HQ. unfold signal_test. repeat doc_step. apply hwp_ask; [done|].
  intros [r t] s' [Hr [_ ->]]. simpl in Hr. subst r. simpl. rewrite insert_empty. doc_done HQ.
Qed.

Lemma dwp_broadcast_test tok1 tok2 (Q : unit → list (string * bool) → notifyd → Prop) :
  Q tt (tests ++ [("multi_client_broadcast", true)]) (mk_notifyd ∅ st) →
  dwp (broadcast_test tok1 tok2) Q tests (mk_notifyd ∅ st).
Proof.
  intros HQ. unfold broadcast_test. repeat doc_step. apply hwp_ask; [done|].
  intros [r t2] s' [Hr [Hn ->]]. simpl in Hr, Hn. subst r. apply lookup_singleton_None in Hn.
  repeat doc_step. rewrite fmap_insert, map_fmap_singleton.
  eapply dwp_check; [rewrite lookup_insert_ne by done; apply lookup_singleton_eq|]. intros c1 H1.
  rewrite insert_insert_ne by done. rewrite insert_singleton_eq.
  repeat doc_step. eapply dwp_check; [apply lookup_insert_eq|]. intros c2 H2. rewrite insert_insert_eq.
  repeat doc_step. eapply dwp_cancel; [rewrite lookup_insert_ne by done; apply lookup_singleton_eq|].
  rewrite delete_insert_ne, delete_singleton_eq, insert_empty by done. doc_done HQ.
Qed.

Lemma dwp_mach_port_test token (Q : unit → list (string * bool) → notifyd → Prop) :
  (∀ b, Q tt (tests ++ [("register_mach_port", true); ("mach_port_delivery", b)]) (mk_notifyd ∅ st)) →
  dwp (mach_port_test token) Q tests (mk_notifyd ∅ st).
Proof.
  intros HQ. unfold mach_port_test. repeat doc_step. apply hwp_ask; [done|].
  intros [[r p] t] s' [Hr [_ ->]]. simpl in Hr. subst r. simpl. rewrite insert_empty. doc_done HQ.
Qed.
End documented_tests.

(** All tests but the last pass. *)
Definition passed : list (string * bool) :=
  [("notify_post", true); ("register_check+check", true); ("check_first_call", true);
   ("set_state+get_state", true); ("notify_cancel", true); ("name_coalescing", true);
   ("multi_client_broadcast", true); ("register_signal", true); ("register_mach_port", true)].

Lemma dwp_tests token tok1 tok2 st :
  dwp (tests token tok1 tok2)
    (λ _ t s', regs s' = ∅ ∧ ∃ delivered, t = passed ++ [("mach_port_delivery", delivered)])
    [] (mk_notifyd ∅ st).
Proof.
  unfold tests. repeat doc_step.
  apply dwp_check_tests. clear token. intros token. doc_step.
  apply dwp_state_test. clear token. intros token. doc_step.
  apply dwp_cancel_test. clear token. intros token. doc_step.
  apply dwp_coalescing_test. clear token. intros token. doc_step.
  apply dwp_broadcast_test. doc_step.
  apply dwp_signal_test. clear token. intros token.
  apply dwp_mach_port_test. intros b. split; [done|]. by exists b.
Qed.

(** What is printed, whatever the library answers. *)
Lemma notify_harness_report {W} (answer : ∀ R, call R → W → R * W) w token tok1 tok2 :
  ∃ tests checks port w', run answer (main token tok1 tok2) w = (Some 0, matrix_lines "op110" tests, w') ∧
    map fst tests = test_names checks port.
Proof.
  assert (Keeps any_pre any_post answer (λ _, tt)) as Hk by done.
  destruct (wp_run any_pre any_post answer (λ _, tt) (main token tok1 tok2) (λ a out _, a = 0 ∧
      ∃ tests, out = matrix_lines "op110" tests ∧ ∃ checks port, map fst tests = test_names checks port)
      [] w) as [_ (a & l & w' & E & -> & tests & El & checks & port & Ht)].
  { apply wp_matrix. eapply script_wp_mono; [exact (hwp_tests token tok1 tok2 tt)|].
    intros x out s' (t & H1 & H2 & Ht). exists t. eauto 10. }
  simpl in El. subst l. by exists tests, checks, port, w'.
Qed.

(** C21: with every library that keeps what <notify.h> says the harness passes tokens of its
    own registrations only, cancels them all and reports that all tests passed, but for the
    last, whose message need not be one; the status is 0. *)
Theorem notify_harness_passes {W} (answer : ∀ R, call R → W → R * W) (view : W → notifyd)
    `{!documented answer view} w token tok1 tok2 :
  regs (view w) = ∅ →
  calls_meet answer (λ R c w, doc_pre R c (view w)) (main token tok1 tok2) w ∧
  ∃ delivered w', regs (view w') = ∅ ∧
    run answer (main token tok1 tok2) w =
      (Some 0, matrix_lines "op110" (passed ++ [("mach_port_delivery", delivered)]), w').
Proof.
  intros Hw.
  destruct (wp_run doc_pre doc_post answer view (main token tok1 tok2) (λ a out s, a = 0 ∧ regs s = ∅ ∧
      ∃ b, out = matrix_lines "op110" (passed ++ [("mach_port_delivery", b)])) [] w)
    as [Hc (a & l & w' & E & -> & Hr & b & El)].
  { destruct (view w) as [rs st]. simpl in Hw. subst rs. apply wp_matrix.
    eapply script_wp_mono; [exact (dwp_tests token tok1 tok2 st)|].
    intros x out s' (t & H1 & H2 & Hs & b & ->). eexists. eauto 10. }
  split; [exact Hc|]. simpl in El. subst l. by exists b, w'.
Qed.
End facts.

(** ** Two libraries *)

Section libraries.
Import OnMacos.

(** One that keeps to the documentation, with fresh tokens and the reference kernel. *)
Definition ref_answer R (c : call R) (w : notifyd * machine) : R * (notifyd * machine) :=
  let '(s, m) := w in
  let t := fresh (dom (regs s)) in
  let register name := (mk_notifyd (<[t := (name, true)]> (regs s)) (states s), m) in
  match c in call R return R * (notifyd * machine) with
  | notify_post name => (0, (mk_notifyd (posted name <$> regs s) (states s), m))
  | notify_register_check name _ | notify_register_signal name _ _ => ((0, t), register name)
  | notify_register_mach_port name port _ _ => ((0, port, t), register name)
  | notify_check t check =>
      match regs s !! t with
      | Some (name, b) => ((0, if b : bool then 1 else 0),
          (mk_notifyd (<[t := (name, false)]> (regs s)) (states s), m))
      | None => ((1, check), w)
      end
  | notify_set_state t v =>
      match regs s !! t with
      | Some x => (0, (mk_notifyd (regs s) (<[x.1 := v]> (states s)), m))
      | None => (1, w)
      end
  | notify_get_state t v =>
      match regs s !! t with
      | Some x => ((0, default 0 (states s !! x.1)), w)
      | None => ((1, v), w)
      end
  | notify_cancel t => (0, (mk_notifyd (delete t (regs s)) (states s), m))
  | Mach c => let '(r, m') := handle c m in (r, (s, m'))
  end.

#[local] Instance ref_documented : documented ref_answer fst.
Proof.
  intros A c [[rs st] m] Hc. destruct c; simpl in *; try done.
  1-3: split; [done|]; split; [|done]; simpl; apply not_elem_of_dom, is_fresh.
  - destruct Hc as [[name b] Hc]. rewrite Hc. exists name, b. repeat split; [by destruct b].
  - destruct Hc as [x Hc]. rewrite Hc. by exists x.
  - destruct Hc as [x Hc]. rewrite Hc. by exists x.
  - by destruct (handle c m).
Qed.

Lemma notify_harness_passes_witness :
  documented ref_answer fst ∧
  ∃ delivered w', run ref_answer (main 7 7 7) (mk_notifyd ∅ ∅, boot) =
    (Some 0, matrix_lines "op110" (passed ++ [("mach_port_delivery", delivered)]), w').
Proof.
  split; [exact ref_documented|].
  destruct (notify_harness_passes ref_answer fst (mk_notifyd ∅ ∅, boot) 7 7 7 eq_refl)
    as [_ (b & w' & _ & E)]. by exists b, w'.
Defined.

(** One that refuses a single registration. *)
Definition refuses (refused : string) R (c : call R) (w : notifyd * machine) : R * (notifyd * machine) :=
  match c in call R return R * (notifyd * machine) → R * (notifyd * machine) with
  | notify_register_check name token => λ r,
      if String.eqb name refused then ((1, token), w) else r
  | _ => λ r, r
  end (ref_answer R c w).

(** The status of the registrations that follow is not tested: when one of them fails the
    harness uses, and cancels, the token it cancelled before. *)
Lemma notify_stale_token :
  ¬ calls_meet (tracked (refuses "test.op110.cancel")) (λ R c w, entitled R c w.2)
      (main 7 7 7) ((mk_notifyd ∅ ∅, boot), ∅).
Proof.
  intros Hc.
  apply (calls_meet_checked _ _ (λ R c w, bool_decide (needs R c ⊆ w.2))) in Hc;
    [by vm_compute in Hc|]. intros A c w Hw. by apply bool_decide_eq_true.
Qed.
End libraries.
End NotifyHarness.
