(* ===== verification/ChurnProbe.v ===== *)
(** [findings/nx-r64z/dtrace/id025-watchpoint/op150-probe/op150-notify-churn-probe.c]:
    registers, posts, checks and cancels until the time is up. *)

From stdpp Require Import gmultiset list.
From S2P Require Import Prelude MachApi RefKernel Harness NotifyHarness.

Local Open Scope Z_scope.

Module ChurnProbe.
Import Harness.

Inductive call : Type → Type :=
  | Notify {R : Type} (c : NotifyHarness.call R) : call R
  | time : call Z
  | sleep (seconds : Z) : call Z.

Definition NOTIFY_STATUS_OK : Z := 0.

(** [getenv("SOAK_DURATION")] *)
Class Environment := dur_env : option string.
Definition duration_of `{Environment} : Z :=
  match dur_env with Some s => atoi s | None => 7200 end.

Definition heartbeat (iter fails : Z) : string :=
  "OP150_CHURN_HB iter=" +:+ fmt_lld iter +:+ " fails=" +:+ fmt_lld fails.
Definition ok (s : Z) : bool := s =? NOTIFY_STATUS_OK.

(** The loop, with the value of [time(NULL) < end] in each round; the value is [iter] and
    [fails].  The counters stay in their type for 2^31 rounds. *)
Fixpoint churn (fuel : nat) (deadline iter fails : Z) : script call (Z * Z) :=
  match fuel with
  | O => OutOfFuel
  | S fuel =>
      now ← ask time;
      if negb (now <? deadline) then mret (iter, fails) else
      let iter := iter + 1 in
      '(s, token) ← ask (Notify (NotifyHarness.notify_register_check "test.op150.churn" (-1)));
      if negb (ok s) then churn fuel deadline iter (fails + 1) else
      s ← ask (Notify (NotifyHarness.notify_post "test.op150.churn"));
      if negb (ok s) then
        _ ← ask (Notify (NotifyHarness.notify_cancel token));
        churn fuel deadline iter (fails + 1)
      else
      '(s, _) ← ask (Notify (NotifyHarness.notify_check token 0));
      if negb (ok s) then
        _ ← ask (Notify (NotifyHarness.notify_cancel token));
        churn fuel deadline iter (fails + 1)
      else
      s ← ask (Notify (NotifyHarness.notify_cancel token));
      if negb (ok s) then churn fuel deadline iter (fails + 1) else
      _ ← ask (sleep 1);
      _ ← only_if (Z.rem iter 100 =? 0) tt (say (heartbeat iter fails));
      churn fuel deadline iter fails
  end.

Definition terminal (iter fails duration : Z) : string :=
  "OP150_CHURN_TERMINAL iter=" +:+ fmt_lld iter +:+ " fails=" +:+ fmt_lld fails +:+
  " duration=" +:+ fmt_lld duration.

(** From [time_t end = time(NULL) + duration] on, where [time] has answered. *)
Definition soak `{Environment} (fuel : nat) (now : Z) : script call Z :=
  let duration := duration_of in
  let deadline := now + duration in
  _ ← say ("OP150_CHURN_START duration=" +:+ fmt_lld duration);
  '(iter, fails) ← churn fuel deadline 0 0;
  _ ← say (terminal iter fails duration);
  mret (if 0 <? fails then 1 else 0).

Definition main `{Environment} (fuel : nat) : script call Z := now ← ask time; soak fuel now.

(** ** What it reports, for the rounds it made, each with whether it succeeded *)

Definition failed (rounds : list bool) : Z := Z.of_nat (length (filter (λ b, b = false) rounds)).

Fixpoint heartbeats (iter fails : Z) (rounds : list bool) : list string :=
  match rounds with
  | [] => []
  | true :: rounds =>
      (if Z.rem (iter + 1) 100 =? 0 then [heartbeat (iter + 1) fails] else []) ++
      heartbeats (iter + 1) fails rounds
  | false :: rounds => heartbeats (iter + 1) (fails + 1) rounds
  end.

Definition report (duration : Z) (rounds : list bool) : list string :=
  ["OP150_CHURN_START duration=" +:+ fmt_lld duration] ++ heartbeats 0 0 rounds ++
  [terminal (Z.of_nat (length rounds)) (failed rounds) duration].

(** *** The rounds of a run, in its calls *)

Abbreviation called := (called call).
Definition registered (s token : Z) : called :=
  Called (Notify (NotifyHarness.notify_register_check "test.op150.churn" (-1))) (s, token).
Definition posted (s : Z) : called := Called (Notify (NotifyHarness.notify_post "test.op150.churn")) s.
Definition checked (token s check : Z) : called :=
  Called (Notify (NotifyHarness.notify_check token 0)) (s, check).
Definition cancelled (token s : Z) : called := Called (Notify (NotifyHarness.notify_cancel token)) s.

(** The calls of a round, and whether it succeeded: it is over with the first call that fails,
    and the token is given back if there is one. *)
Inductive attempt : list called → bool → Prop :=
  | not_registered s token : s ≠ NOTIFY_STATUS_OK → attempt [registered s token] false
  | not_posted token s k : s ≠ NOTIFY_STATUS_OK →
      attempt [registered NOTIFY_STATUS_OK token; posted s; cancelled token k] false
  | not_checked token s check k : s ≠ NOTIFY_STATUS_OK →
      attempt [registered NOTIFY_STATUS_OK token; posted NOTIFY_STATUS_OK; checked token s check;
               cancelled token k] false
  | not_cancelled token check s : s ≠ NOTIFY_STATUS_OK →
      attempt [registered NOTIFY_STATUS_OK token; posted NOTIFY_STATUS_OK;
               checked token NOTIFY_STATUS_OK check; cancelled token s] false
  | completed token check slept :
      attempt [registered NOTIFY_STATUS_OK token; posted NOTIFY_STATUS_OK;
               checked token NOTIFY_STATUS_OK check; cancelled token NOTIFY_STATUS_OK;
               Called (sleep 1) slept] true.

Record round := mk_round { started_at : Z; made : list called; succeeded : bool }.
Definition round_calls (r : round) : list called := Called time (started_at r) :: made r.
Definition well_made (deadline : Z) (r : round) : Prop :=
  started_at r < deadline ∧ attempt (made r) (succeeded r).

(** The clock is read until it shows [deadline], and every reading before starts a round. *)
Definition rounds_until (deadline : Z) (rounds : list round) (t : list called) : Prop :=
  Forall (well_made deadline) rounds ∧
  ∃ last, deadline ≤ last ∧ t = flat_map round_calls rounds ++ [Called time last].

(** The tokens are handles. *)
#[local] Existing Instance NotifyHarness.tokens.
#[export] Instance tokens : Handles call := {|
  needs R c := match c with Notify c => needs _ c | _ => ∅ end;
  spends R c := match c with Notify c => spends _ c | _ => ∅ end;
  makes R c := match c in call R return R → gmultiset Z with
    | Notify c => makes _ c
    | _ => λ _, ∅
    end |}.

(** The clock will show [deadline]: it is read only so many times more before. *)
Definition reads_before (deadline : Z) R (c : call R) : R → Prop :=
  match c in call R return R → Prop with time => λ now, now < deadline | _ => λ _, False end.
Abbreviation reaches deadline := (runs_down (reads_before deadline)).

Section facts.
Context `{Environment}.
Abbreviation cwp deadline := (wp r_pre (r_post (reads_before deadline))).

Section rules.
Context {A : Type} (deadline : Z) (Q : A → list string → nat * gmultiset Z → Prop).
Context (out : list string) (n : nat).

Ltac call_tac :=
  intros Hk; apply r_ask; [simpl; multiset_solver|]; intros r n' Hn Hu; specialize (Hk r n' Hn);
  match goal with |- wp _ _ _ _ _ (_, ?h1) =>
    match type of Hk with context [(n', ?h2)] =>
      replace h1 with h2 by (simpl; multiset_solver)
    end
  end; auto.

Lemma cwp_register name token (f : Z * Z → script call A) :
  (∀ r n', (n' ≤ n)%nat → cwp deadline (f r) Q out (n', if ok r.1 then {[+ r.2 +]} else ∅)) →
  cwp deadline (ask (Notify (NotifyHarness.notify_register_check name token)) ≫= f) Q out (n, ∅).
Proof. call_tac. Qed.

Lemma cwp_post name (f : Z → script call A) h :
  (∀ r n', (n' ≤ n)%nat → cwp deadline (f r) Q out (n', h)) →
  cwp deadline (ask (Notify (NotifyHarness.notify_post name)) ≫= f) Q out (n, h).
Proof. call_tac. Qed.

Lemma cwp_check t check (f : Z * Z → script call A) :
  (∀ r n', (n' ≤ n)%nat → cwp deadline (f r) Q out (n', {[+ t +]})) →
  cwp deadline (ask (Notify (NotifyHarness.notify_check t check)) ≫= f) Q out (n, {[+ t +]}).
Proof. call_tac. Qed.

Lemma cwp_cancel t (f : Z → script call A) :
  (∀ r n', (n' ≤ n)%nat → cwp deadline (f r) Q out (n', ∅)) →
  cwp deadline (ask (Notify (NotifyHarness.notify_cancel t)) ≫= f) Q out (n, {[+ t +]}).
Proof. call_tac. Qed.

Lemma cwp_time (f : Z → script call A) :
  (∀ now n', (n' ≤ n)%nat → (now < deadline → (n' < n)%nat) → cwp deadline (f now) Q out (n', ∅)) →
  cwp deadline (ask time ≫= f) Q out (n, ∅).
Proof. call_tac. Qed.

Lemma cwp_sleep seconds (f : Z → script call A) :
  (∀ r n', (n' ≤ n)%nat → cwp deadline (f r) Q out (n', ∅)) →
  cwp deadline (ask (sleep seconds) ≫= f) Q out (n, ∅).
Proof. call_tac. Qed.
End rules.

Lemma failed_false rounds : failed (false :: rounds) = 1 + failed rounds.
Proof. unfold failed. simpl. lia. Qed.
Lemma failed_true rounds : failed (true :: rounds) = failed rounds.
Proof. done. Qed.

Definition churned (deadline iter fails : Z) (x : Z * Z) (out : list string) (t : list called) : Prop :=
  ∃ rounds, rounds_until deadline rounds t ∧ out = heartbeats iter fails (map succeeded rounds) ∧
    x = (iter + Z.of_nat (length rounds), fails + failed (map succeeded rounds)).

Lemma churned_round deadline iter fails now l (b : bool) x out t :
  now < deadline → attempt l b →
  churned deadline (iter + 1) (fails + if b then 0 else 1) x out t →
  churned deadline iter fails x
    ((if b && (Z.rem (iter + 1) 100 =? 0) then [heartbeat (iter + 1) fails] else []) ++ out)
    (Called time now :: l ++ t).
Proof.
  intros Hn Ha (rounds & [Hw (last & Hl & ->)] & -> & ->). exists (mk_round now l b :: rounds).
  split; [split; [by constructor|]|].
  - exists last. split; [done|]. cbn. by rewrite <- app_assoc.
  - cbn [length map]. destruct b; rewrite ?failed_false, ?failed_true; cbn [heartbeats andb];
      rewrite ?Z.add_0_r; (split; [done|]); f_equal; lia.
Qed.

Lemma does_churn fuel deadline iter fails :
  does (churn fuel deadline iter fails) (churned deadline iter fails).
Proof.
  revert iter fails. induction fuel as [|fuel IH]; intros iter fails; [done|].
  cbn [churn]. apply does_ask. intros now.
  destruct (Z.ltb_spec now deadline) as [Hlt|Hge]; cbn [negb].
  2: { exists []. split; [split; [done|by exists now]|]. split; [done|].
       unfold failed. simpl. by rewrite !Z.add_0_r. }
  assert (∀ l (b : bool), attempt l b →
    does (churn fuel deadline (iter + 1) (fails + if b then 0 else 1)) (λ x out t,
      churned deadline iter fails x
        ((if b && (Z.rem (iter + 1) 100 =? 0) then [heartbeat (iter + 1) fails] else []) ++ out)
        (Called time now :: l ++ t))) as Hround.
  { intros l b Ha. eapply script_does_mono; [apply IH|]. intros. by apply churned_round. }
  apply does_ask. intros [s token]. unfold ok.
  destruct (Z.eqb_spec s NOTIFY_STATUS_OK) as [->|Hs]; cbn [negb];
    [|exact (Hround _ false (not_registered s token Hs))].
  apply does_ask. intros s. destruct (Z.eqb_spec s NOTIFY_STATUS_OK) as [->|Hs]; cbn [negb].
  2: { apply does_ask. intros k. exact (Hround _ false (not_posted token s k Hs)). }
  apply does_ask. intros [s check]. destruct (Z.eqb_spec s NOTIFY_STATUS_OK) as [->|Hs]; cbn [negb].
  2: { apply does_ask. intros k. exact (Hround _ false (not_checked token s check k Hs)). }
  apply does_ask. intros s. destruct (Z.eqb_spec s NOTIFY_STATUS_OK) as [->|Hs]; cbn [negb];
    [|exact (Hround _ false (not_cancelled token check s Hs))].
  apply does_ask. intros slept. specialize (Hround _ true (completed token check slept)).
  rewrite Z.add_0_r in Hround. by destruct (Z.rem (iter + 1) 100 =? 0).
Qed.

(** What is printed, returned and called after the first reading. *)
Lemma does_soak fuel start :
  does (soak fuel start) (λ a out t, ∃ rounds, rounds_until (start + duration_of) rounds t ∧
    a = (if 0 <? failed (map succeeded rounds) then 1 else 0) ∧
    out = report duration_of (map succeeded rounds)).
Proof.
  unfold soak. cbn zeta.
  apply script_does_bind. cbn [does say app]. apply script_does_bind. eapply script_does_mono; [apply does_churn|].
  intros x out t (rounds & Hr & -> & ->). cbn [does say app script_bind mbind mret script_ret].
  exists rounds. rewrite app_nil_r. split; [exact Hr|].
  rewrite !Z.add_0_l. split; [done|]. unfold report. by rewrite length_map.
Qed.

(** *** It ends, with every token given back *)

Lemma cwp_churn fuel deadline iter fails out n :
  (n < fuel)%nat → cwp deadline (churn fuel deadline iter fails) (λ _ _ s, s.2 = ∅) out (n, ∅).
Proof.
  revert iter fails out n. induction fuel as [|fuel IH]; [lia|]. intros iter fails out n Hn.
  cbn [churn]. apply cwp_time. intros now n1 H1 Hnow.
  destruct (Z.ltb_spec now deadline) as [Hlt|Hge]; cbn [negb]; [|done].
  specialize (Hnow Hlt). apply cwp_register. intros [s token] n2 H2. cbn [fst snd].
  destruct (ok s); cbn [negb]; [|apply IH; lia].
  apply cwp_post. clear s. intros s n3 H3.
  destruct (ok s); cbn [negb]; [|apply cwp_cancel; intros _ n4 H4; apply IH; lia].
  apply cwp_check. clear s. intros [s c] n4 H4.
  destruct (ok s); cbn [negb]; [|apply cwp_cancel; intros _ n5 H5; apply IH; lia].
  apply cwp_cancel. clear s. intros s n5 H5.
  destruct (ok s); cbn [negb]; [|apply IH; lia].
  apply cwp_sleep. intros _ n6 H6.
  destruct (Z.rem (iter + 1) 100 =? 0); apply IH; lia.
Qed.

Lemma cwp_soak fuel now n :
  (n < fuel)%nat →
  cwp (now + duration_of) (soak fuel now) (λ _ _ s, s.2 = ∅) [] (n, ∅).
Proof.
  intros Hn. unfold soak. cbn zeta. apply script_wp_bind. simpl. apply script_wp_bind.
  eapply script_wp_mono; [by apply (cwp_churn _ _ 0 0)|].
  by intros [iter fails] out s Hs.
Qed.

(** C26: if the clock will show the end of the duration, the probe returns, with enough
    fuel for the readings until then, whatever the library answers.  Its calls are a reading
    of the clock, rounds, each started by a reading before the end of the duration, and a
    reading that shows the end.  A round registers, posts, checks, cancels and sleeps, or
    is over with the first of these that fails, and then it counts as failed; the probe
    prints a heartbeat after every hundredth round if that succeeded, and at the end how
    many rounds there were and how many of them failed, on which the status depends.  It
    passes only tokens it registered and cancels each of them once. *)
Theorem churn_ends {W} (answer : ∀ R, call R → W → R * W) (readings : W → nat) w fuel :
  let start := (answer Z time w).1 in
  let deadline := start + duration_of in
  reaches deadline answer readings → (readings w < fuel)%nat →
  calls_meet (tracked answer) (λ R c w, entitled R c w.2) (main fuel) (w, ∅) ∧
  ∃ rounds t w', run (tracked answer) (main fuel) (w, ∅) =
      (Some (if 0 <? failed (map succeeded rounds) then 1 else 0),
       report duration_of (map succeeded rounds), (w', ∅)) ∧
    calls_of (tracked answer) (main fuel) (w, ∅) = Called time start :: t ∧
    rounds_until deadline rounds t.
Proof.
  intros start deadline Hd Hf. subst deadline start.
  pose proof (ranked_keeps _ answer readings Hd) as Hk. destruct (Hd _ time w) as [Hle _].
  unfold main. cbn [mbind script_bind ask calls_meet calls_of run tracked snd].
  destruct (answer Z time w) as [now w1]. cbn [fst snd] in *.
  assert ((∅ ∖ spends Z time) ⊎ makes Z time now = ∅) as -> by (simpl; multiset_solver).
  destruct (wp_run r_pre (r_post (reads_before (now + duration_of))) (tracked answer) _ (soak fuel now)
    (λ _ _ s, s.2 = ∅) [] (w1, ∅)) as [Hc (a & l & [w' h] & E & Hh)].
  { apply cwp_soak. cbn [fst snd]. lia. }
  simpl in Hh. subst h. split; [split; [simpl; multiset_solver|exact Hc]|].
  destruct (script_does_run _ _ _ _ _ _ _ (does_soak fuel now) E) as (rounds & Hr & -> & ->).
  exists rounds, (calls_of (tracked answer) (soak fuel now) (w1, ∅)), w'.
  split; [exact E|]. split; [done|exact Hr].
Qed.
End facts.

(** ** Five seconds with the reference library, and a clock that goes on with every
    reading *)
Section witness.
Import OnMacos.

#[local] Instance five_seconds : Environment := Some "5".

Definition ref_answer R (c : call R) (w : Z * (NotifyHarness.notifyd * machine)) :
    R * (Z * (NotifyHarness.notifyd * machine)) :=
  match c in call R return R * (Z * (NotifyHarness.notifyd * machine)) with
  | Notify c => let '(r, s) := NotifyHarness.ref_answer _ c w.2 in (r, (w.1, s))
  | time => (w.1, (w.1 + 1, w.2))
  | sleep n => (0, (w.1 + Z.max 0 n, w.2))
  end.
Definition ref_start : Z * (NotifyHarness.notifyd * machine) :=
  (100, (NotifyHarness.mk_notifyd ∅ ∅, boot)).
Definition ref_readings (w : Z * (NotifyHarness.notifyd * machine)) : nat := Z.to_nat (105 - w.1).

Lemma ref_reaches : reaches 105 ref_answer ref_readings.
Proof.
  intros R c [t s]. unfold ref_readings, ref_answer.
  destruct c; simpl; [|lia..]. by destruct (NotifyHarness.ref_answer _ c s).
Qed.

Lemma churn_ends_witness :
  reaches 105 ref_answer ref_readings ∧
  ∃ rounds t w', run (tracked ref_answer) (main 10) (ref_start, ∅) =
      (Some (if 0 <? failed (map succeeded rounds) then 1 else 0),
       report 5 (map succeeded rounds), (w', ∅)) ∧
    rounds_until 105 rounds t.
Proof.
  split; [exact ref_reaches|].
  assert ((ref_readings ref_start < 10)%nat) as Hf by (vm_compute; lia).
  assert (duration_of = 5) as E by reflexivity.
  assert (reaches ((ref_answer Z time ref_start).1 + duration_of) ref_answer ref_readings) as Hd
    by (rewrite E; exact ref_reaches).
  destruct (proj2 (churn_ends ref_answer ref_readings ref_start 10 Hd Hf))
    as (rounds & t & w' & Hr & _ & Ht). rewrite E in Hr, Ht.
  by exists rounds, t, w'.
Defined.
End witness.
End ChurnProbe.
