(* ===== verification/AslHarness.v ===== *)
(** [findings/nx-r64z/dtrace/asl-conformance/asl-harness.c]: tests of libasl. *)

From stdpp Require Import gmultiset list.
From S2P Require Import Prelude Harness.

Local Open Scope Z_scope.

Module AslHarness.
Import Harness.

(** The functions of <asl.h>; the pointers are numbers, [NULL] is 0. *)
Inductive call : Type → Type :=
  | asl_open (ident facility : string) (opts : Z) : call Z
  | asl_new (type : Z) : call Z
  | asl_set (msg : Z) (key value : string) : call Z
  | asl_log (client msg level : Z) (text : string) : call Z
  | asl_get (msg : Z) (key : string) : call (option string)
  | asl_set_filter (client mask : Z) : call Z
  | usleep (us : Z) : call Z
  | asl_set_query (msg : Z) (key value : string) (op : Z) : call Z
  | asl_search (client query : Z) : call Z
  | asl_next (response : Z) : call Z
  | asl_free (p : Z) : call unit
  | asl_close (client : Z) : call unit.

Class AslH := {
  ASL_OPT_NO_DELAY : Z; ASL_TYPE_MSG : Z; ASL_TYPE_QUERY : Z; ASL_LEVEL_NOTICE : Z;
  ASL_LEVEL_ERR : Z; ASL_QUERY_OP_EQUAL : Z; ASL_FILTER_MASK : Z → Z;
}.

Abbreviation harness := (harness call).
Definition asl {R} (c : call R) : harness R := lift (ask c).
Definition guarded {A} (c : bool) (init : A) (p : harness A) : harness A := if c then p else mret init.

Section harness.
Context `{AslH}.

(** [while ((result = asl_next(r)) != NULL) count++;] *)
Fixpoint count_results (fuel : nat) (r count : Z) : script call Z :=
  match fuel with
  | O => OutOfFuel
  | S fuel =>
      result ← ask (asl_next r);
      if non_null result then count_results fuel r (count + 1) else mret count
  end.

Definition search_test (fuel : nat) (c query : Z) : harness bool :=
  guarded (non_null query) false (
    _ ← asl (asl_set_query query "com.test.Sender" "asl-harness" ASL_QUERY_OP_EQUAL);
    r ← asl (asl_search c query);
    guarded (non_null r) false (
      count ← lift (count_results fuel r 0);
      _ ← asl (asl_free r);
      mret (0 <? count))).

Definition client_tests (fuel : nat) (c : Z) : harness unit :=
  m ← asl (asl_new ASL_TYPE_MSG);
  _ ← R "asl_new" (non_null m);
  set_ok ← guarded (non_null m) false (
    k1 ← asl (asl_set m "com.test.Message" "op116 round-trip test");
    k2 ← asl (asl_set m "com.test.Sender" "asl-harness");
    mret ((k1 =? 0) && (k2 =? 0)));
  _ ← R "asl_set" set_ok;
  log_rc ← guarded (non_null m) (-1) (asl (asl_log c m ASL_LEVEL_NOTICE "op116: logged via asl_log"));
  _ ← R "asl_log" (log_rc =? 0);
  val ← guarded (non_null m) None (asl (asl_get m "com.test.Message"));
  _ ← R "asl_get_roundtrip"
        (match val with Some v => String.eqb v "op116 round-trip test" | None => false end);
  old_filter ← asl (asl_set_filter c (ASL_FILTER_MASK ASL_LEVEL_ERR));
  _ ← R "asl_set_filter" (0 <=? old_filter);
  filtered_log ← guarded (non_null m) (-1)
    (asl (asl_log c m ASL_LEVEL_NOTICE "op116: this should be filtered"));
  _ ← R "asl_log_filtered" (filtered_log =? 0);
  _ ← asl (usleep 200000);
  query ← asl (asl_new ASL_TYPE_QUERY);
  search_ok ← search_test fuel c query;
  _ ← R "asl_search_roundtrip" search_ok;
  _ ← asl (asl_close c);
  _ ← R "asl_close" true;
  _ ← guarded (non_null m) tt (asl (asl_free m));
  _ ← guarded (non_null query) tt (asl (asl_free query));
  mret tt.

Definition tests (fuel : nat) : harness unit :=
  c ← asl (asl_open "op116-test" "com.test.op116" ASL_OPT_NO_DELAY);
  _ ← R "asl_open" (non_null c);
  guarded (non_null c) tt (client_tests fuel c).

(** The early return without a client prints the same two lines. *)
Definition main (fuel : nat) : script call Z := matrix "op116" (tests fuel).
End harness.

(** Clients, messages and responses are handles, which [NULL] is not; what [asl_next]
    answers belongs to the response. *)
#[export] Instance pointers : Handles call := {|
  needs R c := match c with
    | asl_set m _ _ | asl_get m _ | asl_set_query m _ _ _ => {[+ m +]}
    | asl_log c m _ _ => {[+ c +]} ⊎ {[+ m +]}
    | asl_set_filter c _ | asl_close c => {[+ c +]}
    | asl_search c q => {[+ c +]} ⊎ {[+ q +]}
    | asl_next r => {[+ r +]}
    | asl_free p => {[+ p +]}
    | _ => ∅
    end;
  spends R c := match c with asl_free p => {[+ p +]} | asl_close c => {[+ c +]} | _ => ∅ end;
  makes R c := match c in call R return R → gmultiset Z with
    | asl_open _ _ _ | asl_new _ | asl_search _ _ => object_at
    | _ => λ _, ∅
    end |}.

(** A response ends. *)
Definition takes_result R (c : call R) : R → Prop :=
  match c in call R return R → Prop with asl_next _ => λ r, r ≠ 0 | _ => λ _, False end.

Definition test_names (client : bool) : list string :=
  "asl_open" :: if client then ["asl_new"; "asl_set"; "asl_log"; "asl_get_roundtrip"; "asl_set_filter";
    "asl_log_filtered"; "asl_search_roundtrip"; "asl_close"] else [].

Section facts.
Context `{AslH}.

Abbreviation rwp := (wp r_pre (r_post takes_result)).
Abbreviation hrwp := (hwp r_pre (r_post takes_result)).

Lemma rwp_count fuel r count (Q : Z → list string → nat * gmultiset Z → Prop) out n h :
  (n < fuel)%nat → {[+ r +]} ⊆ h → (∀ k n', (n' ≤ n)%nat → Q k out (n', h)) →
  rwp (count_results fuel r count) Q out (n, h).
Proof.
  revert count n. induction fuel as [|fuel IH]; [lia|]. intros count n Hn Hr HQ. cbn [count_results].
  apply r_ask; [exact Hr|]. intros p n' Hle Hlt. cbn [spends makes pointers]. rewrite all_kept.
  unfold non_null. destruct (Z.eqb_spec p 0) as [E|E]; cbn [negb]; [by apply HQ|].
  specialize (Hlt E). apply IH; [lia|done|]. intros k n2 H2. apply HQ. lia.
Qed.

Lemma hrwp_count fuel r (Q : Z → list (string * bool) → nat * gmultiset Z → Prop) tests n h :
  (n < fuel)%nat → {[+ r +]} ⊆ h → (∀ k n', (n' ≤ n)%nat → Q k tests (n', h)) →
  hrwp (lift (count_results fuel r 0)) Q tests (n, h).
Proof. intros Hn Hr HQ. apply hwp_lift, rwp_count; auto. Qed.

Ltac held_tac := cbn [needs spends makes pointers]; multiset_solver.
Ltac asl_step := lazymatch goal with
  | |- hwp _ _ (_ ≫= _) _ _ _ => apply hwp_bind
  | |- hwp _ _ (mret _) _ _ _ => apply hwp_ret
  | |- hwp _ _ (R _ _) _ _ _ => apply hwp_R
  | |- hwp _ _ (lift (count_results _ _ _)) _ _ _ => apply hrwp_count; [lia|held_tac|intros ? ? ?]
  | |- hwp _ _ (asl _) _ _ _ => apply hr_ask; [held_tac|intros ? ? ?];
      cbn [needs spends makes pointers]; rewrite ?all_kept, ?one_more, ?one_less
  | |- hwp _ _ (guarded (non_null ?p) _ _) _ _ _ =>
      first [match goal with E : non_null p = _ |- _ => rewrite E end
            |destruct (non_null p) eqn:?; rewrite ?(object_null p), ?(object_non_null p) by done];
      cbn [guarded]
  end.

Lemma hrwp_tests fuel n :
  (n < fuel)%nat →
  hrwp (tests fuel) (λ _ t s, s.2 = ∅ ∧ ∃ client, map fst t = test_names client) [] (n, ∅).
Proof.
  intros Hn. unfold tests, client_tests, search_test. repeat asl_step.
  all: split; [cbn [snd]; multiset_solver|].
  all: first [by exists true|by exists false].
Qed.

(** Whatever libasl answers, as long as its responses end. *)
Lemma asl_harness_report {W} (answer : ∀ R, call R → W → R * W) left w fuel :
  runs_down takes_result answer left → (left w < fuel)%nat →
  calls_meet (tracked answer) (λ R c w, entitled R c w.2) (main fuel) (w, ∅) ∧
  ∃ tests client w', run (tracked answer) (main fuel) (w, ∅) = (Some 0, matrix_lines "op116" tests, (w', ∅)) ∧
    map fst tests = test_names client.
Proof.
  intros Hd Hf. pose proof (ranked_keeps _ _ _ Hd) as Hk.
  destruct (wp_run r_pre (r_post takes_result) (tracked answer) _ (main fuel) (λ a out s, a = 0 ∧ s.2 = ∅ ∧
      ∃ tests, out = matrix_lines "op116" tests ∧ ∃ client, map fst tests = test_names client)
      [] (w, ∅)) as [Hc (a & l & [w' h] & E & -> & Hh & tests & El & client & Ht)].
  { apply wp_matrix. eapply script_wp_mono; [exact (hrwp_tests fuel (left w) Hf)|].
    intros x out s' (t & H1 & H2 & Hs & Ht). exists t. eauto 10. }
  simpl in El, Hh. subst l h. split; [exact Hc|]. by exists tests, client, w'.
Qed.
End facts.
End AslHarness.
