(* ===== verification/XpcHarness.v ===== *)
(** [findings/nx-r64z/dtrace/xpc-conformance/xpc-harness.c]: tests of libxpc without a
    peer. *)

From stdpp Require Import gmultiset list.
From S2P Require Import Prelude Harness.

Local Open Scope Z_scope.

Module XpcHarness.
Import Harness.

(** The functions of <xpc/xpc.h> that the harness calls; objects are pointers. *)
Inductive call : Type → Type :=
  | xpc_dictionary_create : call Z
  | xpc_int64_create (value : Z) : call Z
  | xpc_int64_get_value (o : Z) : call Z
  | xpc_dictionary_set_value (dict : Z) (key : string) (value : Z) : call unit
  | xpc_dictionary_set_int64 (dict : Z) (key : string) (value : Z) : call unit
  | xpc_dictionary_set_string (dict : Z) (key value : string) : call unit
  | xpc_dictionary_get_string (dict : Z) (key : string) : call (option string)
  | xpc_dictionary_get_int64 (dict : Z) (key : string) : call Z
  | xpc_dictionary_get_count (dict : Z) : call Z
  | xpc_string_create (s : string) : call Z
  | xpc_data_create (bytes : string) (length : Z) : call Z
  | xpc_data_get_length (o : Z) : call Z
  | xpc_data_get_bytes_ptr (o : Z) : call string
  | xpc_hash (o : Z) : call Z
  | xpc_connection_create (name : string) : call Z
  | xpc_connection_set_event_handler (conn : Z) : call unit
  | xpc_connection_resume (conn : Z) : call unit
  | xpc_connection_cancel (conn : Z) : call unit
  | xpc_release (o : Z) : call unit.

Abbreviation harness := (harness call).
Definition xpc {R} (c : call R) : harness R := lift (ask c).
Definition guarded {A} (c : bool) (init : A) (p : harness A) : harness A := if c then p else mret init.

Definition SEQ : Z := 0x7F0000000001.

(** The dictionary with its three members; the value is the object of the first. *)
Definition dictionary_tests (dict : Z) : harness Z :=
  i64 ← xpc (xpc_int64_create SEQ);
  _ ← R "xpc_int64_create" (non_null i64);
  _ ← guarded (non_null i64) tt (
    got ← xpc (xpc_int64_get_value i64);
    _ ← R "xpc_int64_get_value" (got =? SEQ);
    xpc (xpc_dictionary_set_value dict "seq" i64));
  _ ← xpc (xpc_dictionary_set_int64 dict "count" 42);
  _ ← xpc (xpc_dictionary_set_string dict "service" "com.test.op121");
  svc ← xpc (xpc_dictionary_get_string dict "service");
  _ ← R "xpc_dictionary_get_string"
        (match svc with Some s => String.eqb s "com.test.op121" | None => false end);
  cnt ← xpc (xpc_dictionary_get_int64 dict "count");
  _ ← R "xpc_dictionary_get_int64" (cnt =? 42);
  dcount ← xpc (xpc_dictionary_get_count dict);
  _ ← R "xpc_dictionary_get_count" (dcount =? 3);
  mret i64.

(** The string and the data. *)
Definition object_tests : harness (Z * Z) :=
  str ← xpc (xpc_string_create "hello-xpc");
  _ ← R "xpc_string_create" (non_null str);
  data ← xpc (xpc_data_create "bytes" 5);
  _ ← R "xpc_data_create" (non_null data);
  _ ← guarded (non_null data) tt (
    _ ← R_twice "xpc_data_get_length" (xpc_data_get_length data) (λ len, len =? 5);
    R_twice "xpc_data_get_bytes_ptr" (xpc_data_get_bytes_ptr data)
      (λ bytes, String.eqb (String.substring 0 5 bytes) "bytes"));
  mret (str, data).

(** A second dictionary with the same members. *)
Definition hash_test (dict : Z) : harness Z :=
  dict2 ← xpc xpc_dictionary_create;
  _ ← xpc (xpc_dictionary_set_int64 dict2 "count" 42);
  _ ← xpc (xpc_dictionary_set_string dict2 "service" "com.test.op121");
  _ ← xpc (xpc_dictionary_set_int64 dict2 "seq" SEQ);
  h1 ← xpc (xpc_hash dict);
  h2 ← xpc (xpc_hash dict2);
  _ ← R "xpc_hash_consistent" (h1 =? h2);
  mret dict2.

Definition connection_tests : harness Z :=
  conn ← xpc (xpc_connection_create "com.test.op121.nonexistent");
  _ ← R "xpc_connection_create" (non_null conn);
  _ ← (if non_null conn then
    _ ← xpc (xpc_connection_set_event_handler conn);
    _ ← xpc (xpc_connection_resume conn);
    _ ← xpc (xpc_connection_cancel conn);
    R "xpc_connection_lifecycle" true
  else R "xpc_connection_lifecycle" false);
  mret conn.

Definition tests : harness unit :=
  dict ← xpc xpc_dictionary_create;
  _ ← R "xpc_dictionary_create" (non_null dict);
  i64 ← dictionary_tests dict;
  '(str, data) ← object_tests;
  dict2 ← hash_test dict;
  conn ← connection_tests;
  _ ← xpc (xpc_release dict);
  _ ← xpc (xpc_release dict2);
  _ ← guarded (non_null i64) tt (xpc (xpc_release i64));
  _ ← guarded (non_null str) tt (xpc (xpc_release str));
  _ ← guarded (non_null data) tt (xpc (xpc_release data));
  _ ← guarded (non_null conn) tt (xpc (xpc_release conn));
  R "xpc_release" true.

Definition main : script call Z := matrix "op121" tests.

(** Objects are handles: what is created is released once and not used afterwards. *)
#[export] Instance objects : Handles call := {|
  needs R c := match c with
    | xpc_int64_get_value o | xpc_data_get_length o | xpc_data_get_bytes_ptr o | xpc_hash o
    | xpc_connection_set_event_handler o | xpc_connection_resume o | xpc_connection_cancel o
    | xpc_dictionary_set_int64 o _ _ | xpc_dictionary_set_string o _ _
    | xpc_dictionary_get_string o _ | xpc_dictionary_get_int64 o _ | xpc_dictionary_get_count o
    | xpc_release o => {[+ o +]}
    | xpc_dictionary_set_value o _ v => {[+ o +]} ∪ {[+ v +]}
    | _ => ∅
    end;
  spends R c := match c with xpc_release o => {[+ o +]} | _ => ∅ end;
  makes R c := match c in call R return R → gmultiset Z with
    | xpc_dictionary_create | xpc_int64_create _ | xpc_string_create _ | xpc_data_create _ _
    | xpc_connection_create _ => object_at
    | _ => λ _, ∅
    end |}.

Definition test_names (i64 data : bool) : list string :=
  ["xpc_dictionary_create"; "xpc_int64_create"] ++ (if i64 then ["xpc_int64_get_value"] else []) ++
  ["xpc_dictionary_get_string"; "xpc_dictionary_get_int64"; "xpc_dictionary_get_count";
   "xpc_string_create"; "xpc_data_create"] ++
  (if data then ["xpc_data_get_length"; "xpc_data_get_bytes_ptr"] else []) ++
  ["xpc_hash_consistent"; "xpc_connection_create"; "xpc_connection_lifecycle"; "xpc_release"].

(** The library has memory for a dictionary, and asked twice it gives the same length and
    bytes of data. *)
Record reliable {W} (answer : ∀ R, call R → W → R * W) : Prop := {
  gives_dictionaries w : non_null (answer Z xpc_dictionary_create w).1 = true;
  same_length o w : let '(r, w') := answer Z (xpc_data_get_length o) w in
    (answer Z (xpc_data_get_length o) w').1 = r;
  same_bytes o w : let '(r, w') := answer string (xpc_data_get_bytes_ptr o) w in
    (answer string (xpc_data_get_bytes_ptr o) w').1 = r;
}.

Section facts.
(** What is held, and what data would be said to be. *)
Record known := mk_known {
  held : gmultiset Z;
  length_of : Z → Z;
  bytes_of : Z → string;
}.
Definition pre R (c : call R) (s : known) : Prop := entitled R c (held s).
Definition post R (c : call R) (s : known) (r : R) (s' : known) : Prop :=
  tracks R c (held s) r (held s') ∧
  match c in call R return R → Prop with
  | xpc_dictionary_create => λ r, non_null r = true
  | xpc_data_get_length o => λ r, r = length_of s o ∧ length_of s' o = r
  | xpc_data_get_bytes_ptr o => λ r, r = bytes_of s o ∧ bytes_of s' o = r
  | _ => λ _, True
  end r.

Definition known_of {W} (answer : ∀ R, call R → W → R * W) (w : W * gmultiset Z) : known :=
  mk_known w.2 (λ o, (answer Z (xpc_data_get_length o) w.1).1)
    (λ o, (answer string (xpc_data_get_bytes_ptr o) w.1).1).

Lemma keeps_post {W} (answer : ∀ R, call R → W → R * W) :
  reliable answer → Keeps pre post (tracked answer) (known_of answer).
Proof.
  intros Hl R c [w h] _. unfold post, tracks, known_of. simpl.
  destruct (answer R c w) as [r w'] eqn:E. split; [done|]. destruct c; try done; simpl.
  - pose proof (gives_dictionaries _ Hl w) as Hd. by rewrite E in Hd.
  - pose proof (same_length _ Hl o w) as Hd. by rewrite E in Hd |- *.
  - pose proof (same_bytes _ Hl o w) as Hd. by rewrite E in Hd |- *.
Qed.

(** What is proved for whatever data is. *)
Abbreviation xwp p Q tests h := (∀ l b, hwp pre post p Q tests (mk_known h l b)).

Lemma hx_ask {R} (c : call R) (Q : R → list (string * bool) → known → Prop) tests h :
  needs R c ⊆ h →
  (∀ r l b, Q r tests (mk_known ((h ∖ spends R c) ⊎ makes R c r) l b)) →
  xwp (xpc c) Q tests h.
Proof.
  intros Hc HQ l b. apply hwp_ask; [exact Hc|]. intros r [h' l' b'] [E _].
  unfold tracks in E. simpl in E. subst h'. apply HQ.
Qed.

Lemma hx_create (Q : Z → list (string * bool) → known → Prop) tests h :
  (∀ r l b, Q r tests (mk_known (h ⊎ {[+ r +]}) l b)) → xwp (xpc xpc_dictionary_create) Q tests h.
Proof.
  intros HQ l b. apply hwp_ask; [unfold pre, entitled; simpl; multiset_solver|].
  intros r [h' l' b'] [E Hr]. unfold tracks in E. simpl in E. subst h'.
  rewrite (one_more h), object_non_null by done. apply HQ.
Qed.

Lemma hx_length name o val (Q : unit → list (string * bool) → known → Prop) tests h :
  {[+ o +]} ⊆ h → (∀ v l b, Q tt (tests ++ [(name, v)]) (mk_known h l b)) →
  xwp (R_twice name (xpc_data_get_length o) val) Q tests h.
Proof.
  intros Ho HQ l b. apply hwp_R_twice; [exact Ho|]. intros r [h1 l1 b1] [E1 [-> H1]].
  unfold tracks in E1. simpl in *. rewrite all_kept in E1. subst h1. split; [exact Ho|].
  intros r' [h2 l2 b2] [E2 [-> H2]]. unfold tracks in E2. simpl in *. rewrite all_kept in E2. subst h2.
  split; [by rewrite H1|apply HQ].
Qed.

Lemma hx_bytes name o val (Q : unit → list (string * bool) → known → Prop) tests h :
  {[+ o +]} ⊆ h → (∀ v l b, Q tt (tests ++ [(name, v)]) (mk_known h l b)) →
  xwp (R_twice name (xpc_data_get_bytes_ptr o) val) Q tests h.
Proof.
  intros Ho HQ l b. apply hwp_R_twice; [exact Ho|]. intros r [h1 l1 b1] [E1 [-> H1]].
  unfold tracks in E1. simpl in *. rewrite all_kept in E1. subst h1. split; [exact Ho|].
  intros r' [h2 l2 b2] [E2 [-> H2]]. unfold tracks in E2. simpl in *. rewrite all_kept in E2. subst h2.
  split; [by rewrite H1|apply HQ].
Qed.

Ltac held_tac := cbn [needs spends makes objects]; multiset_solver.
Ltac on_null p := first [match goal with E : non_null p = _ |- _ => rewrite E end
  |destruct (non_null p) eqn:?; rewrite ?(object_null p), ?(object_non_null p) by done].
Ltac xpc_step := lazymatch goal with
  | |- hwp _ _ (_ ≫= _) _ _ _ => apply hwp_bind
  | |- hwp _ _ (mret _) _ _ _ => apply hwp_ret
  | |- hwp _ _ (R _ _) _ _ _ => apply hwp_R
  | |- hwp _ _ (R_twice _ (xpc_data_get_length _) _) _ _ _ => apply hx_length; [held_tac|intros ? ? ?]
  | |- hwp _ _ (R_twice _ (xpc_data_get_bytes_ptr _) _) _ _ _ => apply hx_bytes; [held_tac|intros ? ? ?]
  | |- hwp _ _ (xpc xpc_dictionary_create) _ _ _ => apply hx_create; intros ? ? ?
  | |- hwp _ _ (xpc _) _ _ _ => apply hx_ask; [held_tac|intros ? ? ?];
      cbn [needs spends makes objects]; rewrite ?all_kept, ?one_more, ?one_less
  | |- hwp _ _ (guarded (non_null ?p) _ _) _ _ _ => on_null p; cbn [guarded]
  | |- hwp _ _ (if non_null ?p then _ else _) _ _ _ => on_null p
  end.

Lemma hx_tests l b :
  hwp pre post tests (λ _ t s, held s = ∅ ∧ ∃ i64 data, map fst t = test_names i64 data) []
    (mk_known ∅ l b).
Proof.
  unfold tests, dictionary_tests, object_tests, hash_test, connection_tests. repeat xpc_step.
  all: split; [cbn [held]; multiset_solver|].
  all: first [by exists true, true|by exists true, false|by exists false, true|by exists false, false].
Qed.

(** Whatever a reliable libxpc answers. *)
Lemma xpc_harness_report {W} (answer : ∀ R, call R → W → R * W) w :
  reliable answer →
  calls_meet (tracked answer) (λ R c w, entitled R c w.2) main (w, ∅) ∧
  ∃ tests i64 data w', run (tracked answer) main (w, ∅) = (Some 0, matrix_lines "op121" tests, (w', ∅)) ∧
    map fst tests = test_names i64 data.
Proof.
  intros Hd. pose proof (keeps_post _ Hd) as Hk.
  destruct (wp_run pre post (tracked answer) (known_of answer) main (λ a out s, a = 0 ∧ held s = ∅ ∧
      ∃ tests, out = matrix_lines "op121" tests ∧ ∃ i64 data, map fst tests = test_names i64 data)
      [] (w, ∅)) as [Hc (a & l & [w' h] & E & -> & Hh & tests & El & i64 & data & Ht)].
  { apply wp_matrix. eapply script_wp_mono; [apply hx_tests|].
    intros x out s' (t & H1 & H2 & Hs & Ht). exists t. eauto 10. }
  simpl in El, Hh. subst l h. split; [exact Hc|]. by exists tests, i64, data, w'.
Qed.
End facts.
End XpcHarness.
