(* ===== verification/XpcCancel.v ===== *)
(** [findings/mx-a64z/dtrace/xpc-conformance]: op190-xpc-echo.c, a service that answers
    messages, and op190-xpc-cancel-truth.c, which shows what the event handler of a connection
    to it and a thread that waits for its answer are told when the connection ends.

    Each function that a thread or libxpc calls is a program of its own.  The variables the
    event handler writes are not synchronized, so a load of them may give anything.  Only
    [main] writes [g_label] and [g_sem], which it knows therefore; the handler may run at any
    time, beside [main], and finds in [g_sem] any of the semaphores that [main] has created. *)

From stdpp Require Import gmap gmultiset list.
From S2P Require Import Prelude Harness.

Local Open Scope Z_scope.

Module XpcCancel.
Import Harness.

Class XpcH := {
  XPC_CONNECTION_MACH_SERVICE_LISTENER : Z;
  XPC_TYPE_ERROR : Z;
  XPC_ERROR_CONNECTION_INVALID : Z;
  XPC_ERROR_CONNECTION_INTERRUPTED : Z;
  XPC_ERROR_TERMINATION_IMMINENT : Z;
  QOS_CLASS_DEFAULT : Z;
}.

(** What a scenario captures: the static variables. *)
Record captured := mk_captured {
  cap_label : string;
  cap_fired : Z;
  cap_is_err : Z;
  cap_eq_inv : Z;
  cap_eq_int : Z;
  cap_eq_term : Z;
  cap_count : Z;
  cap_desc : string;
  cap_sem : Z;
}.
Inductive var : Type → Type :=
  | g_label : var string
  | g_fired : var Z
  | g_is_err : var Z
  | g_eq_inv : var Z
  | g_eq_int : var Z
  | g_eq_term : var Z
  | g_count : var Z
  | g_desc : var string
  | g_sem : var Z.

Inductive call : Type → Type :=
  | xpc_connection_create_mach_service (name : string) (q flags : Z) : call Z
  (* the handler calls [capture_event], [handle_event] or [listener_event] *)
  | xpc_connection_set_event_handler (conn : Z) : call unit
  | xpc_connection_resume (conn : Z) : call unit
  | xpc_connection_cancel (conn : Z) : call unit
  | xpc_connection_send_message (conn msg : Z) : call unit
  | xpc_connection_send_message_with_reply_sync (conn msg : Z) : call Z
  | xpc_dictionary_create : call Z
  | xpc_dictionary_create_reply (event : Z) : call Z
  | xpc_dictionary_set_string (dict : Z) (key value : string) : call unit
  | xpc_dictionary_get_string (dict : Z) (key : string) : call (option string)
  | xpc_dictionary_get_count (dict : Z) : call Z
  | xpc_get_type (o : Z) : call Z
  | xpc_equal (o o' : Z) : call bool
  | xpc_release (o : Z) : call unit
  | dispatch_queue_create (label : string) : call Z
  | dispatch_get_main_queue : call Z
  | dispatch_get_global_queue (class : Z) : call Z
  (* the block is [delay_block] *)
  | dispatch_async (q conn reply_sem : Z) : call unit
  | dispatch_semaphore_create (value : Z) : call Z
  | dispatch_semaphore_signal (o : Z) : call unit
  | dispatch_semaphore_wait (o timeout : Z) : call Z
  | usleep (useconds : Z) : call unit
  | sleep (seconds : Z) : call unit
  | print_error (line : string) : call unit
  | load {A : Type} (v : var A) : call A
  | store {A : Type} (v : var A) (a : A) : call unit
  (* the variable of [main] that the block writes *)
  | set_bg_reply (o : Z) : call unit
  | get_bg_reply : call Z.

Definition OP190_SERVICE : string := "com.rmxos.op190.echo".
Definition seconds (n : Z) : Z := n * 1000 * 1000 * 1000.

(** How a function ends that may end the process, or never. *)
Inductive ending := Returned (code : Z) | Exited (code : Z) | Serving.

(** ** op190-xpc-echo.c *)

Section echo.
Context `{XpcH}.

Definition handle_event (peer event : Z) : script call ending :=
  reply ← ask (xpc_dictionary_create_reply event);
  if negb (non_null reply) then mret (Returned 0) else
  op ← ask (xpc_dictionary_get_string event "op");
  if decide (op = Some "exit") then
    _ ← ask (xpc_dictionary_set_string reply "reply" "exiting");
    _ ← ask (xpc_connection_send_message peer reply);
    _ ← ask (xpc_release reply);
    mret (Exited 0)
  else
    _ ← (if decide (op = Some "delay") then
           _ ← ask (sleep 3);
           ask (xpc_dictionary_set_string reply "reply" "pong-delayed")
         else ask (xpc_dictionary_set_string reply "reply" "pong"));
    _ ← ask (xpc_connection_send_message peer reply);
    _ ← ask (xpc_release reply);
    mret (Returned 0).

Definition op190_handle_peer (peer : Z) : script call unit :=
  _ ← ask (xpc_connection_set_event_handler peer);
  ask (xpc_connection_resume peer).

(** [dispatch_main] does not return. *)
Definition echo_main : script call ending :=
  q ← ask dispatch_get_main_queue;
  listener ← ask (xpc_connection_create_mach_service OP190_SERVICE q
                    XPC_CONNECTION_MACH_SERVICE_LISTENER);
  if negb (non_null listener) then
    _ ← ask (print_error "op190-responder: listener NULL");
    mret (Returned 2)
  else
  _ ← ask (xpc_connection_set_event_handler listener);
  _ ← ask (xpc_connection_resume listener);
  mret Serving.

(** The handler of the listener takes each event for a connection. *)
Definition listener_event (event : Z) : script call unit := op190_handle_peer event.
End echo.

(** ** op190-xpc-cancel-truth.c *)

Section truth.
Context `{XpcH}.

Definition reset_cap (label : string) : script call unit :=
  _ ← ask (store g_label label);
  _ ← ask (store g_fired 0);
  _ ← ask (store g_is_err 0);
  _ ← ask (store g_eq_inv 0);
  _ ← ask (store g_eq_int 0);
  _ ← ask (store g_eq_term 0);
  _ ← ask (store g_count 0);
  _ ← ask (store g_desc "");
  sem ← ask (dispatch_semaphore_create 0);
  ask (store g_sem sem).

Definition no_description : string := "(no 'description' key)".

(** [strncpy] into the array of 256, whose last character is 0. *)
Definition sizeof_g_desc : nat := 256.
Definition described (d : option string) : string :=
  String.substring 0 (sizeof_g_desc - 1) (match d with Some d => d | None => no_description end).

Definition capture_event (event : Z) : script call unit :=
  _ ← ask (store g_fired 1);
  t ← ask (xpc_get_type event);
  _ ← ask (store g_is_err (Z.b2z (t =? XPC_TYPE_ERROR)));
  e ← ask (xpc_equal event XPC_ERROR_CONNECTION_INVALID);
  _ ← ask (store g_eq_inv (Z.b2z e));
  e ← ask (xpc_equal event XPC_ERROR_CONNECTION_INTERRUPTED);
  _ ← ask (store g_eq_int (Z.b2z e));
  e ← ask (xpc_equal event XPC_ERROR_TERMINATION_IMMINENT);
  _ ← ask (store g_eq_term (Z.b2z e));
  n ← ask (xpc_dictionary_get_count event);
  _ ← ask (store g_count n);
  d ← ask (xpc_dictionary_get_string event "description");
  _ ← ask (store g_desc (described d));
  sem ← ask (load g_sem);
  ask (dispatch_semaphore_signal sem).

Definition quoted (s : string) : string := String "034" (s +:+ String "034" EmptyString).
Definition print_cap : script call unit :=
  label ← ask (load g_label);
  fired ← ask (load g_fired);
  is_err ← ask (load g_is_err);
  eq_inv ← ask (load g_eq_inv);
  eq_int ← ask (load g_eq_int);
  eq_term ← ask (load g_eq_term);
  count ← ask (load g_count);
  _ ← say ("[D2-ERROR-STRUCT] " +:+ label +:+ ": fired=" +:+ fmt_lld fired +:+
           "  is_XPC_TYPE_ERROR=" +:+ fmt_lld is_err +:+
           "  eq_CONNECTION_INVALID=" +:+ fmt_lld eq_inv +:+
           "  eq_CONNECTION_INTERRUPTED=" +:+ fmt_lld eq_int +:+
           "  eq_TERMINATION_IMMINENT=" +:+ fmt_lld eq_term +:+
           "  dict_count=" +:+ fmt_lld count);
  desc ← ask (load g_desc);
  say ("[D2-ERROR-STRUCT]   description=" +:+ quoted desc).

(** Not called by the program. *)
Definition op190_send_op (conn : Z) (op : string) : script call unit :=
  req ← ask xpc_dictionary_create;
  _ ← ask (xpc_dictionary_set_string req "op" op);
  _ ← ask (xpc_connection_send_message conn req);
  ask (xpc_release req).

(** The start of each scenario: the connection, resumed. *)
Definition connect (label : string) : script call Z :=
  q ← ask (dispatch_queue_create label);
  conn ← ask (xpc_connection_create_mach_service OP190_SERVICE q 0);
  _ ← ask (xpc_connection_set_event_handler conn);
  _ ← ask (xpc_connection_resume conn);
  mret conn.

(** A message and the answer to it. *)
Definition request (conn : Z) (op : string) : script call Z :=
  req ← ask xpc_dictionary_create;
  _ ← ask (xpc_dictionary_set_string req "op" op);
  rep ← ask (xpc_connection_send_message_with_reply_sync conn req);
  _ ← ask (xpc_release req);
  mret rep.
Definition reply_text (rep : Z) : script call (option string) :=
  only_if (non_null rep) None (ask (xpc_dictionary_get_string rep "reply")).
Definition or_null (s : option string) : string := match s with Some s => s | None => "(null)" end.

(** The wait for the handler, what it captured, and the end of each scenario. *)
Definition wait_handler (name timed_out : string) (timeout conn : Z) : script call unit :=
  sem ← ask (load g_sem);
  w ← ask (dispatch_semaphore_wait sem timeout);
  _ ← say (name +:+ ": handler " +:+ if w =? 0 then "FIRED" else timed_out);
  _ ← print_cap;
  ask (xpc_release conn).

Definition local_cancel : script call unit :=
  _ ← say "";
  _ ← say "=== D1a: local cancel ===";
  _ ← reset_cap "D1a_local_cancel";
  conn ← connect "op190.d1a";
  rep ← request conn "ping";
  rs ← reply_text rep;
  _ ← say ("D1a: established=" +:+ fmt_lld (Z.b2z (non_null rep)) +:+ " reply=" +:+ quoted (or_null rs));
  _ ← only_if (non_null rep) tt (ask (xpc_release rep));
  _ ← ask (xpc_connection_cancel conn);
  wait_handler "D1a" "TIMEOUT(no event)" (seconds 5) conn.

Definition remote_death : script call unit :=
  _ ← say "";
  _ ← say "=== D1b: remote peer death ===";
  _ ← reset_cap "D1b_remote_death";
  conn ← connect "op190.d1b";
  rep ← request conn "exit";
  rs ← reply_text rep;
  _ ← say ("D1b: pre-death reply=" +:+ quoted (or_null rs));
  _ ← only_if (non_null rep) tt (ask (xpc_release rep));
  wait_handler "D1b" "TIMEOUT(no event)" (seconds 5) conn.

Definition delay_block (conn reply_sem : Z) : script call unit :=
  rep ← request conn "delay";
  _ ← ask (set_bg_reply rep);
  ask (dispatch_semaphore_signal reply_sem).

(** What the thread that waited was given. *)
Definition show_reply : script call unit :=
  rep ← ask get_bg_reply;
  if negb (non_null rep) then say "D3: waiter returned NULL" else
  t ← ask (xpc_get_type rep);
  rstr ← ask (xpc_dictionary_get_string rep "reply");
  _ ← say ("D3: waiter reply=" +:+ quoted (or_null rstr) +:+ " is_XPC_TYPE_ERROR=" +:+
           fmt_lld (Z.b2z (t =? XPC_TYPE_ERROR)));
  ask (xpc_release rep).

Definition cancel_pending : script call unit :=
  _ ← say "";
  _ ← say "=== D3: cancel vs pending _with_reply_sync ===";
  _ ← reset_cap "D3_reply_pending";
  conn ← connect "op190.d3";
  reply_sem ← ask (dispatch_semaphore_create 0);
  gq ← ask (dispatch_get_global_queue QOS_CLASS_DEFAULT);
  _ ← ask (dispatch_async gq conn reply_sem);
  _ ← ask (usleep 500000);
  _ ← say "D3: cancelling the connection mid-pending-reply";
  _ ← ask (xpc_connection_cancel conn);
  wr ← ask (dispatch_semaphore_wait reply_sem (seconds 8));
  _ ← say ("D3: _with_reply_sync " +:+ if wr =? 0 then "RETURNED" else "STILL_BLOCKED(timeout)");
  _ ← only_if (wr =? 0) tt show_reply;
  wait_handler "D3" "no-additional-event" (seconds 3) conn.

Definition main : script call Z :=
  _ ← local_cancel;
  _ ← remote_death;
  _ ← cancel_pending;
  _ ← say "";
  _ ← say "OP190_TERMINAL status=0";
  mret 0.
End truth.
(** ** What is relied on

    An object, as far as it is asked about. *)
Record object := mk_object {
  o_type : Z;
  o_equal : Z → bool;
  o_count : Z;
  o_string : string → option string;
  (* a message whose sender waits for an answer *)
  o_replyable : bool;
}.

(** What a thread did: connections it made, provided with a handler, resumed and cancelled;
    messages, with their member "op" and what came back, or their member "reply"; the block
    it submitted; how long it slept; the semaphores it waited for, with the result, and
    signalled, with what it had written before; and the answer it left to [main]. *)
Inductive act :=
  | Connected (service : string) (flags conn : Z)
  | Handling (conn : Z)
  | Resumed (conn : Z)
  | Cancelled (conn : Z)
  | Asked (conn : Z) (op : option string) (rep : Z)
  | Answered (conn : Z) (reply : option string)
  | Submitted (conn sem : Z)
  | Slept (useconds : Z)
  | Waited (sem timeout r : Z)
  | Signalled (sem : Z) (c : captured)
  | Left (rep : Z).

(** What a thread knows: the objects it may use, what they are, which of them are connections,
    what it wrote to the variables, whether it is [main], and what it did. *)
Record known := mk_known {
  held : gmultiset Z;
  objects : Z → object;
  connections : gset Z;
  stored : captured;
  is_main : bool;
  log : list act;
}.
Implicit Types s : known.

#[export] Instance references : Handles call := {|
  needs R c := match c with
    | xpc_connection_set_event_handler o | xpc_connection_resume o | xpc_connection_cancel o
    | xpc_dictionary_create_reply o | xpc_dictionary_set_string o _ _ | xpc_dictionary_get_string o _
    | xpc_dictionary_get_count o | xpc_get_type o | xpc_equal o _ | xpc_release o
    | dispatch_semaphore_signal o | dispatch_semaphore_wait o _ => {[+ o +]}
    | xpc_connection_send_message o o' | xpc_connection_send_message_with_reply_sync o o'
    | dispatch_async _ o o' => {[+ o +]} ∪ {[+ o' +]}
    | set_bg_reply o => object_at o
    | _ => ∅
    end;
  spends R c := match c with
    | xpc_release o => {[+ o +]}
    | set_bg_reply o => object_at o
    | _ => ∅
    end;
  makes R c := match c in call R return R → gmultiset Z with
    | xpc_connection_create_mach_service _ _ _ | xpc_dictionary_create | xpc_dictionary_create_reply _
    | xpc_connection_send_message_with_reply_sync _ _ | get_bg_reply
    | dispatch_queue_create _ | dispatch_semaphore_create _ => object_at
    | _ => λ _, ∅
    end |}.

Definition holding (h : gmultiset Z) s : known :=
  mk_known h (objects s) (connections s) (stored s) (is_main s) (log s).
Definition with_object (o : Z) (x : object) s : known :=
  mk_known (held s) (λ o', if decide (o' = o) then x else objects s o') (connections s) (stored s)
    (is_main s) (log s).
Definition with_connections (l : gset Z) s : known :=
  mk_known (held s) (objects s) l (stored s) (is_main s) (log s).
Definition with_stored (c : captured) s : known :=
  mk_known (held s) (objects s) (connections s) c (is_main s) (log s).
Definition logged (a : act) s : known :=
  mk_known (held s) (objects s) (connections s) (stored s) (is_main s) (log s ++ [a]).

Definition with_string (k v : string) (x : object) : object :=
  mk_object (o_type x) (o_equal x) (o_count x) (λ k', if decide (k' = k) then Some v else o_string x k')
    (o_replyable x).
Definition no_members (x : object) : Prop := ∀ k, o_string x k = None.

Definition set_var {A} (v : var A) (a : A) (c : captured) : captured :=
  match v in var A return A → captured with
  | g_label => λ a, mk_captured a (cap_fired c) (cap_is_err c) (cap_eq_inv c) (cap_eq_int c)
      (cap_eq_term c) (cap_count c) (cap_desc c) (cap_sem c)
  | g_fired => λ a, mk_captured (cap_label c) a (cap_is_err c) (cap_eq_inv c) (cap_eq_int c)
      (cap_eq_term c) (cap_count c) (cap_desc c) (cap_sem c)
  | g_is_err => λ a, mk_captured (cap_label c) (cap_fired c) a (cap_eq_inv c) (cap_eq_int c)
      (cap_eq_term c) (cap_count c) (cap_desc c) (cap_sem c)
  | g_eq_inv => λ a, mk_captured (cap_label c) (cap_fired c) (cap_is_err c) a (cap_eq_int c)
      (cap_eq_term c) (cap_count c) (cap_desc c) (cap_sem c)
  | g_eq_int => λ a, mk_captured (cap_label c) (cap_fired c) (cap_is_err c) (cap_eq_inv c) a
      (cap_eq_term c) (cap_count c) (cap_desc c) (cap_sem c)
  | g_eq_term => λ a, mk_captured (cap_label c) (cap_fired c) (cap_is_err c) (cap_eq_inv c)
      (cap_eq_int c) a (cap_count c) (cap_desc c) (cap_sem c)
  | g_count => λ a, mk_captured (cap_label c) (cap_fired c) (cap_is_err c) (cap_eq_inv c)
      (cap_eq_int c) (cap_eq_term c) a (cap_desc c) (cap_sem c)
  | g_desc => λ a, mk_captured (cap_label c) (cap_fired c) (cap_is_err c) (cap_eq_inv c)
      (cap_eq_int c) (cap_eq_term c) (cap_count c) a (cap_sem c)
  | g_sem => λ a, mk_captured (cap_label c) (cap_fired c) (cap_is_err c) (cap_eq_inv c)
      (cap_eq_int c) (cap_eq_term c) (cap_count c) (cap_desc c) a
  end a.

(** Only [main] writes the label and the semaphore; the others may use the semaphore they
    find, which [main] created and keeps. *)
Definition loads {A} (v : var A) s (r : A) s' : Prop :=
  match v in var A return A → Prop with
  | g_label => λ r, (is_main s = true → r = cap_label (stored s)) ∧ s' = s
  | g_sem => λ r,
      if is_main s then r = cap_sem (stored s) ∧ s' = s
      else non_null r = true ∧ s' = holding ({[+ r +]} ∪ held s) s
  | _ => λ _, s' = s
  end r.

(** Only what is held is used, and only a connection as a connection. *)
Definition pre R (c : call R) s : Prop :=
  entitled R c (held s) ∧
  match c with
  | xpc_connection_set_event_handler o | xpc_connection_resume o | xpc_connection_cancel o
  | xpc_connection_send_message o _ | xpc_connection_send_message_with_reply_sync o _ =>
      o ∈ connections s
  | dispatch_async q conn _ => non_null q = true ∧ conn ∈ connections s
  | _ => True
  end.

(** A connection that is not a listener and a semaphore are created when they are asked for;
    the answer to a message is not a connection. *)
Definition post R (c : call R) s (r : R) s' : Prop :=
  let s1 := holding ((held s ∖ spends R c) ⊎ makes R c r) s in
  match c in call R return R → Prop with
  | xpc_connection_create_mach_service name _ flags => λ r, (flags = 0 → non_null r = true) ∧
      s' = logged (Connected name flags r) (with_connections ({[r]} ∪ connections s) s1)
  | xpc_connection_set_event_handler conn => λ _, s' = logged (Handling conn) s1
  | xpc_connection_resume conn => λ _, s' = logged (Resumed conn) s1
  | xpc_connection_cancel conn => λ _, s' = logged (Cancelled conn) s1
  | xpc_dictionary_create => λ r, non_null r = true ∧ r ∉ held s ∧
      ∃ x, no_members x ∧ s' = with_object r x s1
  | xpc_dictionary_create_reply event => λ r,
      if o_replyable (objects s event) then
        non_null r = true ∧ r ∉ held s ∧ ∃ x, no_members x ∧ s' = with_object r x s1
      else non_null r = false ∧ s' = s1
  | xpc_connection_send_message_with_reply_sync conn msg => λ r, r ∉ connections s ∧
      ∃ x, s' = logged (Asked conn (o_string (objects s msg) "op") r) (with_object r x s1)
  | get_bg_reply => λ r, ∃ x, s' = with_object r x s1
  | set_bg_reply o => λ _, s' = logged (Left o) s1
  | xpc_dictionary_set_string d k v => λ _, s' = with_object d (with_string k v (objects s d)) s1
  | xpc_dictionary_get_string d k => λ r, r = o_string (objects s d) k ∧ s' = s1
  | xpc_dictionary_get_count d => λ r, r = o_count (objects s d) ∧ s' = s1
  | xpc_get_type o => λ r, r = o_type (objects s o) ∧ s' = s1
  | xpc_equal o o' => λ r, r = o_equal (objects s o) o' ∧ s' = s1
  | xpc_release o => λ _, s' = with_connections (connections s ∖ {[o]}) s1
  | xpc_connection_send_message conn msg => λ _,
      s' = logged (Answered conn (o_string (objects s msg) "reply")) s1
  | dispatch_get_global_queue _ => λ r, non_null r = true ∧ s' = s1
  | dispatch_async _ conn sem => λ _, s' = logged (Submitted conn sem) s1
  | dispatch_semaphore_create _ => λ r, non_null r = true ∧ s' = s1
  | dispatch_semaphore_signal o => λ _, s' = logged (Signalled o (stored s)) s1
  | dispatch_semaphore_wait o timeout => λ r, s' = logged (Waited o timeout r) s1
  | usleep n => λ _, s' = logged (Slept n) s1
  | sleep n => λ _, s' = logged (Slept (n * 1000000)) s1
  | load v => λ r, loads v s1 r s'
  | store v a => λ _, s' = with_stored (set_var v a (stored s)) s1
  | _ => λ _, s' = s1
  end r.
Abbreviation documented := (Keeps pre post).

(** ** The service *)

Section facts.

Lemma k_ask {A R} (c : call R) (f : R → script call A) (Q : A → list string → known → Prop) out s :
  pre R c s → (∀ r s', post R c s r s' → wp pre post (f r) Q out s') →
  wp pre post (ask c ≫= f) Q out s.
Proof. by split. Qed.

Lemma k_last {R} (c : call R) (Q : R → list string → known → Prop) out s :
  pre R c s → (∀ r s', post R c s r s' → Q r out s') → wp pre post (ask c) Q out s.
Proof. by split. Qed.

(** One call: what is needed is held, and what is known after it. *)
Ltac held_tac := split; [unfold entitled; cbn [needs references held]; multiset_solver|
  cbn [connections]; first [done|set_solver]].
Ltac known_tac :=
  repeat match goal with
  | H : _ ∧ _ |- _ => destruct H
  | H : ∃ _, _ |- _ => destruct H
  end; subst; unfold holding, with_object, with_connections, with_stored, logged;
  cbn [held objects connections stored is_main log spends makes references set_var cap_label cap_fired
       cap_is_err cap_eq_inv cap_eq_int cap_eq_term cap_count cap_desc cap_sem];
  rewrite ?all_kept, ?one_more, ?one_less;
  repeat match goal with
  | H : 0 = 0 → _ |- _ => specialize (H eq_refl)
  | H : true = true → _ |- _ => specialize (H eq_refl); subst
  end;
  repeat match goal with E : non_null ?p = true |- context [object_at ?p] => rewrite (object_non_null p E) end.
Ltac known_step := lazymatch goal with
  | |- wp _ _ (ask _ ≫= _) _ _ _ =>
      apply k_ask; [held_tac|intros ? ?; cbn [post loads holding is_main stored]; intros ?; known_tac]
  | |- wp _ _ (ask _) _ _ _ =>
      apply k_last; [held_tac|intros ? ?; cbn [post loads holding is_main stored]; intros ?; known_tac]
  | |- wp _ _ (_ ≫= _) _ _ _ => apply script_wp_bind
  | |- wp _ _ (mret _) _ _ _ => cbn [wp mret script_ret]
  | |- wp _ _ (say _) _ _ _ => cbn [wp say]
  end.

Context `{XpcH}.

(** What the service answers. *)
Definition answer_to (op : option string) : string :=
  if decide (op = Some "exit") then "exiting" else
  if decide (op = Some "delay") then "pong-delayed" else "pong".
Definition end_after (op : option string) : ending :=
  if decide (op = Some "exit") then Exited 0 else Returned 0.

(** A message is answered once, by what belongs to its "op", after a delay if that is asked
    for; other events change nothing. *)
Definition answered (peer event : Z) s (e : ending) s' : Prop :=
  held s' = held s ∧
  if o_replyable (objects s event) then
    let op := o_string (objects s event) "op" in
    e = end_after op ∧
    log s' = log s ++ (if decide (op = Some "delay") then [Slept 3000000] else []) ++
      [Answered peer (Some (answer_to op))]
  else e = Returned 0 ∧ log s' = log s.

Lemma handle_event_wp peer event s :
  {[+ peer +]} ∪ {[+ event +]} ⊆ held s → peer ∈ connections s →
  wp pre post (handle_event peer event) (λ e out s', out = [] ∧ answered peer event s e s') [] s.
Proof.
  intros Hh Hp. unfold handle_event. destruct s as [h ob cs st im lg]. cbn [held connections] in Hh, Hp.
  apply k_ask; [held_tac|]. intros reply s'. cbn [post].
  unfold answered. cbn [objects]. destruct (o_replyable (ob event));
    [intros (Hn & Hr & x & Hx & ->)|intros [Hn ->]]; known_tac; rewrite Hn; cbn [negb].
  - known_step.
    assert (event ≠ reply) as Hne by (intros ->; multiset_solver).
    rewrite (decide_False (P := event = reply)) by done.
    destruct (decide (o_string (ob event) "op" = Some "exit")) as [E|E];
      [|repeat known_step; destruct (decide (o_string (ob event) "op" = Some "delay"))];
      repeat known_step.
    all: split; [done|]; split; [cbn [held]; multiset_solver|].
    all: unfold end_after, answer_to; cbn [held objects log]; rewrite ?E.
    all: rewrite !(decide_True (P := reply = reply)) by done; rewrite <- ?app_assoc; by repeat case_decide.
  - rewrite (object_null _ Hn). known_step. split; [done|]. split; [cbn [held]; multiset_solver|done].
Qed.

Lemma handle_peer_wp peer s :
  peer ∈ held s → peer ∈ connections s →
  wp pre post (op190_handle_peer peer) (λ _ out s', out = [] ∧ held s' = held s ∧
    log s' = log s ++ [Handling peer; Resumed peer]) [] s.
Proof.
  intros Hp Hc. unfold op190_handle_peer. destruct s. cbn [held connections] in Hp, Hc. repeat known_step.
  by rewrite <- app_assoc.
Qed.

(** The process serves, or has no listener. *)
Definition echo_started s (e : ending) s' : Prop :=
  ∃ listener, held s' = held s ⊎ object_at listener ∧
    let made := Connected OP190_SERVICE XPC_CONNECTION_MACH_SERVICE_LISTENER listener in
    if non_null listener then e = Serving ∧ log s' = log s ++ [made; Handling listener; Resumed listener]
    else e = Returned 2 ∧ log s' = log s ++ [made].

Lemma echo_main_wp s :
  wp pre post echo_main (λ e out s', out = [] ∧ echo_started s e s') [] s.
Proof.
  unfold echo_main. destruct s as [h ob cs st im lg].
  do 2 known_step. destruct (non_null r0) eqn:E; cbn [negb].
  - rewrite (object_non_null _ E). repeat known_step. split; [done|]. exists r0.
    rewrite E, (object_non_null _ E). cbn [held log]. by rewrite <- !app_assoc.
  - repeat known_step. split; [done|]. exists r0. by rewrite E.
Qed.

(** ** The event handler *)

Lemma described_length d : (String.length (described d) ≤ 255)%nat.
Proof. apply substring_length. Qed.

(** What it captures of an event. *)
Definition capture_of (event : Z) (x : object) (label : string) (sem : Z) : captured :=
  mk_captured label 1 (Z.b2z (o_type x =? XPC_TYPE_ERROR))
    (Z.b2z (o_equal x XPC_ERROR_CONNECTION_INVALID))
    (Z.b2z (o_equal x XPC_ERROR_CONNECTION_INTERRUPTED))
    (Z.b2z (o_equal x XPC_ERROR_TERMINATION_IMMINENT))
    (o_count x) (described (o_string x "description")) sem.

(** Beside [main], it signals a semaphore that [main] created, once, after all that. *)
Definition captured_once (event : Z) s s' : Prop :=
  let c := capture_of event (objects s event) (cap_label (stored s)) (cap_sem (stored s)) in
  stored s' = c ∧ ∃ sem, non_null sem = true ∧ held s' = {[+ sem +]} ∪ held s ∧
    log s' = log s ++ [Signalled sem c].

Lemma capture_event_wp event s :
  event ∈ held s → is_main s = false →
  wp pre post (capture_event event) (λ _ out s', out = [] ∧ captured_once event s s') [] s.
Proof.
  intros Hh Hm. unfold capture_event. destruct s as [h ob cs [] im lg]. cbn [held is_main] in Hh, Hm. subst im.
  repeat known_step. split; [done|]. split; [done|]. eexists. by split.
Qed.

(** ** The three scenarios *)

Definition cap_lines (c : captured) : list string :=
  ["[D2-ERROR-STRUCT] " +:+ cap_label c +:+ ": fired=" +:+ fmt_lld (cap_fired c) +:+
   "  is_XPC_TYPE_ERROR=" +:+ fmt_lld (cap_is_err c) +:+
   "  eq_CONNECTION_INVALID=" +:+ fmt_lld (cap_eq_inv c) +:+
   "  eq_CONNECTION_INTERRUPTED=" +:+ fmt_lld (cap_eq_int c) +:+
   "  eq_TERMINATION_IMMINENT=" +:+ fmt_lld (cap_eq_term c) +:+
   "  dict_count=" +:+ fmt_lld (cap_count c);
   "[D2-ERROR-STRUCT]   description=" +:+ quoted (cap_desc c)].
Definition handler_lines (name timed_out : string) (fired : bool) (c : captured) : list string :=
  (name +:+ ": handler " +:+ if fired then "FIRED" else timed_out) :: cap_lines c.

(** The objects of a list, where [NULL] is none. *)
Fixpoint objects_at (l : list Z) : gmultiset Z :=
  match l with [] => ∅ | o :: l => object_at o ⊎ objects_at l end.

Lemma objects_at_app l l' : objects_at (l ++ l') = objects_at l ⊎ objects_at l'.
Proof. induction l as [|o l IH]; simpl; [multiset_solver|]. rewrite IH. multiset_solver. Qed.

(** A part of [main] that keeps the objects of a list and did what is in another. *)
Definition did (l : list Z) (acts : list act) s s' : Prop :=
  held s' = held s ⊎ objects_at l ∧ log s' = log s ++ acts ∧ is_main s' = is_main s.

Lemma did_trans l l' acts acts' s s1 s' :
  did l acts s s1 → did l' acts' s1 s' → did (l ++ l') (acts ++ acts') s s'.
Proof.
  intros (H1 & H2 & H3) (G1 & G2 & G3). unfold did. rewrite G1, G2, G3, H1, H2, H3, objects_at_app.
  split; [multiset_solver|]. by rewrite <- app_assoc.
Qed.

Definition d1a_lines (established : bool) (reply : option string) (fired : bool) (c : captured) : list string :=
  ["" ; "=== D1a: local cancel ===";
   "D1a: established=" +:+ fmt_lld (Z.b2z established) +:+ " reply=" +:+ quoted (or_null reply)] ++
  handler_lines "D1a" "TIMEOUT(no event)" fired c.
Definition d1b_lines (reply : option string) (fired : bool) (c : captured) : list string :=
  [""; "=== D1b: remote peer death ==="; "D1b: pre-death reply=" +:+ quoted (or_null reply)] ++
  handler_lines "D1b" "TIMEOUT(no event)" fired c.
(** [answer] is what the waiter was told, if it was in time: nothing, or the text and whether
    it is an error. *)
Definition d3_lines (answer : option (option (option string * bool))) (fired : bool) (c : captured) : list string :=
  [""; "=== D3: cancel vs pending _with_reply_sync ==="; "D3: cancelling the connection mid-pending-reply";
   "D3: _with_reply_sync " +:+ match answer with Some _ => "RETURNED" | None => "STILL_BLOCKED(timeout)" end] ++
  match answer with
  | Some (Some (text, err)) => ["D3: waiter reply=" +:+ quoted (or_null text) +:+ " is_XPC_TYPE_ERROR=" +:+
      fmt_lld (Z.b2z err)]
  | Some None => ["D3: waiter returned NULL"]
  | None => []
  end ++ handler_lines "D3" "no-additional-event" fired c.

(** *** What each scenario prints, does and keeps *)

Definition connected (conn : Z) : list act :=
  [Connected OP190_SERVICE 0 conn; Handling conn; Resumed conn].

Definition d1a (out : list string) (acts : list act) (kept : list Z) : Prop :=
  ∃ q conn sem rep rs w c, non_null conn = true ∧ non_null sem = true ∧
    cap_label c = "D1a_local_cancel" ∧ (non_null rep = false → rs = None) ∧
    out = d1a_lines (non_null rep) rs (w =? 0) c ∧
    acts = connected conn ++ [Asked conn (Some "ping") rep; Cancelled conn; Waited sem (seconds 5) w] ∧
    kept = [q; sem].
Definition d1b (out : list string) (acts : list act) (kept : list Z) : Prop :=
  ∃ q conn sem rep rs w c, non_null conn = true ∧ non_null sem = true ∧
    cap_label c = "D1b_remote_death" ∧ (non_null rep = false → rs = None) ∧
    out = d1b_lines rs (w =? 0) c ∧
    acts = connected conn ++ [Asked conn (Some "exit") rep; Waited sem (seconds 5) w] ∧
    kept = [q; sem].
Definition d3 (out : list string) (acts : list act) (kept : list Z) : Prop :=
  ∃ q conn sem reply_sem a wr w c, non_null conn = true ∧ non_null sem = true ∧
    non_null reply_sem = true ∧ cap_label c = "D3_reply_pending" ∧
    (wr =? 0) = bool_decide (is_Some a) ∧ out = d3_lines a (w =? 0) c ∧
    acts = connected conn ++ [Submitted conn reply_sem; Slept 500000; Cancelled conn;
             Waited reply_sem (seconds 8) wr; Waited sem (seconds 3) w] ∧
    kept = [q; sem; reply_sem].

Section main_thread.
Context (h : gmultiset Z) (ob : Z → object) (cs : gset Z) (st : captured) (lg : list act).
Context (out : list string).
Abbreviation at_main := (mk_known h ob cs st true lg).

Lemma k_reset label (Q : unit → list string → known → Prop) :
  (∀ sem c, non_null sem = true → cap_label c = label → cap_sem c = sem →
     Q tt out (mk_known (h ⊎ {[+ sem +]}) ob cs c true lg)) →
  wp pre post (reset_cap label) Q out at_main.
Proof. intros HQ. unfold reset_cap. repeat known_step. destruct r8. by apply HQ. Qed.

Lemma k_connect label (Q : Z → list string → known → Prop) :
  (∀ q conn cs', non_null conn = true → conn ∈ cs' →
     Q conn out (mk_known (h ⊎ object_at q ⊎ {[+ conn +]}) ob cs' st true (lg ++ connected conn))) →
  wp pre post (connect label) Q out at_main.
Proof.
  intros HQ. unfold connect. repeat known_step. rewrite <- !app_assoc. apply HQ; [done|set_solver].
Qed.
End main_thread.

(** The request is sent with its "op", and what comes back is no connection. *)
Lemma k_request conn op h ob cs st im lg (Q : Z → list string → known → Prop) out :
  conn ∈ h → conn ∈ cs →
  (∀ rep ob' cs', conn ∈ cs' → rep ≠ conn →
     Q rep out (mk_known (h ⊎ object_at rep) ob' cs' st im (lg ++ [Asked conn (Some op) rep]))) →
  wp pre post (request conn op) Q out (mk_known h ob cs st im lg).
Proof.
  intros Hh Hc HQ. unfold request. do 3 known_step. known_step. known_step.
  assert (conn ≠ r) as Hne by (intros ->; done).
  replace ((h ⊎ {[+ r +]} ⊎ object_at r1) ∖ {[+ r +]}) with (h ⊎ object_at r1) by multiset_solver.
  rewrite !(decide_True (P := r = r)) by done. cbn [o_string with_string].
  apply HQ; [set_solver|by intros ->].
Qed.

Lemma k_reply_text rep h ob cs st im lg (Q : option string → list string → known → Prop) out :
  object_at rep ⊆ h →
  (∀ rs, (non_null rep = false → rs = None) → Q rs out (mk_known h ob cs st im lg)) →
  wp pre post (reply_text rep) Q out (mk_known h ob cs st im lg).
Proof.
  intros Hr HQ. unfold reply_text, only_if. destruct (non_null rep) eqn:E; [|by apply HQ].
  rewrite (object_non_null _ E) in Hr. known_step. by apply HQ.
Qed.

Lemma k_drop rep h ob cs st im lg (Q : unit → list string → known → Prop) out :
  (∀ cs', cs ∖ {[rep]} ⊆ cs' → Q tt out (mk_known h ob cs' st im lg)) →
  wp pre post (only_if (non_null rep) tt (ask (xpc_release rep))) Q out
    (mk_known (h ⊎ object_at rep) ob cs st im lg).
Proof.
  intros HQ. unfold only_if. destruct (non_null rep) eqn:E.
  - rewrite (object_non_null _ E). known_step. destruct r.
    replace ((h ⊎ {[+ rep +]}) ∖ {[+ rep +]}) with h by multiset_solver. by apply HQ.
  - rewrite (object_null _ E). replace (h ⊎ ∅) with h by multiset_solver. apply HQ. set_solver.
Qed.

Lemma k_wait_handler name timed_out timeout conn h ob cs st lg (Q : unit → list string → known → Prop) out :
  conn ∈ h → cap_sem st ∈ h →
  (∀ w c cs', cap_label c = cap_label st →
     Q tt (out ++ handler_lines name timed_out (w =? 0) c)
       (mk_known (h ∖ {[+ conn +]}) ob cs' st true (lg ++ [Waited (cap_sem st) timeout w]))) →
  wp pre post (wait_handler name timed_out timeout conn) Q out (mk_known h ob cs st true lg).
Proof.
  intros Hc Hs HQ. unfold wait_handler, print_cap.
  repeat known_step. rewrite <- !app_assoc. destruct r7.
  by apply (HQ r (mk_captured (cap_label st) r0 r1 r2 r3 r4 r5 r6 0)).
Qed.

Ltac scenario_step := lazymatch goal with
  | |- wp _ _ (reset_cap _) _ _ _ => apply k_reset; intros sem c ? ? ?
  | |- wp _ _ (connect _) _ _ _ => apply k_connect; intros q conn ? ? ?
  | |- wp _ _ (request _ _) _ _ _ => apply k_request; [multiset_solver|done|intros rep ? ? ? ?]
  | |- wp _ _ (reply_text _) _ _ _ => apply k_reply_text; [multiset_solver|intros rs ?]
  | |- wp _ _ (only_if _ _ (ask (xpc_release _))) _ _ _ => apply k_drop; intros ? ?
  | |- wp _ _ (wait_handler _ _ _ _) _ _ _ =>
      apply k_wait_handler; cbn [held stored holding]; [multiset_solver|subst; multiset_solver|intros w c' ? ?]
  | _ => known_step
  end.
Ltac kept_tac := unfold did; cbn [held log is_main objects_at]; subst;
  repeat match goal with E : non_null ?p = true |- context [object_at ?p] => rewrite (object_non_null p E) end;
  split; [clear; multiset_solver|split; [by rewrite <- ?app_assoc|done]].

Lemma local_cancel_wp (Q : unit → list string → known → Prop) out s :
  is_main s = true → (∀ o acts l s', d1a o acts l → did l acts s s' → Q tt (out ++ o) s') →
  wp pre post local_cancel Q out s.
Proof.
  intros Hm HQ. unfold local_cancel. destruct s as [h ob cs st im lg]. cbn [is_main] in Hm. subst im.
  repeat scenario_step. rewrite <- !app_assoc. eapply HQ.
  - exists q, conn, (cap_sem c), rep, rs, w, c'. split_and!; try done; congruence.
  - kept_tac.
Qed.
Lemma remote_death_wp (Q : unit → list string → known → Prop) out s :
  is_main s = true → (∀ o acts l s', d1b o acts l → did l acts s s' → Q tt (out ++ o) s') →
  wp pre post remote_death Q out s.
Proof.
  intros Hm HQ. unfold remote_death. destruct s as [h ob cs st im lg]. cbn [is_main] in Hm. subst im.
  repeat scenario_step. rewrite <- !app_assoc. eapply HQ.
  - exists q, conn, (cap_sem c), rep, rs, w, c'. split_and!; try done; congruence.
  - kept_tac.
Qed.

Lemma show_reply_wp h ob cs st im lg (Q : unit → list string → known → Prop) out :
  (∀ a ob' cs', Q tt (out ++ match a with
     | Some (text, err) => ["D3: waiter reply=" +:+ quoted (or_null text) +:+ " is_XPC_TYPE_ERROR=" +:+
         fmt_lld (Z.b2z err)]
     | None => ["D3: waiter returned NULL"] end) (mk_known h ob' cs' st im lg)) →
  wp pre post show_reply Q out (mk_known h ob cs st im lg).
Proof.
  intros HQ. unfold show_reply. known_step. destruct (non_null r) eqn:E; cbn [negb].
  - rewrite (object_non_null _ E). repeat known_step. destruct r0.
    replace ((h ⊎ {[+ r +]}) ∖ {[+ r +]}) with h by multiset_solver. eapply (HQ (Some (_, _))).
  - rewrite (object_null _ E). known_step. replace (h ⊎ ∅) with h by multiset_solver. apply (HQ None).
Qed.

Lemma cancel_pending_wp (Q : unit → list string → known → Prop) out s :
  is_main s = true → (∀ o acts l s', d3 o acts l → did l acts s s' → Q tt (out ++ o) s') →
  wp pre post cancel_pending Q out s.
Proof.
  intros Hm HQ. unfold cancel_pending. destruct s as [h ob cs st im lg]. cbn [is_main] in Hm. subst im.
  repeat scenario_step. unfold only_if. destruct (r4 =? 0) eqn:E.
  - apply show_reply_wp. intros a ob' cs''. scenario_step. rewrite <- !app_assoc. eapply HQ.
    + exists q, conn, (cap_sem c), r, (Some a), r4, w, c'. split_and!; try done; congruence.
    + kept_tac.
  - scenario_step. scenario_step. rewrite <- !app_assoc. eapply HQ.
    + exists q, conn, (cap_sem c), r, None, r4, w, c'. split_and!; try done; congruence.
    + kept_tac.
Qed.

(** The thread beside [main] leaves what it was answered to it, and signals that once. *)
Definition left_reply (conn reply_sem : Z) s s' : Prop :=
  held s' = held s ∧ stored s' = stored s ∧
  ∃ rep, log s' = log s ++ [Asked conn (Some "delay") rep; Left rep; Signalled reply_sem (stored s)].

Lemma delay_block_wp conn reply_sem s :
  {[+ conn +]} ∪ {[+ reply_sem +]} ⊆ held s → conn ∈ connections s →
  wp pre post (delay_block conn reply_sem) (λ _ out s', out = [] ∧ left_reply conn reply_sem s s') [] s.
Proof.
  intros Hh Hc. unfold delay_block. destruct s as [h ob cs st im lg]. cbn [held connections] in Hh, Hc.
  repeat scenario_step. split; [done|]. split; [cbn [held]; multiset_solver|]. split; [done|].
  exists rep. cbn [log]. by rewrite <- !app_assoc.
Qed.

(** The whole run: the scenarios, one after the other. *)
Definition op190_run s (out : list string) s' : Prop :=
  ∃ o1 o2 o3 a1 a2 a3 l1 l2 l3, d1a o1 a1 l1 ∧ d1b o2 a2 l2 ∧ d3 o3 a3 l3 ∧
    out = o1 ++ o2 ++ o3 ++ [""; "OP190_TERMINAL status=0"] ∧
    held s' = held s ⊎ objects_at (l1 ++ l2 ++ l3) ∧ log s' = log s ++ a1 ++ a2 ++ a3.

Lemma main_wp s :
  is_main s = true → wp pre post main (λ rc out s', rc = 0 ∧ op190_run s out s') [] s.
Proof.
  intros Hm. unfold main. apply script_wp_bind, local_cancel_wp; [done|]. intros o1 a1 l1 s1 E1 H1.
  apply script_wp_bind, remote_death_wp; [by destruct H1 as (_ & _ & ->)|]. intros o2 a2 l2 s2 E2 H2.
  pose proof (did_trans _ _ _ _ _ _ _ H1 H2) as H12.
  apply script_wp_bind, cancel_pending_wp; [by destruct H12 as (_ & _ & ->)|]. intros o3 a3 l3 s3 E3 H3.
  destruct (did_trans _ _ _ _ _ _ _ H12 H3) as (Hh & Hl & _).
  repeat known_step. split; [done|]. exists o1, o2, o3, a1, a2, a3, l1, l2, l3.
  rewrite <- !app_assoc in *. by split_and!.
Qed.

(** The run passes only what the thread may use, and ends. *)
Definition runs {W} (answer : ∀ R, call R → W → R * W) (view : W → known) {A} (p : script call A) (w : W)
    (P : A → list string → known → Prop) : Prop :=
  calls_meet answer (λ R c w, pre R c (view w)) p w ∧
  ∃ a out w', run answer p w = (Some a, out, w') ∧ P a out (view w').

Lemma runs_wp {W} (answer : ∀ R, call R → W → R * W) (view : W → known) `{!documented answer view}
    {A} (p : script call A) w (P : A → list string → known → Prop) :
  wp pre post p P [] (view w) → runs answer view p w P.
Proof. exact (wp_run pre post answer view p P [] w). Qed.

End facts.

(** ** A library

    Nobody answers; the addresses are new. *)
Section silent.

Definition new_address s : Z := fresh ({[0]} ∪ dom (held s) : gset Z).

Lemma new_address_new s : non_null (new_address s) = true ∧ new_address s ∉ held s.
Proof.
  unfold new_address, non_null. pose proof (is_fresh ({[0]} ∪ dom (held s) : gset Z)) as Hf.
  rewrite not_elem_of_union, elem_of_singleton, gmultiset_elem_of_dom in Hf. destruct Hf as [H1 H2].
  split; [|done]. by apply negb_true_iff, Z.eqb_neq.
Qed.

Definition blank : object := mk_object 0 (λ _, false) 0 (λ _, None) false.
Definition silent_reply R (c : call R) s : R :=
  match c in call R return R with
  | xpc_connection_create_mach_service _ _ _ | xpc_dictionary_create
  | dispatch_queue_create _ | dispatch_semaphore_create _ => new_address s
  | xpc_dictionary_create_reply event => if o_replyable (objects s event) then new_address s else 0
  | dispatch_get_global_queue _ => 8
  | xpc_connection_send_message_with_reply_sync conn _ =>
      if decide (0 ∈ connections s) then fresh (connections s) else 0
  | get_bg_reply | dispatch_get_main_queue => 0
  | xpc_dictionary_get_string d k => o_string (objects s d) k
  | xpc_dictionary_get_count d => o_count (objects s d)
  | xpc_get_type o => o_type (objects s o)
  | xpc_equal o o' => o_equal (objects s o) o'
  | dispatch_semaphore_wait _ _ => 1
  | load v => match v in var A return A with
      | g_label => cap_label (stored s)
      | g_sem => if is_main s then cap_sem (stored s) else 48
      | g_desc => ""
      | g_fired | g_is_err | g_eq_inv | g_eq_int | g_eq_term | g_count => 0
      end
  | _ => tt
  end.
Definition silent R (c : call R) s : R * known :=
  let r := silent_reply R c s in
  let s1 := holding ((held s ∖ spends R c) ⊎ makes R c r) s in
  (r, match c in call R return R → known with
  | xpc_connection_create_mach_service name _ flags => λ r,
      logged (Connected name flags r) (with_connections ({[r]} ∪ connections s) s1)
  | xpc_connection_set_event_handler conn => λ _, logged (Handling conn) s1
  | xpc_connection_resume conn => λ _, logged (Resumed conn) s1
  | xpc_connection_cancel conn => λ _, logged (Cancelled conn) s1
  | xpc_dictionary_create | get_bg_reply => λ r, with_object r blank s1
  | xpc_connection_send_message_with_reply_sync conn msg => λ r,
      logged (Asked conn (o_string (objects s msg) "op") r) (with_object r blank s1)
  | set_bg_reply o => λ _, logged (Left o) s1
  | xpc_dictionary_create_reply event => λ r,
      if o_replyable (objects s event) then with_object r blank s1 else s1
  | xpc_dictionary_set_string d k v => λ _, with_object d (with_string k v (objects s d)) s1
  | xpc_release o => λ _, with_connections (connections s ∖ {[o]}) s1
  | xpc_connection_send_message conn msg => λ _,
      logged (Answered conn (o_string (objects s msg) "reply")) s1
  | dispatch_async _ conn sem => λ _, logged (Submitted conn sem) s1
  | dispatch_semaphore_signal o => λ _, logged (Signalled o (stored s)) s1
  | dispatch_semaphore_wait o timeout => λ r, logged (Waited o timeout r) s1
  | usleep n => λ _, logged (Slept n) s1
  | sleep n => λ _, logged (Slept (n * 1000000)) s1
  | store v a => λ _, with_stored (set_var v a (stored s)) s1
  | load v => λ _, match v with
      | g_sem => if is_main s then s1 else holding ({[+ 48 +]} ∪ held s1) s1
      | _ => s1
      end
  | _ => λ _, s1
  end r).

#[local] Instance silent_documented : documented silent id.
Proof.
  intros R c s _. destruct (new_address_new s) as [H1 H2].
  destruct c; simpl; try done; repeat split; try done; try (by eexists); try (by right; eauto).
  - case_decide; [apply is_fresh|done].
  - by exists blank.
  - destruct (o_replyable (objects s event)); [|done]. split; [done|]. split; [done|]. by exists blank.
  - destruct v; simpl; try done. destruct (is_main s) eqn:E; by rewrite ?E.
Qed.

(** A process that starts; beside [main], a thread with a connection, an event, which is a
    message that says "delay", and a semaphore. *)
Definition delay_message : object :=
  mk_object 1 (λ _, false) 1 (λ k, if decide (k = "op") then Some "delay" else None) true.
Definition nothing_captured : captured := mk_captured "" 0 0 0 0 0 0 "" 0.
Definition at_start : known := mk_known ∅ (λ _, blank) ∅ nothing_captured true [].
Definition at_event : known :=
  mk_known ({[+ 16 +]} ⊎ {[+ 32 +]} ⊎ {[+ 48 +]}) (λ _, delay_message) {[ 16 ]} nothing_captured false [].

#[local] Instance an_sdk : XpcH := {|
  XPC_CONNECTION_MACH_SERVICE_LISTENER := 1; XPC_TYPE_ERROR := 8; XPC_ERROR_CONNECTION_INVALID := 64;
  XPC_ERROR_CONNECTION_INTERRUPTED := 72; XPC_ERROR_TERMINATION_IMMINENT := 80; QOS_CLASS_DEFAULT := 21 |}.

End silent.
End XpcCancel.
