(* ===== verification/IpcRoundtrip.v ===== *)
(** [findings/nx-r64z/dtrace/mach-ipc/ipc-roundtrip.c]: one message, sent and received. *)

From stdpp Require Import gmultiset list.
From S2P Require Import Prelude MachApi Harness.

Local Open Scope Z_scope.

Module IpcRoundtrip.
Import Harness.

Section program.
Context `{MachSdk}.

Definition sizeof_send : Z := sizeof_mach_msg_header.
Definition sizeof_recv : Z := sizeof_mach_msg_header + sizeof_mach_msg_max_trailer.
Definition send_msg (port : mach_port_t) : mach_msg_buf :=
  mk_msg (MACH_MSGH_BITS MACH_MSG_TYPE_MAKE_SEND 0) sizeof_send port MACH_PORT_NULL 0x4f5031 0
    zero_desc zero_desc.

(** Neither call of [mach_msg] says that it has a timeout, so the 1000 of the second is
    ignored. *)
Definition main : script mach_call Z :=
  '(kr, port) ← ask (mach_port_allocate MACH_PORT_RIGHT_RECEIVE);
  if negb (kr =? KERN_SUCCESS) then _ ← say ("alloc_fail kr=" +:+ fmt_lld kr); mret 1 else
  '(kr, _) ← ask (mach_msg (send_msg port) MACH_SEND_MSG sizeof_send 0 MACH_PORT_NULL 0 MACH_PORT_NULL);
  _ ← say ("send kr=" +:+ fmt_lld kr +:+ " port=" +:+ fmt_lld (u32 port));
  '(kr, recv) ← ask (mach_msg zero_msg MACH_RCV_MSG 0 sizeof_recv port 1000 MACH_PORT_NULL);
  _ ← say ("recv kr=" +:+ fmt_lld kr +:+ " id=0x" +:+ fmt_x (u32 (msgh_id recv)));
  _ ← ask (mach_port_destroy port);
  _ ← say "ipc-roundtrip done";
  mret 0.
End program.

(** The receive right is the handle. *)
#[export] Instance right : Handles mach_call := {|
  needs R c := match c with
    | mach_msg m _ _ _ name _ _ => object_at (msgh_remote_port m) ∪ object_at name
    | mach_port_destroy name => {[+ name +]}
    | _ => ∅
    end;
  spends R c := match c with mach_port_destroy name => {[+ name +]} | _ => ∅ end;
  makes R c := match c in mach_call R return R → gmultiset Z with
    | mach_port_allocate _ => λ r, if r.1 =? KERN_SUCCESS then {[+ r.2 +]} else ∅
    | _ => λ _, ∅
    end |}.

Section facts.
Context `{MachSdk}.

Definition alloc_failed (kr : Z) : list string := ["alloc_fail kr=" +:+ fmt_lld kr].
Definition round_trip (port kr_send kr_recv id : Z) : list string :=
  ["send kr=" +:+ fmt_lld kr_send +:+ " port=" +:+ fmt_lld (u32 port);
   "recv kr=" +:+ fmt_lld kr_recv +:+ " id=0x" +:+ fmt_x (u32 id); "ipc-roundtrip done"].

(** Whatever the kernel answers. *)
Lemma ipc_roundtrip_report {W} (answer : ∀ R, mach_call R → W → R * W) w :
  calls_meet (tracked answer) (λ R c w, entitled R c w.2) main (w, ∅) ∧
  ∃ w', (∃ kr, kr ≠ KERN_SUCCESS ∧ run (tracked answer) main (w, ∅) = (Some 1, alloc_failed kr, (w', ∅))) ∨
    (∃ port k1 k2 id, run (tracked answer) main (w, ∅) = (Some 0, round_trip port k1 k2 id, (w', ∅))).
Proof.
  destruct (wp_run entitled tracks (tracked answer) snd main (λ a out h, h = ∅ ∧
      ((∃ kr, kr ≠ KERN_SUCCESS ∧ a = 1 ∧ out = alloc_failed kr) ∨
       (∃ port k1 k2 id, a = 0 ∧ out = round_trip port k1 k2 id))) [] (w, ∅))
    as [Hc (a & l & [w' h] & E & Hh & Ho)].
  { unfold main. apply t_ask; [simpl; multiset_solver|]. intros [kr port].
    cbn [spends makes right fst snd]. destruct (Z.eqb_spec kr KERN_SUCCESS) as [->|Hk]; cbn [negb].
    2: { split; [multiset_solver|]. left. by exists kr. }
    rewrite one_more. pose proof (object_sub port) as Hp. pose proof (object_sub MACH_PORT_NULL) as Hn.
    apply t_ask; [cbn [needs right send_msg msgh_remote_port]; multiset_solver|]. intros [k1 m1].
    cbn [spends makes right]. rewrite all_kept.
    apply t_ask; [cbn [needs right zero_msg msgh_remote_port]; multiset_solver|]. intros [k2 m2].
    cbn [spends makes right]. rewrite all_kept.
    apply t_ask; [cbn [needs right]; multiset_solver|]. intros k3. cbn [spends makes right].
    split; [multiset_solver|]. right. by exists port, k1, k2, (msgh_id m2). }
  simpl in Ho, Hh. subst h. split; [exact Hc|]. exists w'.
  destruct Ho as [(kr & Hk & -> & ->)|(port & k1 & k2 & id & -> & ->)]; [left|right]; eauto 10.
Qed.
End facts.
End IpcRoundtrip.
