(* ===== verification/QueueHarness.v ===== *)
(** [findings/nx-r64z/dtrace/dispatch-conformance/harness.c] and
    [findings/nx-r64z/dtrace/op098-t2-primitives.c]: tests of libdispatch that rely on the
    order in which a queue runs what was submitted to it.

    The library is a parameter; what its documentation says is the law [documented]: each
    queue runs its blocks one after the other in the order of submission, at any time. *)

From stdpp Require Import gmap list relations.
From S2P Require Import Prelude MachApi RefKernel Harness.

Local Open Scope Z_scope.

Module QueueHarness.
Import Harness.

(** What the blocks and functions that are handed over do: nothing, [g_flag = 1], and
    [g_flag = 1] before the group is left; and the second half of this one, which is what is
    left of it once the flag is set. *)
Inductive block := Nothing | SetFlag | SetFlagAndLeave (g : Z) | Leave (g : Z).

(** The function that [dispatch_once_f] is given: [cb_once] takes one argument, [cb_add] two. *)
Inductive once_function := cb_once | cb_add.

Inductive source_type := TIMER | MACH_RECV (port : mach_port_t).

Inductive call : Type → Type :=
  | dispatch_queue_create (label : string) (serial : bool) : call Z
  | dispatch_get_global_queue (priority : Z) : call Z
  | dispatch_async (q : Z) (b : block) : call unit
  | dispatch_async_f (q : Z) (b : block) : call unit
  | dispatch_sync (q : Z) (b : block) : call unit
  | dispatch_sync_f (q : Z) (b : block) : call unit
  | dispatch_barrier_async (q : Z) (b : block) : call unit
  | dispatch_barrier_sync (q : Z) (b : block) : call unit
  (* [n++] for each index: what [n], which was 0, is afterwards *)
  | dispatch_apply (iterations q : Z) : call Z
  | dispatch_apply_f (iterations q : Z) : call Z
  (* whether the block was run *)
  | dispatch_once (predicate : Z) : call bool
  | dispatch_once_f (predicate : Z) (f : once_function) : call bool
  | dispatch_group_create : call Z
  | dispatch_group_enter (g : Z) : call unit
  | dispatch_group_leave (g : Z) : call unit
  | dispatch_group_wait (g timeout : Z) : call Z
  | dispatch_group_notify (g q : Z) (b : block) : call unit
  | dispatch_semaphore_create (value : nat) : call Z
  | dispatch_semaphore_signal (o : Z) : call unit
  | dispatch_semaphore_wait (o timeout : Z) : call Z
  | dispatch_source_create (t : source_type) (q : Z) : call Z
  | dispatch_source_set_timer (o start : Z) : call unit
  (* a handler that signals the semaphore [sem] *)
  | dispatch_source_set_event_handler (o sem : Z) : call unit
  | dispatch_set_context (o sem : Z) : call unit
  | dispatch_source_set_event_handler_f (o : Z) : call unit
  | dispatch_resume (o : Z) : call unit
  | dispatch_release (o : Z) : call unit
  (* [g_flag] *)
  | atomic_store (value : Z) : call unit
  | atomic_load : call Z
  | Mach {R : Type} (c : mach_call R) : call R.

Abbreviation harness := (harness call).
Definition dispatch {R} (c : call R) : harness R := lift (ask c).
Definition is_true (n : Z) : bool := negb (n =? 0).
Definition verdict (b : bool) : string := if b then "PASS" else "FAIL".
Definition count (b : bool) : Z := if b then 0 else 1.

(** ** harness.c *)

(** The macro [R2], and [R2] of a flag and [atomic_load(&g_flag)], which the macro makes
    once for the line and once for the count. *)
Definition r2_line (name : string) (bv fv : bool) : string :=
  name +:+ ": block=" +:+ verdict bv +:+ " f=" +:+ verdict fv.
Definition R2 (name : string) (bv fv : bool) : harness unit := λ fails,
  Print (r2_line name bv fv) (Return (tt, fails + (count bv + count fv))).
Definition R2_load (name : string) (bv : bool) : harness unit := λ fails,
  fv ← ask atomic_load;
  Print (r2_line name bv (is_true fv)) (
  fv ← ask atomic_load;
  Return (tt, fails + (count bv + count (is_true fv)))).
Definition load : harness bool := λ fails, v ← ask atomic_load; Return (is_true v, fails).

Definition block_tests (q cq : Z) : harness unit :=
  _ ← dispatch (atomic_store 0);
  _ ← dispatch (dispatch_async q SetFlag);
  _ ← dispatch (dispatch_sync q Nothing);
  ab ← load;
  _ ← dispatch (atomic_store 0);
  _ ← dispatch (dispatch_async_f q SetFlag);
  _ ← dispatch (dispatch_sync q Nothing);
  _ ← R2_load "async" ab;
  _ ← dispatch (atomic_store 0);
  _ ← dispatch (dispatch_sync q SetFlag);
  sb ← load;
  _ ← dispatch (atomic_store 0);
  _ ← dispatch (dispatch_sync_f q SetFlag);
  _ ← R2_load "sync" sb;
  n ← dispatch (dispatch_apply 8 q);
  iv ← dispatch (dispatch_apply_f 8 q);
  _ ← R2 "apply" (n =? 8) (iv =? 8);
  o1 ← dispatch (dispatch_once 1);
  o1' ← dispatch (dispatch_once 1);
  o2 ← dispatch (dispatch_once_f 2 cb_once);
  o2' ← dispatch (dispatch_once_f 2 cb_once);
  _ ← R2 "once" (Z.b2z o1 + Z.b2z o1' =? 1) (Z.b2z o2 + Z.b2z o2' =? 1);
  _ ← dispatch (atomic_store 0);
  _ ← dispatch (dispatch_barrier_async cq SetFlag);
  _ ← dispatch (dispatch_barrier_sync cq Nothing);
  bab ← load;
  _ ← dispatch (atomic_store 0);
  _ ← dispatch (dispatch_barrier_sync cq SetFlag);
  R2_load "barrier" bab.

Definition group_test (q : Z) : harness unit :=
  grp ← dispatch dispatch_group_create;
  _ ← dispatch (atomic_store 0);
  _ ← dispatch (dispatch_group_enter grp);
  _ ← dispatch (dispatch_async q (SetFlagAndLeave grp));
  wr ← dispatch (dispatch_group_wait grp (500 * 1000000));
  gv ← (if wr =? 0 then load else mret false);
  _ ← dispatch (dispatch_group_enter grp);
  _ ← dispatch (atomic_store 0);
  _ ← dispatch (dispatch_group_notify grp q SetFlag);
  _ ← dispatch (dispatch_group_leave grp);
  _ ← dispatch (dispatch_sync q Nothing);
  gn ← load;
  _ ← R2 "group" gv gn;
  dispatch (dispatch_release grp).

Definition semaphore_test : harness unit :=
  sem ← dispatch (dispatch_semaphore_create 0);
  _ ← dispatch (dispatch_semaphore_signal sem);
  sw ← dispatch (dispatch_semaphore_wait sem (100 * 1000000));
  to ← dispatch (dispatch_semaphore_wait sem (100 * 1000000));
  _ ← R2 "semaphore" (sw =? 0) (negb (to =? 0));
  dispatch (dispatch_release sem).

(** A timer on [q] after 150 ms, for which [main] waits a second; [result] prints whether it
    fired.  Both programs have this test. *)
Definition timer_test (q : Z) (result : bool → harness unit) : harness unit :=
  sem ← dispatch (dispatch_semaphore_create 0);
  t ← dispatch (dispatch_source_create TIMER q);
  _ ← dispatch (dispatch_source_set_timer t (150 * 1000000));
  _ ← dispatch (dispatch_source_set_event_handler t sem);
  _ ← dispatch (dispatch_resume t);
  r ← dispatch (dispatch_semaphore_wait sem (1000 * 1000000));
  _ ← result (r =? 0);
  _ ← dispatch (dispatch_release t);
  dispatch (dispatch_release sem).

Section mach_recv.
Context `{MachSdk}.

Definition fire_msg (port : mach_port_t) : mach_msg_buf :=
  mk_msg (MACH_MSGH_BITS MACH_MSG_TYPE_MAKE_SEND 0) sizeof_mach_msg_header port MACH_PORT_NULL
    0x4f5032 0 zero_desc zero_desc.

(** The part for a source that was created: whether its handler signalled. *)
Definition fire_source (s port sem : Z) : harness bool :=
  _ ← dispatch (dispatch_set_context s sem);
  _ ← dispatch (dispatch_source_set_event_handler_f s);
  _ ← dispatch (dispatch_resume s);
  '(kr, _) ← dispatch (Mach (mach_msg (fire_msg port) MACH_SEND_MSG sizeof_mach_msg_header 0
                               MACH_PORT_NULL 100 MACH_PORT_NULL));
  mv ← (if kr =? KERN_SUCCESS then
          r ← dispatch (dispatch_semaphore_wait sem (1000 * 1000000)); mret (r =? 0)
        else mret false);
  _ ← dispatch (dispatch_release s);
  mret mv.

Definition mach_recv_test (q : Z) : harness unit :=
  '(kr, port) ← dispatch (Mach (mach_port_allocate MACH_PORT_RIGHT_RECEIVE));
  mv ← (if kr =? KERN_SUCCESS then
    sem ← dispatch (dispatch_semaphore_create 0);
    s ← dispatch (dispatch_source_create (MACH_RECV port) q);
    mv ← (if negb (s =? 0) then fire_source s port sem else mret false);
    _ ← dispatch (dispatch_release sem);
    _ ← dispatch (Mach (mach_port_destroy port));
    mret mv
  else mret false);
  R "source-MACH_RECV" mv.

Definition tests : harness unit :=
  q ← dispatch (dispatch_queue_create "op102" true);
  cq ← dispatch (dispatch_queue_create "op102c" false);
  _ ← block_tests q cq;
  _ ← group_test q;
  _ ← semaphore_test;
  _ ← timer_test q (R "source-timer(NORMAL)");
  mach_recv_test q.

Definition main : script call Z := matrix "op102" tests.
End mach_recv.

(** ** op098-t2-primitives.c *)

(** The macro [R], and what is added to [fails] after it. *)
Definition t2_line (name : string) (ok : bool) (det : string) : string :=
  name +:+ ": " +:+ verdict ok +:+ " " +:+ det.
Definition T2 (name : string) (ok : bool) (det : string) : harness unit := λ fails,
  Print (t2_line name ok det) (Return (tt, fails + count ok)).
Definition T2_load (name : string) : harness unit := λ fails,
  ok ← ask atomic_load;
  Print (t2_line name (is_true ok) "") (
  ok ← ask atomic_load;
  Return (tt, fails + count (is_true ok))).
Definition T2_count (name : string) (n : Z) : harness unit :=
  T2 name (n =? 8) (if n =? 8 then "" else "(count)").
Definition T2_timer (name : string) (fired : bool) : harness unit :=
  T2 name fired (if fired then "(fired)" else "(NO fire)").

Definition t2_tests : harness unit :=
  q ← dispatch (dispatch_queue_create "nx.t2" true);
  _ ← dispatch (atomic_store 0);
  _ ← dispatch (dispatch_async q SetFlag);
  _ ← dispatch (dispatch_sync q Nothing);
  _ ← T2_load "dispatch_async";
  _ ← dispatch (atomic_store 0);
  _ ← dispatch (dispatch_async_f q SetFlag);
  _ ← dispatch (dispatch_sync q Nothing);
  _ ← T2_load "dispatch_async_f";
  _ ← dispatch (atomic_store 0);
  _ ← dispatch (dispatch_sync q SetFlag);
  _ ← T2_load "dispatch_sync";
  _ ← dispatch (atomic_store 0);
  _ ← dispatch (dispatch_sync_f q SetFlag);
  _ ← T2_load "dispatch_sync_f";
  gq ← dispatch (dispatch_get_global_queue 0);
  iv ← dispatch (dispatch_apply_f 8 gq);
  _ ← T2_count "dispatch_apply_f(8)" iv;
  n ← dispatch (dispatch_apply 8 q);
  _ ← T2_count "dispatch_apply(8)" n;
  o1 ← dispatch (dispatch_once 1);
  o1' ← dispatch (dispatch_once 1);
  _ ← T2 "dispatch_once" (Z.b2z o1 + Z.b2z o1' =? 1) "";
  o2 ← dispatch (dispatch_once_f 2 cb_add);
  o2' ← dispatch (dispatch_once_f 2 cb_add);
  _ ← T2 "dispatch_once_f" (Z.b2z o2 + Z.b2z o2' =? 1) "";
  cq ← dispatch (dispatch_queue_create "nx.t2c" false);
  _ ← dispatch (atomic_store 0);
  _ ← dispatch (dispatch_barrier_async cq SetFlag);
  _ ← dispatch (dispatch_barrier_sync cq Nothing);
  _ ← T2_load "dispatch_barrier_async";
  _ ← dispatch (atomic_store 0);
  _ ← dispatch (dispatch_barrier_sync cq SetFlag);
  _ ← T2_load "dispatch_barrier_sync";
  _ ← dispatch (dispatch_release cq);
  _ ← timer_test q (T2_timer "timer_QOS_NORMAL");
  hq ← dispatch (dispatch_get_global_queue 2);
  _ ← timer_test hq (T2_timer "timer_QOS_HIGH(CRITICAL)");
  lq ← dispatch (dispatch_get_global_queue (-2));
  timer_test lq (T2_timer "timer_QOS_LOW(BACKGROUND)").

Definition t2_main : script call Z :=
  '(_, fails) ← t2_tests 0;
  _ ← say ("op098_t2_fails=" +:+ fmt_lld fails);
  _ ← say "op098_t2_terminal status=0";
  mret 0.

(** ** What the documentation says

    The state: the flag, what is submitted and not yet run, each with its queue and whether
    [main] waits for it, the groups with what is to be submitted when they are left, the
    semaphores, those that the handler of a source may signal, the serial queues, and the
    predicates that were seen. *)
Record library := mk_library {
  flag : Z;
  pending : list (Z * (bool * block));
  groups : gmap Z (nat * list (Z * block));
  sems : gmap Z nat;
  by_source : gset Z;
  serial : gset Z;
  seen : gset Z;
}.
Implicit Types s : library.

Definition set_flag (v : Z) s : library :=
  mk_library v (pending s) (groups s) (sems s) (by_source s) (serial s) (seen s).
Definition set_pending l s : library :=
  mk_library (flag s) l (groups s) (sems s) (by_source s) (serial s) (seen s).
Definition set_groups g s : library :=
  mk_library (flag s) (pending s) g (sems s) (by_source s) (serial s) (seen s).
Definition set_sems m s : library :=
  mk_library (flag s) (pending s) (groups s) m (by_source s) (serial s) (seen s).
Definition submit (q : Z) (waited : bool) (b : block) s : library :=
  set_pending (pending s ++ [(q, (waited, b))]) s.

(** The last one to leave submits what waits for that. *)
Definition leave (g : Z) s : library :=
  match groups s !! g with
  | Some (S O, l) =>
      set_groups (<[g := (O, [])]> (groups s))
        (set_pending (pending s ++ map (λ x, (x.1, (false, x.2))) l) s)
  | Some (S n, l) => set_groups (<[g := (n, l)]> (groups s)) s
  | _ => s
  end.

(** The first thing that a block does, and what of it remains to be done then: between the
    two [main] may go on. *)
Definition exec (b : block) s : library :=
  match b with
  | Nothing => s
  | SetFlag | SetFlagAndLeave _ => set_flag 1 s
  | Leave g => leave g s
  end.
Definition rest (b : block) : list block :=
  match b with SetFlagAndLeave g => [Leave g] | _ => [] end.

(** A queue goes on with the first of its blocks; at any time any number of them are run.  Only
    blocks that are barriers are submitted to the concurrent queues. *)
Inductive run_block : library → library → Prop :=
  | run_first s l1 q w b l2 :
      pending s = l1 ++ (q, (w, b)) :: l2 → Forall (λ x, x.1 ≠ q) l1 →
      run_block s (exec b (set_pending (l1 ++ map (λ b', (q, (w, b'))) (rest b) ++ l2) s)).
Definition progress : library → library → Prop := rtc run_block.

(** [main] goes on when what it waits for was run. *)
Definition waits (q : Z) (b : block) s s' : Prop :=
  progress (submit q true b s) s' ∧ Forall (λ x, x.2.1 = false) (pending s').

Definition counts (n q : Z) s (r : Z) : Prop := q ∈ serial s → r = n.
Definition effect R (c : call R) s : R → library → Prop :=
  match c in call R return R → library → Prop with
  | dispatch_queue_create _ true => λ r s',
      r ≠ 0 ∧
      s' = mk_library (flag s) (pending s) (groups s) (sems s) (by_source s) ({[r]} ∪ serial s) (seen s)
  | dispatch_queue_create _ false | dispatch_get_global_queue _ => λ r s',
      r ≠ 0 ∧ r ∉ serial s ∧ s' = s
  | dispatch_async q b | dispatch_async_f q b | dispatch_barrier_async q b => λ _ s',
      s' = submit q false b s
  | dispatch_sync q b | dispatch_sync_f q b | dispatch_barrier_sync q b => λ _ s', waits q b s s'
  | dispatch_apply n q | dispatch_apply_f n q => λ r s', counts n q s r ∧ s' = s
  | dispatch_once p | dispatch_once_f p _ => λ r s',
      r = bool_decide (p ∉ seen s) ∧
      s' = mk_library (flag s) (pending s) (groups s) (sems s) (by_source s) (serial s) ({[p]} ∪ seen s)
  | dispatch_group_create => λ r s',
      r ≠ 0 ∧ groups s !! r = None ∧ s' = set_groups (<[r := (O, [])]> (groups s)) s
  | dispatch_group_enter g => λ _ s', ∃ n l, groups s !! g = Some (n, l) ∧
      s' = set_groups (<[g := (S n, l)]> (groups s)) s
  | dispatch_group_leave g => λ _ s', s' = leave g s
  | dispatch_group_wait g _ => λ r s', progress s s' ∧
      ((∃ l, groups s' !! g = Some (O, l)) ∨ r ≠ 0)
  | dispatch_group_notify g q b => λ _ s', ∃ n l, groups s !! g = Some (n, l) ∧
      s' = match n with
           | O => submit q false b s
           | S _ => set_groups (<[g := (n, l ++ [(q, b)])]> (groups s)) s
           end
  | dispatch_semaphore_create v => λ r s',
      r ≠ 0 ∧ sems s !! r = None ∧ r ∉ by_source s ∧ s' = set_sems (<[r := v]> (sems s)) s
  | dispatch_semaphore_signal o => λ _ s', ∃ v, sems s !! o = Some v ∧
      s' = set_sems (<[o := S v]> (sems s)) s
  | dispatch_semaphore_wait o _ => λ r s', ∃ v, sems s !! o = Some v ∧
      (r = 0 ∧ ((∃ n, v = S n ∧ s' = set_sems (<[o := n]> (sems s)) s) ∨ o ∈ by_source s ∧ s' = s) ∨
       r ≠ 0 ∧ v = O ∧ s' = s)
  | dispatch_source_set_event_handler _ sem | dispatch_set_context _ sem => λ _ s',
      s' = mk_library (flag s) (pending s) (groups s) (sems s) ({[sem]} ∪ by_source s) (serial s) (seen s)
  | dispatch_release o => λ _ s',
      s' = mk_library (flag s) (pending s) (delete o (groups s)) (delete o (sems s))
             (by_source s ∖ {[o]}) (serial s) (seen s)
  | atomic_store v => λ _ s', s' = set_flag v s
  | atomic_load => λ r s', r = flag s ∧ s' = s
  | dispatch_source_create TIMER _ => λ r s', r ≠ 0 ∧ s' = s
  | dispatch_source_create (MACH_RECV _) _ | dispatch_source_set_timer _ _ | dispatch_source_set_event_handler_f _
  | dispatch_resume _ | Mach _ => λ _ s', s' = s
  end.

(** Whether a function may be called with fewer arguments than it takes. *)
Class Abi := spare_arguments : bool.

(** What a caller must ensure. *)
Definition doc_pre `{Abi} R (c : call R) s : Prop :=
  match c with
  | dispatch_async q _ | dispatch_async_f q _ | dispatch_sync q _ | dispatch_sync_f q _
  | dispatch_barrier_async q _ | dispatch_barrier_sync q _ | dispatch_apply _ q
  | dispatch_apply_f _ q | dispatch_source_create _ q => q ≠ 0
  | dispatch_once_f _ cb_add => spare_arguments = true
  | dispatch_source_set_timer o _ | dispatch_source_set_event_handler o _ | dispatch_set_context o _
  | dispatch_source_set_event_handler_f o | dispatch_resume o | dispatch_release o => o ≠ 0
  | dispatch_group_enter g | dispatch_group_wait g _ | dispatch_group_notify g _ _ => is_Some (groups s !! g)
  | dispatch_group_leave g => ∃ n l, groups s !! g = Some (S n, l)
  | dispatch_semaphore_signal o | dispatch_semaphore_wait o _ => is_Some (sems s !! o)
  | _ => True
  end.
Definition doc_post R (c : call R) s (r : R) s' : Prop := ∃ s1, effect R c s r s1 ∧ progress s1 s'.
Abbreviation documented := (Keeps doc_pre doc_post).

(** ** What the tests report *)

Section facts.
Context `{Abi}.

Lemma progress_nil s s' : pending s = [] → progress s s' → s' = s.
Proof.
  intros Hp Hs. inversion Hs as [|? s1 ? H1]; subst; [done|].
  inversion H1 as [? l1 q w b l2 E]; subst. rewrite Hp in E. by destruct l1.
Qed.

Lemma progress_cons q w b l s s' :
  pending s = (q, (w, b)) :: l → Forall (λ x, x.1 = q) l → progress s s' →
  s' = s ∨ progress (exec b (set_pending (map (λ b', (q, (w, b'))) (rest b) ++ l) s)) s'.
Proof.
  intros Hp Hl Hs. inversion Hs as [|? s1 ? H1 H2]; subst; [by left|]. right.
  inversion H1 as [? l1 q' w' b' l2 E Hq]; subst. rewrite Hp in E.
  destruct l1 as [|x l1]; [by injection E as <- <- <- <-|]. injection E as <- ->.
  apply Forall_app in Hl as [_ [E' _]%Forall_cons]. simpl in E'. subst q'.
  apply Forall_cons in Hq as [Hn _]. by destruct Hn.
Qed.

(** [main] with the flag, and nothing pending. *)
Abbreviation calm v g m bs se sn := (mk_library v [] g m bs se sn).

Lemma waits_calm q b v g m bs se sn s' :
  b = Nothing ∨ b = SetFlag → waits q b (calm v g m bs se sn) s' →
  s' = exec b (calm v g m bs se sn).
Proof.
  intros Hb [Hp Hw]. apply (progress_cons q true b []) in Hp as [->|Hp]; [..|done|by constructor].
  - by apply Forall_cons in Hw as [[=] _].
  - destruct Hb as [-> | ->]; by apply progress_nil in Hp.
Qed.

Lemma waits_after q v g m bs se sn s s' :
  progress (mk_library v [(q, (false, SetFlag))] g m bs se sn) s → waits q Nothing s s' →
  s' = calm 1 g m bs se sn.
Proof.
  intros Hs Hw. apply (progress_cons q false SetFlag []) in Hs as [->|Hs]; [..|done|by constructor].
  - destruct Hw as [Hp Hw].
    apply (progress_cons q false SetFlag [(q, (true, Nothing))]) in Hp as [->|Hp];
      [..|done|by repeat constructor].
    { by apply Forall_cons in Hw as [_ [[=] _]%Forall_cons]. }
    apply (progress_cons q true Nothing []) in Hp as [->|Hp]; [..|done|by constructor].
    { by apply Forall_cons in Hw as [[=] _]. }
    by apply progress_nil in Hp.
  - apply progress_nil in Hs as ->; [|done]. apply waits_calm in Hw; [done|by left].
Qed.

(** *** Rules *)

Definition hq {A} (p : harness A) (Q : A → Z → list string → library → Prop) (n : Z)
    (out : list string) s : Prop :=
  wp doc_pre doc_post (p n) (λ x, Q x.1 x.2) out s.

Lemma hq_ret {A} (a : A) (Q : A → Z → list string → library → Prop) n out s :
  Q a n out s → hq (mret a) Q n out s.
Proof. done. Qed.

Lemma hq_bind {A B} (f : A → harness B) (p : harness A) (Q : B → Z → list string → library → Prop) n out s :
  hq p (λ a n out s, hq (f a) Q n out s) n out s → hq (p ≫= f) Q n out s.
Proof. intros Hp. by apply (script_wp_bind doc_pre doc_post (λ x, f x.1 x.2)). Qed.

Lemma hq_call {R} (c : call R) (Q : R → Z → list string → library → Prop) n out s :
  doc_pre R c s → (∀ r s1 s', effect R c s r s1 → progress s1 s' → Q r n out s') →
  hq (dispatch c) Q n out s.
Proof. intros Hc HQ. split; [exact Hc|]. intros r s' (s1 & He & Hp). by eapply HQ. Qed.

(** A call after which nothing is pending. *)
Lemma hq_calm {R} (c : call R) (Q : R → Z → list string → library → Prop) n out s :
  doc_pre R c s → (∀ r s1, effect R c s r s1 → pending s1 = [] ∧ Q r n out s1) →
  hq (dispatch c) Q n out s.
Proof.
  intros Hc HQ. apply hq_call; [done|]. intros r s1 s' He Hp. destruct (HQ r s1 He) as [Hn H1].
  by apply progress_nil in Hp as ->.
Qed.

Section flags.
Context (n : Z) (out : list string) (v : Z) (g : gmap Z (nat * list (Z * block))) (m : gmap Z nat).
Context (bs se sn : gset Z) (q : Z).

Lemma hq_store x (Q : unit → Z → list string → library → Prop) :
  Q tt n out (calm x g m bs se sn) → hq (dispatch (atomic_store x)) Q n out (calm v g m bs se sn).
Proof. intros HQ. apply hq_calm; [done|]. by intros [] s1 ->. Qed.

Lemma hq_async c (Q : unit → Z → list string → library → Prop) :
  (∀ s, doc_pre unit c s) → (∀ s, effect unit c s = λ _ s', s' = submit q false SetFlag s) →
  (∀ s, progress (mk_library v [(q, (false, SetFlag))] g m bs se sn) s → Q tt n out s) →
  hq (dispatch c) Q n out (calm v g m bs se sn).
Proof.
  intros Hc He HQ. apply hq_call; [done|]. intros [] s1 s' Hs Hp. rewrite He in Hs. subst s1.
  by apply HQ.
Qed.

Lemma hq_drain c s (Q : unit → Z → list string → library → Prop) :
  (∀ s, doc_pre unit c s) → (∀ s, effect unit c s = λ _, waits q Nothing s) →
  progress (mk_library v [(q, (false, SetFlag))] g m bs se sn) s →
  Q tt n out (calm 1 g m bs se sn) → hq (dispatch c) Q n out s.
Proof.
  intros Hc He Hs HQ. apply hq_calm; [done|]. intros [] s1 Hw. rewrite He in Hw.
  by rewrite (waits_after _ _ _ _ _ _ _ _ _ Hs Hw).
Qed.

Lemma hq_sync c (Q : unit → Z → list string → library → Prop) :
  (∀ s, doc_pre unit c s) → (∀ s, effect unit c s = λ _, waits q SetFlag s) →
  Q tt n out (calm 1 g m bs se sn) → hq (dispatch c) Q n out (calm v g m bs se sn).
Proof.
  intros Hc He HQ. apply hq_calm; [done|]. intros [] s1 Hw. rewrite He in Hw.
  by rewrite (waits_calm q SetFlag _ _ _ _ _ _ _ ltac:(by right) Hw).
Qed.

Lemma hq_load (Q : bool → Z → list string → library → Prop) :
  Q (is_true v) n out (calm v g m bs se sn) → hq load Q n out (calm v g m bs se sn).
Proof.
  intros HQ. split; [done|]. intros r s' (s1 & [-> ->] & Hp).
  by apply progress_nil in Hp as ->.
Qed.

Lemma hq_R2_load name bv (Q : unit → Z → list string → library → Prop) :
  Q tt (n + (count bv + count (is_true v))) (out ++ [r2_line name bv (is_true v)])
    (calm v g m bs se sn) →
  hq (R2_load name bv) Q n out (calm v g m bs se sn).
Proof.
  intros HQ. split; [done|]. intros r s' (s1 & [-> ->] & Hp). apply progress_nil in Hp as ->; [|done].
  split; [done|]. intros r s' (s1 & [-> ->] & Hp). by apply progress_nil in Hp as ->.
Qed.

Lemma hq_T2_load name (Q : unit → Z → list string → library → Prop) :
  Q tt (n + count (is_true v)) (out ++ [t2_line name (is_true v) ""]) (calm v g m bs se sn) →
  hq (T2_load name) Q n out (calm v g m bs se sn).
Proof.
  intros HQ. split; [done|]. intros r s' (s1 & [-> ->] & Hp). apply progress_nil in Hp as ->; [|done].
  split; [done|]. intros r s' (s1 & [-> ->] & Hp). by apply progress_nil in Hp as ->.
Qed.

Lemma hq_apply c k (Q : Z → Z → list string → library → Prop) :
  (∀ s, doc_pre Z c s) → (∀ s, effect Z c s = λ r s', counts k q s r ∧ s' = s) →
  (∀ r, (q ∈ se → r = k) → Q r n out (calm v g m bs se sn)) →
  hq (dispatch c) Q n out (calm v g m bs se sn).
Proof.
  intros Hc He HQ. apply hq_calm; [done|]. intros r s1 Hs. rewrite He in Hs.
  destruct Hs as [Hr ->]. split; [done|]. by apply HQ.
Qed.

Lemma hq_once c p (Q : bool → Z → list string → library → Prop) :
  (∀ s, doc_pre bool c s) →
  (∀ s, effect bool c s = λ r s', r = bool_decide (p ∉ seen s) ∧
     s' = mk_library (flag s) (pending s) (groups s) (sems s) (by_source s) (serial s) ({[p]} ∪ seen s)) →
  Q (bool_decide (p ∉ sn)) n out (calm v g m bs se ({[p]} ∪ sn)) →
  hq (dispatch c) Q n out (calm v g m bs se sn).
Proof.
  intros Hc He HQ. apply hq_calm; [done|]. intros r s1 Hs. rewrite He in Hs. by destruct Hs as [-> ->].
Qed.

Lemma hq_other_queue c (Q : Z → Z → list string → library → Prop) :
  (∀ s, doc_pre Z c s) → (∀ s, effect Z c s = λ r s', r ≠ 0 ∧ r ∉ serial s ∧ s' = s) →
  (∀ r, r ≠ 0 → Q r n out (calm v g m bs se sn)) → hq (dispatch c) Q n out (calm v g m bs se sn).
Proof.
  intros Hc He HQ. apply hq_calm; [done|]. intros r s1 Hs. rewrite He in Hs.
  destruct Hs as (Hr & _ & ->). split; [done|]. by apply HQ.
Qed.

Lemma hq_release_calm o (Q : unit → Z → list string → library → Prop) :
  o ≠ 0 → Q tt n out (calm v (delete o g) (delete o m) (bs ∖ {[o]}) se sn) →
  hq (dispatch (dispatch_release o)) Q n out (calm v g m bs se sn).
Proof. intros Ho HQ. apply hq_calm; [done|]. by intros [] s1 ->. Qed.
End flags.

Lemma hq_R2 name bv fv n out s (Q : unit → Z → list string → library → Prop) :
  Q tt (n + (count bv + count fv)) (out ++ [r2_line name bv fv]) s → hq (R2 name bv fv) Q n out s.
Proof. done. Qed.
Lemma hq_T2 name ok det n out s (Q : unit → Z → list string → library → Prop) :
  Q tt (n + count ok) (out ++ [t2_line name ok det]) s → hq (T2 name ok det) Q n out s.
Proof. done. Qed.
Lemma hq_R name ok n out s (Q : unit → Z → list string → library → Prop) :
  Q tt (n + count ok) (out ++ [test_line (name, ok)]) s → hq (R name ok) Q n out s.
Proof. done. Qed.

Ltac queue_step := lazymatch goal with
  | |- hq (_ ≫= _) _ _ _ _ => apply hq_bind
  | |- hq (mret _) _ _ _ _ => apply hq_ret
  | |- hq (R2 _ _ _) _ _ _ _ => apply hq_R2
  | |- hq (T2 _ _ _) _ _ _ _ => apply hq_T2
  | |- hq (T2_count _ _) _ _ _ _ => apply hq_T2
  | |- hq load _ _ _ _ => apply hq_load
  | |- hq (R2_load _ _) _ _ _ _ => apply hq_R2_load
  | |- hq (T2_load _) _ _ _ _ => apply hq_T2_load
  | |- hq (dispatch (atomic_store _)) _ _ _ _ => apply hq_store
  | |- hq (dispatch (dispatch_get_global_queue _)) _ _ _ _ => apply hq_other_queue; [done|done|intros ? ?]
  | |- hq (dispatch (dispatch_queue_create _ false)) _ _ _ _ => apply hq_other_queue; [done|done|intros ? ?]
  | |- hq (dispatch (dispatch_release _)) _ _ _ _ => apply hq_release_calm; [done|]
  | |- hq (timer_test _ _) _ _ _ _ => fail
  | |- hq (dispatch (dispatch_apply _ _)) _ _ _ _ => eapply hq_apply; [done|done|intros ? ?]
  | |- hq (dispatch (dispatch_apply_f _ _)) _ _ _ _ => eapply hq_apply; [done|done|intros ? ?]
  | |- hq (dispatch (dispatch_once _)) _ _ _ _ => eapply hq_once; [done|done|]
  | |- hq (dispatch (dispatch_once_f _ _)) _ _ _ _ => eapply hq_once; [done|done|]
  | E : progress _ ?s |- hq (dispatch _) _ _ _ ?s => eapply hq_drain; [done|done|exact E|]; clear E
  | |- hq (dispatch (dispatch_async _ _)) _ _ _ _ => eapply hq_async; [done|done|intros ? ?]
  | |- hq (dispatch (dispatch_async_f _ _)) _ _ _ _ => eapply hq_async; [done|done|intros ? ?]
  | |- hq (dispatch (dispatch_barrier_async _ _)) _ _ _ _ => eapply hq_async; [done|done|intros ? ?]
  | |- hq (dispatch _) _ _ _ _ => eapply hq_sync; [done|done|]
  end.

Definition seen_both : gset Z := {[2]} ∪ ({[2]} ∪ ({[1]} ∪ ({[1]} ∪ ∅))).

(** Whether a predicate is seen for the first time. *)
Ltac decide_seen := repeat match goal with
  | |- context [@bool_decide ?P ?d] =>
      let b := eval vm_compute in (@bool_decide P d) in change (@bool_decide P d) with b
  end.

Lemma hq_block_tests q cq n out v g m bs se (Q : unit → Z → list string → library → Prop) :
  q ≠ 0 → cq ≠ 0 → q ∈ se →
  Q tt n (out ++ [r2_line "async" true true; r2_line "sync" true true; r2_line "apply" true true;
                  r2_line "once" true true; r2_line "barrier" true true])
    (calm 1 g m bs se seen_both) →
  hq (block_tests q cq) Q n out (calm v g m bs se ∅).
Proof.
  intros Hq0 Hcq Hq HQ. unfold block_tests. repeat queue_step.
  repeat match goal with E : q ∈ se → ?x = _ |- _ => specialize (E Hq); subst x end.
  decide_seen. rewrite <- !app_assoc. simpl. by rewrite !Z.add_0_r.
Qed.

(** *** The group *)

(** What is left when the group was waited for: nothing, or the block that was to be run
    then. *)
Definition settled q s : Prop := pending s = [] ∨ pending s = [(q, (false, SetFlag))].

Lemma settled_progress q s s' :
  settled q s → progress s s' → settled q s' ∧ groups s' = groups s ∧ sems s' = sems s ∧
    by_source s' = by_source s ∧ serial s' = serial s ∧ seen s' = seen s.
Proof.
  intros [Hp|Hp] Hs.
  - apply progress_nil in Hs as ->; [|done]. split; [by left|by split_and!].
  - destruct (progress_cons q false SetFlag [] s s' Hp ltac:(by constructor) Hs) as [->|Hs1].
    { split; [by right|by split_and!]. }
    apply progress_nil in Hs1 as ->; [|done]. split; [by left|by split_and!].
Qed.

Section group.
Context (q r : Z) (g : gmap Z (nat * list (Z * block))) (se sn : gset Z).

(** The state with the flag, what is pending, and the group. *)
Definition with_group v p (x : nat * list (Z * block)) : library :=
  mk_library v p (<[r := x]> g) ∅ ∅ se sn.
Definition to_leave : list (Z * (bool * block)) := [(q, (false, SetFlagAndLeave r))].
Definition leaving : list (Z * (bool * block)) := [(q, (false, Leave r))].
Definition to_set : list (Z * (bool * block)) := [(q, (false, SetFlag))].

Lemma leave_last v p l : leave r (with_group v p (1%nat, l)) =
  with_group v (p ++ map (λ x, (x.1, (false, x.2))) l) (O, []).
Proof.
  unfold leave, with_group, set_groups, set_pending. simpl. rewrite lookup_insert_eq.
  by rewrite insert_insert_eq.
Qed.
Lemma leave_not_last v p k l : leave r (with_group v p (S (S k), l)) = with_group v p (S k, l).
Proof.
  unfold leave, with_group, set_groups. simpl. rewrite lookup_insert_eq. by rewrite insert_insert_eq.
Qed.

(** The block that leaves the group has not begun, has set the flag, or has left. *)
Lemma progress_leaving v p k l s :
  Forall (λ x, x.1 = q) p → progress (with_group v ((q, (false, Leave r)) :: p) (S k, l)) s →
  s = with_group v ((q, (false, Leave r)) :: p) (S k, l) ∨
  progress (leave r (with_group v p (S k, l))) s.
Proof. intros Hp Hs. by apply (progress_cons q false (Leave r) p) in Hs. Qed.
Lemma progress_leave v p k l s :
  Forall (λ x, x.1 = q) p →
  progress (with_group v ((q, (false, SetFlagAndLeave r)) :: p) (S k, l)) s →
  s = with_group v ((q, (false, SetFlagAndLeave r)) :: p) (S k, l) ∨
  s = with_group 1 ((q, (false, Leave r)) :: p) (S k, l) ∨
  progress (leave r (with_group 1 p (S k, l))) s.
Proof.
  intros Hp Hs. apply (progress_cons q false (SetFlagAndLeave r) p) in Hs as [->|Hs]; [by left| |done|done].
  right. by apply (progress_leaving 1 p).
Qed.

Lemma progress_set v s :
  progress (with_group v to_set (O, [])) s →
  s = with_group v to_set (O, []) ∨ s = with_group 1 [] (O, []).
Proof.
  intros Hs. apply (progress_cons q false SetFlag []) in Hs as [->|Hs]; [by left| |done|by constructor].
  right. by apply progress_nil in Hs.
Qed.

(** After the submission, with [k] entries of [main]; in time if the block has left. *)
Definition left_with k l s : Prop := ∃ v, s = with_group v [] (k, l).
Definition entered (in_time : bool) k l s : Prop :=
  (in_time = false ∧ ∃ v p, (p = to_leave ∨ p = leaving) ∧ s = with_group v p (S k, l)) ∨
  left_with k l s.

Lemma leave_left v k l s :
  (k = O → l = []) → progress (leave r (with_group v [] (S k, l))) s → left_with k l s.
Proof.
  intros Hl Hs. exists v. destruct k as [|k].
  - specialize (Hl eq_refl). subst l. rewrite leave_last in Hs. by apply progress_nil in Hs.
  - rewrite leave_not_last in Hs. by apply progress_nil in Hs.
Qed.

Lemma entered_progress b k l s s' :
  (k = O → l = []) → entered b k l s → progress s s' → entered b k l s'.
Proof.
  intros Hl [[-> (v & p & [-> | ->] & ->)]|[v ->]] Hs.
  - apply (progress_leave v []) in Hs as [->|[->|Hs]]; [..|by constructor];
      [left; split; [done|]; eexists _, _; eauto..|right; by eapply leave_left].
  - apply (progress_leaving v []) in Hs as [->|Hs]; [..|by constructor];
      [left; split; [done|]; eexists _, _; eauto|right; by eapply leave_left].
  - apply progress_nil in Hs as ->; [|done]. by right; exists v.
Qed.

(** The group was found to be empty. *)
Lemma entered_empty b s x : entered b O [] s → groups s !! r = Some (O, x) → entered true O [] s.
Proof. intros [[-> (v & p & _ & ->)]|Hs] E; [|by right]. simpl in E. by rewrite lookup_insert_eq in E. Qed.

Lemma entered_group b k l s : entered b k l s → ∃ n x, groups s !! r = Some (n, x).
Proof. intros [[_ (v & p & _ & ->)]|[v ->]]; simpl; rewrite lookup_insert_eq; eauto. Qed.

Lemma entered_store b k l v s : entered b k l s → entered b k l (set_flag v s).
Proof. intros [[-> (v' & p & Hp & ->)]|[v' ->]]; [left; split; [done|]; by exists v, p|right; by exists v]. Qed.

Lemma entered_enter b k l s s1 :
  entered b k l s → effect unit (dispatch_group_enter r) s tt s1 → entered b (S k) l s1.
Proof.
  intros [[-> (v & p & Hp & ->)]|[v ->]] (n & x & E & ->); simpl in E; rewrite lookup_insert_eq in E;
    injection E as <- <-; unfold set_groups, with_group; simpl; rewrite insert_insert_eq;
    [left; split; [done|]; by exists v, p|right; by exists v].
Qed.

Lemma entered_notify b k s s1 :
  entered b (S k) [] s → effect unit (dispatch_group_notify r q SetFlag) s tt s1 →
  entered b (S k) [(q, SetFlag)] s1.
Proof.
  intros [[-> (v & p & Hp & ->)]|[v ->]] (n & x & E & ->); simpl in E; rewrite lookup_insert_eq in E;
    injection E as <- <-; unfold set_groups, with_group; simpl; rewrite insert_insert_eq;
    [left; split; [done|]; by exists v, p|right; by exists v].
Qed.

(** After [main] has left. *)
Definition notified s : Prop := (∃ v, s = with_group v to_set (O, [])) ∨ s = with_group 1 [] (O, []).
Definition left_over (in_time : bool) s : Prop :=
  (in_time = false ∧ ∃ v p, (p = to_leave ∨ p = leaving) ∧ s = with_group v p (1%nat, [(q, SetFlag)])) ∨
  notified s.

Lemma leave_notified v s :
  progress (leave r (with_group v [] (1%nat, [(q, SetFlag)]))) s → notified s.
Proof. rewrite leave_last. intros [->| ->]%progress_set; [left; by exists v|by right]. Qed.

Lemma entered_leave b s s' :
  entered b 1 [(q, SetFlag)] s → progress (leave r s) s' → left_over b s'.
Proof.
  intros [[-> (v & p & [-> | ->] & ->)]|[v ->]].
  - rewrite leave_not_last. intros [->|[->|Hs]]%progress_leave; [..|by constructor];
      [left; split; [done|]; eexists _, _; eauto..|right; by eapply leave_notified].
  - rewrite leave_not_last. intros [->|Hs]%progress_leaving; [..|by constructor];
      [left; split; [done|]; eexists _, _; eauto|right; by eapply leave_notified].
  - intros Hs. right. by eapply leave_notified.
Qed.

(** [main] waits for its empty block, which is the first one. *)
Lemma waits_first v l k s :
  Forall (λ x, x.1 = q) l → progress (with_group v ((q, (true, Nothing)) :: l) (k, [])) s →
  Forall (λ x, x.2.1 = false) (pending s) → progress (with_group v l (k, [])) s.
Proof.
  intros Hl Hs Hw. apply (progress_cons q true Nothing l) in Hs as [->|Hs]; [|done..].
  by apply Forall_cons in Hw as [[=] _].
Qed.

Lemma waits_leaving v s :
  progress (leave r (with_group v [(q, (true, Nothing))] (1%nat, [(q, SetFlag)]))) s →
  Forall (λ x, x.2.1 = false) (pending s) → notified s.
Proof.
  rewrite leave_last. intros Hs Hw. apply (waits_first v to_set) in Hs; [|by repeat constructor|done].
  apply progress_set in Hs as [->| ->]; [left; by exists v|by right].
Qed.

Lemma waits_notified s s' : notified s → waits q Nothing s s' → s' = with_group 1 [] (O, []).
Proof.
  intros [[v ->]| ->] [Hp Hw].
  - apply (progress_cons q false SetFlag [(q, (true, Nothing))]) in Hp as [->|Hp];
      [by apply Forall_cons in Hw as [_ [[=] _]%Forall_cons]| |done|by repeat constructor].
    apply (waits_first 1 []) in Hp; [|by constructor|done]. by apply progress_nil in Hp.
  - apply (waits_first 1 []) in Hp; [|by constructor|done]. by apply progress_nil in Hp.
Qed.

(** What [main] waits for behind the two blocks. *)
Lemma waits_settled b s s' :
  left_over b s → waits q Nothing s s' → notified s' ∧ (b = true → s' = with_group 1 [] (O, [])).
Proof.
  intros [[-> (v & p & Hp & ->)]|Hs] Hw; [split; [|done]|].
  - destruct Hw as [Hs Hw]. destruct Hp as [-> | ->].
    + apply (progress_leave v [(q, (true, Nothing))]) in Hs as [->|[->|Hs]];
        [by apply Forall_cons in Hw as [_ [[=] _]%Forall_cons]..| |by repeat constructor].
      by eapply waits_leaving.
    + apply (progress_leaving v [(q, (true, Nothing))]) in Hs as [->|Hs];
        [by apply Forall_cons in Hw as [_ [[=] _]%Forall_cons]| |by repeat constructor].
      by eapply waits_leaving.
  - rewrite (waits_notified _ _ Hs Hw). split; [by right|done].
Qed.

Lemma notified_progress s s' : notified s → progress s s' → notified s'.
Proof.
  intros [[v ->]| ->] Hs; [apply progress_set in Hs as [->| ->]; [left; by exists v|by right]|].
  apply progress_nil in Hs as ->; [by right|done].
Qed.
Lemma notified_settled s : notified s → settled q s ∧ sems s = ∅ ∧ by_source s = ∅ ∧ serial s = se ∧ seen s = sn.
Proof. intros [[v ->]| ->]; (split; [|done]); [by right|by left]. Qed.
End group.

Lemma hq_load_any (Q : bool → Z → list string → library → Prop) n out s :
  (∀ b s', progress s s' → Q b n out s') → hq load Q n out s.
Proof. intros HQ. split; [done|]. intros r s' (s1 & [-> ->] & Hp). by apply HQ. Qed.

(** A state in which the flag does not matter any more, with its semaphores. *)
Definition ready q m bs se sn s : Prop :=
  settled q s ∧ sems s = m ∧ by_source s = bs ∧ serial s = se ∧ seen s = sn.
Abbreviation quiet q se sn := (ready q ∅ ∅ se sn).

Lemma ready_progress q m bs se sn s s' :
  ready q m bs se sn s → progress s s' → ready q m bs se sn s'.
Proof.
  intros (H1 & H2 & H3 & H4 & H5) Hp.
  destruct (settled_progress _ _ _ H1 Hp) as (G1 & _ & G2 & G3 & G4 & G5).
  split; [done|]. by rewrite G2, G3, G4, G5.
Qed.

(** The rest of the test, from the second entry, prints what it found for [gv] and that the
    flag was set by the second block, which is so if the first was done in time. *)
Definition reports_group q se sn n out gv (in_time : bool)
    (Q : unit → Z → list string → library → Prop) : Prop :=
  ∀ gn s', (in_time = true → gn = true) → quiet q se sn s' →
    Q tt (n + (count gv + count gn)) (out ++ [r2_line "group" gv gn]) s'.

Lemma hq_group_end q grp gv b n out g se sn s (Q : unit → Z → list string → library → Prop) :
  q ≠ 0 → grp ≠ 0 → left_over q grp g se sn b s → reports_group q se sn n out gv b Q →
  hq (_ ← dispatch (dispatch_sync q Nothing); gn ← load; _ ← R2 "group" gv gn;
      dispatch (dispatch_release grp)) Q n out s.
Proof.
  intros Hq Hg Hs HQ. apply hq_bind, hq_call; [done|]. intros [] s1 s2 Hw Hp.
  destruct (waits_settled _ _ _ _ _ _ _ _ Hs Hw) as [Hn Ht].
  assert (b = true → s2 = with_group grp g se sn 1 [] (O, [])) as Ht2.
  { intros Hb. specialize (Ht Hb). subst s1. by apply progress_nil in Hp. }
  pose proof (notified_progress _ _ _ _ _ _ _ Hn Hp) as Hn2. clear s s1 Hs Hw Hp Hn Ht.
  apply hq_bind. split; [done|]. intros v s (s1 & [-> ->] & Hp).
  pose proof (notified_progress _ _ _ _ _ _ _ Hn2 Hp) as Hn3.
  apply hq_bind, hq_R2, hq_call; [done|]. intros [] s1 s3 -> Hp3.
  destruct (notified_settled _ _ _ _ _ _ Hn3) as (Hq3 & Hm & Hb & Hse & Hsn).
  apply settled_progress with (q := q) in Hp3 as (Hq4 & _ & Hm4 & Hb4 & Hse4 & Hsn4); [|exact Hq3].
  simpl in *. apply HQ.
  - intros Hb1. by rewrite (Ht2 Hb1).
  - split; [done|]. rewrite Hm4, Hb4, Hse4, Hsn4, Hm, Hb.
    split; [apply delete_empty|]. by split; [set_solver|].
Qed.

Lemma hq_group_rest q grp gv b n out g se sn s (Q : unit → Z → list string → library → Prop) :
  q ≠ 0 → grp ≠ 0 → entered q grp g se sn b 0 [] s → reports_group q se sn n out gv b Q →
  hq (_ ← dispatch (dispatch_group_enter grp); _ ← dispatch (atomic_store 0);
      _ ← dispatch (dispatch_group_notify grp q SetFlag); _ ← dispatch (dispatch_group_leave grp);
      _ ← dispatch (dispatch_sync q Nothing); gn ← load; _ ← R2 "group" gv gn;
      dispatch (dispatch_release grp)) Q n out s.
Proof.
  intros Hq Hg Hs HQ. apply hq_bind, hq_call.
  { destruct (entered_group _ _ _ _ _ _ _ _ _ Hs) as (k & l & E). by eexists. }
  intros [] s1 s2 He Hp. pose proof (entered_enter _ _ _ _ _ _ _ _ _ _ Hs He) as H1.
  pose proof (entered_progress _ _ _ _ _ _ _ _ _ _ ltac:(done) H1 Hp) as H2. clear s s1 Hs He Hp H1.
  apply hq_bind, hq_call; [done|]. intros [] s1 s3 -> Hp.
  pose proof (entered_progress _ _ _ _ _ _ _ _ _ _ ltac:(done)
    (entered_store _ _ _ _ _ _ _ _ 0 _ H2) Hp) as H4. clear s2 H2 Hp.
  apply hq_bind, hq_call.
  { destruct (entered_group _ _ _ _ _ _ _ _ _ H4) as (k & l & E). by eexists. }
  intros [] s1 s4 He Hp. pose proof (entered_notify _ _ _ _ _ _ _ _ _ H4 He) as H5.
  pose proof (entered_progress q grp g se sn b 1 [(q, SetFlag)] _ _ ltac:(done) H5 Hp) as H6.
  clear s3 s1 H4 He Hp H5.
  apply hq_bind, hq_call.
  { destruct H6 as [[_ (v & p & _ & ->)]|[v ->]]; eexists _, _; simpl; apply lookup_insert_eq. }
  intros [] s1 s5 -> Hp. eapply hq_group_end; [done|done| |exact HQ]. by eapply entered_leave.
Qed.

Lemma hq_group_test q n out v g se sn (Q : unit → Z → list string → library → Prop) :
  q ≠ 0 →
  (∀ gv gn s', (gv = true → gn = true) → quiet q se sn s' →
     Q tt (n + (count gv + count gn)) (out ++ [r2_line "group" gv gn]) s') →
  hq (group_test q) Q n out (calm v g ∅ ∅ se sn).
Proof.
  intros Hq HQ. unfold group_test.
  apply hq_bind, hq_calm; [done|]. intros r s1 (Hr & _ & ->). split; [done|].
  apply hq_bind, hq_store. unfold set_groups. simpl.
  apply hq_bind, hq_call; [eexists; apply lookup_insert_eq|]. intros [] s1 s' He Hp.
  assert (s' = with_group r g se sn 0 [] (1%nat, [])) as ->.
  { destruct He as (k & l & E & ->). simpl in E. rewrite lookup_insert_eq in E. injection E as <- <-.
    unfold set_groups in Hp. simpl in Hp. rewrite insert_insert_eq in Hp. by apply progress_nil in Hp. }
  clear Hp He s1. apply hq_bind, hq_call; [done|]. intros [] s1 s' -> Hp.
  assert (entered q r g se sn false 0 [] s') as Hs
    by (eapply entered_progress; [done| |exact Hp]; left; split; [done|]; exists 0, (to_leave q r); eauto).
  clear Hp. apply hq_bind, hq_call.
  { destruct (entered_group _ _ _ _ _ _ _ _ _ Hs) as (k & l & E). by eexists. }
  intros wr s1 s2 [Hp1 Hwr] Hp. apply hq_bind.
  pose proof (entered_progress _ _ _ _ _ _ _ _ _ _ ltac:(done) Hs Hp1) as H1. clear s' Hs Hp1.
  destruct (Z.eqb_spec wr 0) as [->|_].
  - assert (entered q r g se sn true 0 [] s1) as H2
      by (destruct Hwr as [[l Hl]|[]]; [by eapply entered_empty|done]).
    apply hq_load_any. intros gv s3 Hp3.
    eapply hq_group_rest; [done|done| |intros gn s4 Hgn; apply HQ; auto].
    eapply entered_progress, Hp3; [done|]. by eapply entered_progress, Hp.
  - apply hq_ret. eapply hq_group_rest; [done|done| |intros gn s4 Hgn; by apply HQ].
    by eapply entered_progress, Hp.
Qed.

(** *** Semaphores and sources *)

Section ready_rules.
Context (q n : Z) (out : list string) (m : gmap Z nat) (bs se sn : gset Z) (s : library).
Hypothesis Hs : ready q m bs se sn s.

Lemma hr_call {R} (c : call R) m' bs' (Q : R → Z → list string → library → Prop) :
  doc_pre R c s → (∀ r s1, effect R c s r s1 → ready q (m' r) (bs' r) se sn s1) →
  (∀ r s', (∃ s1, effect R c s r s1) → ready q (m' r) (bs' r) se sn s' → Q r n out s') →
  hq (dispatch c) Q n out s.
Proof.
  intros Hc He HQ. apply hq_call; [done|]. intros r s1 s' Hr Hp.
  apply HQ; [by eexists|]. eapply ready_progress; [by apply He|done].
Qed.

Lemma hr_same {R} (c : call R) (Q : R → Z → list string → library → Prop) :
  doc_pre R c s → (∀ r s1, effect R c s r s1 → s1 = s) →
  (∀ r s', (∃ s0 s1, effect R c s0 r s1) → ready q m bs se sn s' → Q r n out s') → hq (dispatch c) Q n out s.
Proof.
  intros Hc He HQ. apply (hr_call c (λ _, m) (λ _, bs)); [done| |].
  - by intros r s1 ->%He.
  - intros r s' [s1 Hr]. apply HQ. by exists s, s1.
Qed.

Lemma hr_create v (Q : Z → Z → list string → library → Prop) :
  (∀ o s', o ≠ 0 → o ∉ bs → ready q (<[o := v]> m) bs se sn s' → Q o n out s') →
  hq (dispatch (dispatch_semaphore_create v)) Q n out s.
Proof.
  destruct Hs as (H1 & H2 & H3 & H4 & H5). intros HQ.
  apply (hr_call _ (λ o, <[o := v]> m) (λ _, bs)); [done|..].
  - intros o s1 (_ & _ & _ & ->). by subst.
  - intros o s' (s1 & H0 & _ & Ho & _) Hr. apply HQ; [done|congruence|done].
Qed.

Lemma hr_signal o v (Q : unit → Z → list string → library → Prop) :
  m !! o = Some v → (∀ s', ready q (<[o := S v]> m) bs se sn s' → Q tt n out s') →
  hq (dispatch (dispatch_semaphore_signal o)) Q n out s.
Proof.
  destruct Hs as (H1 & H2 & H3 & H4 & H5). intros Ho HQ.
  apply (hr_call _ (λ _, <[o := S v]> m) (λ _, bs)).
  - exists v. by rewrite H2.
  - intros [] s1 (v' & E & ->). rewrite H2, Ho in E. injection E as <-. by subst.
  - intros [] s' _. apply HQ.
Qed.

Lemma hr_wait o t v (Q : Z → Z → list string → library → Prop) :
  m !! o = Some v →
  (∀ r m' s', (r = 0 ∧ (∃ k, v = S k ∧ m' = <[o := k]> m) ∨ r = 0 ∧ o ∈ bs ∧ m' = m ∨
               r ≠ 0 ∧ v = O ∧ m' = m) →
     ready q m' bs se sn s' → Q r n out s') →
  hq (dispatch (dispatch_semaphore_wait o t)) Q n out s.
Proof.
  destruct Hs as (H1 & H2 & H3 & H4 & H5). intros Ho HQ. apply hq_call; [exists v; by rewrite H2|].
  intros r s1 s' (v' & E & He) Hp. rewrite H2, Ho in E. injection E as <-.
  destruct He as [[-> [(k & -> & ->)|[Hb ->]]]|(Hr & -> & ->)].
  - apply (HQ 0 (<[o := k]> m)); [left; eauto|]. eapply ready_progress; [|done]. by subst.
  - apply (HQ 0 m); [right; left; by subst|]. by eapply ready_progress.
  - apply (HQ r m); [by right; right|]. by eapply ready_progress.
Qed.

Lemma hr_handler o c (Q : unit → Z → list string → library → Prop) :
  (∀ s, doc_pre unit c s) →
  (∀ s, effect unit c s = λ _ s', s' = mk_library (flag s) (pending s) (groups s) (sems s)
     ({[o]} ∪ by_source s) (serial s) (seen s)) →
  (∀ s', ready q m ({[o]} ∪ bs) se sn s' → Q tt n out s') → hq (dispatch c) Q n out s.
Proof.
  destruct Hs as (H1 & H2 & H3 & H4 & H5). intros Hc He HQ.
  apply (hr_call _ (λ _, m) (λ _, {[o]} ∪ bs)); [done| |].
  - intros [] s1 E. rewrite He in E. by subst.
  - intros [] s' _. apply HQ.
Qed.

Lemma hr_release o (Q : unit → Z → list string → library → Prop) :
  o ≠ 0 → (∀ s', ready q (delete o m) (bs ∖ {[o]}) se sn s' → Q tt n out s') →
  hq (dispatch (dispatch_release o)) Q n out s.
Proof.
  destruct Hs as (H1 & H2 & H3 & H4 & H5). intros Ho HQ.
  apply (hr_call _ (λ _, delete o m) (λ _, bs ∖ {[o]})); [done| |].
  - intros [] s1 ->. by subst.
  - intros [] s' _. apply HQ.
Qed.
End ready_rules.

Lemma hq_semaphore_test q n out se sn s (Q : unit → Z → list string → library → Prop) :
  quiet q se sn s →
  (∀ s', quiet q se sn s' → Q tt n (out ++ [r2_line "semaphore" true true]) s') →
  hq semaphore_test Q n out s.
Proof.
  intros Hs HQ. unfold semaphore_test.
  eapply hq_bind, hr_create; [exact Hs|]. clear s Hs. intros o s Ho0 _ Hs.
  eapply hq_bind, hr_signal; [exact Hs|apply lookup_insert_eq|]. clear s Hs. intros s Hs.
  rewrite insert_insert_eq in Hs.
  eapply hq_bind, hr_wait; [exact Hs|apply lookup_insert_eq|]. clear s Hs.
  intros r m s [[-> (k & [= <-] & ->)]|[(_ & Hb & _)|(_ & [=] & _)]] Hs; [|set_solver].
  rewrite insert_insert_eq in Hs.
  eapply hq_bind, hr_wait; [exact Hs|apply lookup_insert_eq|]. clear s Hs.
  intros r m s [[-> (k & [=] & _)]|[(_ & Hb & _)|(Hr & _ & ->)]] Hs; [set_solver|].
  rewrite (proj2 (Z.eqb_neq r 0) Hr).
  apply hq_bind, hq_R2. eapply hr_release; [exact Hs|done|]. clear s Hs. intros s Hs.
  simpl. rewrite Z.add_0_r. apply HQ.
  rewrite delete_insert_eq, delete_empty in Hs. by replace (∅ ∖ {[o]}) with (∅ : gset Z) in Hs by set_solver.
Qed.

Lemma hq_timer_test q' q n out se sn s result line (Q : unit → Z → list string → library → Prop) :
  (∀ b (Q : unit → Z → list string → library → Prop) n out s,
     Q tt (n + count b) (out ++ [line b]) s → hq (result b) Q n out s) →
  q' ≠ 0 → quiet q se sn s →
  (∀ b s', quiet q se sn s' → Q tt (n + count b) (out ++ [line b]) s') →
  hq (timer_test q' result) Q n out s.
Proof.
  intros Hl Hq Hs HQ. unfold timer_test.
  eapply hq_bind, hr_create; [exact Hs|]. clear s Hs. intros o s Ho0 _ Hs.
  eapply hq_bind, hr_same; [exact Hs|done|by intros ? ? [_ ->]|]. clear s Hs. intros t s (s0 & s1 & Ht & _) Hs. clear s0 s1.
  eapply hq_bind, hr_same; [exact Hs|done|done|]. clear s Hs. intros _ s _ Hs.
  eapply hq_bind, (hr_handler q _ _ _ _ _ _ _ Hs o); [done|done|]. clear s Hs. intros s Hs.
  eapply hq_bind, hr_same; [exact Hs|done|done|]. clear s Hs. intros _ s _ Hs.
  eapply hq_bind, hr_wait; [exact Hs|apply lookup_insert_eq|]. clear s Hs. intros r m s Hm Hs.
  assert (delete o (delete t m) = ∅) as Ho.
  { rewrite delete_delete. destruct Hm as [[_ (k & _ & ->)]|[(_ & _ & ->)|(_ & _ & ->)]];
      by rewrite ?delete_insert_eq, ?delete_empty, ?delete_insert_eq, ?delete_empty. }
  apply hq_bind, Hl.
  eapply hq_bind, hr_release; [exact Hs|done|]. clear s Hs. intros s Hs.
  eapply hr_release; [exact Hs|done|]. clear s Hs. intros s Hs. rewrite Ho in Hs.
  apply HQ. by replace (({[o]} ∪ ∅) ∖ {[t]} ∖ {[o]}) with (∅ : gset Z) in Hs by set_solver.
Qed.

Section programs.
Context `{MachSdk}.

Lemma hq_mach {A} (c : mach_call A) q m bs se sn n out s (Q : A → Z → list string → library → Prop) :
  ready q m bs se sn s → (∀ r s', ready q m bs se sn s' → Q r n out s') →
  hq (dispatch (Mach c)) Q n out s.
Proof. intros Hs HQ. eapply hr_same; [exact Hs|done|done|]. intros r s' _. apply HQ. Qed.

Lemma hq_fire_source q n out se sn s src port sem bs m (Q : bool → Z → list string → library → Prop) :
  src ≠ 0 → ready q m bs se sn s → is_Some (m !! sem) →
  (∀ b m' bs' s', ready q m' bs' se sn s' → Q b n out s') → hq (fire_source src port sem) Q n out s.
Proof.
  intros Hsrc Hs [v Hm] HQ. unfold fire_source.
  eapply hq_bind, (hr_handler q _ _ _ _ _ _ _ Hs sem); [done|done|]. clear s Hs. intros s Hs.
  eapply hq_bind, hr_same; [exact Hs|done|done|]. clear s Hs. intros _ s _ Hs.
  eapply hq_bind, hr_same; [exact Hs|done|done|]. clear s Hs. intros _ s _ Hs.
  eapply hq_bind, hq_mach; [exact Hs|]. clear s Hs. intros [kr buf] s Hs.
  apply hq_bind. destruct (kr =? KERN_SUCCESS).
  - eapply hq_bind, hr_wait; [exact Hs|exact Hm|]. clear s Hs. intros r m' s _ Hs.
    apply hq_ret. eapply hq_bind, hr_release; [exact Hs|done|]. clear s Hs. intros s Hs. apply hq_ret. by eapply HQ.
  - apply hq_ret. eapply hq_bind, hr_release; [exact Hs|done|]. clear s Hs. intros s Hs. apply hq_ret. by eapply HQ.
Qed.

Lemma hq_mach_recv_test q n out se sn s (Q : unit → Z → list string → library → Prop) :
  q ≠ 0 → quiet q se sn s →
  (∀ b s', Q tt (n + count b) (out ++ [test_line ("source-MACH_RECV", b)]) s') →
  hq (mach_recv_test q) Q n out s.
Proof.
  intros Hq Hs HQ. unfold mach_recv_test.
  eapply hq_bind, hq_mach; [exact Hs|]. clear s Hs. intros [kr port] s Hs.
  apply hq_bind. destruct (kr =? KERN_SUCCESS); [|apply hq_ret, hq_R, HQ].
  eapply hq_bind, hr_create; [exact Hs|]. clear s Hs. intros sem s Hsem _ Hs.
  eapply hq_bind, hr_same; [exact Hs|done|done|]. clear s Hs. intros src s _ Hs.
  assert (∀ b m bs s, ready q m bs se sn s →
    hq (_ ← dispatch (dispatch_release sem); _ ← dispatch (Mach (mach_port_destroy port)); mret b)
      (λ b n out s, hq (R "source-MACH_RECV" b) Q n out s) n out s) as Hend.
  { clear s Hs. intros b m bs s Hs.
    eapply hq_bind, hr_release; [exact Hs|done|]. clear s Hs. intros s Hs.
    eapply hq_bind, hq_mach; [exact Hs|]. clear s Hs. intros kd s Hs. apply hq_ret, hq_R, HQ. }
  apply hq_bind. destruct (Z.eqb_spec src 0) as [_|Hsrc]; simpl; [apply hq_ret; by eapply Hend|].
  eapply hq_fire_source; [exact Hsrc|exact Hs|eexists; apply lookup_insert_eq|apply Hend].
Qed.

(** What harness.c prints: the group was left in time, the flag was set after that, the timer
    fired, the source was serviced. *)
Definition op102_lines (gv gn tv mv : bool) : list string :=
  [r2_line "async" true true; r2_line "sync" true true; r2_line "apply" true true;
   r2_line "once" true true; r2_line "barrier" true true; r2_line "group" gv gn;
   r2_line "semaphore" true true; test_line ("source-timer(NORMAL)", tv);
   test_line ("source-MACH_RECV", mv);
   "op102_matrix_fails=" +:+ fmt_lld (count gv + count gn + count tv + count mv);
   "op102_matrix_terminal status=0"].

Definition nothing_yet : library := mk_library 0 [] ∅ ∅ ∅ ∅ ∅.

Lemma hq_tests :
  hq tests (λ _ n out _, ∃ gv gn tv mv, (gv = true → gn = true) ∧
    out ++ ["op102_matrix_fails=" +:+ fmt_lld n; "op102_matrix_terminal status=0"] =
    op102_lines gv gn tv mv) 0 [] nothing_yet.
Proof.
  unfold tests. apply hq_bind, hq_calm; [done|]. intros q s1 [Hq ->]. split; [done|].
  apply hq_bind, hq_calm; [done|]. intros cq s1 (Hcq & _ & ->). split; [done|].
  apply hq_bind, hq_block_tests; [done|done|set_solver|].
  apply hq_bind, hq_group_test; [done|]. intros gv gn s Hg Hs.
  eapply hq_bind, hq_semaphore_test; [exact Hs|]. clear s Hs. intros s Hs.
  eapply hq_bind, (hq_timer_test q q _ _ _ _ _ _ (λ b, test_line ("source-timer(NORMAL)", b)));
    [intros; by apply hq_R|exact Hq|exact Hs|]. clear s Hs. intros tv s Hs.
  eapply hq_mach_recv_test; [exact Hq|exact Hs|]. intros mv s'. exists gv, gn, tv, mv. split; [exact Hg|].
  unfold op102_lines. rewrite <- !app_assoc. by destruct gv, gn, tv, mv.
Qed.

Lemma wp_main :
  wp doc_pre doc_post main (λ rc out _, rc = 0 ∧ ∃ gv gn tv mv,
    (gv = true → gn = true) ∧ out = op102_lines gv gn tv mv) [] nothing_yet.
Proof.
  unfold main, matrix. apply script_wp_bind. eapply script_wp_mono; [exact hq_tests|].
  intros [u n] out s (gv & gn & tv & mv & Hg & E). simpl in *. split; [done|].
  rewrite <- app_assoc. by exists gv, gn, tv, mv.
Qed.

(** What op098-t2-primitives.c prints: the count of the blocks that were applied on the global
    queue, and which timers fired. *)
Definition op098_lines (iv : Z) (t1 t2 t3 : bool) : list string :=
  let applied n := if n =? 8 then "" else "(count)" in
  let fired b := if b : bool then "(fired)" else "(NO fire)" in
  [t2_line "dispatch_async" true ""; t2_line "dispatch_async_f" true "";
   t2_line "dispatch_sync" true ""; t2_line "dispatch_sync_f" true "";
   t2_line "dispatch_apply_f(8)" (iv =? 8) (applied iv); t2_line "dispatch_apply(8)" true "";
   t2_line "dispatch_once" true ""; t2_line "dispatch_once_f" true "";
   t2_line "dispatch_barrier_async" true ""; t2_line "dispatch_barrier_sync" true "";
   t2_line "timer_QOS_NORMAL" t1 (fired t1); t2_line "timer_QOS_HIGH(CRITICAL)" t2 (fired t2);
   t2_line "timer_QOS_LOW(BACKGROUND)" t3 (fired t3);
   "op098_t2_fails=" +:+ fmt_lld (count (iv =? 8) + count t1 + count t2 + count t3);
   "op098_t2_terminal status=0"].

Lemma hq_t2_timer q' q name n out se sn s (Q : unit → Z → list string → library → Prop) :
  q' ≠ 0 → quiet q se sn s →
  (∀ b s', quiet q se sn s' →
     Q tt (n + count b) (out ++ [t2_line name b (if b then "(fired)" else "(NO fire)")]) s') →
  hq (timer_test q' (T2_timer name)) Q n out s.
Proof.
  intros Hq Hs HQ.
  eapply (hq_timer_test q' q _ _ _ _ _ _ (λ b, t2_line name b (if b then "(fired)" else "(NO fire)")));
    [intros; by apply hq_T2|exact Hq|exact Hs|exact HQ].
Qed.

Lemma hq_t2_tests :
  spare_arguments = true → hq t2_tests (λ _ n out _, ∃ iv t1 t2 t3,
    out ++ ["op098_t2_fails=" +:+ fmt_lld n; "op098_t2_terminal status=0"] =
    op098_lines iv t1 t2 t3) 0 [] nothing_yet.
Proof.
  intros Habi. unfold t2_tests. apply hq_bind, hq_calm; [done|]. intros q s1 [Hq0 ->]. split; [done|]. simpl.
  repeat queue_step. decide_seen.
  assert (q ∈ ({[q]} ∪ ∅ : gset Z)) as Hq by set_solver.
  match goal with E : q ∈ _ → ?x = 8 |- _ => specialize (E Hq); subst x end.
  match goal with |- hq (timer_test _ _) _ _ _ (mk_library _ _ _ (delete ?o _) _ ?se ?sn) =>
    eapply (hq_t2_timer q q _ _ _ se sn); [exact Hq0|..] end.
  { split; [by left|]. split; [apply delete_empty|]. by split; [set_solver|]. }
  intros t1 s' Hs. queue_step. eapply hr_same; [exact Hs|done|by intros ? ? (_ & _ & ->)|].
  clear s' Hs. intros highq s' (s3 & s2 & Hh & _) Hs. clear s3 s2.
  eapply hq_bind, (hq_t2_timer highq q); [exact Hh|exact Hs|]. clear s' Hs. intros t2 s' Hs.
  apply hq_bind. eapply hr_same; [exact Hs|done|by intros ? ? (_ & _ & ->)|].
  clear s' Hs. intros lowq s' (s3 & s2 & Hl & _) Hs. clear s3 s2.
  eapply (hq_t2_timer lowq q); [exact Hl|exact Hs|]. clear s' Hs. intros t3 s' Hs.
  eexists _, t1, t2, t3. rewrite <- !app_assoc. unfold op098_lines. simpl.
  by rewrite ?Z.add_0_r, ?Z.add_0_l.
Qed.
Lemma wp_t2_main :
  spare_arguments = true → wp doc_pre doc_post t2_main (λ rc out _, rc = 0 ∧ ∃ iv t1 t2 t3, out = op098_lines iv t1 t2 t3)
    [] nothing_yet.
Proof.
  intros Habi. apply (script_wp_bind doc_pre doc_post _ (t2_tests 0)).
  eapply script_wp_mono; [by apply hq_t2_tests|].
  intros [u n] out s (iv & t1 & t2 & t3 & E). simpl in *. split; [done|].
  rewrite <- app_assoc. by exists iv, t1, t2, t3.
Qed.

(** C22: With every libdispatch that keeps its documentation and creates what it is asked for
    (the source for a Mach port excepted), whenever its queues run what was submitted, [main] of
    both programs uses only objects that were created, enters and leaves groups, and waits for
    and signals semaphores, only as it may, and returns 0.  harness.c reports a pass of every
    test but for the group, the timer and the source, which depend on time; the second result of
    the group is a pass if the first is one.  op098-t2-primitives.c, which gives
    [dispatch_once_f] a function of two arguments, reports, where such a function may be called
    with one, a pass of every test but for the three timers and the counter that is incremented
    without synchronization on a concurrent queue. *)
Theorem queues_in_order {W} (answer : ∀ R, call R → W → R * W) (view : W → library)
    `{!documented answer view} w :
  view w = nothing_yet →
  (calls_meet answer (λ R c w, doc_pre R c (view w)) main w ∧
   ∃ gv gn tv mv w', (gv = true → gn = true) ∧
     run answer main w = (Some 0, op102_lines gv gn tv mv, w')) ∧
  (spare_arguments = true →
   calls_meet answer (λ R c w, doc_pre R c (view w)) t2_main w ∧
   ∃ iv t1 t2 t3 w', run answer t2_main w = (Some 0, op098_lines iv t1 t2 t3, w')).
Proof.
  intros Hw. pose proof wp_main as H1. rewrite <- Hw in H1.
  apply (wp_run doc_pre doc_post answer view) in H1
    as [Hc1 (rc & l & w1 & E1 & -> & gv & gn & tv & mv & Hg & El)].
  simpl in El. subst l. split; [split; [exact Hc1|by exists gv, gn, tv, mv, w1]|].
  intros Habi. pose proof (wp_t2_main Habi) as H2. rewrite <- Hw in H2.
  apply (wp_run doc_pre doc_post answer view) in H2
    as [Hc2 (rc & l & w2 & E2 & -> & iv & t1 & t2 & t3 & El)].
  simpl in El. subst l. split; eauto 10.
Qed.
End programs.
End facts.

(** ** A library

    Blocks are run when [main] waits, those that were submitted first first; whoever waits for
    time to pass waits in vain. *)
Section lazy.
Import OnMacos.

#[local] Instance any_function : Abi := true.

Fixpoint run_first_of (n : nat) s : library :=
  match n, pending s with
  | S n, (q, (w, b)) :: l =>
      run_first_of n (exec b (set_pending (map (λ b', (q, (w, b'))) (rest b) ++ l) s))
  | _, _ => s
  end.

Lemma run_first_progress n s : progress s (run_first_of n s).
Proof.
  revert s. induction n as [|n IH]; intros s; simpl; [constructor|].
  destruct (pending s) as [|[q [w b]] l] eqn:E; [constructor|].
  econstructor; [exact (run_first s [] q w b l E ltac:(constructor))|apply IH].
Qed.

(** Nobody waits for these. *)
Abbreviation unwaited := (Forall (λ x : Z * (bool * block), x.2.1 = false)).

Lemma exec_pending b s : ∃ l, pending (exec b s) = pending s ++ l ∧ unwaited l.
Proof.
  destruct b as [| | |g]; simpl; [exists []; rewrite app_nil_r; by split..|].
  unfold leave. simpl. destruct (groups s !! g) as [[[|[|k]] l]|]; simpl;
    [exists []; rewrite app_nil_r; by split| |exists []; rewrite app_nil_r; by split..].
  eexists. split; [done|]. apply Forall_map, Forall_forall. done.
Qed.

(** How often a queue goes on until all of a list is done. *)
Definition work (l : list (Z * (bool * block))) : nat := sum_list_with (λ x, S (length (rest x.2.2))) l.

Lemma work_rest q w b l : (work (map (λ b', (q, (w, b'))) (rest b) ++ l) < work ((q, (w, b)) :: l))%nat.
Proof. destruct b; simpl; lia. Qed.

Lemma run_first_unwaited n s l1 l2 :
  pending s = l1 ++ l2 → (work l1 ≤ n)%nat → unwaited l2 → unwaited (pending (run_first_of n s)).
Proof.
  revert s l1 l2. induction n as [|n IH]; intros s [|[q [w b]] l1] l2 E Hn Hl; simpl; try (simpl in Hn; lia).
  - by rewrite E.
  - destruct l2 as [|[q [w b]] l2]; rewrite E; simpl; [by rewrite E|].
    apply Forall_cons in Hl as [Hw Hl]. simpl in Hw. subst w.
    destruct (exec_pending b (set_pending (map (λ b', (q, (false, b'))) (rest b) ++ l2) s)) as (l & El & Hl').
    eapply (IH _ [] _ El); [simpl; lia|]. repeat apply Forall_app_2; try done.
    by apply Forall_map, Forall_forall.
  - rewrite E. simpl.
    destruct (exec_pending b (set_pending (map (λ b', (q, (w, b'))) (rest b) ++ l1 ++ l2) s)) as (l & El & Hl').
    eapply (IH _ (map (λ b', (q, (w, b'))) (rest b) ++ l1) (l2 ++ l));
      [by rewrite El; simpl; rewrite <- !app_assoc| |by apply Forall_app].
    pose proof (work_rest q w b l1). lia.
Qed.

Definition wait_for (q : Z) (b : block) s : library :=
  run_first_of (work (pending s ++ [(q, (true, b))])) (submit q true b s).

Lemma wait_for_waits q b s : waits q b s (wait_for q b s).
Proof.
  split; [apply run_first_progress|].
  by apply (run_first_unwaited _ _ (pending s ++ [(q, (true, b))]) []); [rewrite app_nil_r|..].
Qed.

(** The name of an object that is created; none is named 0. *)
Definition fresh_object (X : gset Z) : Z := fresh ({[0]} ∪ X).

Definition lazy R (c : call R) (w : library * machine) : R * (library * machine) :=
  let s := w.1 in
  match c in call R return R * (library * machine) with
  | dispatch_queue_create _ srl =>
      let r := fresh_object (serial s) in
      (r, (if srl then mk_library (flag s) (pending s) (groups s) (sems s) (by_source s)
             ({[r]} ∪ serial s) (seen s) else s, w.2))
  | dispatch_get_global_queue _ => (fresh_object (serial s), w)
  | dispatch_async q b | dispatch_async_f q b | dispatch_barrier_async q b => (tt, (submit q false b s, w.2))
  | dispatch_sync q b | dispatch_sync_f q b | dispatch_barrier_sync q b => (tt, (wait_for q b s, w.2))
  | dispatch_apply n _ | dispatch_apply_f n _ => (n, w)
  | dispatch_once p | dispatch_once_f p _ =>
      (bool_decide (p ∉ seen s), (mk_library (flag s) (pending s) (groups s) (sems s) (by_source s)
         (serial s) ({[p]} ∪ seen s), w.2))
  | dispatch_group_create =>
      let r := fresh_object (dom (groups s)) in (r, (set_groups (<[r := (O, [])]> (groups s)) s, w.2))
  | dispatch_group_enter g =>
      (tt, (if groups s !! g is Some (n, l) then set_groups (<[g := (S n, l)]> (groups s)) s else s, w.2))
  | dispatch_group_leave g => (tt, (leave g s, w.2))
  | dispatch_group_wait g _ => (if groups s !! g is Some (O, _) then 0 else 1, w)
  | dispatch_group_notify g q b =>
      (tt, (match groups s !! g with
            | Some (O, _) => submit q false b s
            | Some (S n, l) => set_groups (<[g := (S n, l ++ [(q, b)])]> (groups s)) s
            | None => s
            end, w.2))
  | dispatch_semaphore_create v =>
      let r := fresh_object (dom (sems s) ∪ by_source s) in (r, (set_sems (<[r := v]> (sems s)) s, w.2))
  | dispatch_semaphore_signal o =>
      (tt, (if sems s !! o is Some v then set_sems (<[o := S v]> (sems s)) s else s, w.2))
  | dispatch_semaphore_wait o _ =>
      if sems s !! o is Some (S v) then (0, (set_sems (<[o := v]> (sems s)) s, w.2)) else (1, w)
  | dispatch_source_create _ _ => (16, w)
  | dispatch_source_set_event_handler _ sem | dispatch_set_context _ sem =>
      (tt, (mk_library (flag s) (pending s) (groups s) (sems s) ({[sem]} ∪ by_source s) (serial s)
              (seen s), w.2))
  | dispatch_release o =>
      (tt, (mk_library (flag s) (pending s) (delete o (groups s)) (delete o (sems s))
              (by_source s ∖ {[o]}) (serial s) (seen s), w.2))
  | atomic_store v => (tt, (set_flag v s, w.2))
  | atomic_load => (flag s, w)
  | dispatch_source_set_timer _ _ | dispatch_source_set_event_handler_f _ | dispatch_resume _ => (tt, w)
  | Mach c => let '(r, k) := handle c w.2 in (r, (s, k))
  end.

Lemma fresh_object_new X : fresh_object X ≠ 0 ∧ fresh_object X ∉ X.
Proof. pose proof (is_fresh ({[0]} ∪ X)) as H. unfold fresh_object. set_solver. Qed.

Lemma lazy_effect R (c : call R) w :
  doc_pre R c w.1 → effect R c w.1 (lazy R c w).1 (lazy R c w).2.1.
Proof.
  destruct w as [s k]. destruct c; simpl; try done; intros Hc.
  all: try apply wait_for_waits.
  all: try (pose proof (fresh_object_new (serial s)); set_solver).
  - destruct serial0; simpl; pose proof (fresh_object_new (serial s)); set_solver.
  - destruct (fresh_object_new (dom (groups s))) as [H0 Hg%not_elem_of_dom]. by split_and!.
  - destruct Hc as [[n l] E]. rewrite E. by exists n, l.
  - destruct Hc as [[[|n] l] E]; rewrite E; (split; [constructor|]); [left; by exists l|by right].
  - destruct Hc as [[[|n] l] E]; rewrite E; by eexists _, l.
  - destruct (fresh_object_new (dom (sems s) ∪ by_source s)) as [H0 [Hg%not_elem_of_dom Hb]%not_elem_of_union].
    by split_and!.
  - destruct Hc as [v E]. rewrite E. by exists v.
  - destruct Hc as [[|v] E]; rewrite E; [exists O|exists (S v)]; split; try done; [by right|].
    left. split; [done|]. left. by exists v.
  - by destruct t.
  - by destruct (handle c k).
Qed.

#[local] Instance lazy_documented : documented lazy fst.
Proof. intros R c w Hc. eexists. split; [by apply lazy_effect|constructor]. Qed.

Lemma queues_in_order_witness :
  documented lazy fst ∧
  (calls_meet lazy (λ R c w, doc_pre R c w.1) main (nothing_yet, boot) ∧
   ∃ gv gn tv mv w', (gv = true → gn = true) ∧
     run lazy main (nothing_yet, boot) = (Some 0, op102_lines gv gn tv mv, w')) ∧
  (calls_meet lazy (λ R c w, doc_pre R c w.1) t2_main (nothing_yet, boot) ∧
   ∃ iv t1 t2 t3 w', run lazy t2_main (nothing_yet, boot) = (Some 0, op098_lines iv t1 t2 t3, w')).
Proof.
  split; [exact lazy_documented|].
  destruct (queues_in_order lazy fst (nothing_yet, boot) eq_refl) as [H1 H2].
  split; [exact H1|exact (H2 eq_refl)].
Defined.
End lazy.
End QueueHarness.
