(* ===== verification/Harnesses.v ===== *)
(** The harnesses of [findings/] together: what each prints, whatever its library
    answers. *)

From stdpp Require Import gmultiset list.
From S2P Require Import Prelude MachApi RefKernel Harness NotifyHarness AslHarness XpcHarness.
From S2P Require Import IpcRoundtrip.

Local Open Scope Z_scope.

Import Harness.
#[local] Existing Instances AslHarness.pointers XpcHarness.objects IpcRoundtrip.right.

(** The run passes handles it holds only, and ends with none. *)
Definition reports {C} `{!Handles C} {W} (answer : ∀ R, C R → W → R * W) (p : script C Z) (w : W)
    (P : Z → list string → Prop) : Prop :=
  calls_meet (tracked answer) (λ R c w, entitled R c w.2) p (w, ∅) ∧
  ∃ rc out w', run (tracked answer) p (w, ∅) = (Some rc, out, (w', ∅)) ∧ P rc out.

(** The output of a matrix with the tests of one of the lists, whose count of failures is
    that of the lines that say so; the status is 0. *)
Definition matrix_of (op : string) (names : list string → Prop) (rc : Z) (out : list string) : Prop :=
  rc = 0 ∧ ∃ tests, out = matrix_lines op tests ∧ names (map fst tests).

Section harnesses.
Context `{MachSdk} `{AslHarness.AslH}.

(** C27: whatever their libraries answer, each of the three matrices prints one line for each
    of its tests in order, then how many of these lines say FAIL, and returns 0; the round
    trip prints what its two calls returned and returns 0 unless the port could not be
    allocated.  The last three pass only pointers and rights they hold, and release each of
    them once, provided that the response to the search ends, that there is memory for a
    dictionary and that libxpc says the same of data when it is asked twice, as the macro R does. *)
Theorem harnesses_report :
  (∀ W (answer : ∀ R, NotifyHarness.call R → W → R * W) w token tok1 tok2, ∃ out w',
     run answer (NotifyHarness.main token tok1 tok2) w = (Some 0, out, w') ∧
     matrix_of "op110" (λ l, ∃ checks port, l = NotifyHarness.test_names checks port) 0 out) ∧
  (∀ W (answer : ∀ R, AslHarness.call R → W → R * W) left w fuel,
     runs_down AslHarness.takes_result answer left → (left w < fuel)%nat →
     reports answer (AslHarness.main fuel) w
       (matrix_of "op116" (λ l, ∃ client, l = AslHarness.test_names client))) ∧
  (∀ W (answer : ∀ R, XpcHarness.call R → W → R * W) w,
     XpcHarness.reliable answer →
     reports answer XpcHarness.main w
       (matrix_of "op121" (λ l, ∃ i64 data, l = XpcHarness.test_names i64 data))) ∧
  (∀ W (answer : ∀ R, mach_call R → W → R * W) w,
     reports answer IpcRoundtrip.main w (λ rc out,
       (∃ kr, kr ≠ KERN_SUCCESS ∧ rc = 1 ∧ out = IpcRoundtrip.alloc_failed kr) ∨
       (∃ port k1 k2 id, rc = 0 ∧ out = IpcRoundtrip.round_trip port k1 k2 id))).
Proof.
  split; [|split; [|split]].
  - intros W answer w token tok1 tok2.
    destruct (NotifyHarness.notify_harness_report answer w token tok1 tok2)
      as (tests & checks & port & w' & E & Ht).
    exists (matrix_lines "op110" tests), w'. split; [exact E|]. split; [done|]. exists tests. eauto.
  - intros W answer left w fuel Hd Hf.
    destruct (AslHarness.asl_harness_report answer left w fuel Hd Hf) as [Hc (tests & b & w' & E & Ht)].
    split; [exact Hc|]. eexists _, _, w'. split; [exact E|]. split; [done|]. eauto.
  - intros W answer w Hd.
    destruct (XpcHarness.xpc_harness_report answer w Hd) as [Hc (tests & b & d & w' & E & Ht)].
    split; [exact Hc|]. eexists _, _, w'. split; [exact E|]. split; [done|]. eauto.
  - intros W answer w. destruct (IpcRoundtrip.ipc_roundtrip_report answer w)
      as [Hc [w' [(kr & Hk & E)|(port & k1 & k2 & id & E)]]];
      (split; [exact Hc|]; eexists _, _, w'; split; [exact E|]); [left|right]; eauto 10.
Qed.
End harnesses.

(** ** Libraries of a few answers *)

Section witness.
Import OnMacos.

#[local] Instance asl_h : AslHarness.AslH := {|
  AslHarness.ASL_OPT_NO_DELAY := 2; AslHarness.ASL_TYPE_MSG := 0; AslHarness.ASL_TYPE_QUERY := 1;
  AslHarness.ASL_LEVEL_NOTICE := 5; AslHarness.ASL_LEVEL_ERR := 3;
  AslHarness.ASL_QUERY_OP_EQUAL := 1; AslHarness.ASL_FILTER_MASK := λ l, 2 ^ l |}.

(** A response of as many messages as the state says. *)
Definition asl_answer R (c : AslHarness.call R) (n : nat) : R * nat :=
  match c in AslHarness.call R return R * nat with
  | AslHarness.asl_next _ => match n with O => (0, O) | S n => (64, n) end
  | AslHarness.asl_open _ _ _ => (16, n)
  | AslHarness.asl_new _ => (32, n)
  | AslHarness.asl_search _ _ => (48, n)
  | AslHarness.asl_get _ _ => (Some "op116 round-trip test", n)
  | AslHarness.asl_free _ | AslHarness.asl_close _ => (tt, n)
  | AslHarness.asl_set _ _ _ | AslHarness.asl_log _ _ _ _ | AslHarness.asl_set_filter _ _
  | AslHarness.usleep _ | AslHarness.asl_set_query _ _ _ _ => (0, n)
  end.

Definition xpc_answer R (c : XpcHarness.call R) (w : unit) : R * unit :=
  match c in XpcHarness.call R return R * unit with
  | XpcHarness.xpc_dictionary_create => (16, tt)
  | XpcHarness.xpc_dictionary_get_string _ _ => (None, tt)
  | XpcHarness.xpc_data_get_bytes_ptr _ => ("bytes", tt)
  | XpcHarness.xpc_dictionary_set_value _ _ _ | XpcHarness.xpc_dictionary_set_int64 _ _ _
  | XpcHarness.xpc_dictionary_set_string _ _ _ | XpcHarness.xpc_connection_set_event_handler _
  | XpcHarness.xpc_connection_resume _ | XpcHarness.xpc_connection_cancel _
  | XpcHarness.xpc_release _ => (tt, tt)
  | XpcHarness.xpc_int64_create _ | XpcHarness.xpc_int64_get_value _
  | XpcHarness.xpc_dictionary_get_int64 _ _ | XpcHarness.xpc_dictionary_get_count _
  | XpcHarness.xpc_string_create _ | XpcHarness.xpc_data_create _ _
  | XpcHarness.xpc_data_get_length _ | XpcHarness.xpc_hash _ | XpcHarness.xpc_connection_create _ =>
      (0, tt)
  end.

Lemma asl_runs_down : runs_down AslHarness.takes_result asl_answer id.
Proof. intros R c n. destruct c; simpl; try by split. destruct n; simpl; split; lia || done. Qed.

Lemma harnesses_report_witness :
  runs_down AslHarness.takes_result asl_answer id ∧ XpcHarness.reliable xpc_answer ∧
  reports asl_answer (AslHarness.main 10) 2%nat
    (matrix_of "op116" (λ l, ∃ client, l = AslHarness.test_names client)) ∧
  reports xpc_answer XpcHarness.main tt
    (matrix_of "op121" (λ l, ∃ i64 data, l = XpcHarness.test_names i64 data)).
Proof.
  split; [exact asl_runs_down|].
  assert (XpcHarness.reliable xpc_answer) as Hr by done. split; [exact Hr|].
  destruct harnesses_report as (_ & Ha & Hx & _).
  split; [|exact (Hx _ xpc_answer tt Hr)]. apply (Ha _ asl_answer id 2%nat 10%nat asl_runs_down).
  apply (bool_decide_unpack _). by vm_compute.
Defined.
End witness.
