(* ===== verification/Crowd.v ===== *)
(** Any number of jobs that only touch the memory: a logic for the main thread beside
    them, by an invariant of the memory. *)

From stdpp Require Import gmap gmultiset list relations.
From S2P Require Import Prelude MachApi NxMachUtils Ledger Dispatch.

Local Open Scope Z_scope.

Module Crowd.
Import Dispatch.Dispatch.

Section crowd.
Context {F X M W : Type} `{Kernel W} `{Failures} (body : F → X → thread F X M unit).
(** What holds of the memory, for what the main thread knows of it. *)
Context {G : Type} (inv : G → M → Prop).
Abbreviation state := (@world F X M W (objects F X)).
Abbreviation job := (job F X).
Implicit Types (w : state) (s : objects F X) (g : G).

(** [keeps_inv p]: whatever is answered, every access of [p] to memory is defined and
    keeps the invariant, and it makes no call of the library. *)
Fixpoint keeps_inv {A} (p : thread F X M A) : Prop :=
  match p with
  | Done _ => True
  | Do c k =>
      match c in action _ _ _ R return (R → Prop) → Prop with
      | Mach c => λ go, ∀ r, go r
      | Extern c => λ go, ∀ r, go r
      | Mem f => λ go, ∀ m, (∃ g, inv g m) →
          ∃ r m', f m = Some (r, m') ∧ (∀ g, inv g m → inv g m') ∧ go r
      | Lib c => λ _, False
      end (λ r, keeps_inv (k r))
  end.

Definition good_job (j : job) : Prop := member_of j = None ∧ keeps_inv (body (fn j) (ctx j)).

(** The jobs the library may start are such. *)
Definition good_objects (os : gmap Z (object F X)) : Prop :=
  ∀ o f x b, os !! o = Some (Source f x b) →
    (∀ f' x', f = Some f' → x = Some x' → good_job (mk_job f' x' None)) ∧
    (∀ f' x', b.2 = Some (f', x') → good_job (mk_job f' x' None)).

Record crowd g (os : gmap Z (object F X)) w : Prop := {
  crowd_running : Forall (λ x, member_of x.1 = None ∧ keeps_inv x.2) (running w);
  crowd_memory : inv g (memory w);
  crowd_objects : objs (library w) = os;
  crowd_ready : Forall good_job (ready (library w));
}.

Lemma keeps_inv_moves g (p p' : thread F X M unit) w w' :
  keeps_inv p → inv g (memory w) → moves p w p' w' →
  keeps_inv p' ∧ inv g (memory w') ∧ library w' = library w.
Proof.
  destruct p as [|R c k]; [done|]. intros Hp Hi (r & Ha & ->).
  destruct c as [R c|R f|R c|R c]; simpl in *; [|..|done|].
  - destruct Ha as [_ ->]. by split.
  - destruct Ha as (m & Hf & ->). destruct (Hp (memory w)) as (r' & m' & Hf' & Hk & Hr); [by eexists|].
    rewrite Hf in Hf'. injection Hf' as <- <-. split; [done|]. split; [by apply Hk|done].
  - destruct Ha as [k' ->]. by split.
Qed.

Lemma crowd_stable g os : good_objects os → stable body (crowd g os).
Proof.
  intros Hos w w' [Hr Hm Ho Hj] [j l' Hst|l1 j p l2 p' w1 E Hp|l1 j l2 l' E Hf].
  - assert (good_job j ∧ objs l' = os ∧ Forall good_job (ready l')) as (Hg & Ho' & Hj').
    { destruct Hst as [(l1 & l2 & E & ->)|(o & f & x & c & Hs & -> & ->)].
      - rewrite E in Hj. apply Forall_app in Hj as [G1 [Hg G2]%Forall_cons].
        split; [done|]. split; [done|]. by apply Forall_app.
      - rewrite Ho in Hs. destruct (Hos _ _ _ _ Hs) as [Hg _]. by split; [apply Hg|]. }
    split; [|done..]. apply Forall_app. split; [done|]. constructor; [exact Hg|done].
  - rewrite E in Hr. apply Forall_app in Hr as [G1 [[Hj1 Hp1] G2]%Forall_cons].
    destruct (keeps_inv_moves g _ _ _ _ Hp1 Hm Hp) as (Hp' & Hm' & Hl).
    split; simpl; [|done|by rewrite Hl..]. apply Forall_app. split; [done|]. by constructor.
  - rewrite E in Hr. apply Forall_app in Hr as [G1 [[Hj1 _] G2]%Forall_cons].
    simpl in Hf, Hj1. subst l'. unfold after_job. rewrite Hj1. split; [|done..]. by apply Forall_app.
Qed.

Lemma crowd_defined g os w : crowd g os w → jobs_defined w.
Proof.
  intros [Hr Hm _ _]. eapply Forall_impl; [exact Hr|]. intros [j p] [_ Hp]. simpl in *.
  destruct p as [|R c k]; [done|]. destruct c as [R c|R f|R c|R c]; simpl in *; try done.
  destruct (Hp (memory w)) as (r & m' & Hf & _); [by eexists|]. by eexists.
Qed.

(** ** Rules for the main thread *)

Abbreviation cwp := (cwp body jobs_defined).

Lemma cwp_crowd {R} (c : action F X M R) (Q : R → state → Prop) g os w :
  good_objects os → crowd g os w →
  (∀ w', crowd g os w' → defined c w' ∧ (∃ r w2, acts c w' r w2) ∧ ∀ r w2, acts c w' r w2 → Q r w2) →
  cwp (act c) Q w.
Proof.
  intros Hos Hw Hc. apply (cwp_act _ (crowd g os)); [by apply crowd_stable|done|].
  intros w' Hw'. destruct (Hc w' Hw') as (Hd & Ha & Hk).
  split; [by eapply crowd_defined|]. split; [done|]. by split; [left|].
Qed.

Lemma cwp_crowd_lift {A} (p : prog A) (Q : A → state → Prop) g os w :
  good_objects os → crowd g os w → (∀ a w', crowd g os w' → Q a w') → cwp (lift p) Q w.
Proof.
  intros Hos Hw HQ. revert w Hw. induction p as [a|R c k IH]; intros w Hw; simpl; [auto|].
  apply (cwp_bind (λ r, lift (k r)) (act (Mach c))), (cwp_crowd _ _ g os); [done..|].
  intros w1 [H1 H2 H3 H4]. split; [done|]. split; [by eexists _, _|]. intros r w2 [_ ->].
  by apply IH.
Qed.

Lemma cwp_crowd_extern {R} (c : extern R) (Q : R → state → Prop) g os w :
  good_objects os → crowd g os w → (∀ r w', crowd g os w' → Q r w') → cwp (act (Extern c)) Q w.
Proof.
  intros Hos Hw HQ. apply (cwp_crowd _ _ g os); [done..|]. intros w1 [H1 H2 H3 H4].
  split; [done|]. split; [by exists (refuse c), w1, (kernel w1); destruct w1|].
  intros r w2 [k ->]. by apply HQ.
Qed.

Lemma cwp_crowd_mem {R} (f : M → option (R * M)) (Q : R → state → Prop) g os w :
  good_objects os → crowd g os w →
  (∀ m, inv g m → ∃ r m' g', f m = Some (r, m') ∧ inv g' m' ∧ ∀ w', crowd g' os w' → Q r w') →
  cwp (mem f) Q w.
Proof.
  intros Hos Hw HQ. apply (cwp_crowd _ _ g os); [done..|]. intros w1 [H1 H2 H3 H4].
  destruct (HQ _ H2) as (r & m' & g' & Hf & Hi & Hk). split; [by exists (r, m')|].
  split; [by eexists r, _, m'|]. intros r' w2 (m2 & Hf' & ->). rewrite Hf in Hf'.
  injection Hf' as <- <-. by apply Hk.
Qed.

Lemma cwp_crowd_lib {R} (c : lib_call F X R) (Q : R → state → Prop) g os w :
  good_objects os → crowd g os w →
  (∀ s, objs s = os → Forall good_job (ready s) →
     doc_pre c s ∧ (∃ r s', doc_call c s r s') ∧
     ∀ r s', doc_call c s r s' → Forall good_job (ready s') ∧
       ∀ w', crowd g (objs s') w' → Q r w') →
  cwp (lib c) Q w.
Proof.
  intros Hos Hw HQ. apply (cwp_crowd _ _ g os); [done..|]. intros w1 [H1 H2 H3 H4].
  destruct (HQ _ H3 H4) as (Hp & (r & s' & Hd) & Hk). split; [done|].
  split; [by eexists r, _, s'|]. intros r' w2 (s2 & [_ Hd'] & ->).
  destruct (Hk _ _ Hd') as [Hj Hq]. by apply Hq.
Qed.
End crowd.
End Crowd.
