(* ===== verification/MachRecvProbe.v ===== *)
(** [findings/nx-r64z/dtrace/mach-recv-premise/mach_recv_probe.c]: whether the handler of a
    source that watches a receive right is started when a message arrives. *)

From stdpp Require Import gmap gmultiset list relations.
From S2P Require Import Prelude Json MachApi NxMachUtils Ledger RefKernel Dispatch Crowd.

Local Open Scope Z_scope.

Module MachRecvProbe.
Import Dispatch.Dispatch Crowd.Crowd.

(** The two blocks; the object they are handed is the [recv_port] they captured. *)
Inductive func : Set := event_handler | cancel_handler.

(** What the threads share: the output, a JSON object in a line, and the variables at
    file scope. *)
Record shared := mk_shared {
  out : list json;
  handler_fired : Z;
  handler_recv_kr : mach_msg_return_t;
}.
Abbreviation thread := (thread func mach_port_t shared).

Definition printf (members : list (string * json)) : thread unit :=
  mem (λ m, Some (tt, mk_shared (out m ++ [JObj (("test", JStr "mach_recv") :: members)])
    (handler_fired m) (handler_recv_kr m))).
Definition get {A} (field : shared → A) : thread A := mem (λ m, Some (field m, m)).
Definition set_handler_fired (n : Z) : thread unit :=
  mem (λ m, Some (tt, mk_shared (out m) n (handler_recv_kr m))).
Definition set_handler_recv_kr (k : mach_msg_return_t) : thread unit :=
  mem (λ m, Some (tt, mk_shared (out m) (handler_fired m) k)).

Section mach_recv_probe.
Context `{MachSdk}.

(** [sizeof(simple_msg_t)] *)
Definition sizeof_simple_msg : Z := sizeof_mach_msg_header.

Definition on_event (recv_port : mach_port_t) : thread unit :=
  _ ← set_handler_fired 1;
  '(kr, _) ← lift (call (mach_msg zero_msg MACH_RCV_MSG 0 sizeof_simple_msg recv_port 0
                           MACH_PORT_NULL));
  _ ← set_handler_recv_kr kr;
  kr ← get handler_recv_kr;
  printf [("stage", JStr "handler_fired"); ("mach_msg_rcv_kr", JInt kr)].

Definition body (f : func) (recv_port : mach_port_t) : thread unit :=
  match f with
  | event_handler => on_event recv_port
  | cancel_handler => mret tt
  end.

Definition send_msg (recv_port : mach_port_t) : mach_msg_buf :=
  mk_msg (MACH_MSGH_BITS MACH_MSG_TYPE_COPY_SEND 0) sizeof_simple_msg recv_port MACH_PORT_NULL
    0x241001 0 zero_desc zero_desc.

(** The loop of step 6, which may go round [rounds] times more. *)
Fixpoint wait_for_handler (rounds : nat) (waited : Z) : thread Z :=
  fired ← get handler_fired;
  if negb (fired =? 0) then mret waited else
  match rounds with
  | O => mret waited
  | S rounds => _ ← act (Extern (usleep 100000)); wait_for_handler rounds (waited + 1)
  end.

Definition report_result (waited : Z) : thread unit :=
  fired ← get handler_fired;
  if negb (fired =? 0) then
    kr ← get handler_recv_kr;
    _ ← printf [("result", JStr "PASS"); ("handler_fired", JBool true);
                ("mach_msg_rcv_kr", JInt kr); ("waited_ms", JInt (waited * 100))];
    printf [("verdict", JStr "MACH_RECV_SERVICED"); ("dark_label", JStr "STALE")]
  else
    _ ← printf [("result", JStr "FAIL"); ("handler_fired", JBool false);
                ("reason", JStr "handler_timeout_5s")];
    printf [("verdict", JStr "MACH_RECV_DARK"); ("dark_label", JStr "CONFIRMED")].

(** From step 3 on. *)
Definition with_source (recv_port : mach_port_t) (src : Z) : thread Z :=
  _ ← lib (dispatch_source_set_event_handler src recv_port event_handler);
  _ ← lib (dispatch_source_set_cancel_handler src recv_port cancel_handler);
  _ ← lib (dispatch_resume src);
  _ ← printf [("stage", JStr "source_resumed")];
  _ ← act (Extern (usleep 100000));
  '(send_kr, _) ← lift (call (mach_msg (send_msg recv_port) MACH_SEND_MSG sizeof_simple_msg 0
                                MACH_PORT_NULL 0 MACH_PORT_NULL));
  _ ← printf [("stage", JStr "msg_sent"); ("mach_msg_send_kr", JInt send_kr)];
  waited ← wait_for_handler 50 0;
  _ ← report_result waited;
  _ ← lib (dispatch_cancel src);
  _ ← act (Extern (usleep 100000));
  _ ← lift (call (mach_port_deallocate recv_port));
  fired ← get handler_fired;
  mret (if negb (fired =? 0) then 0 else 1).

Definition main : thread Z :=
  '(kr, recv_port) ← lift (call (mach_port_allocate MACH_PORT_RIGHT_RECEIVE));
  if negb (kr =? KERN_SUCCESS) then
    _ ← printf [("result", JStr "FAIL"); ("stage", JStr "port_allocate"); ("kr", JInt kr)]; mret 1
  else
  _ ← printf [("stage", JStr "port_allocated"); ("port", JInt (u32 recv_port))];
  kr ← lift (call (mach_port_insert_right recv_port recv_port MACH_MSG_TYPE_MAKE_SEND));
  if negb (kr =? KERN_SUCCESS) then
    _ ← printf [("result", JStr "FAIL"); ("stage", JStr "insert_send"); ("kr", JInt kr)]; mret 1
  else
  q ← lib dispatch_get_global_queue;
  src ← lib (dispatch_source_create recv_port q);
  if src =? 0 then
    _ ← printf [("result", JStr "FAIL"); ("stage", JStr "source_create");
                ("reason", JStr "NULL source")]; mret 1
  else
  _ ← printf [("stage", JStr "source_created")];
  with_source recv_port src.
End mach_recv_probe.

(** ** What it says *)

Definition message (members : list (string * json)) : json :=
  JObj (("test", JStr "mach_recv") :: members).

(** The lines that are not the handler's. *)
Definition by_handler (l : json) : bool :=
  match field "stage" l with Some (JStr s) => String.eqb s "handler_fired" | _ => false end.
Definition main_lines (l : list json) : list json := List.filter (λ x, negb (by_handler x)) l.

(** How far it gets: no port, no send right, no source, or the report, after a time, of
    what a first look at the variable of the handler gave. *)
Inductive probe_end :=
  | no_port (kr : Z)
  | no_send (port kr : Z)
  | no_source (port : Z)
  | timed_out (port send_kr : Z)
  | serviced (port send_kr rcv_kr waited : Z).

Definition sent_log (port send_kr : Z) : list json :=
  [message [("stage", JStr "port_allocated"); ("port", JInt (u32 port))];
   message [("stage", JStr "source_created")]; message [("stage", JStr "source_resumed")];
   message [("stage", JStr "msg_sent"); ("mach_msg_send_kr", JInt send_kr)]].

Definition log_of (e : probe_end) : list json :=
  match e with
  | no_port kr => [message [("result", JStr "FAIL"); ("stage", JStr "port_allocate"); ("kr", JInt kr)]]
  | no_send port kr =>
      [message [("stage", JStr "port_allocated"); ("port", JInt (u32 port))];
       message [("result", JStr "FAIL"); ("stage", JStr "insert_send"); ("kr", JInt kr)]]
  | no_source port =>
      [message [("stage", JStr "port_allocated"); ("port", JInt (u32 port))];
       message [("result", JStr "FAIL"); ("stage", JStr "source_create"); ("reason", JStr "NULL source")]]
  | timed_out port send_kr =>
      sent_log port send_kr ++
      [message [("result", JStr "FAIL"); ("handler_fired", JBool false);
                ("reason", JStr "handler_timeout_5s")];
       message [("verdict", JStr "MACH_RECV_DARK"); ("dark_label", JStr "CONFIRMED")]]
  | serviced port send_kr rcv_kr waited =>
      sent_log port send_kr ++
      [message [("result", JStr "PASS"); ("handler_fired", JBool true);
                ("mach_msg_rcv_kr", JInt rcv_kr); ("waited_ms", JInt (waited * 100))];
       message [("verdict", JStr "MACH_RECV_SERVICED"); ("dark_label", JStr "STALE")]]
  end.

(** ** Beside the handlers

    What the main thread knows: its own lines, and whether it has seen the variable of
    the handler set. *)
Definition known : Type := list json * bool.
Definition shared_inv (g : known) (m : shared) : Prop :=
  main_lines (out m) = g.1 ∧ (g.2 = true → handler_fired m ≠ 0).

Section facts.
Context `{MachSdk} {W : Type} `{Kernel W} {Fl : Failures}.
Abbreviation state := (@world func mach_port_t shared W (objects func mach_port_t)).
Abbreviation cwp := (cwp body jobs_defined).
Abbreviation crowd := (crowd (F := func) (X := mach_port_t) (W := W) body shared_inv).
Implicit Types w : state.

Lemma main_lines_app l1 l2 : main_lines (l1 ++ l2) = main_lines l1 ++ main_lines l2.
Proof. apply List.filter_app. Qed.

Lemma handler_keeps j : member_of j = None → good_job body shared_inv j.
Proof.
  intros Hj. split; [done|]. destruct j as [[] p n]; simpl; [|done].
  intros m _. eexists tt, _. split; [done|]. split; [by intros g [H1 H2]|].
  intros [kr m1] m2 _. eexists tt, _. split; [done|]. split; [by intros g [H1 H2]|].
  intros m3 _. eexists _, _. split; [done|]. split; [by intros g [H1 H2]|].
  intros m4 _. eexists tt, _. split; [done|]. split; [|done].
  intros g [H1 H2]. split; [|exact H2]. cbn [out]. by rewrite main_lines_app, H1, app_nil_r.
Qed.

Lemma all_good os : good_objects body shared_inv os.
Proof. intros o f x b _. split; intros; by apply handler_keeps. Qed.

Lemma cwp_printf members (Q : unit → state → Prop) l e os w :
  by_handler (message members) = false → crowd (l, e) os w →
  (∀ w', crowd (l ++ [message members], e) os w' → Q tt w') → cwp (printf members) Q w.
Proof.
  intros Hm Hw HQ. apply (cwp_crowd_mem body shared_inv _ _ (l, e) os); [apply all_good|done|].
  intros m [H1 H2]. eexists tt, _, (l ++ [message members], e). split; [done|].
  split; [|done]. split; [|exact H2]. cbn [out fst snd] in *. rewrite main_lines_app, H1. f_equal.
  fold (message members). unfold main_lines. cbn [List.filter]. by rewrite Hm.
Qed.

Lemma cwp_get_fired (Q : Z → state → Prop) l e os w :
  crowd (l, e) os w → (e = false → ∀ w', crowd (l, false) os w' → Q 0 w') →
  (∀ n w', n ≠ 0 → crowd (l, true) os w' → Q n w') → cwp (get handler_fired) Q w.
Proof.
  intros Hw HQ0 HQ1. apply (cwp_crowd_mem body shared_inv _ _ (l, e) os); [apply all_good|done|].
  intros m [H1 H2]. destruct (decide (handler_fired m = 0)) as [E|E].
  - exists (handler_fired m), m, (l, false). split; [done|]. split; [by split|]. rewrite E.
    apply HQ0. destruct e; [by destruct H2|done].
  - exists (handler_fired m), m, (l, true). split; [done|]. split; [by split|].
    intros w'. by apply HQ1.
Qed.

Lemma cwp_get_kr (Q : Z → state → Prop) l e os w :
  crowd (l, e) os w → (∀ k w', crowd (l, e) os w' → Q k w') → cwp (get handler_recv_kr) Q w.
Proof.
  intros Hw HQ. apply (cwp_crowd_mem body shared_inv _ _ (l, e) os); [apply all_good|done|].
  intros m Hm. exists (handler_recv_kr m), m, (l, e). split; [done|]. split; [done|]. apply HQ.
Qed.

(** The calls on the source. *)
Definition on_source (src : Z) (c : lib_call func mach_port_t unit) : Prop :=
  (∀ s f x b, objs s !! src = Some (Source f x b) →
    doc_pre c s ∧ (∃ s', doc_call c s tt s') ∧
    ∀ s', doc_call c s tt s' → (∃ f' x' b', objs s' !! src = Some (Source f' x' b')) ∧
      (Forall (good_job body shared_inv) (ready s) → Forall (good_job body shared_inv) (ready s'))).

Definition is_source (src : Z) (os : gmap Z (object func mach_port_t)) : Prop :=
  ∃ f x b, os !! src = Some (Source f x b).

Lemma cwp_on_source src c (Q : unit → state → Prop) g os w :
  on_source src c → is_source src os → crowd g os w →
  (∀ os' w', is_source src os' → crowd g os' w' → Q tt w') → cwp (lib c) Q w.
Proof.
  intros Hc (f & x & b & Hs) Hw HQ. apply (cwp_crowd_lib body shared_inv _ _ g os); [apply all_good|done|].
  intros s <- Hj. destruct (Hc s f x b Hs) as (Hp & (s' & Hd) & Hk). split; [done|].
  split; [by eexists tt, s'|]. intros [] s2 Hd2. destruct (Hk s2 Hd2) as [Hs2 Hj2].
  split; [by apply Hj2|]. intros w' Hw'. by apply (HQ (objs s2)).
Qed.

Ltac on_source_tac := let Hs := fresh in
  intros ???? Hs; split; [by eexists _, _, _|]; split;
  [by eexists _, _, _, _|]; let Hs' := fresh in intros ? (? & ? & ? & Hs' & ->);
  rewrite Hs in Hs'; injection Hs' as <- <- <-.

Lemma on_set_event_handler src p f : on_source src (dispatch_source_set_event_handler src p f).
Proof. on_source_tac. split; [|done]. eexists _, _, _. simpl. by rewrite lookup_insert_eq. Qed.
Lemma on_set_cancel_handler src p f : on_source src (dispatch_source_set_cancel_handler src p f).
Proof. on_source_tac. split; [|done]. eexists _, _, _. simpl. by rewrite lookup_insert_eq. Qed.
Lemma on_resume src : on_source src (dispatch_resume src).
Proof. on_source_tac. split; [|done]. eexists _, _, _. simpl. by rewrite lookup_insert_eq. Qed.
Lemma on_cancel src : on_source src (dispatch_cancel src).
Proof.
  on_source_tac. match goal with |- context [at_cancel ?c _] => destruct c as [[]|] end; simpl;
    (split; [by eexists _, _, _; rewrite lookup_insert_eq|intros Hr]); [|done].
  apply Forall_app. split; [done|]. constructor; [by apply handler_keeps|done].
Qed.

(** ** The main thread *)

Lemma cwp_rounds (rounds : nat) waited l os (Q : Z → state → Prop) w :
  crowd (l, false) os w → 0 ≤ waited →
  (∀ n e w', waited ≤ n ≤ waited + Z.of_nat rounds → (n < waited + Z.of_nat rounds → e = true) →
     crowd (l, e) os w' → Q n w') →
  cwp (wait_for_handler rounds waited) Q w.
Proof.
  revert waited w. induction rounds as [|rounds IH]; intros waited w Hw Hge HQ;
    (eapply cwp_bind, cwp_get_fired; [exact Hw|intros _ w1 Hw1|intros n w1 Hn Hw1]); cbn [negb];
    try (rewrite (proj2 (Z.eqb_neq n 0) Hn); cbn; eapply HQ; [lia|done|exact Hw1]).
  - eapply HQ; [lia|lia|exact Hw1].
  - change (0 =? 0) with true. cbn [negb].
    eapply cwp_bind, cwp_crowd_extern; [apply all_good|exact Hw1|]. intros slept w2 Hw2.
    apply IH; [done|lia|]. intros n e w3 Hn He. apply HQ; [lia|intros; apply He; lia].
Qed.

(** What the exit status says of what was printed. *)
Definition exit_of (e : probe_end) (rc : Z) : Prop :=
  match e with
  | no_port kr | no_send _ kr => rc = 1 ∧ kr ≠ KERN_SUCCESS
  | no_source _ => rc = 1 ∧ may_fail a_source = true
  | timed_out _ _ => rc = 0 ∨ rc = 1
  | serviced _ _ _ waited => rc = 0 ∧ 0 ≤ waited ≤ 50
  end.

(** What holds at the end. *)
Definition over (rc : Z) (m : shared) : Prop :=
  ∃ e, main_lines (out m) = log_of e ∧ exit_of e rc ∧ (rc = 0 → handler_fired m ≠ 0).

Definition crowd_at (e : probe_end) : bool :=
  match e with serviced _ _ _ _ => true | _ => false end.

Lemma cwp_report waited port send_kr e os (Q : unit → state → Prop) w :
  crowd (sent_log port send_kr, e) os w →
  (∀ r w', crowd (log_of r, crowd_at r) os w' →
     r = timed_out port send_kr ∧ e = false ∨ (∃ kr, r = serviced port send_kr kr waited) →
     Q tt w') →
  cwp (report_result waited) Q w.
Proof.
  intros Hw HQ. eapply cwp_bind, cwp_get_fired; [exact Hw|..].
  - intros He w1 Hw1. change (0 =? 0) with true. cbn [negb].
    eapply cwp_bind, cwp_printf; [done|exact Hw1|]. intros w2 Hw2.
    eapply cwp_printf; [done|exact Hw2|]. intros w3 Hw3. rewrite <- app_assoc in Hw3.
    apply (HQ (timed_out port send_kr)); [done|by left].
  - intros n w1 Hn Hw1. rewrite (proj2 (Z.eqb_neq n 0) Hn). cbn [negb].
    eapply cwp_bind, cwp_get_kr; [exact Hw1|]. intros kr w2 Hw2.
    eapply cwp_bind, cwp_printf; [done|exact Hw2|]. intros w3 Hw3.
    eapply cwp_printf; [done|exact Hw3|]. intros w4 Hw4. rewrite <- app_assoc in Hw4.
    apply (HQ (serviced port send_kr kr waited)); [done|right; by eexists].
Qed.

(** The end of [main], from the cancellation on. *)
Lemma cwp_exit src port r os (Q : Z → state → Prop) w :
  is_source src os → crowd (log_of r, crowd_at r) os w →
  (∀ rc w', over rc (memory w') → Q rc w') →
  (match r with timed_out _ _ => True | serviced _ _ _ n => 0 ≤ n ≤ 50 | _ => False end) →
  cwp (_ ← lib (dispatch_cancel src);
       _ ← act (Extern (usleep 100000));
       _ ← lift (call (mach_port_deallocate port));
       fired ← get handler_fired;
       mret (if negb (fired =? 0) then 0 else 1)) Q w.
Proof.
  intros Hs Hw HQ Hr.
  eapply cwp_bind, cwp_on_source; [apply on_cancel|done..|]. clear w Hw Hs os. intros os w Hs Hw.
  eapply cwp_bind, cwp_crowd_extern; [apply all_good|done|]. clear w Hw. intros slept w Hw.
  eapply cwp_bind, cwp_crowd_lift; [apply all_good|done|]. clear w Hw. intros kr w Hw.
  eapply cwp_bind, cwp_get_fired; [done|..].
  - intros He w' [_ [H1 H2] _ _]. apply HQ. exists r. split; [done|].
    destruct r; try done. split; [by right|done].
  - intros n w' Hn [_ [H1 H2] _ _]. apply HQ. rewrite (proj2 (Z.eqb_neq n 0) Hn).
    exists r. split; [done|]. destruct r; try done; (split; [first [by left|done]|by intros _; apply H2]).
Qed.
Lemma cwp_with_source src port os (Q : Z → state → Prop) w :
  is_source src os →
  crowd ([message [("stage", JStr "port_allocated"); ("port", JInt (u32 port))];
          message [("stage", JStr "source_created")]], false) os w →
  (∀ rc w', over rc (memory w') → Q rc w') → cwp (with_source port src) Q w.
Proof.
  intros Hs Hw HQ.
  eapply cwp_bind, cwp_on_source; [apply on_set_event_handler|done..|].
  clear w Hw Hs os. intros os w Hs Hw.
  eapply cwp_bind, cwp_on_source; [apply on_set_cancel_handler|done..|].
  clear w Hw Hs os. intros os w Hs Hw.
  eapply cwp_bind, cwp_on_source; [apply on_resume|done..|]. clear w Hw Hs os. intros os w Hs Hw.
  eapply cwp_bind, cwp_printf; [done..|]. clear w Hw. intros w Hw.
  eapply cwp_bind, cwp_crowd_extern; [apply all_good|done|]. clear w Hw. intros slept w Hw.
  eapply cwp_bind, cwp_crowd_lift; [apply all_good|done|]. clear w Hw. intros [send_kr buf] w Hw.
  eapply cwp_bind, cwp_printf; [done..|]. clear w Hw. intros w Hw.
  eapply cwp_bind, cwp_rounds; [exact Hw|done|]. clear w Hw. intros n e w Hn _ Hw.
  eapply cwp_bind, (cwp_report n port send_kr e os); [exact Hw|]. clear w Hw. intros r w Hw Hr.
  eapply (cwp_exit src port r os); [done..|].
  destruct Hr as [[-> _]|[kr ->]]; [done|exact Hn].
Qed.

Lemma cwp_probe (Q : Z → state → Prop) w :
  crowd ([], false) ∅ w → (∀ rc w', over rc (memory w') → Q rc w') → cwp main Q w.
Proof.
  intros Hw HQ. unfold main.
  eapply cwp_bind, cwp_crowd_lift; [apply all_good|done|]. clear w Hw. intros [kr port] w Hw.
  destruct (Z.eqb_spec kr KERN_SUCCESS) as [->|Hk]; cbn [negb].
  2: { eapply cwp_bind, cwp_printf; [done..|]. intros w' [_ [H1 _] _ _]. apply HQ.
       by exists (no_port kr). }
  eapply cwp_bind, cwp_printf; [done..|]. clear w Hw. intros w Hw.
  eapply cwp_bind, cwp_crowd_lift; [apply all_good|done|]. clear w Hw. intros kr w Hw.
  destruct (Z.eqb_spec kr KERN_SUCCESS) as [->|Hk]; cbn [negb].
  2: { eapply cwp_bind, cwp_printf; [done..|]. intros w' [_ [H1 _] _ _]. apply HQ.
       by exists (no_send port kr). }
  eapply cwp_bind, cwp_crowd_lib; [apply all_good|exact Hw|]. intros s Ho Hj.
  destruct (some_fresh s) as (o & Ho1 & Ho2). split; [done|]. split; [by eexists o, _; repeat split; [..|left]|].
  clear w Hw o Ho1 Ho2. intros q s1 (Hq & -> & _). split; [done|]. intros w Hw.
  eapply cwp_bind, cwp_crowd_lib; [apply all_good|exact Hw|]. clear w Hw. intros s2 Hs2 Hj2.
  split; [right; rewrite Hs2; simpl; by rewrite lookup_insert_eq|]. split; [apply some_created|].
  intros src s3 [(Hsrc & Hno & ->)|(Hf & -> & ->)]; (split; [done|]); intros w Hw.
  2: { eapply cwp_bind, cwp_printf; [done..|]. intros w' [_ [H1 _] _ _]. apply HQ.
       by exists (no_source port). }
  rewrite (proj2 (Z.eqb_neq src 0) Hsrc).
  eapply cwp_bind, cwp_printf; [done..|]. clear w Hw. intros w Hw.
  eapply cwp_with_source; [|exact Hw|done].
  eexists _, _, _. simpl. by rewrite lookup_insert_eq.
Qed.
End facts.

Definition initial : shared := mk_shared [] 0 0.

(** C20: with every library and kernel and in every interleaving with the handlers, which
    may be started any number of times, every thread is defined and the main thread is
    never stuck; when [main] returns, the lines that are not the handler's are those of one
    of its five ends; without port, send right or source it has failed with 1, after the report
    of a service, with at most 50 rounds of waiting, with 0; and a status of 0 means that
    the handler was started. *)
Theorem mach_recv_probe_sound `{MachSdk} {W} `{Kernel W} `{Failures} {L} `{Library func mach_port_t L}
    `{!DispatchContract func mach_port_t L}
    (l : L) (k0 : W) p w :
  lib_healthy l → objs (objects_of l) = ∅ → ready (objects_of l) = [] →
  rtc (step body) (main, mk_world [] initial l k0) (p, w) →
  match p with
  | Done rc => ∃ e, main_lines (out (memory w)) = log_of e ∧ exit_of e rc ∧
      (rc = 0 → handler_fired (memory w) ≠ 0)
  | Do _ _ => jobs_defined (seen w) ∧ ∃ c, step body (p, w) c
  end.
Proof.
  intros Hl Ho Hr Hs.
  assert (cwp body jobs_defined main (λ rc w', over rc (memory w')) (seen (mk_world [] initial l k0))) as Hp.
  { apply cwp_probe; [|by intros]. split; [constructor|by split|done|]. simpl. by rewrite Hr. }
  pose proof (cwp_adequate body jobs_defined main p _ (mk_world [] initial l k0) w Hl Hp Hs) as Ha.
  destruct p as [rc|R c k]; [exact Ha|]. by destruct Ha as (Hj & _ & Hc).
Qed.

(** ** Two runs, with the reference library and kernel *)

Section witnesses.
Import OnMacos.

(** Whatever may fail, the reference library never runs out of anything. *)
#[local] Instance probe_failures : Failures := λ _, true.

(** The reference kernel knows calls with a timeout; no call waits here. *)
Definition with_timeout {R} (c : mach_call R) : mach_call R :=
  match c in mach_call R return mach_call R with
  | mach_msg m option size limit p t n =>
      mach_msg m (Z.lor option (if option =? MACH_SEND_MSG then MACH_SEND_TIMEOUT else MACH_RCV_TIMEOUT))
        size limit p t n
  | c => c
  end.
Definition waiting_kernel : Kernel machine := λ R c k, handle (with_timeout c) k.
Abbreviation step := (step (H := waiting_kernel) body).
Abbreviation schedule := (schedule (H := waiting_kernel) body (@refuse)).

Definition start : thread Z * @world func mach_port_t shared machine (@ref_lib func mach_port_t) :=
  (main, mk_world [] initial (mk_ref (mk_objects ∅ [])) boot).

(** The handler receives the message as soon as it is sent. *)
Definition in_time : list choice :=
  repeat Main 13 ++ Fire 2 :: repeat (Work 0) 6 ++ repeat Main 9.

(** It is started between the report and the cancellation. *)
Definition late : list choice :=
  repeat Main 117 ++ Fire 2 :: repeat (Work 0) 6 ++ repeat Main 4.

Lemma in_time_run : result_of (schedule in_time start) = Some 0.
Proof. by vm_compute. Qed.

Lemma in_time_steps : ∃ w, rtc step start (Done 0, w).
Proof. exact (result_steps (H := waiting_kernel) body (@refuse) _ _ _ in_time_run). Qed.

Lemma mach_recv_probe_sound_witness :
  lib_healthy (mk_ref (F := func) (X := mach_port_t) (mk_objects ∅ [])) ∧
  ∃ w, rtc step start (Done 0, w) ∧ handler_fired (memory w) ≠ 0.
Proof.
  split; [done|]. destruct in_time_steps as [w Hs]. exists w. split; [exact Hs|].
  destruct (mach_recv_probe_sound (H0 := waiting_kernel) (L := @ref_lib func mach_port_t)
    (mk_ref (mk_objects ∅ [])) boot _ w (ref_healthy _) eq_refl eq_refl Hs) as (e & _ & _ & Hf).
  by apply Hf.
Defined.

(** Only that the handler was started counts: with the reference kernel itself, which
    refuses calls without a timeout, neither the message is sent nor received. *)
Lemma unreceived_run :
  match Dispatch.Dispatch.schedule body (@refuse) in_time start with
  | Some (Done rc, w) => (rc, main_lines (out (memory w)))
  | _ => (1, [])
  end = (0, log_of (serviced 516 MACH_SEND_INVALID_DATA MACH_SEND_INVALID_DATA 0)).
Proof. by vm_compute. Qed.

Definition dark_log : list json :=
  log_of (timed_out 516 MACH_MSG_SUCCESS) ++
    [message [("stage", JStr "handler_fired"); ("mach_msg_rcv_kr", JInt MACH_MSG_SUCCESS)]].

Lemma late_run :
  match schedule late start with
  | Some (Done rc, w) => (rc, out (memory w))
  | _ => (1, [])
  end = (0, dark_log).
Proof. by vm_compute. Qed.

(** The variable of the handler is read again for the exit status: there is a run that
    prints the verdict that the receive right is dark, whose handler is then started and
    receives the message, and that returns 0. *)
Theorem mach_recv_probe_late :
  ∃ w, rtc step start (Done 0, w) ∧
    out (memory w) = log_of (timed_out 516 MACH_MSG_SUCCESS) ++
      [message [("stage", JStr "handler_fired"); ("mach_msg_rcv_kr", JInt MACH_MSG_SUCCESS)]].
Proof.
  pose proof late_run as Hb. destruct (schedule late start) as [[[rc|] w]|] eqn:E; [|done..].
  injection Hb as -> Ho. exists w. split; [|exact Ho].
  exact (schedule_steps (H := waiting_kernel) body (@refuse) _ _ _ E).
Qed.
End witnesses.
End MachRecvProbe.
