(* ===== verification/LateHandlers.v ===== *)
(** The three dispatch programs that wait a bounded time for a handler, together: what may
    happen when it comes later. *)

From stdpp Require Import gmap list relations.
From S2P Require Import Prelude Json MachApi RefKernel Dispatch DispatchPrimitives DispatchMachRecv.
From S2P Require Import MachRecvProbe.

Local Open Scope Z_scope.
Import Dispatch.Dispatch.

Section late.
Import OnMacos.
(** A library that has everything there is to be had. *)
#[local] Instance no_failures : Failures := λ _, false.
#[local] Existing Instances DispatchPrimitives.both_headers DispatchMachRecv.noting_kernel.

(** C34: a wait for a handler that ends too early has consequences.  There is a run of
    dispatch_primitives.c in which the late handler reads the context that is gone, and one
    in which it is about to signal the semaphore that was released; a run of
    dispatch_mach_recv_source.c in which the message was received and recorded and the
    handler is about to signal the semaphore that is gone; and a run of mach_recv_probe.c
    that prints the verdict that the receive right is dark, whose handler then receives the
    message, and that returns 0. *)
Theorem late_handlers :
  ((∃ p w, rtc (step DispatchPrimitives.body) DispatchPrimitives.start0 (p, w) ∧ returned p = false ∧
      DispatchPrimitives.v_actx (memory w) = None ∧ ¬ jobs_defined (seen w)) ∧
   (∃ p w c, rtc (step DispatchPrimitives.body) DispatchPrimitives.start0 (p, w) ∧ returned p = false ∧
      DispatchPrimitives.v_actx (memory w) = Some c ∧
      objs (ref_objects (library w)) !! DispatchPrimitives.sem c = None ∧ ¬ jobs_defined (seen w))) ∧
  (∃ p w, rtc (step DispatchMachRecv.body) DispatchMachRecv.dmrs_start (p, w) ∧ returned p = false ∧
     DispatchMachRecv.serviced (memory w) = 1 ∧
     objs (ref_objects (library w)) !! DispatchMachRecv.sem (memory w) = None ∧
     ¬ jobs_defined (seen w)) ∧
  (∃ w, rtc (step (H := MachRecvProbe.waiting_kernel) MachRecvProbe.body) MachRecvProbe.start (Done 0, w) ∧
     MachRecvProbe.out (memory w) =
       MachRecvProbe.log_of (MachRecvProbe.timed_out 516 MACH_MSG_SUCCESS) ++
       [MachRecvProbe.message [("stage", JStr "handler_fired"); ("mach_msg_rcv_kr", JInt MACH_MSG_SUCCESS)]]).
Proof.
  split; [exact DispatchPrimitives.DispatchPrimitives.late_handler_undefined|].
  split; [exact DispatchMachRecv.DispatchMachRecv.late_signal_undefined|].
  exact MachRecvProbe.MachRecvProbe.mach_recv_probe_late.
Qed.
End late.
