(* ===== verification/AuxvProbe.v ===== *)
(** [findings/nx-r64z/dtrace/auxv-confirm/auxv-probe.c]: finds the auxiliary vector of the
    process in two ways, walks it and reports what it holds. *)

From stdpp Require Import list.
From S2P Require Import Prelude.

Local Open Scope Z_scope.

Module AuxvProbe.

(** The constants of <sys/elf_common.h>. *)
Class ElfSdk := {
  AT_NULL : Z; AT_IGNORE : Z; AT_EXECFD : Z; AT_PHDR : Z; AT_PHENT : Z; AT_PHNUM : Z;
  AT_PAGESZ : Z; AT_BASE : Z; AT_FLAGS : Z; AT_ENTRY : Z; AT_NOTELF : Z; AT_UID : Z;
  AT_EUID : Z; AT_GID : Z; AT_EGID : Z; AT_EXECPATH : Z; AT_CANARY : Z; AT_CANARYLEN : Z;
  AT_OSRELDATE : Z; AT_NCPUS : Z; AT_PAGESIZES : Z; AT_PAGESIZESLEN : Z; AT_TIMEKEEP : Z;
  AT_STACKPROT : Z; AT_EHDRFLAGS : Z; AT_HWCAP : Z; AT_HWCAP2 : Z; AT_BSDFLAGS : Z;
  AT_ARGC : Z; AT_ARGV : Z; AT_ENVC : Z; AT_ENVV : Z; AT_PS_STRINGS : Z; AT_FXRNG : Z;
  AT_KPRELOAD : Z; AT_USRSTACKBASE : Z; AT_USRSTACKLIM : Z; AT_HWCAP3 : Z; AT_HWCAP4 : Z;
}.

(** The process: its memory, in words of eight bytes, the addresses of the two pointers
    and what they hold, and how ["%p"] prints. *)
Class Image := {
  word : Z → option Z;
  elf_aux_vector_addr : Z;
  elf_aux_vector : Z;
  environ : Z;
  fmt_p : Z → string;
}.

(** ** Runs: what was printed, and how it ended *)

Inductive ending (A : Type) : Type :=
  | Value (a : A)
  | Fault
  | NoFuel.
Arguments Value {A} a.
Arguments Fault {A}.
Arguments NoFuel {A}.

Record run (A : Type) := mk_run { printed : list string; ended : ending A }.
Arguments mk_run {A} printed ended.
Arguments printed {A} _.
Arguments ended {A} _.

#[export] Instance run_ret : MRet run := λ A a, mk_run [] (Value a).
#[export] Instance run_bind : MBind run := λ A B f p,
  match ended p with
  | Value a => mk_run (printed p ++ printed (f a)) (ended (f a))
  | Fault => mk_run (printed p) Fault
  | NoFuel => mk_run (printed p) NoFuel
  end.

(** A line of output, and a load, which may fault. *)
Definition printf (line : string) : run unit := mk_run [line] (Value tt).
Definition load `{Image} (a : Z) : run Z :=
  mk_run [] (match word a with Some w => Value w | None => Fault end).
(** The [int32_t] in the low half of a word. *)
Definition load_i32 `{Image} (a : Z) : run Z := w ← load a; mret (s32 w).

(** ["%ld"] of a [long], ["%lx"] and ["%016lx"] of an [unsigned long]; fields of a
    width. *)
Definition fmt_lx (z : Z) : string := hex_digits 16 z EmptyString.
Fixpoint filled (c : ascii) (n : nat) (s : string) : string :=
  match n with O => s | S n => String c (filled c n s) end.
Definition pad_left (c : ascii) (n : nat) (s : string) : string := filled c (n - String.length s) s.
Definition pad_right (n : nat) (s : string) : string :=
  s +:+ filled " " (n - String.length s) EmptyString.
Definition fmt_int (z : Z) : string := fmt_lld z.
Definition fmt_bool (b : bool) : string := if b then "1" else "0".

Section auxv.
Context `{ElfSdk} `{Image}.

(** The first name whose constant it is. *)
Definition at_names : list (Z * string) :=
  [(AT_NULL, "AT_NULL"); (AT_IGNORE, "AT_IGNORE"); (AT_EXECFD, "AT_EXECFD");
   (AT_PHDR, "AT_PHDR"); (AT_PHENT, "AT_PHENT"); (AT_PHNUM, "AT_PHNUM");
   (AT_PAGESZ, "AT_PAGESZ"); (AT_BASE, "AT_BASE"); (AT_FLAGS, "AT_FLAGS");
   (AT_ENTRY, "AT_ENTRY"); (AT_NOTELF, "AT_NOTELF"); (AT_UID, "AT_UID");
   (AT_EUID, "AT_EUID"); (AT_GID, "AT_GID"); (AT_EGID, "AT_EGID");
   (AT_EXECPATH, "AT_EXECPATH"); (AT_CANARY, "AT_CANARY"); (AT_CANARYLEN, "AT_CANARYLEN");
   (AT_OSRELDATE, "AT_OSRELDATE"); (AT_NCPUS, "AT_NCPUS"); (AT_PAGESIZES, "AT_PAGESIZES");
   (AT_PAGESIZESLEN, "AT_PAGESIZESLEN"); (AT_TIMEKEEP, "AT_TIMEKEEP");
   (AT_STACKPROT, "AT_STACKPROT"); (AT_EHDRFLAGS, "AT_EHDRFLAGS"); (AT_HWCAP, "AT_HWCAP");
   (AT_HWCAP2, "AT_HWCAP2"); (AT_BSDFLAGS, "AT_BSDFLAGS"); (AT_ARGC, "AT_ARGC");
   (AT_ARGV, "AT_ARGV"); (AT_ENVC, "AT_ENVC"); (AT_ENVV, "AT_ENVV");
   (AT_PS_STRINGS, "AT_PS_STRINGS"); (AT_FXRNG, "AT_FXRNG"); (AT_KPRELOAD, "AT_KPRELOAD");
   (AT_USRSTACKBASE, "AT_USRSTACKBASE"); (AT_USRSTACKLIM, "AT_USRSTACKLIM");
   (AT_HWCAP3, "AT_HWCAP3"); (AT_HWCAP4, "AT_HWCAP4")].
Definition at_name (t : Z) : string :=
  match List.find (λ e, e.1 =? t) at_names with Some e => e.2 | None => "?" end.

(** [while ( *sp != 0) { sp++; envc++; }] *)
Fixpoint env_walk (fuel : nat) (sp envc : Z) : run (Z * Z) :=
  match fuel with
  | O => mk_run [] NoFuel
  | S fuel =>
      w ← load sp;
      if w =? 0 then mret (sp, envc) else env_walk fuel (sp + 8) (envc + 1)
  end.

(** What the loop remembers. *)
Record tally := mk_tally {
  found_phdr : bool; phdr_val : Z;
  found_phnum : bool; phnum_val : Z;
  found_entry : bool; entry_val : Z;
  found_base : bool; base_val : Z;
  found_execfd : bool; execfd_val : Z;
}.
Definition no_tally : tally := mk_tally false 0 false 0 false 0 false 0 false 0.

(** The [switch] on an entry, whose [a_un] is the word [v]. *)
Definition note_entry (a_type v : Z) (t : tally) : tally :=
  let '(mk_tally fp vp fn vn fe ve fb vb fx vx) := t in
  if a_type =? AT_PHDR then mk_tally true v fn vn fe ve fb vb fx vx
  else if a_type =? AT_PHNUM then mk_tally fp vp true (s64 v) fe ve fb vb fx vx
  else if a_type =? AT_ENTRY then mk_tally fp vp fn vn true v fb vb fx vx
  else if a_type =? AT_BASE then mk_tally fp vp fn vn fe ve true v fx vx
  else if a_type =? AT_EXECFD then mk_tally fp vp fn vn fe ve fb vb true (s32 v)
  else t.

Definition entry_line (count a_type v : Z) : string :=
  "  [" +:+ pad_left " " 2 (fmt_int count) +:+ "] a_type=" +:+ pad_right 4 (fmt_int a_type) +:+
  " (" +:+ pad_right 14 (at_name a_type) +:+ ") a_val=0x" +:+ pad_left "0" 16 (fmt_lx v) +:+
  " a_ptr=" +:+ fmt_p v.
Definition truncated_line : string := "  ... truncated at 64 entries (no AT_NULL seen)".

Fixpoint walk (fuel : nat) (auxp count : Z) (t : tally) : run (Z * tally) :=
  match fuel with
  | O => mk_run [] NoFuel
  | S fuel =>
      a_type ← load_i32 auxp;
      if a_type =? AT_NULL then mret (count, t) else
      v ← load (auxp + 8);
      _ ← printf (entry_line count a_type v);
      let t := note_entry a_type v t in
      let count := count + 1 in
      if 64 <? count then _ ← printf truncated_line; mret (count, t)
      else walk fuel (auxp + 16) count t
  end.

(** From the walk to the end of [main]. *)
Definition phdr_missing (t : tally) : bool := negb (found_phdr t) || (phdr_val t =? 0).
Definition summary (count : Z) (t : tally) : list string :=
  ["OP139_AUXV_SUMMARY entries=" +:+ fmt_int count;
   "OP139_AT_PHDR_present=" +:+ fmt_bool (found_phdr t) +:+ "   value=0x" +:+ fmt_lx (phdr_val t);
   "OP139_AT_PHNUM_present=" +:+ fmt_bool (found_phnum t) +:+ "  value=" +:+ fmt_lld (phnum_val t);
   "OP139_AT_ENTRY_present=" +:+ fmt_bool (found_entry t) +:+ "  value=0x" +:+ fmt_lx (entry_val t);
   "OP139_AT_BASE_present=" +:+ fmt_bool (found_base t) +:+ "   value=0x" +:+ fmt_lx (base_val t);
   "OP139_AT_EXECFD_present=" +:+ fmt_bool (found_execfd t) +:+ " value=" +:+ fmt_int (execfd_val t);
   "OP139_VERDICT at_phdr_missing=" +:+ fmt_bool (phdr_missing t) +:+
     (if phdr_missing t
      then " (dl_init_phdr_info would SIGSEGV — matches op-138 backtrace)" else "");
   "OP139_TERMINAL status=0"].

Definition report_vector (auxp_global auxp_envwalk : Z) : run Z :=
  _ ← (if auxp_global =? auxp_envwalk then mret tt else
         printf ("OP139_AUXV_VECTOR status=GLOBAL_ENVWALK_MISMATCH global=" +:+
                 fmt_p auxp_global +:+ " envwalk=" +:+ fmt_p auxp_envwalk));
  _ ← printf ("OP139_AUXV_VECTOR status=OK using=global global==envwalk=" +:+
              fmt_bool (auxp_global =? auxp_envwalk));
  _ ← printf "OP139_AUXV_ENTRIES";
  '(count, t) ← walk 65 auxp_global 0 no_tally;
  mk_run (summary count t) (Value 0).

Definition main (fuel : nat) : run Z :=
  _ ← printf "OP139_AUXV_START";
  let auxp_global := elf_aux_vector in
  _ ← printf ("OP139_AUXV_GLOBAL global_addr=" +:+ fmt_p elf_aux_vector_addr +:+
              " deref_value=" +:+ fmt_p auxp_global);
  auxp_envwalk ← (
    if environ =? 0 then
      _ ← printf "OP139_AUXV_ENVWALK addr=NULL reason=environ_NULL"; mret 0
    else
      '(sp, envc) ← env_walk fuel environ 0;
      _ ← printf ("OP139_AUXV_ENVWALK addr=" +:+ fmt_p (sp + 8) +:+ " environ=" +:+
                  fmt_p environ +:+ " envc=" +:+ fmt_int envc);
      mret (sp + 8));
  if (auxp_global =? 0) && (auxp_envwalk =? 0) then
    mk_run ["OP139_AUXV_VECTOR status=NULL_both_paths";
            "OP139_VERDICT auxv_null=1 at_phdr_missing=1 (dl_init_phdr_info would SIGSEGV at first iteration)";
            "OP139_TERMINAL status=0"] (Value 0)
  else if (auxp_global =? 0) && negb (auxp_envwalk =? 0) then
    mk_run ["OP139_AUXV_VECTOR status=GLOBAL_NULL_ENVWALK_OK global_broken=1";
            "OP139_VERDICT auxv_null=1 at_phdr_missing=1 (global NULL — root cause CONFIRMED)";
            "OP139_TERMINAL status=0"] (Value 0)
  else report_vector auxp_global auxp_envwalk.
End auxv.

(** ** What it should report *)

Section specification.
Context `{ElfSdk} `{Image}.

(** [p] points to the words [envs] and a terminator. *)
Fixpoint env_block (p : Z) (envs : list Z) : Prop :=
  match envs with
  | [] => word p = Some 0
  | w :: envs => word p = Some w ∧ w ≠ 0 ∧ env_block (p + 8) envs
  end.

(** The entries from [p] on, types and words, up to [AT_NULL] but not more than [n]. *)
Fixpoint first_entries (n : nat) (p : Z) (l : list (Z * Z)) : Prop :=
  match n, l with
  | O, _ => l = []
  | S _, [] => s32 <$> word p = Some AT_NULL
  | S n, (a_type, v) :: l =>
      s32 <$> word p = Some a_type ∧ a_type ≠ AT_NULL ∧ word (p + 8) = Some v ∧
      first_entries n (p + 16) l
  end.

(** The last entry of a type. *)
Definition last_of (a_type : Z) (l : list (Z * Z)) : option Z :=
  snd <$> last (filter (λ e, e.1 = a_type) l).
Definition is_found (v : option Z) : bool := bool_decide (is_Some v).

Definition tally_of (l : list (Z * Z)) : tally :=
  let value ty f := default 0 (f <$> last_of ty l) in
  mk_tally (is_found (last_of AT_PHDR l)) (value AT_PHDR id)
    (is_found (last_of AT_PHNUM l)) (value AT_PHNUM s64)
    (is_found (last_of AT_ENTRY l)) (value AT_ENTRY id)
    (is_found (last_of AT_BASE l)) (value AT_BASE id)
    (is_found (last_of AT_EXECFD l)) (value AT_EXECFD s32).

Fixpoint entry_lines (count : Z) (l : list (Z * Z)) : list string :=
  match l with
  | [] => []
  | (a_type, v) :: l => entry_line count a_type v :: entry_lines (count + 1) l
  end.

Definition vector_lines (auxp_global auxp_envwalk : Z) (l : list (Z * Z)) : list string :=
  (if auxp_global =? auxp_envwalk then [] else
     ["OP139_AUXV_VECTOR status=GLOBAL_ENVWALK_MISMATCH global=" +:+
      fmt_p auxp_global +:+ " envwalk=" +:+ fmt_p auxp_envwalk]) ++
  ["OP139_AUXV_VECTOR status=OK using=global global==envwalk=" +:+
   fmt_bool (auxp_global =? auxp_envwalk); "OP139_AUXV_ENTRIES"] ++
  entry_lines 0 l ++ (if (65 <=? length l)%nat then [truncated_line] else []) ++
  summary (Z.of_nat (length l)) (tally_of l).

(** The [case]s of a [switch] are distinct. *)
Class ElfCases : Prop := cases_distinct : NoDup (map fst at_names).

Lemma last_of_app ty l e :
  last_of ty (l ++ [e]) = if decide (e.1 = ty) then Some e.2 else last_of ty l.
Proof.
  unfold last_of. rewrite filter_app, filter_cons, filter_nil. case_decide.
  - by rewrite last_snoc.
  - by rewrite app_nil_r.
Qed.

Lemma switch_distinct `{!ElfCases} :
  AT_PHDR ≠ AT_PHNUM ∧ AT_PHDR ≠ AT_ENTRY ∧ AT_PHDR ≠ AT_BASE ∧ AT_PHDR ≠ AT_EXECFD ∧
  AT_PHNUM ≠ AT_ENTRY ∧ AT_PHNUM ≠ AT_BASE ∧ AT_PHNUM ≠ AT_EXECFD ∧
  AT_ENTRY ≠ AT_BASE ∧ AT_ENTRY ≠ AT_EXECFD ∧ AT_BASE ≠ AT_EXECFD.
Proof.
  pose proof cases_distinct as Hd.
  assert (∀ i j, (i < j < 39)%nat → map fst at_names !! i ≠ map fst at_names !! j) as Hij.
  { intros i j Hlt E. destruct (lookup_lt_is_Some_2 (map fst at_names) j) as [x Hx]; [simpl; lia|].
    rewrite Hx in E. pose proof (NoDup_lookup _ i j x Hd E Hx). lia. }
  repeat split; intros E; [apply (Hij 3%nat 5%nat)|apply (Hij 3%nat 9%nat)|apply (Hij 3%nat 7%nat)
    |apply (Hij 2%nat 3%nat)|apply (Hij 5%nat 9%nat)|apply (Hij 5%nat 7%nat)|apply (Hij 2%nat 5%nat)
    |apply (Hij 7%nat 9%nat)|apply (Hij 2%nat 9%nat)|apply (Hij 2%nat 7%nat)];
    first [lia|simpl; congruence].
Qed.

Lemma note_all `{!ElfCases} l :
  foldl (λ t e, note_entry e.1 e.2 t) no_tally l = tally_of l.
Proof.
  pose proof switch_distinct as Hd. induction l as [|[ty v] l IH] using rev_ind; [done|].
  rewrite foldl_app. simpl. rewrite IH. unfold tally_of. rewrite !last_of_app. simpl.
  unfold note_entry. destruct Hd as (N1 & N2 & N3 & N4 & N5 & N6 & N7 & N8 & N9 & N10).
  destruct (Z.eqb_spec ty AT_PHDR) as [->|P1]; [by rewrite decide_True, !decide_False by done|].
  destruct (Z.eqb_spec ty AT_PHNUM) as [->|P2];
    [by rewrite (decide_True (P := AT_PHNUM = AT_PHNUM)), !decide_False by done|].
  destruct (Z.eqb_spec ty AT_ENTRY) as [->|P3];
    [by rewrite (decide_True (P := AT_ENTRY = AT_ENTRY)), !decide_False by done|].
  destruct (Z.eqb_spec ty AT_BASE) as [->|P4];
    [by rewrite (decide_True (P := AT_BASE = AT_BASE)), !decide_False by done|].
  destruct (Z.eqb_spec ty AT_EXECFD) as [->|P5];
    [by rewrite (decide_True (P := AT_EXECFD = AT_EXECFD)), !decide_False by done|].
  by rewrite !decide_False by done.
Qed.

Lemma walk_entries n p count t l :
  (0 < n)%nat → count + Z.of_nat n = 65 → first_entries n p l →
  walk n p count t =
    mk_run (entry_lines count l ++ (if (n <=? length l)%nat then [truncated_line] else []))
      (Value (count + Z.of_nat (length l), foldl (λ t e, note_entry e.1 e.2 t) t l)).
Proof.
  revert p count t l. induction n as [|n IH]; [lia|]. intros p count t l _ Hc Hl.
  destruct l as [|[ty v] l]; cbn [walk first_entries] in *; unfold load_i32, load.
  - destruct (word p) as [w|]; [|done]. injection Hl as E.
    unfold mbind, run_bind, mret, run_ret. simpl. rewrite E, Z.eqb_refl. simpl.
    repeat f_equal. lia.
  - destruct Hl as (Hty & Hn & Hv & Hl). destruct (word p) as [w|]; [|done]. injection Hty as E.
    unfold mbind, run_bind, mret, run_ret, printf. simpl. rewrite E, (proj2 (Z.eqb_neq _ _) Hn), Hv.
    simpl. destruct n as [|n].
    + simpl in Hl. subst l. replace (64 <? count + 1) with true by lia. simpl. repeat f_equal; lia.
    + replace (64 <? count + 1) with false by lia. rewrite (IH (p + 16) (count + 1) _ l) by (done || lia).
      cbn [length]. replace (count + Z.of_nat (S (length l))) with (count + 1 + Z.of_nat (length l)) by lia.
      done.
Qed.

Lemma env_walk_block fuel sp envc envs :
  env_block sp envs → (length envs < fuel)%nat →
  env_walk fuel sp envc =
    mk_run [] (Value (sp + 8 * Z.of_nat (length envs), envc + Z.of_nat (length envs))).
Proof.
  revert sp envc envs. induction fuel as [|fuel IH]; [intros; lia|]. intros sp envc envs He Hf.
  cbn [env_walk]. unfold load, mbind, run_bind, mret, run_ret.
  destruct envs as [|w envs]; simpl in He, Hf |- *.
  - rewrite He. simpl. repeat f_equal; lia.
  - destruct He as (Hw & Hn & He). rewrite Hw. cbn [printed ended app]. rewrite (proj2 (Z.eqb_neq _ _) Hn).
    rewrite (IH _ _ envs) by (done || lia). cbn [printed ended app length].
    do 3 f_equal; lia.
Qed.

Lemma walk_reads n p count t :
  (0 < n)%nat → count + Z.of_nat n = 65 →
  (∃ r, ended (walk n p count t) = Value r) ∨
  ended (walk n p count t) = Fault ∧ ∃ i, (i < n)%nat ∧
    (word (p + 16 * Z.of_nat i) = None ∨ word (p + 16 * Z.of_nat i + 8) = None).
Proof.
  revert p count t. induction n as [|n IH]; [lia|]. intros p count t _ Hc.
  cbn [walk]. unfold load_i32, load, mbind, run_bind, mret, run_ret, printf.
  destruct (word p) as [w|] eqn:E; simpl.
  2: { right. split; [done|]. exists 0%nat. split; [lia|]. left. by rewrite Z.add_0_r. }
  destruct (s32 w =? AT_NULL); [left; by eexists|].
  destruct (word (p + 8)) as [v|] eqn:E8; simpl.
  2: { right. split; [done|]. exists 0%nat. split; [lia|]. right. by rewrite Z.add_0_r. }
  destruct (Z.ltb_spec 64 (count + 1)); [left; by eexists|].
  destruct (IH (p + 16) (count + 1) (note_entry (s32 w) v t)) as [[r Hr]|[Hr (i & Hi & Hw)]]; [lia..| |];
    rewrite Hr; simpl; [left; by eexists|]. right. split; [done|].
  exists (S i). split; [lia|].
  by replace (p + 16 * Z.of_nat (S i)) with (p + 16 + 16 * Z.of_nat i) by lia.
Qed.

(** Where the walk over the environment ends up, and what is printed until then. *)
Definition envwalk_of (envs : list Z) : Z :=
  if environ =? 0 then 0 else environ + 8 * Z.of_nat (length envs) + 8.
Definition preface (envs : list Z) : list string :=
  ["OP139_AUXV_START";
   "OP139_AUXV_GLOBAL global_addr=" +:+ fmt_p elf_aux_vector_addr +:+ " deref_value=" +:+
     fmt_p elf_aux_vector;
   if environ =? 0 then "OP139_AUXV_ENVWALK addr=NULL reason=environ_NULL"
   else "OP139_AUXV_ENVWALK addr=" +:+ fmt_p (envwalk_of envs) +:+ " environ=" +:+
     fmt_p environ +:+ " envc=" +:+ fmt_int (Z.of_nat (length envs))].

Definition null_lines (auxp_envwalk : Z) : list string :=
  (if auxp_envwalk =? 0 then
     ["OP139_AUXV_VECTOR status=NULL_both_paths";
      "OP139_VERDICT auxv_null=1 at_phdr_missing=1 (dl_init_phdr_info would SIGSEGV at first iteration)"]
   else
     ["OP139_AUXV_VECTOR status=GLOBAL_NULL_ENVWALK_OK global_broken=1";
      "OP139_VERDICT auxv_null=1 at_phdr_missing=1 (global NULL — root cause CONFIRMED)"]) ++
  ["OP139_TERMINAL status=0"].

Lemma main_preface fuel envs :
  environ = 0 ∨ env_block environ envs ∧ (length envs < fuel)%nat →
  let p := if elf_aux_vector =? 0 then mk_run (null_lines (envwalk_of envs)) (Value 0)
           else report_vector elf_aux_vector (envwalk_of envs) in
  main fuel = mk_run (preface envs ++ printed p) (ended p).
Proof.
  intros He. unfold main, preface, null_lines, envwalk_of.
  unfold mbind, run_bind, mret, run_ret, printf. cbn [printed ended].
  destruct (Z.eqb_spec environ 0) as [E|E]; cbn [printed ended app].
  - destruct (elf_aux_vector =? 0); [done|]. simpl. by destruct (ended (report_vector _ _)).
  - destruct He as [?|[He Hf]]; [done|]. rewrite (env_walk_block _ _ _ envs) by done.
    cbn [printed ended app]. rewrite !Z.add_0_l.
    destruct (elf_aux_vector =? 0), (environ + 8 * Z.of_nat (length envs) + 8 =? 0); done.
Qed.

(** C24: if the environment is terminated (and the fuel suffices for it), the probe says
    how its two pointers compare and, if the global is not [NULL], prints the entries up to
    [AT_NULL] but at most 65, and for five types whether and with what value they occur,
    where the last occurrence counts; the verdict is that [AT_PHDR] is missing or [NULL].
    Whatever the memory holds the walk ends with status 0, or at a word of one of the first
    65 entries that cannot be read. *)
Theorem auxv_reports `{!ElfCases} (fuel : nat) (envs : list Z) :
  environ = 0 ∨ env_block environ envs ∧ (length envs < fuel)%nat →
  (elf_aux_vector = 0 →
   main fuel = mk_run (preface envs ++ null_lines (envwalk_of envs)) (Value 0)) ∧
  (elf_aux_vector ≠ 0 → ∀ l, first_entries 65 elf_aux_vector l →
   main fuel = mk_run (preface envs ++ vector_lines elf_aux_vector (envwalk_of envs) l) (Value 0)) ∧
  (ended (main fuel) = Value 0 ∨ ended (main fuel) = Fault ∧ ∃ i, (i < 65)%nat ∧
     (word (elf_aux_vector + 16 * Z.of_nat i) = None ∨
      word (elf_aux_vector + 16 * Z.of_nat i + 8) = None)).
Proof.
  intros He. rewrite (main_preface _ _ He). cbn zeta. split; [by intros ->|]. split.
  - intros Hn%Z.eqb_neq l Hl. rewrite Hn. unfold report_vector, vector_lines.
    rewrite (walk_entries 65 _ 0 _ l) by (done || lia). rewrite note_all, Z.add_0_l.
    unfold mbind, run_bind, mret, run_ret, printf.
    destruct (elf_aux_vector =? envwalk_of envs); cbn [printed ended app];
      by rewrite <- !(assoc_L (++)).
  - destruct (elf_aux_vector =? 0); [by left|]. cbn [ended]. unfold report_vector.
    destruct (walk_reads 65 elf_aux_vector 0 no_tally) as [[[count t] Hr]|[Hr Hi]]; [lia..| |];
      unfold mbind, run_bind, mret, run_ret, printf;
      destruct (elf_aux_vector =? envwalk_of envs); cbn [printed ended app]; rewrite Hr; auto.
Qed.
End specification.

(** A process with two variables in its environment. *)
Section witness.
#[local] Instance elf_sdk0 : ElfSdk := {|
  AT_NULL := 0; AT_IGNORE := 1; AT_EXECFD := 2; AT_PHDR := 3; AT_PHENT := 4; AT_PHNUM := 5;
  AT_PAGESZ := 6; AT_BASE := 7; AT_FLAGS := 8; AT_ENTRY := 9; AT_NOTELF := 10; AT_UID := 11;
  AT_EUID := 12; AT_GID := 13; AT_EGID := 14; AT_EXECPATH := 15; AT_CANARY := 16;
  AT_CANARYLEN := 17; AT_OSRELDATE := 18; AT_NCPUS := 19; AT_PAGESIZES := 20;
  AT_PAGESIZESLEN := 21; AT_TIMEKEEP := 22; AT_STACKPROT := 23; AT_EHDRFLAGS := 24;
  AT_HWCAP := 25; AT_HWCAP2 := 26; AT_BSDFLAGS := 27; AT_ARGC := 28; AT_ARGV := 29;
  AT_ENVC := 30; AT_ENVV := 31; AT_PS_STRINGS := 32; AT_FXRNG := 33; AT_KPRELOAD := 34;
  AT_USRSTACKBASE := 35; AT_USRSTACKLIM := 36; AT_HWCAP3 := 37; AT_HWCAP4 := 38 |}.
#[local] Instance elf_cases0 : ElfCases.
Proof. unfold ElfCases. apply (bool_decide_unpack _). by vm_compute. Qed.

(** environ at 4096: two words, the terminator, then the vector: AT_PHDR, AT_PHNUM. *)
Definition words0 : list Z := [9000; 9008; 0; 3; 2101312; 5; 11; 0; 0].
#[local] Instance image0 : Image := {|
  word a := if (4096 <=? a) && ((a - 4096) `mod` 8 =? 0)
            then words0 !! Z.to_nat ((a - 4096) / 8) else None;
  elf_aux_vector_addr := 8192; elf_aux_vector := 4120; environ := 4096;
  fmt_p p := "0x" +:+ fmt_lx p |}.

Lemma auxv_reports_witness :
  env_block environ [9000; 9008] ∧ first_entries 65 elf_aux_vector [(3, 2101312); (5, 11)] ∧
  ended (main 10) = Value 0 ∧
  "OP139_VERDICT at_phdr_missing=0" ∈ printed (main 10).
Proof.
  assert (env_block environ [9000; 9008]) as He by (vm_compute; by repeat split).
  assert (first_entries 65 elf_aux_vector [(3, 2101312); (5, 11)]) as Hl
    by (vm_compute; by repeat split).
  assert (length [9000; 9008] < 10)%nat as Hf by (apply (bool_decide_unpack _); by vm_compute).
  split; [exact He|]. split; [exact Hl|].
  destruct (auxv_reports 10 [9000; 9008] (or_intror (conj He Hf))) as (_ & Hm & _).
  rewrite (Hm ltac:(done) _ Hl). split; [done|].
  apply (bool_decide_unpack _). by vm_compute.
Defined.
End witness.
End AuxvProbe.
